(** * nfu: the duration parser and the trace-file aggregator of nfu.go

    A shallow embedding of [ParseDuration] and [calculateTotalDuration]
    (src/nfu.go) together with the parts of the Go standard library they
    call: [time.ParseDuration], [strings.Fields], [strings.Split],
    [strings.ToLower], [strconv.ParseFloat], the regular expression
    of the fallback path, [bufio.Scanner] with its default line
    splitter, and IEEE-754 binary64 arithmetic.  It is followed by
    [testDurationParsing] and [main] with the methods of
    [time.Duration] they print with and the command line read by
    [flag.Parse], and by the previous version of [ParseDuration]
    (src/unnamed/part_001).

    Go strings are byte sequences: they are modelled by [string], whose
    characters are the 256 byte values.  [time.Duration] is an [int64]
    counting nanoseconds: it is modelled by [Z] with the wrap-around
    written out. *)

From Stdlib Require Import ZArith List String Ascii Bool Lia Permutation.
From Stdlib Require Import Floats.SpecFloat.
Import ListNotations.

Local Open Scope string_scope.
Local Open Scope Z_scope.

(* ================================================================= *)
(** ** Bytes and character classes *)

(** The numeric value of a byte. *)
Definition byte (c : ascii) : Z := Z.of_N (N_of_ascii c).

Definition in_range (lo hi : Z) (c : ascii) : bool :=
  (lo <=? byte c) && (byte c <=? hi).

(** ['0' <= c && c <= '9'] *)
Definition is_digit (c : ascii) : bool := in_range 48 57 c.

Definition is_dot (c : ascii) : bool := byte c =? 46.

(** The class [[\d\.]] of the regular expression. *)
Definition is_numch (c : ascii) : bool := is_digit c || is_dot c.

Definition is_upper (c : ascii) : bool := in_range 65 90 c.
Definition is_lower (c : ascii) : bool := in_range 97 122 c.

(** The class [[a-zA-Z]] of the regular expression. *)
Definition is_letter (c : ascii) : bool := is_lower c || is_upper c.

(** The class [\s] of Go's regexp syntax: [[\t\n\f\r ]]. *)
Definition is_re_space (c : ascii) : bool :=
  let b := byte c in
  (b =? 9) || (b =? 10) || (b =? 12) || (b =? 13) || (b =? 32).

Definition digit_val (c : ascii) : Z := byte c - 48.

(** Every character of [s] satisfies [p]. *)
Fixpoint all_chars (p : ascii -> bool) (s : string) : bool :=
  match s with
  | EmptyString => true
  | String c s' => p c && all_chars p s'
  end.

(** The longest prefix of [s] whose characters satisfy [p], and the rest. *)
Fixpoint span (p : ascii -> bool) (s : string) : string * string :=
  match s with
  | EmptyString => (EmptyString, EmptyString)
  | String c s' =>
      if p c then let (a, b) := span p s' in (String c a, b)
      else (EmptyString, s)
  end.

Definition slen (s : string) : Z := Z.of_nat (String.length s).

(* ================================================================= *)
(** ** Machine integers *)

Definition two63 : Z := 9223372036854775808.
Definition two64 : Z := 18446744073709551616.

Definition MinInt64 : Z := - two63.
Definition MaxInt64 : Z := two63 - 1.

(** The value of an [int64] computation: the two's complement wrap. *)
Definition wrap64 (z : Z) : Z := (z + two63) mod two64 - two63.

(** [a + b] on [time.Duration]. *)
Definition add64 (a b : Z) : Z := wrap64 (a + b).

(** The value of a [uint64] computation. *)
Definition wrapu64 (z : Z) : Z := z mod two64.

(** The units of package time, in nanoseconds. *)
Definition Nanosecond : Z := 1.
Definition Microsecond : Z := 1000 * Nanosecond.
Definition Millisecond : Z := 1000 * Microsecond.
Definition Second : Z := 1000 * Millisecond.
Definition Minute : Z := 60 * Second.
Definition Hour : Z := 60 * Minute.

(* ================================================================= *)
(** ** float64

    IEEE-754 binary64 with round-to-nearest-even, as specified by the
    standard library's [SpecFloat] at precision 53 and maximal exponent
    1024. *)

Definition float64 : Type := spec_float.

Definition prec : Z := 53.
Definition emax : Z := 1024.

Definition f64_mul (x y : float64) : float64 := SFmul prec emax x y.
Definition f64_div (x y : float64) : float64 := SFdiv prec emax x y.

(** [float64(z)] for an integer [z]: the nearest binary64. *)
Definition f64_of_Z (z : Z) : float64 := binary_normalize prec emax z 0 false.

(** The binary64 nearest to the rational [num / den], for [0 <= num] and
    [0 < den]: the quotient is computed with enough bits and its
    remainder gives the rounding direction. *)
Definition f64_of_ratio (num den : Z) : float64 :=
  match num with
  | Z0 => S754_zero false
  | _ =>
      let '(q, e, l) := SFdiv_core_binary prec emax num 0 den 0 in
      binary_round_aux prec emax false q e l
  end.

(** The integer part of a float (the fraction is discarded); [None] for
    an infinity or a NaN. *)
Definition f64_trunc (x : float64) : option Z :=
  match x with
  | S754_zero _ => Some 0
  | S754_finite s m e =>
      let a := match e with
               | Zneg p => Z.shiftr (Zpos m) (Zpos p)
               | _ => Z.shiftl (Zpos m) e
               end in
      Some (if s then - a else a)
  | _ => None
  end.

(** [int64(x)] / [time.Duration(x)] of a [float64]: truncation toward
    zero.  When the truncated value is not an [int64] the Go
    specification leaves the result to the implementation; the value
    below is the one the amd64 code generator yields
    ([0x8000000000000000]). *)
Definition int64_of_f64 (x : float64) : Z :=
  match f64_trunc x with
  | Some z => if (MinInt64 <=? z) && (z <=? MaxInt64) then z else MinInt64
  | None => MinInt64
  end.

(** [uint64(x)] of a [float64]; outside [0 .. 2^64-1] the amd64 value. *)
Definition uint64_of_f64 (x : float64) : Z :=
  match f64_trunc x with
  | Some z => if (0 <=? z) && (z <? two64) then z else two63
  | None => two63
  end.

(* ================================================================= *)
(** ** Package time: [ParseDuration]

    The standard parser the program tries first: an optional sign, then
    one or more groups, each a decimal number with an optional fraction
    followed by a unit; the string "0" (signed or not) is zero. *)

Inductive time_error : Type :=
| InvalidDuration                  (* "time: invalid duration ..." *)
| MissingUnit                      (* "time: missing unit in duration ..." *)
| UnknownUnit (u : string).        (* "time: unknown unit ... in duration ..." *)

(** [leadingInt]: consumes the leading digits of [s]; [None] is
    [errLeadingInt] (the value would exceed [1<<63]). *)
Fixpoint leadingInt_from (x : Z) (s : string) : option (Z * string) :=
  match s with
  | String c s' =>
      if is_digit c then
        if x >? two63 / 10 then None
        else
          let x' := x * 10 + digit_val c in
          if x' >? two63 then None else leadingInt_from x' s'
      else Some (x, s)
  | EmptyString => Some (x, s)
  end.

Definition leadingInt (s : string) : option (Z * string) := leadingInt_from 0 s.

(** [leadingFraction]: consumes the leading digits of [s]; on overflow
    it stops accumulating precision but keeps consuming digits.  [scale]
    is a [float64] multiplied by ten for every accumulated digit. *)
Fixpoint leadingFraction_from (x : Z) (scale : float64) (overflow : bool)
    (s : string) : Z * float64 * string :=
  match s with
  | String c s' =>
      if is_digit c then
        if overflow then leadingFraction_from x scale true s'
        else if x >? (two63 - 1) / 10 then leadingFraction_from x scale true s'
        else
          let y := x * 10 + digit_val c in
          if y >? two63 then leadingFraction_from x scale true s'
          else leadingFraction_from y (f64_mul scale (f64_of_Z 10)) false s'
      else (x, scale, s)
  | EmptyString => (x, scale, s)
  end.

Definition leadingFraction (s : string) : Z * float64 * string :=
  leadingFraction_from 0 (f64_of_Z 1) false s.

(** The map [unitMap] of package time. The micro sign is U+00B5 (bytes
    C2 B5) and the Greek letter mu is U+03BC (bytes CE BC). *)
Definition micro_s : string :=
  String (ascii_of_nat 194) (String (ascii_of_nat 181) "s").
Definition mu_s : string :=
  String (ascii_of_nat 206) (String (ascii_of_nat 188) "s").

Definition unitMap (u : string) : option Z :=
  if String.eqb u "ns" then Some Nanosecond
  else if String.eqb u "us" then Some Microsecond
  else if String.eqb u micro_s then Some Microsecond
  else if String.eqb u mu_s then Some Microsecond
  else if String.eqb u "ms" then Some Millisecond
  else if String.eqb u "s" then Some Second
  else if String.eqb u "m" then Some Minute
  else if String.eqb u "h" then Some Hour
  else None.

(** The unit of a group: every byte up to the next ['.'] or digit. *)
Definition span_unit (s : string) : string * string :=
  span (fun c => negb (is_numch c)) s.

(** The optional fraction of a group (a dot and digits): the digits
    [f], their [scale], the rest of the input and whether a digit was
    consumed ([post]). *)
Definition fraction_part (s : string) : Z * float64 * string * bool :=
  match s with
  | String c t =>
      if is_dot c then
        let '(f, scale, r) := leadingFraction t in
        (f, scale, r, negb (Nat.eqb (String.length t) (String.length r)))
      else (0, f64_of_Z 1, s, false)
  | EmptyString => (0, f64_of_Z 1, s, false)
  end.

(** The value of one group, [v] whole units and the fraction [f/scale]
    of a unit, in nanoseconds ([uint64] arithmetic); [None] on overflow. *)
Definition group_value (v f : Z) (scale : float64) (unit : Z) : option Z :=
  if v >? two63 / unit then None
  else
    let v1 := wrapu64 (v * unit) in
    if f >? 0 then
      let v2 :=
        wrapu64 (v1 + uint64_of_f64
                        (f64_mul (f64_of_Z f) (f64_div (f64_of_Z unit) scale))) in
      if v2 >? two63 then None else Some v2
    else Some v1.

(** The loop [for s != ""] of [time.ParseDuration], [d] being the sum of
    the groups read so far.  Every turn consumes at least the unit's
    first byte, so [fuel] greater than the length of [s] is never
    exhausted. *)
Fixpoint parse_groups (fuel : nat) (s : string) (d : Z) : Z + time_error :=
  match fuel with
  | O => inr InvalidDuration
  | S fuel' =>
      match s with
      | EmptyString => inl d
      | String c _ =>
          if negb (is_numch c) then inr InvalidDuration
          else
            match leadingInt s with
            | None => inr InvalidDuration
            | Some (v, s1) =>
                let pre := negb (Nat.eqb (String.length s) (String.length s1)) in
                let '(f, scale, s2, post) := fraction_part s1 in
                if negb pre && negb post then inr InvalidDuration
                else
                  let (u, s3) := span_unit s2 in
                  match u with
                  | EmptyString => inr MissingUnit
                  | _ =>
                      match unitMap u with
                      | None => inr (UnknownUnit u)
                      | Some unit =>
                          match group_value v f scale unit with
                          | None => inr InvalidDuration
                          | Some v' =>
                              let d' := wrapu64 (d + v') in
                              if d' >? two63 then inr InvalidDuration
                              else parse_groups fuel' s3 d'
                          end
                      end
                  end
            end
      end
  end.

(** The optional sign. *)
Definition strip_sign (s : string) : bool * string :=
  match s with
  | String c t =>
      if byte c =? 45 then (true, t)
      else if byte c =? 43 then (false, t)
      else (false, s)
  | EmptyString => (false, s)
  end.

(** [time.ParseDuration]: the pair [(Duration, error)] it returns. *)
Definition time_ParseDuration (s : string) : Z * option time_error :=
  let (neg, s1) := strip_sign s in
  if String.eqb s1 "0" then (0, None)
  else if String.eqb s1 "" then (0, Some InvalidDuration)
  else
    match parse_groups (S (String.length s1)) s1 0 with
    | inr e => (0, Some e)
    | inl d =>
        if neg then (wrap64 (- wrap64 d), None)
        else if d >? two63 - 1 then (0, Some InvalidDuration)
        else (d, None)
    end.

(* ================================================================= *)
(** ** Packages unicode/utf8 and unicode *)

Definition RuneError : Z := 65533.       (* U+FFFD *)

(** The table [first] of package utf8 for a leading byte of a multi-byte
    sequence: the length of the sequence and the range accepted for its
    second byte.  [None] for the bytes 80..C1 and F5..FF, which start no
    sequence. *)
Definition utf8_first (b : Z) : option (nat * (Z * Z)) :=
  if b <? 194 then None
  else if b <? 224 then Some (2%nat, (128, 191))      (* C2..DF *)
  else if b =? 224 then Some (3%nat, (160, 191))      (* E0 *)
  else if b <? 237 then Some (3%nat, (128, 191))      (* E1..EC *)
  else if b =? 237 then Some (3%nat, (128, 159))      (* ED *)
  else if b <? 240 then Some (3%nat, (128, 191))      (* EE..EF *)
  else if b =? 240 then Some (4%nat, (144, 191))      (* F0 *)
  else if b <? 244 then Some (4%nat, (128, 191))      (* F1..F3 *)
  else if b =? 244 then Some (4%nat, (128, 143))      (* F4 *)
  else None.

(** A continuation byte, 80..BF. *)
Definition is_cont (c : ascii) : bool := in_range 128 191 c.

Definition cont_bits (c : ascii) : Z := Z.land (byte c) 63.

(** [utf8.DecodeRuneInString]: the first rune of [s] and its width in
    bytes; an invalid sequence is [RuneError] of width 1, and so is a
    sequence cut short by the end of the string (the test [n < sz] of
    the library: the branches [EmptyString] below).  A [for range] loop
    over a string steps through it the same way. *)
Definition DecodeRuneInString (s : string) : Z * nat :=
  match s with
  | EmptyString => (RuneError, 0%nat)
  | String c0 t0 =>
      let b0 := byte c0 in
      if b0 <? 128 then (b0, 1%nat)
      else
        match utf8_first b0 with
        | None => (RuneError, 1%nat)
        | Some (sz, (lo, hi)) =>
            match t0 with
            | EmptyString => (RuneError, 1%nat)
            | String c1 t1 =>
                if (byte c1 <? lo) || (hi <? byte c1) then (RuneError, 1%nat)
                else if (sz <=? 2)%nat then
                  (Z.lor (Z.shiftl (Z.land b0 31) 6) (cont_bits c1), 2%nat)
                else
                  match t1 with
                  | EmptyString => (RuneError, 1%nat)
                  | String c2 t2 =>
                      if negb (is_cont c2) then (RuneError, 1%nat)
                      else if (sz <=? 3)%nat then
                        (Z.lor (Z.shiftl (Z.land b0 15) 12)
                           (Z.lor (Z.shiftl (cont_bits c1) 6) (cont_bits c2)),
                         3%nat)
                      else
                        match t2 with
                        | EmptyString => (RuneError, 1%nat)
                        | String c3 _ =>
                            if negb (is_cont c3) then (RuneError, 1%nat)
                            else
                              (Z.lor (Z.shiftl (Z.land b0 7) 18)
                                 (Z.lor (Z.shiftl (cont_bits c1) 12)
                                    (Z.lor (Z.shiftl (cont_bits c2) 6)
                                       (cont_bits c3))),
                               4%nat)
                        end
                  end
            end
        end
  end.

(** [unicode.IsSpace]: the Latin-1 spaces and the rest of the
    White_Space property. *)
Definition IsSpace (r : Z) : bool :=
  if r <=? 255 then
    ((9 <=? r) && (r <=? 13)) || (r =? 32) || (r =? 133) || (r =? 160)
  else
    (r =? 5760)                                  (* U+1680 *)
    || ((8192 <=? r) && (r <=? 8202))            (* U+2000..U+200A *)
    || (r =? 8232) || (r =? 8233)                (* U+2028, U+2029 *)
    || (r =? 8239) || (r =? 8287)                (* U+202F, U+205F *)
    || (r =? 12288).                             (* U+3000 *)

(* ================================================================= *)
(** ** Package strings *)

(** For every byte of [s], whether the rune it belongs to is a space.
    [skip] counts the bytes still to come of the rune being stepped over
    and [sp] is that rune's class. *)
Fixpoint space_flags (s : string) (skip : nat) (sp : bool) : list bool :=
  match s with
  | EmptyString => []
  | String _ s' =>
      match skip with
      | S k => sp :: space_flags s' k sp
      | O =>
          let (r, w) := DecodeRuneInString s in
          let sp' := IsSpace r in
          sp' :: space_flags s' (Nat.pred w) sp'
      end
  end.

(** The maximal runs of bytes of [s] flagged [false]. *)
Fixpoint runs (s : string) (fl : list bool) : list string :=
  match s, fl with
  | String c s', false :: fl' =>
      match fl' with
      | false :: _ =>
          match runs s' fl' with
          | w :: ws => String c w :: ws
          | [] => [String c EmptyString]
          end
      | _ => String c EmptyString :: runs s' fl'
      end
  | String _ s', true :: fl' => runs s' fl'
  | _, _ => []
  end.

(** [strings.Fields]: [s] split around each run of white space runes;
    the fields are the maximal runs of non-space runes.  (On an ASCII
    string the library takes a byte-wise path with the same result.) *)
Definition strings_Fields (s : string) : list string :=
  runs s (space_flags s 0 false).

Definition lower_byte (c : ascii) : ascii :=
  if is_upper c then ascii_of_N (N_of_ascii c + 32) else c.

(** [strings.ToLower] on a string of ASCII bytes, which is what the
    second group of the regular expression always is: ['A'..'Z'] become
    ['a'..'z']. *)
Fixpoint strings_ToLower (s : string) : string :=
  match s with
  | EmptyString => EmptyString
  | String c s' => String (lower_byte c) (strings_ToLower s')
  end.

(** [strings.Split(s, sep)] for a one-byte separator: the substrings
    between the separators, at least one. *)
Fixpoint strings_Split (s : string) (sep : ascii) : list string :=
  match s with
  | EmptyString => [EmptyString]
  | String c s' =>
      if Ascii.eqb c sep then EmptyString :: strings_Split s' sep
      else
        match strings_Split s' sep with
        | h :: t => String c h :: t
        | [] => [String c EmptyString]
        end
  end.

Definition tab : ascii := ascii_of_nat 9.
Definition newline : ascii := ascii_of_nat 10.
Definition carriage_return : ascii := ascii_of_nat 13.

(* ================================================================= *)
(** ** Package strconv: [ParseFloat] *)

Inductive NumError : Type :=
| ErrSyntax        (* "invalid syntax" *)
| ErrRange.        (* "value out of range" *)

(** The digits of a decimal literal made of digits and dots: the integer
    [mant] spelled by all its digits and the number [frac] of digits
    after the dot.  [None] when a second dot or any other byte occurs. *)
Fixpoint read_decimal (s : string) (sawdot sawdigits : bool) (mant : Z)
    (frac : nat) : option (Z * nat) :=
  match s with
  | EmptyString => if sawdigits then Some (mant, frac) else None
  | String c s' =>
      if is_dot c then
        if sawdot then None else read_decimal s' true sawdigits mant frac
      else if is_digit c then
        read_decimal s' sawdot true (mant * 10 + digit_val c)
          (if sawdot then S frac else frac)
      else None
  end.

(** [strconv.ParseFloat(s, 64)] for an argument made of digits and dots,
    which is what the first group of the regular expression always is
    (the signs, exponents, hexadecimal forms and names the function also
    reads cannot occur, and are refused here).  The result is the
    binary64 nearest to the decimal value; a value that rounds to
    infinity is [ErrRange]. *)
Definition strconv_ParseFloat (s : string) : float64 + NumError :=
  match read_decimal s false false 0 0 with
  | None => inr ErrSyntax
  | Some (mant, frac) =>
      match f64_of_ratio mant (10 ^ Z.of_nat frac) with
      | S754_infinity _ => inr ErrRange
      | v => inl v
      end
  end.

(* ================================================================= *)
(** ** The regular expression of the fallback path

    One or more bytes of [[\d\.]], any number of [\s], one or more
    ASCII letters, anchored at both ends.  The three classes are
    disjoint, so a string matches in at most one way and the greedy
    split below finds it: the two groups of a match, [None] when
    [FindStringSubmatch] returns nil. *)
Definition re_FindStringSubmatch (part : string) : option (string * string) :=
  let (num, r1) := span is_numch part in
  let (_, r2) := span is_re_space r1 in
  match num, r2 with
  | String _ _, String _ _ =>
      if all_chars is_letter r2 then Some (num, r2) else None
  | _, _ => None
  end.

(* ================================================================= *)
(** ** Package bufio: [Scanner] with [ScanLines]

    A file is the bytes the reads deliver and how the stream ends: at
    end of file or with a read error. *)

Record file : Type := { data : string; read_fails : bool }.

Inductive scan_error : Type :=
| ErrTooLong       (* "bufio.Scanner: token too long" *)
| ErrRead.         (* the error of a failed read *)

(** [bufio.MaxScanTokenSize]: the scanner's buffer never grows beyond. *)
Definition MaxScanTokenSize : Z := 64 * 1024.

(** The lines of [s]: the bytes before each newline, and what follows
    the last newline when it is not empty. *)
Fixpoint raw_lines (s : string) : list string :=
  match s with
  | EmptyString => []
  | String c s' =>
      if Ascii.eqb c newline then EmptyString :: raw_lines s'
      else
        match raw_lines s' with
        | h :: t => String c h :: t
        | [] => [String c EmptyString]
        end
  end.

(** [dropCR]: a line without its final carriage return, if it has one. *)
Fixpoint dropCR (l : string) : string :=
  match l with
  | EmptyString => EmptyString
  | String c EmptyString =>
      if Ascii.eqb c carriage_return then EmptyString else l
  | String c l' => String c (dropCR l')
  end.

(** The tokens the successive calls of [Scan] deliver, and the final
    [Err()].  A line that fills the buffer before its newline is seen
    stops the scan with [ErrTooLong]; a read error stops it after the
    bytes already read have been delivered. *)
Fixpoint scan_tokens (ls : list string) (ending : option scan_error)
    : list string * option scan_error :=
  match ls with
  | [] => ([], ending)
  | l :: rest =>
      if MaxScanTokenSize <=? slen l then ([], Some ErrTooLong)
      else
        let (toks, e) := scan_tokens rest ending in
        (dropCR l :: toks, e)
  end.

Definition scan_file (f : file) : list string * option scan_error :=
  scan_tokens (raw_lines (data f))
    (if read_fails f then Some ErrRead else None).

(* ================================================================= *)
(** ** nfu.go *)

(** The errors the program builds with [fmt.Errorf]. *)
Inductive error : Type :=
| UnsupportedFormat (part : string)
    (* "unsupported duration format: %s" *)
| BadValue (valueStr : string) (err : NumError)
    (* "error parsing duration value %s: %w" *)
| UnknownTimeUnit (unit : string)
    (* "unknown time unit: %s" *)
| OpenFailed
    (* "error opening file: %w" *)
| HeaderUnreadable (err : option scan_error)
    (* "error reading header line: %w" *)
| DurationColumnNotFound
    (* "duration column not found in input file" *)
| ScanFailed (err : scan_error).
    (* "error scanning file: %w" *)

(** The [switch unit] of [ParseDuration]: the duration of [value] units,
    [None] in the [default] case.  The second label of the microsecond
    case is, byte for byte, C3 82 C2 B5 73. *)
Definition misencoded_micro_s : string :=
  String (ascii_of_nat 195) (String (ascii_of_nat 130)
    (String (ascii_of_nat 194) (String (ascii_of_nat 181) "s"))).

Definition in_list (u : string) (l : list string) : bool :=
  existsb (String.eqb u) l.

Definition unit_duration (unit : string) (value : float64) : option Z :=
  if in_list unit ["ns"; "nanosecond"; "nanoseconds"] then
    Some (int64_of_f64 (f64_mul value (f64_of_Z Nanosecond)))
  else if in_list unit ["us"; misencoded_micro_s; "microsecond"; "microseconds"] then
    Some (int64_of_f64 (f64_mul value (f64_of_Z Microsecond)))
  else if in_list unit ["ms"; "millisecond"; "milliseconds"] then
    Some (int64_of_f64 (f64_mul value (f64_of_Z Millisecond)))
  else if in_list unit ["s"; "sec"; "second"; "seconds"] then
    Some (int64_of_f64 (f64_mul value (f64_of_Z Second)))
  else if in_list unit ["m"; "min"; "minute"; "minutes"] then
    Some (int64_of_f64 (f64_mul value (f64_of_Z Minute)))
  else if in_list unit ["h"; "hr"; "hour"; "hours"] then
    Some (int64_of_f64 (f64_mul value (f64_of_Z Hour)))
  else if in_list unit ["d"; "day"; "days"] then
    Some (int64_of_f64 (f64_mul (f64_mul value (f64_of_Z 24)) (f64_of_Z Hour)))
  else None.

(** The non-standard format of a part: the regular expression, the
    float value and the unit. *)
Definition parseNonStandard (part : string) : Z + error :=
  match re_FindStringSubmatch part with
  | None => inr (UnsupportedFormat part)
  | Some (valueStr, unitStr) =>
      let unit := strings_ToLower unitStr in
      match strconv_ParseFloat valueStr with
      | inr err => inr (BadValue valueStr err)
      | inl value =>
          match unit_duration unit value with
          | Some partDuration => inl partDuration
          | None => inr (UnknownTimeUnit unit)
          end
      end
  end.

(** The body of the loop over the parts: [partDuration], or the error
    the function returns. *)
Definition parsePart (part : string) : Z + error :=
  match time_ParseDuration part with
  | (partDuration, None) => inl partDuration
  | (_, Some _) => parseNonStandard part
  end.

(** [for _, part := range parts], from the running [totalDuration]. *)
Fixpoint sumParts (parts : list string) (totalDuration : Z)
    : Z * option error :=
  match parts with
  | [] => (totalDuration, None)
  | part :: rest =>
      match parsePart part with
      | inr err => (0, Some err)
      | inl partDuration => sumParts rest (add64 totalDuration partDuration)
      end
  end.

(** [ParseDuration]: the pair [(time.Duration, error)] it returns. *)
Definition ParseDuration (durationStr : string) : Z * option error :=
  match time_ParseDuration durationStr with
  | (duration, None) => (duration, None)
  | (_, Some _) => sumParts (strings_Fields durationStr) 0
  end.

(** The index of the first column named "duration", counting from [i];
    [-1] when there is none. *)
Fixpoint find_duration (columns : list string) (i : Z) : Z :=
  match columns with
  | [] => -1
  | col :: rest =>
      if String.eqb col "duration" then i else find_duration rest (i + 1)
  end.

(** A line printed by the loop:
    "Warning: error parsing duration '%s': %v". *)
Record warning : Type := Warning { w_durationStr : string; w_err : error }.

(** The loop over the data lines: the final [totalDuration] and the
    warnings printed, in order. *)
Fixpoint processLines (durationIdx : Z) (lines : list string)
    (totalDuration : Z) : Z * list warning :=
  match lines with
  | [] => (totalDuration, [])
  | line :: rest =>
      let fields := strings_Split line tab in
      if Z.of_nat (List.length fields) <=? durationIdx then
        processLines durationIdx rest totalDuration
      else
        let durationStr := nth (Z.to_nat durationIdx) fields EmptyString in
        match ParseDuration durationStr with
        | (_, Some err) =>
            let (t, w) := processLines durationIdx rest totalDuration in
            (t, Warning durationStr err :: w)
        | (duration, None) =>
            processLines durationIdx rest (add64 totalDuration duration)
        end
  end.

(** [calculateTotalDuration] on the file found at the path ([None] when
    it cannot be opened): the pair it returns and the warnings it
    prints. *)
Definition calculateTotalDuration (f : option file)
    : (Z * option error) * list warning :=
  match f with
  | None => ((0, Some OpenFailed), [])
  | Some fl =>
      let (tokens, scanErr) := scan_file fl in
      match tokens with
      | [] => ((0, Some (HeaderUnreadable scanErr)), [])
      | header :: lines =>
          let columns := strings_Split header tab in
          let durationIdx := find_duration columns 0 in
          if durationIdx =? -1 then ((0, Some DurationColumnNotFound), [])
          else
            let (totalDuration, out) := processLines durationIdx lines 0 in
            match scanErr with
            | Some err => ((0, Some (ScanFailed err)), out)
            | None => ((totalDuration, None), out)
            end
      end
  end.

(* ================================================================= *)
(** ** Package time: the methods of [Duration]

    [String], which the verb [%v] of package fmt calls, writes the
    duration from right to left into the tail of a buffer of 32 bytes;
    the buffer below is that tail, and [w--; buf[w] = c] puts [c] in
    front of it. *)

(** [byte(d) + '0'] for a digit [d]. *)
Definition digit_char (d : Z) : ascii := ascii_of_N (Z.to_N (d + 48)).

(** The loop [for v > 0] of [fmtInt]: one turn for every decimal digit
    of [v], which a [uint64] has at most twenty of. *)
Fixpoint fmtInt_loop (fuel : nat) (buf : string) (v : Z) : string :=
  match fuel with
  | O => buf
  | S fuel' =>
      if v >? 0 then fmtInt_loop fuel' (String (digit_char (v mod 10)) buf) (v / 10)
      else buf
  end.

(** [fmtInt]: [v] in decimal, in front of [buf]. *)
Definition fmtInt (buf : string) (v : Z) : string :=
  if v =? 0 then String "0" buf else fmtInt_loop 20 buf v.

(** The loop [for i := 0; i < prec; i++] of [fmtFrac]: the low [prec]
    digits of [v] without their trailing zeros. *)
Fixpoint fmtFrac_loop (prec : nat) (buf : string) (v : Z) (print : bool)
    : string * Z * bool :=
  match prec with
  | O => (buf, v, print)
  | S prec' =>
      let digit := v mod 10 in
      let print' := print || negb (digit =? 0) in
      fmtFrac_loop prec'
        (if print' then String (digit_char digit) buf else buf) (v / 10) print'
  end.

(** [fmtFrac]: the fraction of [v / 10^prec] in front of [buf], with
    its dot, or nothing when the fraction is zero; and [v / 10^prec]. *)
Definition fmtFrac (buf : string) (v : Z) (prec : nat) : string * Z :=
  let '(buf', v', print) := fmtFrac_loop prec buf v false in
  (if print then String "." buf' else buf', v').

(** The body of [Duration.format] for the magnitude [u] of the
    duration: below one second a smaller unit is used, and zero is
    "0s". *)
Definition format_magnitude (u : Z) : string :=
  if u <? Second then
    if u =? 0 then "0s"
    else
      let '(prec, unit) :=
        if u <? Microsecond then (0%nat, "ns")
        else if u <? Millisecond then (3%nat, micro_s)
        else (6%nat, "ms") in
      let (buf, u1) := fmtFrac unit u prec in
      fmtInt buf u1
  else
    let (buf, u1) := fmtFrac "s" u 9 in
    let buf1 := fmtInt buf (u1 mod 60) in
    let u2 := u1 / 60 in
    if u2 >? 0 then
      let buf2 := fmtInt (String "m" buf1) (u2 mod 60) in
      let u3 := u2 / 60 in
      if u3 >? 0 then fmtInt (String "h" buf2) u3 else buf2
    else buf1.

(** [Duration.String]: the form "72h3m0.5s", with a minus sign before
    a negative duration ([u := uint64(d); if neg { u = -u }]). *)
Definition Duration_String (d : Z) : string :=
  let neg := d <? 0 in
  let u := if neg then wrapu64 (- wrapu64 d) else wrapu64 d in
  let text := format_magnitude u in
  if neg then String "-" text else text.

Definition f64_add (x y : float64) : float64 := SFadd prec emax x y.

(** [Duration.Hours], [Duration.Minutes] and [Duration.Seconds]: the
    whole units and the remainder are converted separately and added
    ([/] and [%] of Go truncate toward zero). *)
Definition Duration_Hours (d : Z) : float64 :=
  let hour := Z.quot d Hour in
  let nsec := Z.rem d Hour in
  f64_add (f64_of_Z hour) (f64_div (f64_of_Z nsec) (f64_of_Z (60 * 60 * 1000000000))).

Definition Duration_Minutes (d : Z) : float64 :=
  let min := Z.quot d Minute in
  let nsec := Z.rem d Minute in
  f64_add (f64_of_Z min) (f64_div (f64_of_Z nsec) (f64_of_Z (60 * 1000000000))).

Definition Duration_Seconds (d : Z) : float64 :=
  let sec := Z.quot d Second in
  let nsec := Z.rem d Second in
  f64_add (f64_of_Z sec) (f64_div (f64_of_Z nsec) (f64_of_Z 1000000000)).

(* ================================================================= *)
(** ** Package flag: the command line of [main]

    [main] defines a boolean flag under the names "t" and "test" and a
    string flag under the names "i" and "input", each pair of names on
    one variable, and calls [flag.Parse()]. *)

Inductive flag_error : Type :=
| BadFlagSyntax (arg : string)
    (* "bad flag syntax: %s" *)
| NotDefined (name : string)
    (* "flag provided but not defined: -%s" *)
| InvalidBoolean (value name : string)
    (* "invalid boolean value %q for -%s: %v" *)
| NeedsArgument (name : string).
    (* "flag needs an argument: -%s" *)

(** [strconv.ParseBool], which reads the value of a boolean flag. *)
Definition strconv_ParseBool (s : string) : option bool :=
  if in_list s ["1"; "t"; "T"; "TRUE"; "true"; "True"] then Some true
  else if in_list s ["0"; "f"; "F"; "FALSE"; "false"; "False"] then Some false
  else None.

(** The name of a flag and the value joined to it: the argument without
    its dashes is cut at its first ['='], which cannot be its first
    byte. *)
Fixpoint cut_equals (s : string) : string * option string :=
  match s with
  | EmptyString => (EmptyString, None)
  | String c s' =>
      if byte c =? 61 then (EmptyString, Some s')
      else let (name, value) := cut_equals s' in (String c name, value)
  end.

Definition name_value (name : string) : string * option string :=
  match name with
  | EmptyString => (EmptyString, None)
  | String c rest => let (n, value) := cut_equals rest in (String c n, value)
  end.

(** How [flag.Parse()] ends: with the values of the two flags, after
    printing the usage for -h or -help, or with an error. *)
Inductive parsed : Type :=
| Parsed (testFlag : bool) (inputFlag : string)
| HelpWanted
| ParseFailed (err : flag_error).

(** The loop of [Parse] over [parseOne], from the values the flags
    have.  An argument shorter than two bytes or without a leading
    ['-'], and the argument "--", end the flags. *)
Fixpoint flag_Parse (args : list string) (testFlag : bool) (inputFlag : string)
    : parsed :=
  match args with
  | [] => Parsed testFlag inputFlag
  | s :: rest =>
      match s with
      | String c0 (String c1 t1) =>
          if negb (byte c0 =? 45) then Parsed testFlag inputFlag
          else if (byte c1 =? 45) && String.eqb t1 "" then Parsed testFlag inputFlag
          else
            let name := if byte c1 =? 45 then t1 else String c1 t1 in
            match name with
            | EmptyString => ParseFailed (BadFlagSyntax s)
            | String n0 _ =>
                if (byte n0 =? 45) || (byte n0 =? 61) then
                  ParseFailed (BadFlagSyntax s)
                else
                  let (name', value) := name_value name in
                  if in_list name' ["t"; "test"] then
                    match value with
                    | Some v =>
                        match strconv_ParseBool v with
                        | Some b => flag_Parse rest b inputFlag
                        | None => ParseFailed (InvalidBoolean v name')
                        end
                    | None => flag_Parse rest true inputFlag
                    end
                  else if in_list name' ["i"; "input"] then
                    match value with
                    | Some v => flag_Parse rest testFlag v
                    | None =>
                        match rest with
                        | v :: rest' => flag_Parse rest' testFlag v
                        | [] => ParseFailed (NeedsArgument name')
                        end
                    end
                  else if in_list name' ["help"; "h"] then HelpWanted
                  else ParseFailed (NotDefined name')
            end
      | _ => Parsed testFlag inputFlag
      end
  end.

(* ================================================================= *)
(** ** nfu.go: [testDurationParsing] and [main] *)

(** A line printed by the loop of [testDurationParsing], with the
    arguments of its format. *)
Inductive test_line : Type :=
| TestError (durStr : string) (err : error)
    (* "Error parsing '%s': %v" *)
| TestResult (durStr : string) (dur : string) (minutes : float64).
    (* "Original: %-15s | Parsed: %-15v | Minutes: %.2f" *)

Definition testDurations : list string :=
  ["3.5d"; "21h 40m 51s"; "1h 21m 27s"; "2m"; "1m 53s"; "42.9s"; "500ms"].

(** [testDurationParsing]: the lines its loop prints, between the title
    and the rule. *)
Definition testDurationParsing : list test_line :=
  map (fun durStr =>
         match ParseDuration durStr with
         | (_, Some err) => TestError durStr err
         | (dur, None) => TestResult durStr (Duration_String dur) (Duration_Minutes dur)
         end)
      testDurations.

(** What [main] writes on standard output, with the arguments of the
    formats. *)
Inductive output : Type :=
| TestReport (lines : list test_line)
| ProvideInput
    (* "Please provide an input file path using -i or --input flag" *)
| WarningLine (w : warning)
    (* the warnings of [calculateTotalDuration] *)
| TotalDuration (text : string)
    (* "Total duration: %v" *)
| TotalBreakdown (hours minutes seconds : Z)
    (* "Total duration: %dh %dm %ds" *)
| TotalMinutes (minutes : float64).
    (* "Total minutes: %.2f" *)

(** What is written on standard error. *)
Inductive diagnostic : Type :=
| Usage                             (* [flag.Usage()] *)
| ErrorLine (err : error)           (* "Error: %v" *)
| FlagMessage (err : flag_error).   (* the error of [flag.Parse()] *)

Record run : Type :=
  { stdout : list output; stderr : list diagnostic; exit_status : Z }.

(** [main] once [flag.Parse()] has returned, from the values it gives
    the two flags and the file [os.Open] finds at a path.  [int] is 64
    bits wide, as on the platforms whose conversion [int64_of_f64]
    describes. *)
Definition main (testFlag : bool) (inputFlag : string)
    (os_Open : string -> option file) : run :=
  if testFlag then
    {| stdout := [TestReport testDurationParsing]; stderr := []; exit_status := 0 |}
  else if String.eqb inputFlag "" then
    {| stdout := [ProvideInput]; stderr := [Usage]; exit_status := 1 |}
  else
    match calculateTotalDuration (os_Open inputFlag) with
    | ((_, Some err), out) =>
        {| stdout := map WarningLine out; stderr := [ErrorLine err];
           exit_status := 1 |}
    | ((totalDuration, None), out) =>
        let hours := int64_of_f64 (Duration_Hours totalDuration) in
        let minutes := Z.rem (int64_of_f64 (Duration_Minutes totalDuration)) 60 in
        let seconds := Z.rem (int64_of_f64 (Duration_Seconds totalDuration)) 60 in
        {| stdout :=
             map WarningLine out
             ++ [ TotalDuration (Duration_String totalDuration);
                  TotalBreakdown hours minutes seconds;
                  TotalMinutes (Duration_Minutes totalDuration) ];
           stderr := []; exit_status := 0 |}
    end.

(** The program on its arguments [os.Args[1:]]: [main] from its first
    statement.  When [flag.Parse()] does not return, the process ends
    there: with status 0 after the usage that -h or -help asks for,
    with status 2 after the error and the usage. *)
Definition nfu (args : list string) (os_Open : string -> option file) : run :=
  match flag_Parse args false "" with
  | Parsed testFlag inputFlag => main testFlag inputFlag os_Open
  | HelpWanted => {| stdout := []; stderr := [Usage]; exit_status := 0 |}
  | ParseFailed err =>
      {| stdout := []; stderr := [FlagMessage err; Usage]; exit_status := 2 |}
  end.

(* ================================================================= *)
(** ** The previous version of [ParseDuration] (src/unnamed/part_001)

    Before the loop over the fields was written, the regular
    expression was matched against the whole string.  The microsecond
    case spelled the micro sign in its two bytes, C2 B5. *)

Module part_001.

Definition unit_duration (unit : string) (value : float64) : option Z :=
  if in_list unit ["ns"; "nanosecond"; "nanoseconds"] then
    Some (int64_of_f64 (f64_mul value (f64_of_Z Nanosecond)))
  else if in_list unit ["us"; micro_s; "microsecond"; "microseconds"] then
    Some (int64_of_f64 (f64_mul value (f64_of_Z Microsecond)))
  else if in_list unit ["ms"; "millisecond"; "milliseconds"] then
    Some (int64_of_f64 (f64_mul value (f64_of_Z Millisecond)))
  else if in_list unit ["s"; "sec"; "second"; "seconds"] then
    Some (int64_of_f64 (f64_mul value (f64_of_Z Second)))
  else if in_list unit ["m"; "min"; "minute"; "minutes"] then
    Some (int64_of_f64 (f64_mul value (f64_of_Z Minute)))
  else if in_list unit ["h"; "hr"; "hour"; "hours"] then
    Some (int64_of_f64 (f64_mul value (f64_of_Z Hour)))
  else if in_list unit ["d"; "day"; "days"] then
    Some (int64_of_f64 (f64_mul (f64_mul value (f64_of_Z 24)) (f64_of_Z Hour)))
  else None.

Definition ParseDuration (durationStr : string) : Z * option error :=
  match time_ParseDuration durationStr with
  | (duration, None) => (duration, None)
  | (_, Some _) =>
      match re_FindStringSubmatch durationStr with
      | None => (0, Some (UnsupportedFormat durationStr))
      | Some (valueStr, unitStr) =>
          let unit := strings_ToLower unitStr in
          match strconv_ParseFloat valueStr with
          | inr err => (0, Some (BadValue valueStr err))
          | inl value =>
              match unit_duration unit value with
              | Some duration => (duration, None)
              | None => (0, Some (UnknownTimeUnit unit))
              end
          end
      end
  end.

End part_001.

(* ================================================================= *)
(** ** Vocabulary of the statements *)

(** The duration field of a data line, when the line has one. *)
Definition duration_field (durationIdx : Z) (line : string) : option string :=
  let fields := strings_Split line tab in
  if Z.of_nat (List.length fields) <=? durationIdx then None
  else Some (nth (Z.to_nat durationIdx) fields EmptyString).

(** The durations of the lines whose duration field parses. *)
Fixpoint parsed_durations (durationIdx : Z) (lines : list string) : list Z :=
  match lines with
  | [] => []
  | line :: rest =>
      match duration_field durationIdx line with
      | Some durationStr =>
          match ParseDuration durationStr with
          | (duration, None) => duration :: parsed_durations durationIdx rest
          | (_, Some _) => parsed_durations durationIdx rest
          end
      | None => parsed_durations durationIdx rest
      end
  end.

(** One warning for every line whose duration field does not parse. *)
Fixpoint failed_fields (durationIdx : Z) (lines : list string) : list warning :=
  match lines with
  | [] => []
  | line :: rest =>
      match duration_field durationIdx line with
      | Some durationStr =>
          match ParseDuration durationStr with
          | (_, Some err) =>
              Warning durationStr err :: failed_fields durationIdx rest
          | (_, None) => failed_fields durationIdx rest
          end
      | None => failed_fields durationIdx rest
      end
  end.

(** The sum of a list of durations as the program computes it, with
    [+=] on [time.Duration]. *)
Definition sum64 (l : list Z) : Z := fold_left add64 l 0.

(** The sum of a list of integers. *)
Definition zsum (l : list Z) : Z := fold_right Z.add 0 l.

(** A string of [n] bytes [c]. *)
Fixpoint repeat_byte (c : ascii) (n : nat) : string :=
  match n with
  | O => EmptyString
  | S n' => String c (repeat_byte c n')
  end.

(** A line of tab-separated fields, with its newline. *)
Definition tsv_line (fields : list string) : string :=
  String.concat (String tab EmptyString) fields ++ String newline EmptyString.

(** The trace file of three lines used as the running example. *)
Definition example_trace : string :=
  tsv_line ["id"; "duration"; "status"]
  ++ tsv_line ["a"; "1h"; "ok"]
  ++ tsv_line ["b"; "30m"; "ok"].

(** Whether the first byte of [s] satisfies [p]. *)
Definition starts_with (p : ascii -> bool) (s : string) : bool :=
  match s with
  | String c _ => p c
  | EmptyString => false
  end.

(** An ASCII byte that is not a space: a rune of width one that
    [unicode.IsSpace] rejects. *)
Definition plain_byte (c : ascii) : bool :=
  (byte c <? 128) && negb (IsSpace (byte c)).

(** Strings in which [time.ParseDuration] can find no white space:
    ASCII bytes other than spaces, the micro sign and the letter mu. *)
Inductive SpaceFree : string -> Prop :=
| SpaceFree_nil : SpaceFree EmptyString
| SpaceFree_plain c s :
    plain_byte c = true -> SpaceFree s -> SpaceFree (String c s)
| SpaceFree_micro s :
    SpaceFree s ->
    SpaceFree (String (ascii_of_nat 194) (String (ascii_of_nat 181) s))
| SpaceFree_mu s :
    SpaceFree s ->
    SpaceFree (String (ascii_of_nat 206) (String (ascii_of_nat 188) s)).

(** A string that [strings.Fields] leaves whole: it is not empty and
    no rune of it is a space. *)
Definition Whole (p : string) : Prop :=
  p <> EmptyString
  /\ space_flags p 0 false = List.repeat false (String.length p).

(** Where a run of non-space bytes ends: at the end of the string, or
    before a byte flagged as space. *)
Definition run_end (b : string) (fb : list bool) : Prop :=
  (b = EmptyString /\ fb = []) \/ (exists fb', fb = true :: fb').

(** The number spelled by a string of decimal digits, continuing [x]. *)
Fixpoint decimal_from (x : Z) (ds : string) : Z :=
  match ds with
  | EmptyString => x
  | String c ds' => decimal_from (x * 10 + digit_val c) ds'
  end.

Definition decimal (ds : string) : Z := decimal_from 0 ds.

(** The number of a group of the standard grammar: digits, then
    possibly a dot and digits, with at least one digit in all. *)
Definition GroupNumber (num : string) : Prop :=
  exists i fr : string,
    num = i ++ fr
    /\ all_chars is_digit i = true
    /\ (fr = EmptyString
        \/ exists f, fr = String "." f /\ all_chars is_digit f = true)
    /\ num <> EmptyString
    /\ num <> String "." EmptyString.

(** One or more groups, each a number and a unit of [unitMap]. *)
Inductive Groups : string -> Prop :=
| Groups_one num u unit :
    GroupNumber num -> unitMap u = Some unit -> Groups (num ++ u)
| Groups_more num u unit rest :
    GroupNumber num -> unitMap u = Some unit -> Groups rest ->
    Groups (num ++ u ++ rest).

(** The strings of the standard grammar: an optional sign, then "0" or
    groups. *)
Definition StandardSyntax (s : string) : Prop :=
  exists sign body : string,
    s = sign ++ body
    /\ (sign = "" \/ sign = "+" \/ sign = "-")
    /\ (body = "0" \/ Groups body).

(** The unit table of the specification, for the aliases made of ASCII
    letters: the number of nanoseconds each alias stands for. *)
Definition alias_table : list (list string * Z) :=
  [ (["ns"; "nanosecond"; "nanoseconds"], 1);
    (["us"; "microsecond"; "microseconds"], 1000);
    (["ms"; "millisecond"; "milliseconds"], 1000000);
    (["s"; "sec"; "second"; "seconds"], 1000000000);
    (["m"; "min"; "minute"; "minutes"], 60 * 1000000000);
    (["h"; "hr"; "hour"; "hours"], 3600 * 1000000000);
    (["d"; "day"; "days"], 86400 * 1000000000) ].

Fixpoint lookup_alias (table : list (list string * Z)) (a : string) : option Z :=
  match table with
  | [] => None
  | (names, factor) :: rest =>
      if in_list a names then Some factor else lookup_alias rest a
  end.

(** The scale factor of a lower-case alias, [None] when it is not in
    the table. *)
Definition alias_factor (a : string) : option Z := lookup_alias alias_table a.

(** A token of the fallback grammar: a decimal number (digits with at
    most one dot) followed by letters whose lower-case form is an alias
    of the table, and nothing else. *)
Definition FallbackSyntax (p : string) : Prop :=
  exists (num u : string) (factor : Z),
    p = num ++ u
    /\ GroupNumber num
    /\ all_chars is_letter u = true /\ u <> EmptyString
    /\ alias_factor (strings_ToLower u) = Some factor.

(** The error names the token [p]: the token itself, its number or its
    unit in lower case. *)
Definition names_token (err : error) (p : string) : Prop :=
  err = UnsupportedFormat p
  \/ exists (num u : string),
       p = num ++ u
       /\ ((exists ne, err = BadValue num ne)
           \/ err = UnknownTimeUnit (strings_ToLower u)).

(** The binary64 that holds the integer [n] exactly, for
    [0 <= n < 2^53]: the mantissa is [n] shifted to 53 bits. *)
Definition f64_exact (n : Z) : float64 :=
  match n with
  | Zpos _ =>
      let d := Z.log2 n + 1 in
      S754_finite false (Z.to_pos (n * 2 ^ (53 - d))) (d - 53)
  | _ => S754_zero false
  end.

(** The units [time.ParseDuration] knows, in the one spelling it knows
    them, with their nanoseconds. *)
Definition standard_units : list (string * Z) :=
  [ ("ns", 1); ("us", 1000); (micro_s, 1000); (mu_s, 1000);
    ("ms", 1000000); ("s", 1000000000); ("m", 60 * 1000000000);
    ("h", 3600 * 1000000000) ].

(** The micro sign followed by a capital S. *)
Definition micro_capital_s : string :=
  String (ascii_of_nat 194) (String (ascii_of_nat 181) "S").


(* ================================================================= *)
(** ** Vocabulary of the further statements *)

(** The duration of a part, zero when the part does not parse. *)
Definition part_value (part : string) : Z :=
  match parsePart part with
  | inl partDuration => partDuration
  | inr _ => 0
  end.

(** The end of a line: a newline, or a carriage return and a newline. *)
Definition LF : string := String newline EmptyString.
Definition CRLF : string := String carriage_return LF.

(** The text of a file whose lines all end with [eol]. *)
Fixpoint text_of (eol : string) (lines : list string) : string :=
  match lines with
  | [] => EmptyString
  | l :: rest => l ++ eol ++ text_of eol rest
  end.

(** No byte of [l] is a newline. *)
Definition no_newline (l : string) : bool :=
  all_chars (fun c => negb (Ascii.eqb c newline)) l.

(** A field of a table: no tab, newline or carriage return in it. *)
Definition is_field (f : string) : bool :=
  all_chars (fun c => negb (Ascii.eqb c tab) && negb (Ascii.eqb c newline)
                      && negb (Ascii.eqb c carriage_return)) f.

(** The line of a row: its fields joined by tabs. *)
Definition row_line (fields : list string) : string :=
  String.concat (String tab EmptyString) fields.

(** The fields at index [i] of the rows that have one. *)
Definition column (i : nat) (rows : list (list string)) : list string :=
  flat_map (fun r => match nth_error r i with Some f => [f] | None => [] end) rows.

(** The durations of the strings that parse, and one warning for every
    string that does not. *)
Definition durations_of (fs : list string) : list Z :=
  flat_map (fun f => match ParseDuration f with
                     | (duration, None) => [duration]
                     | (_, Some _) => []
                     end) fs.

Definition warnings_of (fs : list string) : list warning :=
  flat_map (fun f => match ParseDuration f with
                     | (_, Some err) => [Warning f err]
                     | (_, None) => []
                     end) fs.

(** The binary64 that holds [M / 2^j] exactly, for [0 < M < 2^53]: the
    float of [M] with its exponent lowered by [j]. *)
Definition f64_dyadic (M j : Z) : float64 :=
  match f64_exact M with
  | S754_finite s m e => S754_finite s m (e - j)
  | x => x
  end.

(** A flag as it is written on the command line: the test flag, alone
    or with a value joined by ['='], and the input flag with its path
    joined by ['='] or given as the next argument. *)
Inductive setting : Type :=
| SetTest (dashes name : string) (value : option string)
| SetInput (dashes name : string) (joined : bool) (path : string).

Definition is_dashes (d : string) : bool := in_list d ["-"; "--"].

(** The spellings the program defines: one or two dashes, the names of
    the flag, and for the value of the test flag what
    [strconv.ParseBool] reads. *)
Definition well_written (s : setting) : bool :=
  match s with
  | SetTest d n None => is_dashes d && in_list n ["t"; "test"]
  | SetTest d n (Some v) =>
      is_dashes d && in_list n ["t"; "test"]
      && match strconv_ParseBool v with Some _ => true | None => false end
  | SetInput d n _ _ => is_dashes d && in_list n ["i"; "input"]
  end.

(** The arguments that spell a setting. *)
Definition arguments (s : setting) : list string :=
  match s with
  | SetTest d n None => [d ++ n]
  | SetTest d n (Some v) => [d ++ n ++ "=" ++ v]
  | SetInput d n true path => [d ++ n ++ "=" ++ path]
  | SetInput d n false path => [d ++ n; path]
  end.

(** The values of the two flags after a setting. *)
Definition apply_setting (flags : bool * string) (s : setting) : bool * string :=
  match s with
  | SetTest _ _ None => (true, snd flags)
  | SetTest _ _ (Some v) =>
      (match strconv_ParseBool v with Some b => b | None => fst flags end,
       snd flags)
  | SetInput _ _ _ path => (fst flags, path)
  end.

(** Arguments that hold no flag, or no further flag: none at all, or a
    first one that is "--", is shorter than two bytes or does not start
    with a dash. *)
Definition ends_flags (rest : list string) : bool :=
  match rest with
  | [] => true
  | x :: _ =>
      String.eqb x "--" || (String.length x <? 2)%nat
      || negb (starts_with (fun c => byte c =? 45) x)
  end.

(* ================================================================= *)
(** * Properties *)

(* ----------------------------------------------------------------- *)
(** ** Wrap-around arithmetic *)

Lemma wrap64_range z : MinInt64 <= wrap64 z <= MaxInt64.
Proof.
  unfold wrap64, MinInt64, MaxInt64.
  pose proof (Z.mod_pos_bound (z + two63) two64 eq_refl).
  unfold two63, two64 in *. lia.
Qed.

Lemma wrap64_small z : MinInt64 <= z <= MaxInt64 -> wrap64 z = z.
Proof.
  unfold wrap64, MinInt64, MaxInt64, two63, two64. intros H.
  rewrite Z.mod_small; lia.
Qed.

Lemma wrap64_add_l x y : wrap64 (wrap64 x + y) = wrap64 (x + y).
Proof.
  unfold wrap64.
  replace ((x + two63) mod two64 - two63 + y + two63)
    with ((x + two63) mod two64 + y) by ring.
  rewrite Zplus_mod_idemp_l. do 2 f_equal. ring.
Qed.

Lemma fold_add64 l a : fold_left add64 l (wrap64 a) = wrap64 (a + zsum l).
Proof.
  revert a. induction l as [|x l IH]; intros a; simpl.
  - now rewrite Z.add_0_r.
  - unfold add64 at 2. rewrite wrap64_add_l, IH. f_equal. ring.
Qed.

Lemma sum64_wrap l : sum64 l = wrap64 (zsum l).
Proof.
  unfold sum64. change 0 with (wrap64 0) at 1. now rewrite fold_add64.
Qed.

Lemma sum64_exact l : MinInt64 <= zsum l <= MaxInt64 -> sum64 l = zsum l.
Proof. intros H. rewrite sum64_wrap. now apply wrap64_small. Qed.

(* ----------------------------------------------------------------- *)
(** ** The loop over the data lines *)

Section DataLines.
Variable durationIdx : Z.

Lemma processLines_spec lines total :
  processLines durationIdx lines total =
    (fold_left add64 (parsed_durations durationIdx lines) total,
     failed_fields durationIdx lines).
Proof.
  revert total. induction lines as [|line rest IH]; intros total; simpl.
  - reflexivity.
  - unfold duration_field.
    destruct (Z.of_nat (List.length (strings_Split line tab)) <=? durationIdx).
    + apply IH.
    + destruct (ParseDuration _) as [d [err|]].
      * now rewrite IH.
      * simpl. apply IH.
Qed.

Lemma parsed_durations_app l1 l2 :
  parsed_durations durationIdx (l1 ++ l2) =
    (parsed_durations durationIdx l1 ++ parsed_durations durationIdx l2)%list.
Proof.
  induction l1 as [|x l1 IH]; simpl; [reflexivity|].
  destruct (duration_field durationIdx x) as [s|]; [|exact IH].
  destruct (ParseDuration s) as [d [e|]]; [exact IH|].
  simpl. now rewrite IH.
Qed.

Lemma failed_fields_app l1 l2 :
  failed_fields durationIdx (l1 ++ l2) =
    (failed_fields durationIdx l1 ++ failed_fields durationIdx l2)%list.
Proof.
  induction l1 as [|x l1 IH]; simpl; [reflexivity|].
  destruct (duration_field durationIdx x) as [s|]; [|exact IH].
  destruct (ParseDuration s) as [d [e|]]; [|exact IH].
  simpl. now rewrite IH.
Qed.

End DataLines.

Lemma find_duration_absent columns i :
  ~ In "duration" columns -> find_duration columns i = -1.
Proof.
  revert i. induction columns as [|c cs IH]; intros i H; simpl.
  - reflexivity.
  - destruct (String.eqb_spec c "duration") as [->|_].
    + exfalso. apply H. now left.
    + apply IH. intros Hin. apply H. now right.
Qed.

Lemma find_duration_first pre post i :
  ~ In "duration" pre ->
  find_duration (pre ++ "duration" :: post) i = i + Z.of_nat (List.length pre).
Proof.
  revert i. induction pre as [|c cs IH]; intros i H; simpl.
  - lia.
  - destruct (String.eqb_spec c "duration") as [->|_].
    + exfalso. apply H. now left.
    + rewrite IH by (intros Hin; apply H; now right). lia.
Qed.

Lemma find_duration_present columns i :
  0 <= i -> In "duration" columns -> 0 <= find_duration columns i.
Proof.
  revert i. induction columns as [|c cs IH]; intros i Hi H; simpl.
  - destruct H.
  - destruct (String.eqb_spec c "duration") as [->|Hne]; [exact Hi|].
    apply IH; [lia|]. destruct H as [H|H]; [congruence|exact H].
Qed.

Lemma sumParts_error parts total d e :
  sumParts parts total = (d, Some e) -> d = 0.
Proof.
  revert total. induction parts as [|p ps IH]; intros total; simpl.
  - discriminate.
  - destruct (parsePart p) as [pd|err].
    + apply IH.
    + intros H. now inversion H.
Qed.

Lemma scan_tokens_ok ls ending :
  Forall (fun l => slen l < MaxScanTokenSize) ls ->
  scan_tokens ls ending = (map dropCR ls, ending).
Proof.
  induction 1 as [|l ls Hl _ IH]; simpl.
  - reflexivity.
  - cbv beta in Hl. destruct (Z.leb_spec MaxScanTokenSize (slen l)); [lia|].
    now rewrite IH.
Qed.

(* ----------------------------------------------------------------- *)
(** ** Strings *)

Lemma append_nil_r s : s ++ "" = s.
Proof. induction s as [|c s IH]; simpl; [reflexivity | now rewrite IH]. Qed.

Lemma append_assoc a b c : (a ++ b) ++ c = a ++ (b ++ c).
Proof. induction a as [|x a IH]; simpl; [reflexivity | now rewrite IH]. Qed.

Lemma length_append a b :
  String.length (a ++ b) = (String.length a + String.length b)%nat.
Proof. induction a as [|x a IH]; simpl; [reflexivity | now rewrite IH]. Qed.

Lemma all_chars_app p a b :
  all_chars p (a ++ b) = all_chars p a && all_chars p b.
Proof.
  induction a as [|x a IH]; simpl; [reflexivity|].
  now rewrite IH, andb_assoc.
Qed.

Lemma all_chars_impl (p q : ascii -> bool) s :
  (forall c, p c = true -> q c = true) ->
  all_chars p s = true -> all_chars q s = true.
Proof.
  intros Hpq. induction s as [|c s IH]; simpl; [reflexivity|].
  intros H. apply andb_true_iff in H as [Hc Hs].
  now rewrite (Hpq _ Hc), IH.
Qed.

(** The longest prefix in a class [p]. *)
Section Span.
Variable p : ascii -> bool.

Lemma span_parts s : fst (span p s) ++ snd (span p s) = s.
Proof.
  induction s as [|c s IH]; simpl; [reflexivity|].
  destruct (p c); [|reflexivity].
  destruct (span p s) as [a b]. simpl in *. now rewrite IH.
Qed.

Lemma span_fst_all s : all_chars p (fst (span p s)) = true.
Proof.
  induction s as [|c s IH]; simpl; [reflexivity|].
  destruct (p c) eqn:E; [|reflexivity].
  destruct (span p s) as [a b]. simpl in *. now rewrite E.
Qed.

Lemma span_snd_head s :
  starts_with p (snd (span p s)) = false.
Proof.
  induction s as [|c s IH]; simpl; [reflexivity|].
  destruct (p c) eqn:E; [|simpl; exact E].
  now destruct (span p s) as [a b].
Qed.

Lemma span_app a b :
  all_chars p a = true -> starts_with p b = false -> span p (a ++ b) = (a, b).
Proof.
  intros Ha Hb. induction a as [|c a IH].
  - destruct b as [|x b]; [reflexivity|]. simpl in *. now rewrite Hb.
  - simpl in Ha. apply andb_true_iff in Ha as [Hc Ha].
    simpl. now rewrite Hc, (IH Ha).
Qed.

Lemma span_none s : starts_with p s = false -> span p s = ("", s).
Proof. intros H. exact (span_app "" s eq_refl H). Qed.

Lemma span_all s : all_chars p s = true -> span p s = (s, "").
Proof.
  intros H. rewrite <- (append_nil_r s) at 1. now apply span_app.
Qed.

Lemma starts_with_app a b :
  a <> "" -> starts_with p (a ++ b) = starts_with p a.
Proof. destruct a; [congruence | reflexivity]. Qed.

End Span.

Lemma all_chars_starts p q s :
  (forall c, p c = true -> q c = false) ->
  all_chars p s = true -> starts_with q s = false.
Proof.
  intros Hpq. destruct s as [|c s]; simpl; [reflexivity|].
  intros H. apply andb_true_iff in H as [Hc _]. now apply Hpq.
Qed.

(* ----------------------------------------------------------------- *)
(** ** Character classes *)

Ltac byte_cases c := destruct c as [[] [] [] [] [] [] [] []].

Lemma digit_numch c : is_digit c = true -> is_numch c = true.
Proof. unfold is_numch. now intros ->. Qed.

Lemma letter_not_numch c : is_letter c = true -> is_numch c = false.
Proof. byte_cases c; vm_compute; congruence. Qed.

Lemma letter_not_re_space c : is_letter c = true -> is_re_space c = false.
Proof. byte_cases c; vm_compute; congruence. Qed.

Lemma numch_cases c : is_numch c = true -> is_digit c = true \/ is_dot c = true.
Proof. unfold is_numch. intros H. now apply orb_true_iff in H. Qed.

Lemma letter_no_sign c :
  is_letter c = true -> (byte c =? 45) = false /\ (byte c =? 43) = false.
Proof. byte_cases c; vm_compute; intuition congruence. Qed.

Lemma numch_no_sign c :
  is_numch c = true -> (byte c =? 45) = false /\ (byte c =? 43) = false.
Proof. byte_cases c; vm_compute; intuition congruence. Qed.

Lemma digit_val_range c : is_digit c = true -> 0 <= digit_val c <= 9.
Proof. byte_cases c; vm_compute; intuition congruence. Qed.

Lemma letter_plain c : is_letter c = true -> plain_byte c = true.
Proof. byte_cases c; vm_compute; congruence. Qed.

Lemma numch_plain c : is_numch c = true -> plain_byte c = true.
Proof. byte_cases c; vm_compute; congruence. Qed.

Lemma lower_byte_letter c :
  is_letter (lower_byte c) = true -> is_letter c = true.
Proof. byte_cases c; vm_compute; congruence. Qed.

Lemma lower_byte_of_letter c :
  is_letter c = true -> is_lower (lower_byte c) = true.
Proof. byte_cases c; vm_compute; congruence. Qed.

Lemma lower_byte_lower c : is_lower c = true -> lower_byte c = c.
Proof. byte_cases c; vm_compute; congruence. Qed.

Lemma digit_not_dot c : is_digit c = true -> is_dot c = false.
Proof. byte_cases c; vm_compute; congruence. Qed.

(* ----------------------------------------------------------------- *)
(** ** Runes and fields *)

Lemma space_flags_length s k sp :
  List.length (space_flags s k sp) = String.length s.
Proof.
  revert k sp. induction s as [|c s IH]; intros k sp; [reflexivity|].
  cbn [space_flags String.length].
  destruct k; [destruct (DecodeRuneInString (String c s))|];
    cbn [List.length]; now rewrite IH.
Qed.

(** At a rune boundary the class of the previous rune plays no role. *)
Lemma space_flags_boundary s sp sp' :
  space_flags s 0 sp = space_flags s 0 sp'.
Proof. destruct s; reflexivity. Qed.

Lemma runs_repeat_false s :
  s <> "" -> runs s (List.repeat false (String.length s)) = [s].
Proof.
  induction s as [|c s IH]; [congruence|]. intros _. simpl.
  destruct s as [|c' s']; [reflexivity|].
  simpl in *. now rewrite IH.
Qed.

Lemma Whole_fields p : Whole p -> strings_Fields p = [p].
Proof.
  intros [Hne Hfl]. unfold strings_Fields. rewrite Hfl.
  now apply runs_repeat_false.
Qed.

Lemma SpaceFree_flags s :
  SpaceFree s -> space_flags s 0 false = List.repeat false (String.length s).
Proof.
  induction 1 as [|c s Hc _ IH|s _ IH|s _ IH].
  - reflexivity.
  - unfold plain_byte in Hc. apply andb_true_iff in Hc as [Hlt Hsp].
    cbn [space_flags DecodeRuneInString]. rewrite Hlt.
    apply negb_true_iff in Hsp. rewrite Hsp. cbn. now rewrite IH.
  - cbn. now rewrite IH.
  - cbn. now rewrite IH.
Qed.

Lemma SpaceFree_fields s : SpaceFree s -> s <> "" -> strings_Fields s = [s].
Proof.
  intros H Hne. apply Whole_fields. split; [exact Hne|now apply SpaceFree_flags].
Qed.

Lemma SpaceFree_app a b : SpaceFree a -> SpaceFree b -> SpaceFree (a ++ b).
Proof.
  intros Ha Hb. induction Ha as [|c s Hc _ IH|s _ IH|s _ IH]; simpl.
  - exact Hb.
  - now apply SpaceFree_plain.
  - now apply SpaceFree_micro.
  - now apply SpaceFree_mu.
Qed.

Lemma plain_SpaceFree s : all_chars plain_byte s = true -> SpaceFree s.
Proof.
  induction s as [|c s IH]; simpl; [constructor|].
  intros H. apply andb_true_iff in H as [Hc Hs]. constructor; auto.
Qed.

(** The width of a rune is at least one and at most the bytes at hand. *)
Lemma decode_width c s :
  (1 <= snd (DecodeRuneInString (String c s)) <= S (String.length s))%nat.
Proof.
  unfold DecodeRuneInString.
  destruct (byte c <? 128); [simpl; lia|].
  destruct (utf8_first (byte c)) as [[sz [lo hi]]|]; [|simpl; lia].
  destruct s as [|c1 s]; [simpl; lia|].
  destruct (_ || _); [simpl; lia|].
  destruct (sz <=? 2)%nat; [simpl; lia|].
  destruct s as [|c2 s]; [simpl; lia|].
  destruct (negb _); [simpl; lia|].
  destruct (sz <=? 3)%nat; [simpl; lia|].
  destruct s as [|c3 s]; [simpl; lia|].
  destruct (negb _); simpl; lia.
Qed.

(** Decoding is stable under cutting the string after the rune. *)
Lemma decode_prefix x y r w :
  DecodeRuneInString (x ++ y) = (r, w) ->
  (w <= String.length x)%nat ->
  DecodeRuneInString x = (r, w).
Proof.
  destruct x as [|c0 x]; [simpl; intros H Hw|].
  { destruct y as [|c y]; [exact H|].
    pose proof (decode_width c y) as Hd. simpl append in H. rewrite H in Hd.
    simpl in *. lia. }
  cbn [append]. unfold DecodeRuneInString.
  destruct (byte c0 <? 128); [auto|].
  destruct (utf8_first (byte c0)) as [[sz [lo hi]]|]; [|auto].
  destruct x as [|c1 x].
  { cbn [append String.length]. intros H Hw.
    destruct y as [|c1 y]; [exact H|].
    destruct (_ || _); [exact H|].
    destruct (sz <=? 2)%nat; [inversion H; subst; lia|].
    destruct y as [|c2 y]; [exact H|].
    destruct (negb _); [exact H|].
    destruct (sz <=? 3)%nat; [inversion H; subst; lia|].
    destruct y as [|c3 y]; [exact H|].
    destruct (negb _); [exact H|]. inversion H; subst; lia. }
  cbn [append]. destruct (_ || _); [auto|].
  destruct (sz <=? 2)%nat; [auto|].
  destruct x as [|c2 x].
  { cbn [append String.length]. intros H Hw.
    destruct y as [|c2 y]; [exact H|].
    destruct (negb _); [exact H|].
    destruct (sz <=? 3)%nat; [inversion H; subst; lia|].
    destruct y as [|c3 y]; [exact H|].
    destruct (negb _); [exact H|]. inversion H; subst; lia. }
  cbn [append]. destruct (negb _); [auto|].
  destruct (sz <=? 3)%nat; [auto|].
  destruct x as [|c3 x].
  { cbn [append String.length]. intros H Hw.
    destruct y as [|c3 y]; [exact H|].
    destruct (negb _); [exact H|]. inversion H; subst; lia. }
  cbn [append]. auto.
Qed.

(** While a rune is being stepped over, its bytes all get its class. *)
Lemma space_flags_inside x c b k sp :
  (String.length x < k)%nat ->
  space_flags (x ++ String c b) k sp =
    (List.repeat sp (String.length x) ++ sp :: space_flags b (k - S (String.length x)) sp)%list.
Proof.
  revert k. induction x as [|c0 x IH]; intros k Hk;
    cbn [append String.length space_flags List.repeat app] in *.
  - destruct k; [lia|]. do 2 f_equal. lia.
  - destruct k; [lia|]. rewrite IH by lia. reflexivity.
Qed.

(** A run of non-space bytes that ends at a rune boundary keeps its
    flags when it is cut out of the string. *)
Lemma run_flags_alone b fb :
  forall p k sp,
    space_flags (p ++ b) k sp = (List.repeat false (String.length p) ++ fb)%list ->
    run_end b fb ->
    space_flags p k sp = List.repeat false (String.length p).
Proof.
  induction p as [|c p IH]; intros k sp Hfl Hend; [reflexivity|].
  cbn [append space_flags String.length List.repeat app] in *.
  destruct k as [|k].
  - destruct (DecodeRuneInString (String c (p ++ b))) as [r w] eqn:Hdec.
    injection Hfl as Hr Hrest.
    destruct (Nat.le_gt_cases w (S (String.length p))) as [Hle|Hgt].
    + change (String c (p ++ b)) with (String c p ++ b) in Hdec.
      rewrite (decode_prefix _ _ _ _ Hdec Hle), Hr.
      f_equal. rewrite Hr in Hrest. now apply IH.
    + exfalso.
      pose proof (decode_width c (p ++ b)) as Hw. rewrite Hdec in Hw.
      simpl in Hw. rewrite length_append in Hw.
      destruct b as [|c' b]; [simpl in Hw; lia|].
      rewrite space_flags_inside in Hrest by lia.
      rewrite Hr in Hrest. apply app_inv_head in Hrest.
      destruct Hend as [[Hb _]|[fb' Hfb]]; [discriminate|].
      rewrite Hfb in Hrest. discriminate.
  - injection Hfl as Hsp Hrest. subst sp. f_equal.
    now apply IH.
Qed.

Lemma runs_nonempty c s fl :
  List.length fl = String.length s -> runs (String c s) (false :: fl) <> [].
Proof.
  intros _. simpl. destruct fl as [|[] fl]; try discriminate.
  destruct (runs s (false :: fl)); discriminate.
Qed.

(** Every field is whole, and the first one, while it is still being
    read, is a run that ends at a rune boundary. *)
Lemma runs_whole s :
  forall k sp,
    match runs s (space_flags s k sp) with
    | [] => True
    | p :: rest =>
        Forall Whole rest /\ p <> ""
        /\ match space_flags s k sp with
           | false :: _ =>
               exists b fb,
                 s = p ++ b
                 /\ space_flags s k sp
                    = (List.repeat false (String.length p) ++ fb)%list
                 /\ run_end b fb
           | _ => Whole p
           end
    end.
Proof.
  induction s as [|c s IH]; intros k sp; [exact I|].
  assert (Hstep : exists f0 k' sp',
             space_flags (String c s) k sp = f0 :: space_flags s k' sp'
             /\ (f0 = true -> (0 < k')%nat -> sp' = true)).
  { cbn [space_flags]. destruct k as [|k].
    - destruct (DecodeRuneInString (String c s)) as [r w].
      exists (IsSpace r), (Nat.pred w), (IsSpace r). auto.
    - exists sp, k, sp. auto. }
  destruct Hstep as (f0 & k' & sp' & Hfl & Hstate). rewrite Hfl.
  specialize (IH k' sp').
  pose proof (space_flags_length s k' sp') as Hlen.
  destruct f0.
  - (* a space byte: the fields are those of the rest *)
    cbn [runs].
    destruct (runs s (space_flags s k' sp')) as [|p rest]; [exact I|].
    destruct IH as (Hrest & Hne & Hp). split; [exact Hrest|]. split; [exact Hne|].
    destruct (space_flags s k' sp') as [|[] fl'] eqn:Hfl'; try exact Hp.
    destruct Hp as (b & fb & Hs & Hflags & Hend).
    split; [exact Hne|].
    assert (Hk : k' = 0%nat).
    { destruct k' as [|k'']; [reflexivity|].
      rewrite (Hstate eq_refl ltac:(lia)) in Hfl'.
      destruct s; simpl in Hfl'; discriminate. }
    subst k'. rewrite (space_flags_boundary p false sp').
    apply (run_flags_alone b fb); [|exact Hend].
    rewrite <- Hs, Hfl'. exact Hflags.
  - (* a byte of a field *)
    destruct (space_flags s k' sp') as [|f1 fl'] eqn:Hfl'.
    + destruct s; [|simpl in Hlen; discriminate].
      cbn. split; [constructor|]. split; [discriminate|].
      exists "", []. repeat split. left. auto.
    + destruct f1.
      * cbn [runs]. split; [|split; [discriminate|]].
        -- destruct s as [|c1 s]; [simpl in Hlen; discriminate|].
           cbn [runs] in *.
           destruct (runs s fl') as [|p rest]; [constructor|].
           destruct IH as (Hrest & _ & Hp). constructor; assumption.
        -- exists s, (true :: fl'). repeat split. right. eauto.
      * destruct s as [|c1 s]; [simpl in Hlen; discriminate|].
        pose proof (runs_nonempty c1 s fl' ltac:(simpl in Hlen; lia)) as Hne.
        cbn [runs] in *.
        destruct (match fl' with
                  | false :: _ =>
                      match runs s fl' with
                      | [] => [String c1 ""]
                      | w :: ws => String c1 w :: ws
                      end
                  | _ => String c1 "" :: runs s fl'
                  end) as [|p rest] eqn:Hruns; [congruence|].
        destruct IH as (Hrest & _ & b & fb & Hs & Hflags & Hend).
        split; [exact Hrest|]. split; [discriminate|].
        exists b, fb. cbn [append String.length List.repeat app].
        rewrite <- Hs, Hflags. auto.
Qed.

(** [strings.Fields] is idempotent on each of its fields. *)
Lemma fields_whole s p : In p (strings_Fields s) -> Whole p.
Proof.
  unfold strings_Fields. intros Hin.
  pose proof (runs_whole s 0 false) as H.
  destruct (runs s (space_flags s 0 false)) as [|q rest]; [destruct Hin|].
  destruct H as (Hrest & Hne & Hq).
  destruct Hin as [<-|Hin]; [|now apply (proj1 (Forall_forall _ _) Hrest)].
  destruct (space_flags s 0 false) as [|[] fl] eqn:Hfl; try exact Hq.
  destruct Hq as (b & fb & Hs & Hflags & Hend).
  split; [exact Hne|].
  apply (run_flags_alone b fb); [|exact Hend].
  now rewrite <- Hs, Hfl.
Qed.

(* ----------------------------------------------------------------- *)
(** ** The standard parser *)

Lemma decimal_from_lower ds :
  all_chars is_digit ds = true ->
  forall x, 0 <= x -> x <= decimal_from x ds.
Proof.
  induction ds as [|c ds IH]; simpl; intros Hd x Hx; [lia|].
  apply andb_true_iff in Hd as [Hc Hd].
  pose proof (digit_val_range c Hc).
  specialize (IH Hd (x * 10 + digit_val c)). lia.
Qed.

Lemma leadingInt_from_rest s :
  forall x v r, leadingInt_from x s = Some (v, r) -> r = snd (span is_digit s).
Proof.
  induction s as [|c s IH]; simpl; intros x v r H.
  - now inversion H.
  - destruct (is_digit c).
    + destruct (x >? two63 / 10); [discriminate|].
      destruct (x * 10 + digit_val c >? two63); [discriminate|].
      apply IH in H. now destruct (span is_digit s).
    + now inversion H.
Qed.

Lemma leadingFraction_from_rest s :
  forall x scale ov,
    snd (leadingFraction_from x scale ov s) = snd (span is_digit s).
Proof.
  induction s as [|c s IH]; simpl; intros x scale ov; [reflexivity|].
  destruct (is_digit c); [|reflexivity].
  assert (E : snd (let (a, b) := span is_digit s in (String c a, b))
              = snd (span is_digit s)) by now destruct (span is_digit s).
  rewrite E.
  destruct ov; [apply IH|].
  repeat match goal with
         | |- context [if ?b then _ else _] => destruct b
         end; apply IH.
Qed.

Lemma leadingInt_from_digits ds r :
  all_chars is_digit ds = true ->
  starts_with is_digit r = false ->
  forall x,
    0 <= x -> decimal_from x ds <= two63 ->
    leadingInt_from x (ds ++ r) = Some (decimal_from x ds, r).
Proof.
  intros Hds Hr.
  induction ds as [|c ds IH]; cbn [append leadingInt_from decimal_from];
    intros x Hx Hv.
  - destruct r as [|c r]; [reflexivity|].
    cbn [starts_with leadingInt_from] in *. now rewrite Hr.
  - cbn [all_chars] in Hds. apply andb_true_iff in Hds as [Hc Hds]. rewrite Hc.
    pose proof (digit_val_range c Hc) as Hdv.
    pose proof (decimal_from_lower ds Hds (x * 10 + digit_val c) ltac:(lia)) as Hlow.
    assert (Hx10 : x <= two63 / 10).
    { apply Z.div_le_lower_bound; lia. }
    destruct (Z.gtb_spec x (two63 / 10)); [lia|].
    destruct (Z.gtb_spec (x * 10 + digit_val c) two63); [lia|].
    apply IH; [exact Hds|lia|exact Hv].
Qed.

(** The keys of [unitMap]. *)
Lemma unitMap_inv u unit :
  unitMap u = Some unit ->
  (u = "ns" /\ unit = Nanosecond) \/ (u = "us" /\ unit = Microsecond)
  \/ (u = micro_s /\ unit = Microsecond) \/ (u = mu_s /\ unit = Microsecond)
  \/ (u = "ms" /\ unit = Millisecond) \/ (u = "s" /\ unit = Second)
  \/ (u = "m" /\ unit = Minute) \/ (u = "h" /\ unit = Hour).
Proof.
  unfold unitMap.
  repeat match goal with
         | |- context [String.eqb u ?k] =>
             destruct (String.eqb_spec u k) as [->|?];
             [intros H; inversion H; tauto|]
         end.
  discriminate.
Qed.

Ltac unit_cases H :=
  apply unitMap_inv in H;
  destruct H as [[-> ->]|[[-> ->]|[[-> ->]|[[-> ->]|[[-> ->]|[[-> ->]|[[-> ->]|[-> ->]]]]]]]].

Lemma unitMap_key u unit :
  unitMap u = Some unit ->
  u <> "" /\ starts_with is_numch u = false
  /\ all_chars (fun c => negb (is_numch c)) u = true
  /\ SpaceFree u /\ 0 < unit <= Hour.
Proof.
  intros H. unit_cases H; (split; [discriminate|]); (split; [reflexivity|]);
    (split; [reflexivity|]); (split; [|vm_compute; split; [reflexivity|discriminate]]).
  all: repeat first [ apply SpaceFree_nil
                    | apply SpaceFree_micro
                    | apply SpaceFree_mu
                    | apply SpaceFree_plain; [reflexivity|] ].
Qed.

Lemma unitMap_letters u unit :
  unitMap u = Some unit -> all_chars is_letter u = true ->
  strings_ToLower u = u
  /\ (u = "ns" \/ u = "us" \/ u = "ms" \/ u = "s" \/ u = "m" \/ u = "h").
Proof.
  intros H Hl. unit_cases H; try discriminate Hl; (split; [reflexivity|]); tauto.
Qed.

Lemma letters_not_numch u :
  all_chars is_letter u = true ->
  all_chars (fun c => negb (is_numch c)) u = true.
Proof.
  apply all_chars_impl. intros c H. now rewrite (letter_not_numch c H).
Qed.

Lemma length_eqb_app_nil a b :
  Nat.eqb (String.length (a ++ b)) (String.length b) = true -> a = "".
Proof.
  rewrite length_append. intros H. apply Nat.eqb_eq in H.
  destruct a; [reflexivity|simpl in H; lia].
Qed.

Lemma is_dot_char c : is_dot c = true -> c = "."%char.
Proof. byte_cases c; vm_compute; intros H; try discriminate H; reflexivity. Qed.

(** What [fraction_part] consumes: nothing, or a dot and digits. *)
Lemma fraction_part_inv s f scale s2 post :
  fraction_part s = (f, scale, s2, post) ->
  exists fr,
    s = fr ++ s2
    /\ (fr = "" /\ post = false
        \/ exists fd, fr = String "." fd /\ all_chars is_digit fd = true
                      /\ (post = false <-> fd = "")).
Proof.
  unfold fraction_part. destruct s as [|c t].
  - intros H. inversion H. exists "". auto.
  - destruct (is_dot c) eqn:Hdot.
    + destruct (leadingFraction t) as [[f' sc'] r] eqn:Hlf. intros H.
      inversion H; subst; clear H.
      pose proof (leadingFraction_from_rest t 0 (f64_of_Z 1) false) as Hr.
      fold (leadingFraction t) in Hr. rewrite Hlf in Hr. simpl in Hr.
      pose proof (span_parts is_digit t) as Hparts.
      pose proof (span_fst_all is_digit t) as Hall.
      rewrite <- Hr in Hparts.
      exists (String "." (fst (span is_digit t))).
      rewrite (is_dot_char c Hdot). split; [simpl; now rewrite Hparts|].
      right. exists (fst (span is_digit t)). repeat split; auto.
      * intros Hpost. apply negb_false_iff in Hpost.
        rewrite <- Hparts in Hpost at 1. now apply length_eqb_app_nil in Hpost.
      * intros Hfd. apply negb_false_iff.
        rewrite <- Hparts at 1. rewrite Hfd. apply Nat.eqb_refl.
    + intros H. inversion H. exists "". auto.
Qed.

(** One turn of the loop of [time.ParseDuration] that does not fail has
    read a number and a unit of [unitMap]. *)
Lemma parse_groups_step fuel s d r :
  s <> "" ->
  parse_groups (S fuel) s d = inl r ->
  exists num u unit s3 d',
    s = num ++ u ++ s3
    /\ GroupNumber num
    /\ unitMap u = Some unit
    /\ span_unit (u ++ s3) = (u, s3)
    /\ parse_groups fuel s3 d' = inl r.
Proof.
  intros Hne. destruct s as [|c s']; [congruence|]. cbn [parse_groups].
  destruct (negb (is_numch c)); [discriminate|].
  destruct (leadingInt (String c s')) as [[v s1]|] eqn:Hli; [|discriminate].
  apply leadingInt_from_rest in Hli.
  pose proof (span_parts is_digit (String c s')) as Hparts.
  pose proof (span_fst_all is_digit (String c s')) as Hall.
  rewrite <- Hli in Hparts.
  set (i := fst (span is_digit (String c s'))) in *.
  destruct (fraction_part s1) as [[[f scale] s2] post] eqn:Hfp.
  destruct (fraction_part_inv _ _ _ _ _ Hfp) as (fr & Hs1 & Hfr).
  destruct (negb (negb (Nat.eqb (String.length (String c s')) (String.length s1)))
            && negb post) eqn:Hpp; [discriminate|].
  destruct (span_unit s2) as [u s3] eqn:Hsu.
  destruct u as [|cu u']; [discriminate|].
  destruct (unitMap (String cu u')) as [unit|] eqn:Hunit; [|discriminate].
  destruct (group_value v f scale unit) as [v'|]; [|discriminate].
  destruct (wrapu64 (d + v') >? two63); [discriminate|].
  intros Hrec.
  pose proof (span_parts (fun c => negb (is_numch c)) s2) as Hs2.
  unfold span_unit in Hsu. rewrite Hsu in Hs2. simpl fst in Hs2. simpl snd in Hs2.
  exists (i ++ fr), (String cu u'), unit, s3, (wrapu64 (d + v')).
  split. { rewrite append_assoc, Hs2, <- Hs1. now rewrite Hparts. }
  split.
  { exists i, fr. split; [reflexivity|]. split; [exact Hall|].
    split. { destruct Hfr as [[-> _]|(fd & -> & Hfd & _)]; [now left|right; eauto]. }
    apply andb_false_iff in Hpp. destruct Hpp as [Hpre|Hpost].
    - (* some digit before the dot *)
      apply negb_false_iff in Hpre. apply negb_true_iff in Hpre.
      assert (Hi : i <> "").
      { intros Hi. rewrite <- Hparts, Hi in Hpre. simpl append in Hpre.
        now rewrite Nat.eqb_refl in Hpre. }
      destruct i as [|ci i']; [congruence|]. simpl in Hall.
      apply andb_true_iff in Hall as [Hci _].
      split; [discriminate|]. simpl. intros E. inversion E; subst.
      discriminate Hci.
    - (* some digit after the dot *)
      apply negb_false_iff in Hpost.
      destruct Hfr as [[_ Hp]|(fd & -> & Hfd & Hp)]; [congruence|].
      assert (fd <> "").
      { intros Hfd'. apply Hp in Hfd'. congruence. }
      destruct fd as [|cf fd']; [congruence|].
      split.
      * destruct i; discriminate.
      * destruct i as [|ci i']; cbn [append]; [discriminate|].
        destruct i'; discriminate. }
  split; [exact Hunit|].
  split; [|exact Hrec].
  rewrite Hs2. exact Hsu.
Qed.

Lemma GroupNumber_numch num : GroupNumber num -> all_chars is_numch num = true.
Proof.
  intros (i & fr & -> & Hi & Hfr & _). rewrite all_chars_app.
  rewrite (all_chars_impl _ _ _ digit_numch Hi). simpl.
  destruct Hfr as [->|(f & -> & Hf)]; [reflexivity|].
  simpl. now apply (all_chars_impl _ _ _ digit_numch).
Qed.

Lemma GroupNumber_SpaceFree num : GroupNumber num -> SpaceFree num.
Proof.
  intros H. apply plain_SpaceFree.
  apply (all_chars_impl _ _ _ numch_plain), GroupNumber_numch, H.
Qed.

(** The loop of [time.ParseDuration] accepts groups only. *)
Lemma parse_groups_Groups fuel :
  forall s d r,
    s <> "" -> parse_groups fuel s d = inl r -> Groups s.
Proof.
  induction fuel as [|fuel IH]; intros s d r Hne H; [discriminate|].
  destruct (parse_groups_step _ _ _ _ Hne H)
    as (num & u & unit & s3 & d' & -> & Hnum & Hunit & _ & Hrec).
  destruct s3 as [|c3 s3'].
  - rewrite append_nil_r. now apply (Groups_one _ _ unit).
  - apply (Groups_more _ _ unit); auto.
    now apply (IH _ d' r).
Qed.

Lemma Groups_SpaceFree s : Groups s -> SpaceFree s.
Proof.
  induction 1 as [num u unit Hnum Hu|num u unit rest Hnum Hu _ IH].
  - apply SpaceFree_app; [now apply GroupNumber_SpaceFree|].
    apply (unitMap_key _ _ Hu).
  - apply SpaceFree_app; [now apply GroupNumber_SpaceFree|].
    apply SpaceFree_app; [apply (unitMap_key _ _ Hu)|exact IH].
Qed.

Lemma Groups_nonempty s : Groups s -> s <> "".
Proof.
  intros H E. destruct H as [num u unit (i & fr & _ & _ & _ & Hn & _) _
                            |num u unit rest (i & fr & _ & _ & _ & Hn & _) _ _];
    destruct num; simpl in E; congruence.
Qed.

(** What [time.ParseDuration] accepts has the standard syntax. *)
Lemma time_ParseDuration_syntax s d :
  time_ParseDuration s = (d, None) -> StandardSyntax s.
Proof.
  unfold time_ParseDuration.
  assert (Hsign : exists sign,
             s = sign ++ snd (strip_sign s)
             /\ (sign = "" \/ sign = "+" \/ sign = "-")).
  { unfold strip_sign. destruct s as [|c t]; [exists ""; auto|].
    destruct (byte c =? 45) eqn:E1.
    - exists "-". split; [|auto]. simpl. f_equal.
      clear - E1. byte_cases c; vm_compute in E1; try discriminate; reflexivity.
    - destruct (byte c =? 43) eqn:E2.
      + exists "+". split; [|auto]. simpl. f_equal.
        clear - E2. byte_cases c; vm_compute in E2; try discriminate; reflexivity.
      + exists "". auto. }
  destruct Hsign as (sign & Hs & Hsign).
  destruct (strip_sign s) as [neg s1]. simpl in Hs.
  destruct (String.eqb_spec s1 "0") as [->|H0].
  { intros _. exists sign, "0". auto. }
  destruct (String.eqb_spec s1 "") as [->|He]; [discriminate|].
  destruct (parse_groups _ s1 0) as [r|e] eqn:Hpg; [|discriminate].
  intros _. exists sign, s1. repeat split; auto.
  right. now apply (parse_groups_Groups _ _ _ _ He Hpg).
Qed.

Lemma StandardSyntax_SpaceFree s : StandardSyntax s -> SpaceFree s /\ s <> "".
Proof.
  intros (sign & body & -> & Hsign & Hbody).
  assert (Hb : SpaceFree body /\ body <> "").
  { destruct Hbody as [->|Hg].
    - split; [|discriminate]. apply SpaceFree_plain; [reflexivity|constructor].
    - split; [now apply Groups_SpaceFree|now apply Groups_nonempty]. }
  destruct Hb as [Hb Hne]. split.
  - apply SpaceFree_app; [|exact Hb].
    destruct Hsign as [-> | [-> | ->]]; [constructor| |];
      (apply SpaceFree_plain; [reflexivity|constructor]).
  - destruct sign; [exact Hne|discriminate].
Qed.

(** A string the standard parser accepts is a single field. *)
Lemma time_ParseDuration_one_field s d :
  time_ParseDuration s = (d, None) -> strings_Fields s = [s].
Proof.
  intros H. apply time_ParseDuration_syntax, StandardSyntax_SpaceFree in H.
  destruct H. now apply SpaceFree_fields.
Qed.

(** The standard parser returns an [int64]. *)
Lemma time_ParseDuration_range s d e :
  time_ParseDuration s = (d, e) -> MinInt64 <= d <= MaxInt64.
Proof.
  unfold time_ParseDuration. destruct (strip_sign s) as [neg s1].
  assert (Hz : MinInt64 <= 0 <= MaxInt64) by (vm_compute; split; discriminate).
  destruct (String.eqb s1 "0"); [intros H; inversion H; exact Hz|].
  destruct (String.eqb s1 ""); [intros H; inversion H; exact Hz|].
  destruct (parse_groups _ s1 0) as [r|err] eqn:Hpg;
    [|intros H; inversion H; exact Hz].
  destruct neg; [intros H; inversion H; apply wrap64_range|].
  destruct (Z.gtb_spec r (two63 - 1)) as [Hgt|Hle]; intros H; inversion H; subst;
    [exact Hz|].
  assert (0 <= d).
  { clear - Hpg. revert Hpg. generalize (S (String.length s1)). intros fuel.
    assert (Hd0 : 0 <= 0) by lia. revert Hd0. generalize 0 at 2 3.
    revert s1. induction fuel as [|fuel IH]; intros s1 d0 Hd0; [discriminate|].
    cbn [parse_groups]. destruct s1 as [|c s']; [intros H; inversion H; lia|].
    destruct (negb (is_numch c)); [discriminate|].
    destruct (leadingInt _) as [[v s1]|]; [|discriminate].
    destruct (fraction_part s1) as [[[f scale] s2] post].
    destruct (_ && _); [discriminate|].
    destruct (span_unit s2) as [u s3].
    destruct u; [discriminate|].
    destruct (unitMap _); [|discriminate].
    destruct (group_value _ _ _ _); [|discriminate].
    destruct (_ >? _); [discriminate|].
    apply IH. unfold wrapu64. apply Z.mod_pos_bound. reflexivity. }
  unfold MinInt64, MaxInt64, two63 in *. lia.
Qed.

Lemma span_snd_length p s :
  (String.length (snd (span p s)) <= String.length s)%nat.
Proof.
  pose proof (span_parts p s) as H. rewrite <- H at 2.
  rewrite length_append. lia.
Qed.

(** The fuel of [parse_groups] never runs out: every turn that goes on
    has consumed a byte, so any fuel above the length of the string
    gives the same result. *)
Lemma parse_groups_fuel n :
  forall m s d,
    (String.length s < n)%nat -> (String.length s < m)%nat ->
    parse_groups n s d = parse_groups m s d.
Proof.
  induction n as [|n IH]; intros m s d Hn Hm; [lia|].
  destruct m as [|m]; [lia|]. cbn [parse_groups].
  destruct s as [|c s']; [reflexivity|].
  destruct (negb (is_numch c)); [reflexivity|].
  destruct (leadingInt (String c s')) as [[v s1]|] eqn:Hli; [|reflexivity].
  apply leadingInt_from_rest in Hli.
  pose proof (span_snd_length is_digit (String c s')) as Hl1. rewrite <- Hli in Hl1.
  destruct (fraction_part s1) as [[[f scale] s2] post] eqn:Hfp.
  destruct (fraction_part_inv _ _ _ _ _ Hfp) as (fr & Hs1 & _).
  destruct (_ && _); [reflexivity|].
  destruct (span_unit s2) as [u s3] eqn:Hsu.
  pose proof (span_parts (fun c => negb (is_numch c)) s2) as Hs2.
  unfold span_unit in Hsu. rewrite Hsu in Hs2. cbn [fst snd] in Hs2.
  destruct u as [|cu u']; [reflexivity|].
  destruct (unitMap (String cu u')); [|reflexivity].
  destruct (group_value v f scale _); [|reflexivity].
  destruct (_ >? _); [reflexivity|].
  assert (String.length s3 < String.length (String c s'))%nat.
  { rewrite Hs1, <- Hs2, !length_append in Hl1. simpl in *. lia. }
  apply IH; lia.
Qed.

Lemma letters_start_not_numch u :
  all_chars is_letter u = true -> starts_with is_numch u = false.
Proof. apply all_chars_starts, letter_not_numch. Qed.

Lemma pair_eq {A B : Type} (a a' : A) (b b' : B) :
  (a, b) = (a', b') -> a = a' /\ b = b'.
Proof. intros H. now inversion H. Qed.

(** A number followed by letters that are no unit of [unitMap] is not
    accepted by the loop of the standard parser. *)
Lemma parse_groups_unknown fuel num u d :
  all_chars is_numch num = true ->
  all_chars is_letter u = true ->
  unitMap u = None ->
  num ++ u <> "" ->
  exists e, parse_groups fuel (num ++ u) d = inr e.
Proof.
  intros Hnum Hu Hunit Hne.
  destruct fuel as [|fuel]; [now exists InvalidDuration|].
  destruct (parse_groups (S fuel) (num ++ u) d) as [r|e] eqn:Hpg; [|now exists e].
  exfalso.
  destruct (parse_groups_step _ _ _ _ Hne Hpg)
    as (num' & u' & unit & s3 & d' & Hs & Hnum' & Hunit' & Hspan & _).
  destruct (unitMap_key _ _ Hunit') as (Hu'ne & Hu'start & _).
  assert (H1 : span is_numch (num ++ u) = (num, u)).
  { apply span_app; [exact Hnum|now apply letters_start_not_numch]. }
  assert (H2 : span is_numch (num' ++ u' ++ s3) = (num', u' ++ s3)).
  { apply span_app; [now apply GroupNumber_numch|].
    now rewrite starts_with_app. }
  rewrite Hs, H2 in H1. apply pair_eq in H1 as [-> Hu'].
  rewrite <- Hu' in Hu.
  unfold span_unit in Hspan.
  rewrite (span_all _ _ (letters_not_numch _ Hu)) in Hspan.
  apply pair_eq in Hspan as [Hu'' Hs3]. subst s3.
  rewrite append_nil_r in Hu'. subst u'. congruence.
Qed.

Lemma time_ParseDuration_unknown num u :
  all_chars is_numch num = true -> num <> "" ->
  all_chars is_letter u = true ->
  unitMap u = None ->
  num ++ u <> "0" ->
  exists e, time_ParseDuration (num ++ u) = (0, Some e).
Proof.
  intros Hnum Hne Hu Hunit H0. unfold time_ParseDuration.
  assert (Hsign : strip_sign (num ++ u) = (false, num ++ u)).
  { destruct num as [|c num']; [congruence|]. simpl in Hnum.
    apply andb_true_iff in Hnum as [Hc _].
    destruct (numch_no_sign c Hc) as [E1 E2].
    unfold strip_sign. cbn [append]. now rewrite E1, E2. }
  rewrite Hsign.
  destruct (String.eqb_spec (num ++ u) "0"); [congruence|].
  destruct (String.eqb_spec (num ++ u) "") as [E|Hnu].
  { now exists InvalidDuration. }
  destruct (parse_groups_unknown (S (String.length (num ++ u))) num u 0
              Hnum Hu Hunit Hnu) as [e He].
  rewrite He. now exists e.
Qed.

Lemma time_ParseDuration_letters s :
  all_chars is_letter s = true -> s <> "" ->
  time_ParseDuration s = (0, Some InvalidDuration).
Proof.
  intros Hs Hne. destruct s as [|c s']; [congruence|].
  simpl in Hs. apply andb_true_iff in Hs as [Hc _].
  destruct (letter_no_sign c Hc) as [E1 E2].
  unfold time_ParseDuration, strip_sign. rewrite E1, E2.
  destruct (String.eqb_spec (String c s') "0") as [E|_].
  { inversion E; subst. discriminate Hc. }
  destruct (String.eqb_spec (String c s') "") as [E|_]; [discriminate|].
  cbn [parse_groups]. now rewrite (letter_not_numch c Hc).
Qed.

(** One turn of the loop on a whole number and a unit. *)
Lemma parse_groups_whole fuel ds u unit rest d :
  all_chars is_digit ds = true -> ds <> "" ->
  unitMap u = Some unit ->
  starts_with (fun c => negb (is_numch c)) rest = false ->
  decimal ds * unit <= two63 ->
  parse_groups (S fuel) (ds ++ u ++ rest) d =
    if wrapu64 (d + decimal ds * unit) >? two63 then inr InvalidDuration
    else parse_groups fuel rest (wrapu64 (d + decimal ds * unit)).
Proof.
  intros Hds Hne Hunit Hrest Hbound.
  destruct (unitMap_key _ _ Hunit) as (Hune & Hustart & Huall & _ & Hpos & _).
  pose proof (decimal_from_lower ds Hds 0 (Z.le_refl 0)) as Hd0. fold (decimal ds) in Hd0.
  assert (Hv : decimal ds <= two63) by nia.
  assert (Hdig : starts_with is_digit (u ++ rest) = false).
  { rewrite starts_with_app by exact Hune.
    destruct u as [|cu u']; [congruence|]. simpl in *.
    unfold is_numch in Hustart. now apply orb_false_iff in Hustart as [H _]. }
  assert (Hli : leadingInt (ds ++ u ++ rest) = Some (decimal ds, u ++ rest)).
  { apply leadingInt_from_digits; auto. lia. }
  assert (Hfp : fraction_part (u ++ rest) = (0, f64_of_Z 1, u ++ rest, false)).
  { destruct u as [|cu u']; [congruence|]. cbn [append fraction_part].
    simpl in Hustart. unfold is_numch in Hustart.
    apply orb_false_iff in Hustart as [_ H]. now rewrite H. }
  assert (Hsu : span_unit (u ++ rest) = (u, rest)) by now apply span_app.
  assert (Hpre : Nat.eqb (String.length (ds ++ u ++ rest)) (String.length (u ++ rest))
                 = false).
  { apply Nat.eqb_neq. rewrite length_append. destruct ds; [congruence|simpl; lia]. }
  assert (Hgv : group_value (decimal ds) 0 (f64_of_Z 1) unit
                = Some (decimal ds * unit)).
  { unfold group_value.
    destruct (Z.gtb_spec (decimal ds) (two63 / unit)) as [Hgt|_].
    - exfalso. assert (decimal ds <= two63 / unit)
        by (apply Z.div_le_lower_bound; lia). lia.
    - cbn. unfold wrapu64. rewrite Z.mod_small; [reflexivity|].
      unfold two63, two64 in *. nia. }
  destruct ds as [|c ds']; [congruence|].
  cbn [append parse_groups]. cbn [append] in Hli, Hpre.
  assert (Hc : is_numch c = true).
  { simpl in Hds. apply andb_true_iff in Hds as [Hc _]. now apply digit_numch. }
  rewrite Hc. cbn [negb]. rewrite Hli, Hfp, Hpre. cbn [negb andb].
  rewrite Hsu. destruct u as [|cu u']; [congruence|].
  rewrite Hunit, Hgv. reflexivity.
Qed.

(** The standard parser on a whole number and one of its units. *)
Lemma time_ParseDuration_whole ds u unit :
  all_chars is_digit ds = true -> ds <> "" ->
  unitMap u = Some unit ->
  decimal ds * unit <= MaxInt64 ->
  time_ParseDuration (ds ++ u) = (decimal ds * unit, None).
Proof.
  intros Hds Hne Hunit Hbound.
  destruct (unitMap_key _ _ Hunit) as (Hune & _ & _ & _ & Hpos & _).
  pose proof (decimal_from_lower ds Hds 0 (Z.le_refl 0)) as Hd0. fold (decimal ds) in Hd0.
  unfold time_ParseDuration.
  assert (Hsign : strip_sign (ds ++ u) = (false, ds ++ u)).
  { destruct ds as [|c ds']; [congruence|]. simpl in Hds.
    apply andb_true_iff in Hds as [Hc _].
    destruct (numch_no_sign c (digit_numch c Hc)) as [E1 E2].
    unfold strip_sign. cbn [append]. now rewrite E1, E2. }
  rewrite Hsign.
  assert (Hlen : (2 <= String.length (ds ++ u))%nat).
  { rewrite length_append. destruct ds; [congruence|]. destruct u; [congruence|].
    simpl. lia. }
  destruct (String.eqb_spec (ds ++ u) "0") as [E|_].
  { rewrite E in Hlen. simpl in Hlen. lia. }
  destruct (String.eqb_spec (ds ++ u) "") as [E|_].
  { rewrite E in Hlen. simpl in Hlen. lia. }
  rewrite <- (append_nil_r u) at 2.
  rewrite (parse_groups_whole _ ds u unit "" 0 Hds Hne Hunit eq_refl)
    by (unfold MaxInt64 in Hbound; lia).
  assert (Hw : wrapu64 (0 + decimal ds * unit) = decimal ds * unit).
  { unfold wrapu64. rewrite Z.mod_small; [reflexivity|].
    unfold MaxInt64, two63, two64 in *. nia. }
  rewrite Hw.
  destruct (Z.gtb_spec (decimal ds * unit) two63) as [Hgt|_];
    [unfold MaxInt64 in Hbound; lia|].
  destruct (String.length (ds ++ u)) as [|n]; [lia|]. cbn [parse_groups].
  destruct (Z.gtb_spec (decimal ds * unit) (two63 - 1)) as [Hgt|_];
    [unfold MaxInt64 in Hbound; lia|reflexivity].
Qed.

(* ----------------------------------------------------------------- *)
(** ** The regular expression *)

Lemma re_match_number_unit num u :
  all_chars is_numch num = true -> num <> "" ->
  all_chars is_letter u = true -> u <> "" ->
  re_FindStringSubmatch (num ++ u) = Some (num, u).
Proof.
  intros Hnum Hne Hu Hune. unfold re_FindStringSubmatch.
  rewrite (span_app is_numch num u Hnum (letters_start_not_numch u Hu)).
  rewrite (span_none is_re_space u
             (all_chars_starts _ _ _ letter_not_re_space Hu)).
  destruct num; [congruence|]. destruct u; [congruence|]. now rewrite Hu.
Qed.

Lemma re_match_number_only num :
  all_chars is_numch num = true -> re_FindStringSubmatch num = None.
Proof.
  intros Hnum. unfold re_FindStringSubmatch.
  rewrite (span_all is_numch num Hnum). simpl. now destruct num.
Qed.

Lemma re_match_letters_only u :
  all_chars is_letter u = true -> re_FindStringSubmatch u = None.
Proof.
  intros Hu. unfold re_FindStringSubmatch.
  rewrite (span_none is_numch u (letters_start_not_numch u Hu)).
  now destruct (span is_re_space u).
Qed.

(** What the regular expression matches. *)
Lemma re_match_inv part num u :
  re_FindStringSubmatch part = Some (num, u) ->
  exists ws,
    part = num ++ ws ++ u
    /\ all_chars is_numch num = true /\ num <> ""
    /\ all_chars is_re_space ws = true
    /\ all_chars is_letter u = true /\ u <> "".
Proof.
  unfold re_FindStringSubmatch.
  pose proof (span_parts is_numch part) as H1.
  pose proof (span_fst_all is_numch part) as H2.
  destruct (span is_numch part) as [n r1]. simpl in H1, H2.
  pose proof (span_parts is_re_space r1) as H3.
  pose proof (span_fst_all is_re_space r1) as H4.
  destruct (span is_re_space r1) as [ws r2]. simpl in H3, H4.
  destruct n as [|cn n']; [discriminate|].
  destruct r2 as [|cr r2']; [discriminate|].
  destruct (all_chars is_letter (String cr r2')) eqn:Hl; [|discriminate].
  intros H. injection H as <- <-. exists ws.
  rewrite H3, H1. repeat split; auto; discriminate.
Qed.

(* ----------------------------------------------------------------- *)
(** ** The fallback path *)

Lemma int64_of_f64_range x : MinInt64 <= int64_of_f64 x <= MaxInt64.
Proof.
  unfold int64_of_f64.
  assert (Hmin : MinInt64 <= MinInt64 <= MaxInt64) by (vm_compute; split; discriminate).
  destruct (f64_trunc x) as [z|]; [|exact Hmin].
  destruct (andb _ _) eqn:E; [|exact Hmin].
  apply andb_true_iff in E as [E1 E2]. split; [now apply Z.leb_le|now apply Z.leb_le].
Qed.

Lemma unit_duration_range unit value d :
  unit_duration unit value = Some d -> MinInt64 <= d <= MaxInt64.
Proof.
  unfold unit_duration.
  repeat match goal with
         | |- context [if ?b then _ else _] =>
             destruct b; [intros H; inversion H; apply int64_of_f64_range|]
         end.
  discriminate.
Qed.

Lemma parsePart_range part d : parsePart part = inl d -> MinInt64 <= d <= MaxInt64.
Proof.
  unfold parsePart.
  destruct (time_ParseDuration part) as [pd [e|]] eqn:Ht.
  - unfold parseNonStandard.
    destruct (re_FindStringSubmatch part) as [[valueStr unitStr]|]; [|discriminate].
    destruct (strconv_ParseFloat valueStr) as [value|ne]; [|discriminate].
    destruct (unit_duration _ value) as [pd'|] eqn:Hu; [|discriminate].
    intros H. inversion H; subst. now apply (unit_duration_range _ _ _ Hu).
  - intros H. inversion H; subst. now apply (time_ParseDuration_range _ _ _ Ht).
Qed.

(** [ParseDuration] on a string that is a single field is the body of
    the loop on it. *)
Lemma ParseDuration_one_field s :
  strings_Fields s = [s] ->
  ParseDuration s =
    match parsePart s with
    | inl d => (d, None)
    | inr err => (0, Some err)
    end.
Proof.
  intros Hf. unfold ParseDuration.
  destruct (time_ParseDuration s) as [d [e|]] eqn:Ht.
  - rewrite Hf. cbn [sumParts].
    destruct (parsePart s) as [pd|err] eqn:Hp; [|reflexivity].
    cbn [sumParts]. unfold add64. rewrite Z.add_0_l.
    now rewrite (wrap64_small _ (parsePart_range _ _ Hp)).
  - unfold parsePart. now rewrite Ht.
Qed.

Lemma ParseDuration_field s p :
  In p (strings_Fields s) ->
  ParseDuration p =
    match parsePart p with
    | inl d => (d, None)
    | inr err => (0, Some err)
    end.
Proof.
  intros Hin. apply ParseDuration_one_field, Whole_fields.
  now apply (fields_whole s).
Qed.

Lemma sumParts_all parts :
  (forall p, In p parts -> exists d, ParseDuration p = (d, None)) ->
  (forall p, In p parts -> parsePart p = inl (fst (ParseDuration p))) ->
  forall total,
    sumParts parts total =
      (fold_left add64 (map (fun p => fst (ParseDuration p)) parts) total, None).
Proof.
  induction parts as [|p ps IH]; intros Hok Hpart total; [reflexivity|].
  cbn [sumParts map fold_left]. rewrite (Hpart p (or_introl eq_refl)).
  apply IH; intros q Hq; [apply Hok|apply Hpart]; now right.
Qed.

(** Where the loop over the parts stops. *)
Lemma sumParts_failure parts :
  forall total d err,
    sumParts parts total = (d, Some err) ->
    exists before p after,
      parts = (before ++ p :: after)%list
      /\ Forall (fun q => exists dq, parsePart q = inl dq) before
      /\ parsePart p = inr err.
Proof.
  induction parts as [|q qs IH]; intros total d err; cbn [sumParts]; [discriminate|].
  destruct (parsePart q) as [dq|e] eqn:Hq.
  - intros H. destruct (IH _ _ _ H) as (before & p & after & -> & Hb & Hp).
    exists (q :: before), p, after. repeat split; auto.
    constructor; [now exists dq|exact Hb].
  - intros H. inversion H; subst. exists [], q, qs. repeat split; auto.
Qed.

Lemma sumParts_success parts :
  forall total d,
    sumParts parts total = (d, None) ->
    Forall (fun q => exists dq, parsePart q = inl dq) parts.
Proof.
  induction parts as [|q qs IH]; intros total d; cbn [sumParts]; [constructor|].
  destruct (parsePart q) as [dq|e] eqn:Hq; [|discriminate].
  intros H. constructor; [now exists dq|now apply (IH _ _ H)].
Qed.

(* ----------------------------------------------------------------- *)
(** ** Numbers and aliases *)

Lemma read_decimal_after_dot s :
  forall sawdigits mant frac r,
    read_decimal s true sawdigits mant frac = Some r ->
    all_chars is_digit s = true /\ (sawdigits = false -> s <> "").
Proof.
  induction s as [|c s IH]; intros sd mant frac r; cbn [read_decimal all_chars].
  - destruct sd; [|discriminate]. intros _. split; [reflexivity|discriminate].
  - destruct (is_dot c); [discriminate|].
    destruct (is_digit c); [|discriminate].
    intros H. apply IH in H as [H _]. rewrite H. split; [reflexivity|discriminate].
Qed.

Lemma read_decimal_syntax s :
  forall sawdigits mant frac r,
    read_decimal s false sawdigits mant frac = Some r ->
    exists i fr,
      s = i ++ fr
      /\ all_chars is_digit i = true
      /\ (fr = "" \/ exists f, fr = String "." f /\ all_chars is_digit f = true)
      /\ (sawdigits = false -> s <> "" /\ s <> ".").
Proof.
  induction s as [|c s IH]; intros sd mant frac r; cbn [read_decimal].
  - destruct sd; [|discriminate]. intros _. exists "", "".
    split; [reflexivity|]. split; [reflexivity|]. split; [now left|discriminate].
  - destruct (is_dot c) eqn:Hdot.
    + intros H. apply read_decimal_after_dot in H as [Hd Hne].
      rewrite (is_dot_char c Hdot). exists "", (String "." s).
      split; [reflexivity|]. split; [reflexivity|]. split; [right; eauto|].
      intros Hsd. split; [discriminate|].
      intros E. inversion E; subst. now apply Hne.
    + destruct (is_digit c) eqn:Hdig; [|discriminate].
      intros H. apply IH in H as (i & fr & -> & Hi & Hfr & _).
      exists (String c i), fr. cbn [append all_chars]. rewrite Hdig, Hi.
      split; [reflexivity|]. split; [reflexivity|]. split; [exact Hfr|].
      intros _. split; [discriminate|].
      intros E. inversion E; subst. discriminate Hdot.
Qed.

Lemma ParseFloat_syntax num v :
  strconv_ParseFloat num = inl v -> GroupNumber num.
Proof.
  unfold strconv_ParseFloat.
  destruct (read_decimal num false false 0 0) as [[mant frac]|] eqn:Hr; [|discriminate].
  intros _. apply read_decimal_syntax in Hr as (i & fr & Hs & Hi & Hfr & Hne).
  exists i, fr. destruct (Hne eq_refl). auto.
Qed.

Lemma ToLower_letters u :
  all_chars is_letter (strings_ToLower u) = true -> all_chars is_letter u = true.
Proof.
  induction u as [|c u IH]; cbn [strings_ToLower all_chars]; [reflexivity|].
  intros H. apply andb_true_iff in H as [Hc Hu].
  now rewrite (lower_byte_letter c Hc), IH.
Qed.

Ltac eqb_chain a :=
  repeat match goal with
         | |- context [String.eqb a ?k] =>
             destruct (String.eqb_spec a k) as [->|?]
         end.

(** On letters, the [switch] of the program knows exactly the aliases
    of the table. *)
Lemma unit_duration_known a value :
  all_chars is_letter a = true ->
  alias_factor a = None -> unit_duration a value = None.
Proof.
  intros Hl. unfold alias_factor, alias_table, lookup_alias, unit_duration, in_list, existsb.
  eqb_chain a; try discriminate; try reflexivity.
Qed.

Lemma unit_duration_some_alias a value d :
  all_chars is_letter a = true ->
  unit_duration a value = Some d -> exists factor, alias_factor a = Some factor.
Proof.
  intros Hl Hd. destruct (alias_factor a) as [factor|] eqn:E; [eauto|].
  rewrite (unit_duration_known a value Hl E) in Hd. discriminate.
Qed.

Lemma alias_letters a factor :
  alias_factor a = Some factor -> all_chars is_lower a = true.
Proof.
  unfold alias_factor, alias_table, lookup_alias, in_list, existsb.
  eqb_chain a; try discriminate; intros _; reflexivity.
Qed.

Lemma unknown_alias_no_unit u :
  all_chars is_letter u = true ->
  alias_factor (strings_ToLower u) = None -> unitMap u = None.
Proof.
  intros Hl Ha. destruct (unitMap u) as [unit|] eqn:Hu; [|reflexivity].
  destruct (unitMap_letters _ _ Hu Hl) as [Hlow Hcases].
  rewrite Hlow in Ha.
  destruct Hcases as [->|[->|[->|[->|[->| ->]]]]]; discriminate Ha.
Qed.

Lemma ToLower_of_letters u :
  all_chars is_letter u = true -> all_chars is_letter (strings_ToLower u) = true.
Proof.
  induction u as [|c u IH]; cbn [strings_ToLower all_chars]; [reflexivity|].
  intros H. apply andb_true_iff in H as [Hc Hu].
  unfold is_letter at 1. now rewrite (lower_byte_of_letter c Hc), IH.
Qed.

(** A whole string holds no byte of the class [\s]. *)
Lemma Whole_no_re_space a c b :
  all_chars plain_byte a = true -> is_re_space c = true ->
  ~ Whole (a ++ String c b).
Proof.
  intros Ha Hc [_ Hfl]. revert Hfl.
  induction a as [|x a IH]; cbn [append String.length List.repeat].
  - cbn [space_flags DecodeRuneInString].
    clear - Hc. byte_cases c; vm_compute in Hc; try discriminate Hc;
      cbn; discriminate.
  - simpl in Ha. apply andb_true_iff in Ha as [Hx Ha].
    unfold plain_byte in Hx. apply andb_true_iff in Hx as [Hlt Hsp].
    apply negb_true_iff in Hsp.
    cbn [space_flags DecodeRuneInString]. rewrite Hlt, Hsp. cbn [Nat.pred].
    intros H. injection H as H. now apply IH.
Qed.

Lemma Whole_match part num u :
  Whole part -> re_FindStringSubmatch part = Some (num, u) ->
  part = num ++ u
  /\ all_chars is_numch num = true /\ num <> ""
  /\ all_chars is_letter u = true /\ u <> "".
Proof.
  intros Hw Hm.
  destruct (re_match_inv _ _ _ Hm) as (ws & -> & Hnum & Hne & Hws & Hu & Hune).
  destruct ws as [|c ws]; [auto|].
  exfalso. simpl in Hws. apply andb_true_iff in Hws as [Hc _].
  apply (Whole_no_re_space num c (ws ++ u)); auto.
  now apply (all_chars_impl _ _ _ numch_plain).
Qed.

(** What the body of the loop accepts. *)
Lemma parsePart_syntax p d :
  Whole p -> parsePart p = inl d -> StandardSyntax p \/ FallbackSyntax p.
Proof.
  intros Hw. unfold parsePart.
  destruct (time_ParseDuration p) as [pd [e|]] eqn:Ht;
    [|intros _; left; now apply (time_ParseDuration_syntax p pd)].
  unfold parseNonStandard.
  destruct (re_FindStringSubmatch p) as [[num u]|] eqn:Hm; [|discriminate].
  destruct (Whole_match _ _ _ Hw Hm) as (-> & Hnum & Hne & Hu & Hune).
  destruct (strconv_ParseFloat num) as [value|ne] eqn:Hpf; [|discriminate].
  destruct (unit_duration (strings_ToLower u) value) as [pd'|] eqn:Hud; [|discriminate].
  intros _. right.
  destruct (unit_duration_some_alias _ _ _ (ToLower_of_letters u Hu) Hud) as [factor Hf].
  exists num, u, factor. repeat split; auto.
  now apply (ParseFloat_syntax num value).
Qed.

(** The error of the body of the loop names the part. *)
Lemma parsePart_error p err :
  Whole p -> parsePart p = inr err -> names_token err p.
Proof.
  intros Hw. unfold parsePart.
  destruct (time_ParseDuration p) as [pd [e|]]; [|discriminate].
  unfold parseNonStandard.
  destruct (re_FindStringSubmatch p) as [[num u]|] eqn:Hm;
    [|intros H; inversion H; now left].
  destruct (Whole_match _ _ _ Hw Hm) as (-> & _).
  destruct (strconv_ParseFloat num) as [value|ne].
  - destruct (unit_duration _ value); [discriminate|].
    intros H. inversion H. right. exists num, u. auto.
  - intros H. inversion H. right. exists num, u. eauto.
Qed.

Lemma numch_letters_SpaceFree num u :
  all_chars is_numch num = true -> all_chars is_letter u = true ->
  SpaceFree (num ++ u).
Proof.
  intros Hnum Hu. apply plain_SpaceFree. rewrite all_chars_app.
  now rewrite (all_chars_impl _ _ _ numch_plain Hnum),
              (all_chars_impl _ _ _ letter_plain Hu).
Qed.

(** [ParseDuration] on a number followed by letters, when the standard
    parser does not know the letters as a unit. *)
Lemma ParseDuration_number_letters num u :
  all_chars is_numch num = true -> num <> "" ->
  all_chars is_letter u = true ->
  unitMap u = None ->
  num ++ u <> "0" ->
  ParseDuration (num ++ u) =
    match parseNonStandard (num ++ u) with
    | inl d => (d, None)
    | inr err => (0, Some err)
    end.
Proof.
  intros Hnum Hne Hu Hunit H0.
  assert (Hf : strings_Fields (num ++ u) = [num ++ u]).
  { apply SpaceFree_fields; [now apply numch_letters_SpaceFree|].
    destruct num; [congruence|discriminate]. }
  rewrite (ParseDuration_one_field _ Hf). unfold parsePart.
  destruct (time_ParseDuration_unknown num u Hnum Hne Hu Hunit H0) as [e He].
  now rewrite He.
Qed.

(* ----------------------------------------------------------------- *)
(** ** float64 arithmetic on small integers is exact *)

Lemma iter_pos_nat {A : Type} (f : A -> A) p :
  forall x, iter_pos f p x = Nat.iter (Pos.to_nat p) f x.
Proof.
  induction p as [p IH|p IH|]; intros x; cbn [iter_pos].
  - rewrite !IH, Pos2Nat.inj_xI.
    replace (S (2 * Pos.to_nat p)) with (Pos.to_nat p + S (Pos.to_nat p))%nat by lia.
    rewrite Nat.iter_add. f_equal. now rewrite Nat.iter_succ_r.
  - rewrite !IH, Pos2Nat.inj_xO.
    replace (2 * Pos.to_nat p)%nat with (Pos.to_nat p + Pos.to_nat p)%nat by lia.
    now rewrite Nat.iter_add.
  - reflexivity.
Qed.

Lemma digits2_size p : digits2_pos p = Pos.size p.
Proof. induction p as [p IH|p IH|]; simpl; now rewrite ?IH. Qed.

Lemma Zdigits2_log2 p : Zdigits2 (Zpos p) = Z.log2 (Zpos p) + 1.
Proof.
  unfold Zdigits2. rewrite digits2_size.
  destruct p as [p|p|]; simpl; try reflexivity; lia.
Qed.

Lemma Zdigits2_unique p d :
  2 ^ (d - 1) <= Zpos p < 2 ^ d -> Zdigits2 (Zpos p) = d.
Proof.
  intros H. rewrite Zdigits2_log2.
  assert (0 <= d - 1).
  { destruct (Z.le_gt_cases 0 (d - 1)); [assumption|].
    exfalso. assert (d <= 0) by lia.
    assert (2 ^ d <= 1).
    { destruct (Z.eq_dec d 0) as [->|]; [simpl; lia|].
      rewrite Z.pow_neg_r by lia. lia. }
    lia. }
  rewrite (Z.log2_unique (Zpos p) (d - 1)); [lia|assumption|].
  now replace (Z.succ (d - 1)) with d by lia.
Qed.

(** Shifting out zero bits loses nothing. *)
Lemma shr_zero_bits (j : nat) :
  forall M : positive,
    Nat.iter j shr_1
      {| shr_m := Zpos M * 2 ^ Z.of_nat j; shr_r := false; shr_s := false |}
    = {| shr_m := Zpos M; shr_r := false; shr_s := false |}.
Proof.
  induction j as [|j IH]; intros M.
  - simpl. now rewrite Pos.mul_1_r.
  - replace (Zpos M * 2 ^ Z.of_nat (S j)) with (Zpos (M~0) * 2 ^ Z.of_nat j).
    + change (Nat.iter (S j) shr_1 ?x) with (shr_1 (Nat.iter j shr_1 x)).
      rewrite IH. reflexivity.
    + rewrite Nat2Z.inj_succ, Z.pow_succ_r by lia. lia.
Qed.

(** Rounding a mantissa whose low bits are zero and whose other bits
    fit the precision is exact. *)
Lemma round_exact (m M : positive) (e j : Z) :
  0 <= j ->
  Zpos m = Zpos M * 2 ^ j ->
  2 ^ 52 <= Zpos M < 2 ^ 53 ->
  -1074 <= e + j <= 971 ->
  binary_round_aux prec emax false (Zpos m) e loc_Exact
    = S754_finite false M (e + j).
Proof.
  intros Hj Hm HM HE.
  assert (Hdm : Zdigits2 (Zpos m) = 53 + j).
  { apply Zdigits2_unique. rewrite Hm.
    replace (53 + j - 1) with (52 + j) by lia.
    rewrite !Z.pow_add_r by lia.
    assert (0 < 2 ^ j) by (apply Z.pow_pos_nonneg; lia). nia. }
  assert (HdM : Zdigits2 (Zpos M) = 53).
  { apply Zdigits2_unique. exact HM. }
  unfold binary_round_aux.
  assert (H1 : shr_fexp prec emax (Zpos m) e loc_Exact
               = ({| shr_m := Zpos M; shr_r := false; shr_s := false |}, e + j)).
  { unfold shr_fexp. rewrite Hdm. unfold fexp, emin, prec, emax.
    replace (Z.max (53 + j + e - 53) (3 - 1024 - 53) - e) with j by lia.
    unfold shr, shr_record_of_loc.
    destruct j as [|pj|pj]; [|  |lia].
    - rewrite Z.add_0_r. f_equal. f_equal. rewrite Hm. simpl. lia.
    - f_equal. rewrite iter_pos_nat, Hm.
      rewrite <- (positive_nat_Z pj) at 1. apply shr_zero_bits. }
  rewrite H1. cbn [shr_m loc_of_shr_record round_nearest_even].
  assert (H2 : shr_fexp prec emax (Zpos M) (e + j) loc_Exact
               = ({| shr_m := Zpos M; shr_r := false; shr_s := false |}, e + j)).
  { unfold shr_fexp. rewrite HdM. unfold fexp, emin, prec, emax.
    replace (Z.max (53 + (e + j) - 53) (3 - 1024 - 53) - (e + j)) with 0 by lia.
    reflexivity. }
  rewrite H2. cbn [shr_m]. unfold emax, prec.
  destruct (Z.leb_spec (e + j) (1024 - 53)); [reflexivity|lia].
Qed.

(** The digits of a positive integer. *)
Lemma log2_bounds n :
  0 < n -> 2 ^ Z.log2 n <= n < 2 ^ (Z.log2 n + 1) /\ 0 <= Z.log2 n.
Proof.
  intros Hn. pose proof (Z.log2_spec n Hn) as H.
  pose proof (Z.log2_nonneg n). replace (Z.succ (Z.log2 n)) with (Z.log2 n + 1) in H by lia.
  tauto.
Qed.

Lemma log2_small n : 0 < n < 2 ^ 53 -> Z.log2 n + 1 <= 53.
Proof.
  intros [Hn Hlt]. destruct (log2_bounds n Hn) as [[Hlo _] Hnn].
  destruct (Z.le_gt_cases (Z.log2 n + 1) 53) as [|Hgt]; [assumption|exfalso].
  assert (2 ^ 53 <= 2 ^ Z.log2 n) by (apply Z.pow_le_mono_r; lia). lia.
Qed.

(** The mantissa of [f64_exact]. *)
Lemma exact_mantissa n :
  0 < n < 2 ^ 53 ->
  let d := Z.log2 n + 1 in
  let M := Z.to_pos (n * 2 ^ (53 - d)) in
  Zpos M = n * 2 ^ (53 - d) /\ 2 ^ 52 <= Zpos M < 2 ^ 53 /\ 1 <= d <= 53.
Proof.
  intros Hn d M. destruct (log2_bounds n (proj1 Hn)) as [[Hlo Hhi] Hnn].
  pose proof (log2_small n Hn) as Hd. fold d in Hhi, Hd.
  assert (Hp : 0 < 2 ^ (53 - d)) by (apply Z.pow_pos_nonneg; lia).
  assert (HM : Zpos M = n * 2 ^ (53 - d)).
  { unfold M. rewrite Z2Pos.id; [reflexivity|nia]. }
  split; [exact HM|]. split; [|unfold d; lia].
  rewrite HM.
  replace (2 ^ 52) with (2 ^ (d - 1) * 2 ^ (53 - d))
    by (rewrite <- Z.pow_add_r by (unfold d; lia); f_equal; lia).
  replace (2 ^ 53) with (2 ^ d * 2 ^ (53 - d))
    by (rewrite <- Z.pow_add_r by (unfold d; lia); f_equal; lia).
  replace (d - 1) with (Z.log2 n) by (unfold d; lia).
  split; nia.
Qed.

Lemma f64_exact_pos n :
  0 < n ->
  f64_exact n =
    S754_finite false (Z.to_pos (n * 2 ^ (53 - (Z.log2 n + 1)))) (Z.log2 n + 1 - 53).
Proof. destruct n; try lia. reflexivity. Qed.

(** The nearest binary64 of a small integer written in decimal is the
    integer. *)
Lemma f64_of_ratio_exact n :
  0 <= n < 2 ^ 53 -> f64_of_ratio n 1 = f64_exact n.
Proof.
  intros [Hn0 Hn]. destruct (Z.eq_dec n 0) as [->|Hnz]; [reflexivity|].
  assert (Hpos : 0 < n < 2 ^ 53) by lia.
  destruct (exact_mantissa n Hpos) as (HM & HMr & Hd).
  rewrite (f64_exact_pos n) by lia.
  set (d := Z.log2 n + 1) in *. set (M := Z.to_pos (n * 2 ^ (53 - d))) in *.
  unfold f64_of_ratio. destruct n as [|p|p]; try lia.
  unfold SFdiv_core_binary.
  rewrite Zdigits2_log2. fold d. change (Zdigits2 1) with 1.
  unfold fexp, emin, prec, emax.
  replace (Z.min (Z.max (d + 0 - (1 + 0) - 53) (3 - 1024 - 53)) (0 - 0))
    with (d - 54) by lia.
  replace (0 - 0 - (d - 54)) with (54 - d) by lia.
  destruct (54 - d) as [|s|s] eqn:Hs; try lia.
  rewrite Z.shiftl_mul_pow2 by lia.
  assert (Hq : Z.div_eucl (Zpos p * 2 ^ Zpos s) 1 = (Zpos p * 2 ^ Zpos s, 0)).
  { pose proof (Z.div_eucl_eq (Zpos p * 2 ^ Zpos s) 1 ltac:(lia)) as Heq.
    pose proof (Z.mod_pos_bound (Zpos p * 2 ^ Zpos s) 1 ltac:(lia)) as Hb.
    unfold Z.modulo in Hb.
    destruct (Z.div_eucl (Zpos p * 2 ^ Zpos s) 1) as [q r].
    f_equal; lia. }
  rewrite Hq. change (new_location 1 0) with loc_Exact.
  assert (Hm : Zpos p * 2 ^ Zpos s = Zpos M * 2 ^ 1).
  { rewrite HM, <- Hs. replace (54 - d) with (53 - d + 1) by lia.
    rewrite Z.pow_add_r by lia. ring. }
  assert (Hmp : 0 < Zpos p * 2 ^ Zpos s) by (rewrite Hm; lia).
  destruct (Zpos p * 2 ^ Zpos s) as [|m|m] eqn:Em; try lia.
  replace (d - 53) with (d - 54 + 1) by lia.
  apply round_exact; [lia|exact Hm|exact HMr|lia].
Qed.

(** The product of two small integers, when small, is exact. *)
Lemma f64_mul_exact a b :
  0 < a -> 0 < b -> a * b < 2 ^ 53 ->
  f64_mul (f64_exact a) (f64_exact b) = f64_exact (a * b).
Proof.
  intros Ha Hb Hab.
  assert (Ha' : 0 < a < 2 ^ 53) by nia.
  assert (Hb' : 0 < b < 2 ^ 53) by nia.
  assert (Hab' : 0 < a * b < 2 ^ 53) by nia.
  destruct (exact_mantissa a Ha') as (HMa & HMar & Hda).
  destruct (exact_mantissa b Hb') as (HMb & HMbr & Hdb).
  destruct (exact_mantissa (a * b) Hab') as (HMab & HMabr & Hdab).
  rewrite (f64_exact_pos a), (f64_exact_pos b), (f64_exact_pos (a * b)) by lia.
  set (da := Z.log2 a + 1) in *. set (db := Z.log2 b + 1) in *.
  set (dab := Z.log2 (a * b) + 1) in *.
  set (Ma := Z.to_pos (a * 2 ^ (53 - da))) in *.
  set (Mb := Z.to_pos (b * 2 ^ (53 - db))) in *.
  set (Mab := Z.to_pos (a * b * 2 ^ (53 - dab))) in *.
  destruct (log2_bounds a Ha) as [[Hloa _] _].
  destruct (log2_bounds b Hb) as [[Hlob _] _].
  destruct (log2_bounds (a * b) (proj1 Hab')) as [[_ Hhiab] _].
  fold dab in Hhiab.
  replace (Z.log2 a) with (da - 1) in Hloa by (unfold da; lia).
  replace (Z.log2 b) with (db - 1) in Hlob by (unfold db; lia).
  assert (Hdd : da + db - 2 < dab).
  { apply (Z.pow_lt_mono_r_iff 2); [lia|lia|].
    replace (da + db - 2) with ((da - 1) + (db - 1)) by lia.
    rewrite Z.pow_add_r by lia.
    assert (0 < 2 ^ (da - 1)) by (apply Z.pow_pos_nonneg; lia).
    assert (0 < 2 ^ (db - 1)) by (apply Z.pow_pos_nonneg; lia).
    nia. }
  unfold f64_mul, SFmul. cbn [xorb].
  replace (dab - 53) with (da - 53 + (db - 53) + (53 + dab - da - db)) by lia.
  apply round_exact.
  - lia.
  - rewrite Pos2Z.inj_mul, HMa, HMb, HMab.
    replace (a * 2 ^ (53 - da) * (b * 2 ^ (53 - db)))
      with (a * b * (2 ^ (53 - da) * 2 ^ (53 - db))) by ring.
    rewrite <- !Z.mul_assoc, <- !Z.pow_add_r by lia.
    do 3 f_equal. lia.
  - exact HMabr.
  - lia.
Qed.

(** Converting an exact float back gives the integer. *)
Lemma int64_of_f64_exact n :
  0 <= n < 2 ^ 53 -> int64_of_f64 (f64_exact n) = n.
Proof.
  intros [Hn0 Hn]. destruct (Z.eq_dec n 0) as [->|Hnz]; [reflexivity|].
  assert (Hpos : 0 < n < 2 ^ 53) by lia.
  destruct (exact_mantissa n Hpos) as (HM & HMr & Hd).
  rewrite (f64_exact_pos n) by lia.
  set (d := Z.log2 n + 1) in *. set (M := Z.to_pos (n * 2 ^ (53 - d))) in *.
  assert (Ht : f64_trunc (S754_finite false M (d - 53)) = Some n).
  { unfold f64_trunc. f_equal.
    destruct (d - 53) as [|q|q] eqn:Hq; try lia.
    - rewrite Z.shiftl_0_r, HM. replace (53 - d) with 0 by lia. simpl. lia.
    - rewrite Z.shiftr_div_pow2 by lia. rewrite HM.
      replace (53 - d) with (Zpos q) by lia.
      apply Z.div_mul. apply Z.pow_nonzero; lia. }
  unfold int64_of_f64. rewrite Ht.
  assert (Hr : MinInt64 <= n <= MaxInt64).
  { unfold MinInt64, MaxInt64, two63. change (2 ^ 53) with 9007199254740992 in Hn. lia. }
  destruct Hr as [Hr1 Hr2]. apply Z.leb_le in Hr1, Hr2. now rewrite Hr1, Hr2.
Qed.

Lemma f64_exact_finite K :
  0 < K -> exists m e, f64_exact K = S754_finite false m e.
Proof. intros H. rewrite f64_exact_pos by exact H. eauto. Qed.

(** Scaling a small whole number by a constant, in float64, and
    converting back is exact. *)
Lemma f64_scale_exact n K :
  0 <= n -> 0 < K -> n * K < 2 ^ 53 ->
  f64_mul (f64_exact n) (f64_exact K) = f64_exact (n * K).
Proof.
  intros Hn HK Hb. destruct (Z.eq_dec n 0) as [->|Hnz].
  - destruct (f64_exact_finite K HK) as (m & e & ->). reflexivity.
  - apply f64_mul_exact; lia.
Qed.

Lemma read_decimal_digits ds :
  all_chars is_digit ds = true ->
  forall sawdigits mant,
    read_decimal ds false sawdigits mant 0 =
      match ds with
      | EmptyString => if sawdigits then Some (mant, 0%nat) else None
      | _ => Some (decimal_from mant ds, 0%nat)
      end.
Proof.
  induction ds as [|c ds IH]; intros Hds sd mant; [reflexivity|].
  cbn [all_chars] in Hds. apply andb_true_iff in Hds as [Hc Hds].
  cbn [read_decimal decimal_from]. rewrite (digit_not_dot c Hc), Hc.
  rewrite (IH Hds). destruct ds; reflexivity.
Qed.

(** [strconv.ParseFloat] on the digits of a small whole number. *)
Lemma ParseFloat_digits ds :
  all_chars is_digit ds = true -> ds <> "" ->
  decimal ds < 2 ^ 53 ->
  strconv_ParseFloat ds = inl (f64_exact (decimal ds)).
Proof.
  intros Hds Hne Hb. unfold strconv_ParseFloat.
  rewrite (read_decimal_digits ds Hds). destruct ds as [|c ds']; [congruence|].
  fold (decimal (String c ds')).
  pose proof (decimal_from_lower _ Hds 0 (Z.le_refl 0)) as H0.
  fold (decimal (String c ds')) in H0.
  change (10 ^ Z.of_nat 0) with 1.
  rewrite f64_of_ratio_exact by lia.
  destruct (decimal (String c ds')); reflexivity.
Qed.

(** The aliases of the table, one by one. *)
Lemma alias_inv a factor :
  alias_factor a = Some factor ->
  In (a, factor)
    [("ns", 1); ("nanosecond", 1); ("nanoseconds", 1);
     ("us", 1000); ("microsecond", 1000); ("microseconds", 1000);
     ("ms", 1000000); ("millisecond", 1000000); ("milliseconds", 1000000);
     ("s", 1000000000); ("sec", 1000000000); ("second", 1000000000);
     ("seconds", 1000000000);
     ("m", 60000000000); ("min", 60000000000); ("minute", 60000000000);
     ("minutes", 60000000000);
     ("h", 3600000000000); ("hr", 3600000000000); ("hour", 3600000000000);
     ("hours", 3600000000000);
     ("d", 86400000000000); ("day", 86400000000000); ("days", 86400000000000)].
Proof.
  unfold alias_factor, alias_table, lookup_alias, in_list, existsb.
  eqb_chain a; cbn [orb]; try discriminate; intros H; injection H as <-;
    cbn [In]; tauto.
Qed.

(** The [switch] of the program on an alias of the table and a small
    whole number of units. *)
Lemma unit_duration_exact a factor n :
  alias_factor a = Some factor ->
  0 <= n -> n * factor < 2 ^ 53 ->
  unit_duration a (f64_exact n) = Some (n * factor).
Proof.
  intros Ha Hn Hb.
  assert (Hone : forall K,
             0 < K -> f64_of_Z K = f64_exact K -> n * K < 2 ^ 53 ->
             Some (int64_of_f64 (f64_mul (f64_exact n) (f64_of_Z K))) = Some (n * K)).
  { intros K HK HfK HbK.
    rewrite HfK, f64_scale_exact, int64_of_f64_exact by lia. reflexivity. }
  assert (Hday : n * 86400000000000 < 2 ^ 53 ->
             Some (int64_of_f64
                     (f64_mul (f64_mul (f64_exact n) (f64_of_Z 24)) (f64_of_Z Hour)))
             = Some (n * 86400000000000)).
  { intros HbK.
    change (f64_of_Z 24) with (f64_exact 24).
    change (f64_of_Z Hour) with (f64_exact 3600000000000).
    rewrite (f64_scale_exact n 24) by lia.
    rewrite (f64_scale_exact (n * 24) 3600000000000) by lia.
    rewrite int64_of_f64_exact by lia. f_equal. ring. }
  apply alias_inv in Ha. cbn [In] in Ha.
  repeat (destruct Ha as [Ha|Ha];
          [injection Ha as <- <-;
           match goal with
           | |- _ = Some (n * ?K) =>
               first [ exact (Hone K eq_refl eq_refl Hb) | exact (Hday Hb) ]
           end|]).
  destruct Ha.
Qed.

Lemma alias_nonempty a factor : alias_factor a = Some factor -> a <> "".
Proof. intros H ->. discriminate H. Qed.

Lemma alias_factor_pos a factor : alias_factor a = Some factor -> 1 <= factor.
Proof.
  unfold alias_factor, alias_table, lookup_alias, in_list, existsb.
  eqb_chain a; cbn [orb]; try discriminate; intros H; injection H as <-; lia.
Qed.

Lemma lower_is_letter c : is_lower c = true -> is_letter c = true.
Proof. unfold is_letter. now intros ->. Qed.

(** A spelling of an alias, in any letter case, followed by a small
    whole number of units. *)
Lemma ParseDuration_alias ds u factor :
  all_chars is_digit ds = true -> ds <> "" ->
  alias_factor (strings_ToLower u) = Some factor ->
  decimal ds * factor < 2 ^ 53 ->
  ParseDuration (ds ++ u) = (decimal ds * factor, None).
Proof.
  intros Hds Hne Ha Hb.
  pose proof (decimal_from_lower _ Hds 0 (Z.le_refl 0)) as H0. fold (decimal ds) in H0.
  pose proof (alias_factor_pos _ _ Ha) as Hf1.
  assert (Hu : all_chars is_letter u = true).
  { apply ToLower_letters, (all_chars_impl _ _ _ lower_is_letter),
      (alias_letters _ _ Ha). }
  assert (Hune : u <> "").
  { intros ->. now apply (alias_nonempty _ _ Ha). }
  destruct (unitMap u) as [unit|] eqn:Hunit.
  - (* a spelling the standard parser knows *)
    destruct (unitMap_letters _ _ Hunit Hu) as [Hlow Hcases].
    rewrite Hlow in Ha.
    assert (Hfu : factor = unit).
    { destruct Hcases as [->|[->|[->|[->|[->| ->]]]]];
        vm_compute in Ha, Hunit; congruence. }
    subst factor. unfold ParseDuration.
    rewrite (time_ParseDuration_whole ds u unit Hds Hne Hunit); [reflexivity|].
    unfold MaxInt64, two63. change (2 ^ 53) with 9007199254740992 in Hb. lia.
  - (* any other spelling: the fallback path *)
    assert (Hnz : ds ++ u <> "0").
    { destruct ds as [|c [|c' n]]; [congruence| |discriminate].
      destruct u; [congruence|discriminate]. }
    rewrite (ParseDuration_number_letters ds u
               (all_chars_impl _ _ _ digit_numch Hds) Hne Hu Hunit Hnz).
    unfold parseNonStandard.
    rewrite (re_match_number_unit ds u (all_chars_impl _ _ _ digit_numch Hds)
               Hne Hu Hune).
    rewrite (ParseFloat_digits ds Hds Hne) by nia.
    now rewrite (unit_duration_exact _ factor (decimal ds) Ha H0 Hb).
Qed.

(* ================================================================= *)
(** * The parser *)

(** Splits a conjunction of evaluations into its members. *)
Ltac conjuncts := repeat match goal with |- _ /\ _ => split end.

(** The strings the program's own [testDurationParsing] prints, with
    the durations the model gives them. *)
Example testDurationParsing_values :
  map ParseDuration
    ["3.5d"; "21h 40m 51s"; "1h 21m 27s"; "2m"; "1m 53s"; "42.9s"; "500ms"]
  = [ (84 * Hour, None);
      (21 * Hour + 40 * Minute + 51 * Second, None);
      (Hour + 21 * Minute + 27 * Second, None);
      (2 * Minute, None);
      (Minute + 53 * Second, None);
      (42900 * Millisecond, None);
      (500 * Millisecond, None) ].
Proof. vm_compute. reflexivity. Qed.

(** C1, as the code has it. [ParseDuration] fails on every bare number
    (digits and dots) other than "0", on every unit with no number
    (letters only) and on every number followed by letters that are no
    alias of the table; every failure returns a zero duration, never a
    partial total.  The bare number "0" is a zero duration. *)
Theorem C1_failures :
  (forall s : string,
      all_chars is_numch s = true -> s <> "" -> s <> "0" ->
      ParseDuration s = (0, Some (UnsupportedFormat s)))
  /\ (forall s : string,
         all_chars is_letter s = true -> s <> "" ->
         ParseDuration s = (0, Some (UnsupportedFormat s)))
  /\ (forall num u : string,
         all_chars is_numch num = true -> num <> "" ->
         all_chars is_letter u = true -> u <> "" ->
         alias_factor (strings_ToLower u) = None ->
         exists err,
           ParseDuration (num ++ u) = (0, Some err)
           /\ (err = UnknownTimeUnit (strings_ToLower u)
               \/ exists ne, err = BadValue num ne))
  /\ (forall (s : string) (d : Z) (err : error),
         ParseDuration s = (d, Some err) -> d = 0)
  /\ ParseDuration "0" = (0, None).
Proof.
  split; [|split; [|split; [|split; [|reflexivity]]]].
  - intros s Hs Hne H0.
    rewrite <- (append_nil_r s) at 1.
    rewrite (ParseDuration_number_letters s "" Hs Hne eq_refl eq_refl)
      by now rewrite append_nil_r.
    rewrite append_nil_r. unfold parseNonStandard.
    now rewrite (re_match_number_only s Hs).
  - intros s Hs Hne.
    assert (Hf : strings_Fields s = [s]).
    { apply SpaceFree_fields; [|exact Hne].
      apply plain_SpaceFree, (all_chars_impl _ _ _ letter_plain Hs). }
    rewrite (ParseDuration_one_field _ Hf). unfold parsePart.
    rewrite (time_ParseDuration_letters s Hs Hne). unfold parseNonStandard.
    now rewrite (re_match_letters_only s Hs).
  - intros num u Hnum Hne Hu Hune Halias.
    assert (H0 : num ++ u <> "0").
    { destruct num as [|c [|c' n]]; [congruence| |discriminate].
      destruct u; [congruence|discriminate]. }
    rewrite (ParseDuration_number_letters num u Hnum Hne Hu
               (unknown_alias_no_unit u Hu Halias) H0).
    unfold parseNonStandard. rewrite (re_match_number_unit num u Hnum Hne Hu Hune).
    destruct (strconv_ParseFloat num) as [value|ne].
    + rewrite (unit_duration_known _ value (ToLower_of_letters u Hu) Halias). eauto.
    + eauto.
  - intros s d err. unfold ParseDuration.
    destruct (time_ParseDuration s) as [duration [terr|]]; [|discriminate].
    apply sumParts_error.
Qed.

Lemma C1_witness :
  ParseDuration "5" = (0, Some (UnsupportedFormat "5"))
  /\ ParseDuration "abc" = (0, Some (UnsupportedFormat "abc"))
  /\ (exists err,
         ParseDuration ("5" ++ "xyz") = (0, Some err)
         /\ (err = UnknownTimeUnit (strings_ToLower "xyz")
             \/ exists ne, err = BadValue "5" ne)).
Proof.
  destruct C1_failures as (Hnum & Hunit & Hunknown & _).
  split; [|split].
  - apply Hnum; [reflexivity|discriminate|discriminate].
  - apply Hunit; [reflexivity|discriminate].
  - apply Hunknown; [reflexivity|discriminate|reflexivity|discriminate|reflexivity].
Defined.

(** C1 as stated fails on the empty string, on a string of spaces and
    on the bare number "0": each returns a zero duration and no error
    (the first two have no field to add, the third is read by the
    standard parser). *)
Lemma C1_empty_and_zero_succeed :
  ParseDuration "" = (0, None)
  /\ ParseDuration "   " = (0, None)
  /\ ParseDuration "0" = (0, None).
Proof. conjuncts; vm_compute; reflexivity. Qed.


(** C3. When a string splits into two or more fields and every field
    parses on its own, the whole string parses to the sum of the
    fields' durations, added as the program adds durations (int64);
    that sum is the integer sum wrapped to 64 bits, hence the integer
    sum itself whenever it is an int64. *)
Theorem C3_composite_sum :
  forall s : string,
    (2 <= List.length (strings_Fields s))%nat ->
    (forall p, In p (strings_Fields s) -> exists d, ParseDuration p = (d, None)) ->
    let durations := map (fun p => fst (ParseDuration p)) (strings_Fields s) in
    ParseDuration s = (sum64 durations, None)
    /\ sum64 durations = wrap64 (zsum durations)
    /\ (MinInt64 <= zsum durations <= MaxInt64 -> sum64 durations = zsum durations).
Proof.
  intros s Hlen Hok durations. split; [|split; [apply sum64_wrap|apply sum64_exact]].
  unfold ParseDuration.
  destruct (time_ParseDuration s) as [d [e|]] eqn:Ht.
  - apply sumParts_all; [exact Hok|].
    intros p Hp. destruct (Hok p Hp) as [dp Hdp].
    rewrite (ParseDuration_field s p Hp) in Hdp.
    rewrite (ParseDuration_field s p Hp).
    destruct (parsePart p); [reflexivity|discriminate].
  - rewrite (time_ParseDuration_one_field s d Ht) in Hlen. simpl in Hlen. lia.
Qed.

Lemma C3_witness :
  let durations := map (fun p => fst (ParseDuration p)) (strings_Fields "1h 21m 27s") in
  ParseDuration "1h 21m 27s" = (sum64 durations, None)
  /\ sum64 durations = wrap64 (zsum durations)
  /\ (MinInt64 <= zsum durations <= MaxInt64 -> sum64 durations = zsum durations).
Proof.
  apply (C3_composite_sum "1h 21m 27s").
  - vm_compute. lia.
  - intros p Hp. vm_compute in Hp.
    destruct Hp as [<-|[<-|[<-|[]]]]; eexists; vm_compute; reflexivity.
Defined.

(** C4, as the code has it. [ParseDuration] succeeds only on a string
    of the standard syntax of [time.ParseDuration] (an optional sign,
    then "0" or one or more groups of a number and a unit) or on a
    string each of whose fields either has that syntax or is a decimal
    number followed by letters that spell an alias of the table and
    nothing else.  When it fails, the fields before some field all
    parse, that field does not, and the error names it. *)
Theorem C4_accepted_syntax :
  (forall (s : string) (d : Z),
      ParseDuration s = (d, None) ->
      StandardSyntax s
      \/ Forall (fun p => StandardSyntax p \/ FallbackSyntax p) (strings_Fields s))
  /\ (forall (s : string) (d : Z) (err : error),
         ParseDuration s = (d, Some err) ->
         exists before p after,
           strings_Fields s = (before ++ p :: after)%list
           /\ Forall (fun q => exists dq, ParseDuration q = (dq, None)) before
           /\ ParseDuration p = (0, Some err)
           /\ names_token err p).
Proof.
  split.
  - intros s d. unfold ParseDuration.
    destruct (time_ParseDuration s) as [duration [terr|]] eqn:Ht.
    + intros H. right. apply sumParts_success in H.
      apply Forall_forall. intros p Hp.
      destruct (proj1 (Forall_forall _ _) H p Hp) as [dp Hdp].
      apply (parsePart_syntax p dp); [now apply (fields_whole s)|exact Hdp].
    + intros _. left. now apply (time_ParseDuration_syntax s duration).
  - intros s d err H. unfold ParseDuration in H.
    destruct (time_ParseDuration s) as [duration [terr|]] eqn:Ht; [|discriminate].
    apply sumParts_failure in H as (before & p & after & Hf & Hb & Hp).
    exists before, p, after. split; [exact Hf|].
    assert (Hin : forall q, In q (before ++ p :: after)%list ->
                            In q (strings_Fields s)) by now rewrite Hf.
    split; [|split].
    + apply Forall_forall. intros q Hq.
      destruct (proj1 (Forall_forall _ _) Hb q Hq) as [dq Hdq].
      exists dq. rewrite (ParseDuration_field s q); [now rewrite Hdq|].
      apply Hin, in_or_app. now left.
    + rewrite (ParseDuration_field s p); [now rewrite Hp|].
      apply Hin, in_or_app. right. now left.
    + apply parsePart_error; [|exact Hp].
      apply (fields_whole s), Hin, in_or_app. right. now left.
Qed.

Lemma C4_witness :
  (StandardSyntax "1h 2.5Hours"
   \/ Forall (fun p => StandardSyntax p \/ FallbackSyntax p)
        (strings_Fields "1h 2.5Hours"))
  /\ (exists before p after,
         strings_Fields "1h +5" = (before ++ p :: after)%list
         /\ Forall (fun q => exists dq, ParseDuration q = (dq, None)) before
         /\ ParseDuration p = (0, Some (UnsupportedFormat "+5"))
         /\ names_token (UnsupportedFormat "+5") p).
Proof.
  destruct C4_accepted_syntax as [Hok Hfail]. split.
  - apply (Hok "1h 2.5Hours" (Hour + 9000 * Second)). vm_compute. reflexivity.
  - apply (Hfail "1h +5" 0 (UnsupportedFormat "+5")). vm_compute. reflexivity.
Defined.

(** C4 as stated fails: a signed token and a token with two
    number-and-unit pairs are accepted by the standard parser that the
    program tries first. *)
Lemma C4_signed_and_multi_pair_succeed :
  ParseDuration "1h30m" = (90 * Minute, None)
  /\ ParseDuration "-5m" = (- (5 * Minute), None)
  /\ ParseDuration "1h +30m" = (90 * Minute, None).
Proof. conjuncts; vm_compute; reflexivity. Qed.

(* ================================================================= *)
(** * The aggregator *)

(** C5. The file with header id, duration, status and the two rows
    (a, 1h, ok) and (b, 30m, ok) totals exactly 90 minutes, with no
    error and no warning; the same holds when the last line has no
    newline. *)
Theorem C5_example_total :
  calculateTotalDuration (Some {| data := example_trace; read_fails := false |})
    = ((90 * Minute, None), [])
  /\ calculateTotalDuration
       (Some {| data := tsv_line ["id"; "duration"; "status"]
                        ++ tsv_line ["a"; "1h"; "ok"]
                        ++ String.concat (String tab EmptyString) ["b"; "30m"; "ok"];
                read_fails := false |})
    = ((90 * Minute, None), []).
Proof. split; vm_compute; reflexivity. Qed.

(** C6. When the file is read to its end and the header names a
    duration column, a line whose duration field does not parse never
    aborts the aggregation: it adds nothing to the total and prints one
    warning, and the total returned is the sum (computed on int64) of the
    parsed durations of exactly the lines whose field parses. *)
Theorem C6_parse_failures_do_not_abort :
  forall (fl : file) (header : string) (lines : list string) (durationIdx : Z),
    scan_file fl = (header :: lines, None) ->
    find_duration (strings_Split header tab) 0 = durationIdx ->
    durationIdx <> -1 ->
    calculateTotalDuration (Some fl)
      = ((sum64 (parsed_durations durationIdx lines), None),
         failed_fields durationIdx lines)
    /\ sum64 (parsed_durations durationIdx lines)
       = wrap64 (zsum (parsed_durations durationIdx lines)).
Proof.
  intros fl header lines durationIdx Hscan Hidx Hfound. split.
  - unfold calculateTotalDuration. rewrite Hscan, Hidx.
    destruct (Z.eqb_spec durationIdx (-1)) as [E|_]; [contradiction|].
    now rewrite processLines_spec.
  - apply sum64_wrap.
Qed.

Lemma C6_witness :
  calculateTotalDuration
    (Some {| data := example_trace ++ tsv_line ["c"; "soon"; "ok"]
                     ++ tsv_line ["d"; "1m 30s"; "ok"];
             read_fails := false |})
    = ((sum64 [Hour; 30 * Minute; 90 * Second], None),
       [Warning "soon" (UnsupportedFormat "soon")])
  /\ sum64 [Hour; 30 * Minute; 90 * Second]
     = wrap64 (zsum [Hour; 30 * Minute; 90 * Second]).
Proof.
  exact (C6_parse_failures_do_not_abort
           {| data := example_trace ++ tsv_line ["c"; "soon"; "ok"]
                      ++ tsv_line ["d"; "1m 30s"; "ok"];
              read_fails := false |}
           (String.concat (String tab EmptyString) ["id"; "duration"; "status"])
           (map (String.concat (String tab EmptyString))
              [["a"; "1h"; "ok"]; ["b"; "30m"; "ok"]; ["c"; "soon"; "ok"];
               ["d"; "1m 30s"; "ok"]])
           1 eq_refl eq_refl ltac:(discriminate)).
Defined.

(** C7. When no field of the header is exactly "duration", the
    aggregation fails with the duration-column error and a zero total,
    whatever the data lines hold; when several fields are, the index of
    the first one is the column read. *)
Theorem C7_missing_duration_column :
  (forall (fl : file) (header : string) (lines : list string)
          (scanErr : option scan_error),
      scan_file fl = (header :: lines, scanErr) ->
      ~ In "duration" (strings_Split header tab) ->
      calculateTotalDuration (Some fl) = ((0, Some DurationColumnNotFound), []))
  /\ (forall (fl : file) (header : string) (lines : list string)
             (before after : list string),
         scan_file fl = (header :: lines, None) ->
         strings_Split header tab = (before ++ "duration" :: after)%list ->
         ~ In "duration" before ->
         find_duration (strings_Split header tab) 0 = Z.of_nat (List.length before)
         /\ calculateTotalDuration (Some fl)
            = ((fst (processLines (Z.of_nat (List.length before)) lines 0), None),
               snd (processLines (Z.of_nat (List.length before)) lines 0))).
Proof.
  split.
  - intros fl header lines scanErr Hscan Habsent.
    unfold calculateTotalDuration. rewrite Hscan.
    now rewrite (find_duration_absent _ 0 Habsent).
  - intros fl header lines before after Hscan Hsplit Hfirst.
    assert (Hidx : find_duration (strings_Split header tab) 0
                   = Z.of_nat (List.length before)).
    { rewrite Hsplit, find_duration_first by exact Hfirst. lia. }
    split; [exact Hidx|].
    unfold calculateTotalDuration. rewrite Hscan, Hidx.
    destruct (Z.eqb_spec (Z.of_nat (List.length before)) (-1)) as [E|_]; [lia|].
    now destruct (processLines _ lines 0).
Qed.

Lemma C7_witness :
  calculateTotalDuration
    (Some {| data := tsv_line ["id"; "realtime"] ++ tsv_line ["a"; "1h"];
             read_fails := false |})
    = ((0, Some DurationColumnNotFound), []).
Proof.
  refine (proj1 C7_missing_duration_column
            {| data := tsv_line ["id"; "realtime"] ++ tsv_line ["a"; "1h"];
               read_fails := false |}
            (String.concat (String tab EmptyString) ["id"; "realtime"])
            [String.concat (String tab EmptyString) ["a"; "1h"]] None eq_refl _).
  vm_compute. intros [H|[H|[]]]; discriminate H.
Defined.

(** C8. A data line with no more fields than the index of the duration
    column is skipped silently: the file with the line and the file
    without it give the same total, the same error status and the same
    warnings. *)
Theorem C8_short_rows_skipped :
  forall (fl fl' : file) (header row : string) (lines1 lines2 : list string)
         (scanErr : option scan_error),
    scan_file fl = (header :: lines1 ++ row :: lines2, scanErr)%list ->
    scan_file fl' = (header :: lines1 ++ lines2, scanErr)%list ->
    Z.of_nat (List.length (strings_Split row tab))
      <= find_duration (strings_Split header tab) 0 ->
    calculateTotalDuration (Some fl) = calculateTotalDuration (Some fl').
Proof.
  intros fl fl' header row lines1 lines2 scanErr Hscan Hscan' Hshort.
  unfold calculateTotalDuration. rewrite Hscan, Hscan'.
  set (durationIdx := find_duration (strings_Split header tab) 0) in *.
  destruct (durationIdx =? -1); [reflexivity|].
  rewrite !processLines_spec, !parsed_durations_app, !failed_fields_app.
  simpl. unfold duration_field.
  destruct (Z.leb_spec (Z.of_nat (List.length (strings_Split row tab))) durationIdx);
    [reflexivity|lia].
Qed.

Lemma C8_witness :
  calculateTotalDuration
    (Some {| data := tsv_line ["id"; "duration"; "status"]
                     ++ tsv_line ["a"; "1h"; "ok"]
                     ++ tsv_line ["truncated"]
                     ++ tsv_line ["b"; "30m"; "ok"];
             read_fails := false |})
  = calculateTotalDuration (Some {| data := example_trace; read_fails := false |}).
Proof.
  exact (C8_short_rows_skipped
           {| data := tsv_line ["id"; "duration"; "status"]
                      ++ tsv_line ["a"; "1h"; "ok"]
                      ++ tsv_line ["truncated"]
                      ++ tsv_line ["b"; "30m"; "ok"];
              read_fails := false |}
           {| data := example_trace; read_fails := false |}
           (String.concat (String tab EmptyString) ["id"; "duration"; "status"])
           "truncated"
           [String.concat (String tab EmptyString) ["a"; "1h"; "ok"]]
           [String.concat (String tab EmptyString) ["b"; "30m"; "ok"]]
           None eq_refl eq_refl ltac:(vm_compute; discriminate)).
Defined.

(** C9, as the code has it. When the reads do not fail, every line of
    the file is shorter than the scanner's buffer limit of 65536 bytes
    and the first line has a field exactly equal to "duration", the
    aggregation returns without error, whatever the data lines hold. *)
Theorem C9_no_row_fails_within_line_limit :
  forall (fl : file) (first : string) (rest : list string),
    read_fails fl = false ->
    raw_lines (data fl) = first :: rest ->
    Forall (fun l => slen l < MaxScanTokenSize) (raw_lines (data fl)) ->
    In "duration" (strings_Split (dropCR first) tab) ->
    exists (total : Z) (out : list warning),
      calculateTotalDuration (Some fl) = ((total, None), out).
Proof.
  intros fl first rest Hread Hlines Hshort Hcol.
  unfold calculateTotalDuration, scan_file.
  rewrite (scan_tokens_ok _ _ Hshort), Hlines, Hread. simpl.
  pose proof (find_duration_present _ 0 (Z.le_refl 0) Hcol) as Hidx.
  destruct (Z.eqb_spec (find_duration (strings_Split (dropCR first) tab) 0) (-1));
    [lia|].
  destruct (processLines _ _ 0) as [total out]. now exists total, out.
Qed.

Lemma C9_witness :
  exists (total : Z) (out : list warning),
    calculateTotalDuration
      (Some {| data := example_trace ++ tsv_line ["c"; "soon"; "ok"];
               read_fails := false |})
    = ((total, None), out).
Proof.
  refine (C9_no_row_fails_within_line_limit
            {| data := example_trace ++ tsv_line ["c"; "soon"; "ok"];
               read_fails := false |}
            (String.concat (String tab EmptyString) ["id"; "duration"; "status"])
            (map (String.concat (String tab EmptyString))
               [["a"; "1h"; "ok"]; ["b"; "30m"; "ok"]; ["c"; "soon"; "ok"]])
            eq_refl eq_refl _ _).
  - repeat constructor.
  - vm_compute. right. left. reflexivity.
Defined.

(** C9 as stated fails: a data line of 70000 bytes, more than the
    scanner's buffer may hold, stops the scanner with its
    token-too-long error, which is no read failure, and the aggregation
    returns the scanning error with a zero total. *)
Lemma C9_long_row_fails :
  calculateTotalDuration
    (Some {| data := tsv_line ["duration"] ++ repeat_byte "x" (Z.to_nat 70000);
             read_fails := false |})
  = ((0, Some (ScanFailed ErrTooLong)), [])
  /\ In "duration" (strings_Split "duration" tab).
Proof. split; [vm_compute; reflexivity | left; reflexivity]. Qed.

(* ================================================================= *)
(** * The parser: error results *)

(** C10. Whenever [ParseDuration] returns an error, the duration it
    returns with it is zero. *)
Theorem C10_error_returns_zero :
  forall (durationStr : string) (d : Z) (err : error),
    ParseDuration durationStr = (d, Some err) -> d = 0.
Proof.
  intros durationStr d err. unfold ParseDuration.
  destruct (time_ParseDuration durationStr) as [duration [terr|]].
  - apply sumParts_error.
  - discriminate.
Qed.

Lemma C10_witness :
  ParseDuration "1h 5xyz" = (0, Some (UnknownTimeUnit "xyz")) /\ 0 = 0.
Proof.
  split; [vm_compute; reflexivity|].
  exact (C10_error_returns_zero "1h 5xyz" 0 (UnknownTimeUnit "xyz") eq_refl).
Defined.

(* ================================================================= *)
(** * Further properties of the program: lemmas *)

(* ----------------------------------------------------------------- *)
(** ** The parser and the fields of its argument *)

Lemma add64_zero_l z : MinInt64 <= z <= MaxInt64 -> add64 0 z = z.
Proof. intros H. unfold add64. cbn [Z.add]. now apply wrap64_small. Qed.

Lemma ParseDuration_single_field s p :
  strings_Fields s = [p] -> ParseDuration s = ParseDuration p.
Proof.
  intros Hf.
  assert (Hp : In p (strings_Fields s)) by (rewrite Hf; now left).
  rewrite (ParseDuration_field s p Hp).
  unfold ParseDuration at 1.
  destruct (time_ParseDuration s) as [d [e|]] eqn:Ht.
  - rewrite Hf. cbn [sumParts]. destruct (parsePart p) as [z|err] eqn:Hz; [|reflexivity].
    cbn [sumParts]. now rewrite (add64_zero_l z (parsePart_range p z Hz)).
  - pose proof (time_ParseDuration_one_field s d Ht) as H1.
    rewrite Hf in H1. injection H1 as <-.
    unfold parsePart. now rewrite Ht.
Qed.

Lemma ParseDuration_same_fields s t :
  strings_Fields s = strings_Fields t -> ParseDuration s = ParseDuration t.
Proof.
  intros Hf.
  destruct (time_ParseDuration s) as [d [e|]] eqn:Hs.
  - destruct (time_ParseDuration t) as [d' [e'|]] eqn:Ht.
    + unfold ParseDuration. now rewrite Hs, Ht, Hf.
    + pose proof (time_ParseDuration_one_field t d' Ht) as H1.
      rewrite <- Hf in H1. now apply ParseDuration_single_field.
  - pose proof (time_ParseDuration_one_field s d Hs) as H1.
    rewrite Hf in H1. symmetry. now apply ParseDuration_single_field.
Qed.

Lemma sumParts_values parts :
  Forall (fun q => exists dq, parsePart q = inl dq) parts ->
  forall total,
    sumParts parts total = (fold_left add64 (map part_value parts) total, None).
Proof.
  induction 1 as [|p parts [dp Hp] _ IH]; intros total; [reflexivity|].
  cbn [sumParts map fold_left]. rewrite Hp.
  replace (part_value p) with dp by (unfold part_value; now rewrite Hp). apply IH.
Qed.

Lemma sumParts_fails parts :
  ~ Forall (fun q => exists dq, parsePart q = inl dq) parts ->
  forall total, exists err, sumParts parts total = (0, Some err).
Proof.
  induction parts as [|p parts IH]; intros Hn total.
  - exfalso. apply Hn. constructor.
  - cbn [sumParts]. destruct (parsePart p) as [dp|err] eqn:Hp.
    + apply IH. intros Hall. apply Hn. constructor; [now exists dp|exact Hall].
    + now exists err.
Qed.

Lemma zsum_app l1 l2 : zsum (l1 ++ l2) = zsum l1 + zsum l2.
Proof. unfold zsum. induction l1 as [|a l1 IH]; simpl; lia. Qed.

Lemma zsum_perm l l' : Permutation l l' -> zsum l = zsum l'.
Proof. unfold zsum. induction 1; simpl; lia. Qed.

Lemma sum64_perm l l' : Permutation l l' -> sum64 l = sum64 l'.
Proof. intros H. now rewrite !sum64_wrap, (zsum_perm l l' H). Qed.

Lemma wrap64_add x y : wrap64 (wrap64 x + wrap64 y) = wrap64 (x + y).
Proof. rewrite wrap64_add_l, Z.add_comm, wrap64_add_l. f_equal. lia. Qed.

Lemma sum64_app l1 l2 : sum64 (l1 ++ l2) = add64 (sum64 l1) (sum64 l2).
Proof. unfold add64. now rewrite !sum64_wrap, zsum_app, wrap64_add. Qed.

Lemma ParseDuration_fallback s d e :
  time_ParseDuration s = (d, Some e) ->
  ParseDuration s = sumParts (strings_Fields s) 0.
Proof. intros H. unfold ParseDuration. now rewrite H. Qed.

Lemma parts_parse_dec parts :
  Forall (fun q => exists dq, parsePart q = inl dq) parts
  \/ ~ Forall (fun q => exists dq, parsePart q = inl dq) parts.
Proof.
  induction parts as [|p parts [IH|IH]].
  - left. constructor.
  - destruct (parsePart p) as [dp|err] eqn:Hp.
    + left. constructor; [now exists dp|exact IH].
    + right. intros H. inversion H as [|? ? [dq Hq] _]. congruence.
  - right. intros H. inversion H. contradiction.
Qed.

Lemma ParseDuration_by_parts s :
  (Forall (fun q => exists dq, parsePart q = inl dq) (strings_Fields s)
   /\ ParseDuration s = (sum64 (map part_value (strings_Fields s)), None))
  \/ (~ Forall (fun q => exists dq, parsePart q = inl dq) (strings_Fields s)
      /\ exists err, ParseDuration s = (0, Some err)).
Proof.
  destruct (time_ParseDuration s) as [d [e|]] eqn:Hs.
  - rewrite (ParseDuration_fallback s d e Hs).
    destruct (parts_parse_dec (strings_Fields s)) as [Hall|Hn].
    + left. split; [exact Hall|]. now apply sumParts_values.
    + right. split; [exact Hn|]. now apply sumParts_fails.
  - left. pose proof (time_ParseDuration_one_field s d Hs) as H1.
    assert (Hp : parsePart s = inl d) by (unfold parsePart; now rewrite Hs).
    rewrite H1. split.
    + constructor; [now exists d|constructor].
    + unfold ParseDuration. rewrite Hs. cbn [map]. unfold part_value. rewrite Hp.
      unfold sum64. cbn [fold_left].
      now rewrite (add64_zero_l d (parsePart_range s d Hp)).
Qed.

Lemma Forall_perm {A : Type} (P : A -> Prop) l l' :
  Permutation l l' -> Forall P l -> Forall P l'.
Proof.
  intros Hp Hl. apply Forall_forall. intros x Hx.
  apply (proj1 (Forall_forall _ _) Hl), (Permutation_in x (Permutation_sym Hp) Hx).
Qed.

Lemma parse_groups_nonneg fuel :
  forall s d r, 0 <= d -> parse_groups fuel s d = inl r -> 0 <= r.
Proof.
  induction fuel as [|fuel IH]; intros s1 d0 r Hd0; [discriminate|].
  cbn [parse_groups]. destruct s1 as [|c s']; [intros H; inversion H; lia|].
  destruct (negb (is_numch c)); [discriminate|].
  destruct (leadingInt _) as [[v s1]|]; [|discriminate].
  destruct (fraction_part s1) as [[[f scale] s2] post].
  destruct (_ && _); [discriminate|].
  destruct (span_unit s2) as [u s3].
  destruct u; [discriminate|].
  destruct (unitMap _); [|discriminate].
  destruct (group_value _ _ _ _); [|discriminate].
  destruct (_ >? _); [discriminate|].
  apply IH. unfold wrapu64. apply Z.mod_pos_bound. reflexivity.
Qed.

Lemma time_ParseDuration_unsigned s d :
  starts_with is_numch s = true ->
  time_ParseDuration s = (d, None) ->
  0 <= d <= MaxInt64
  /\ time_ParseDuration (String "-" s) = (- d, None)
  /\ time_ParseDuration (String "+" s) = (d, None).
Proof.
  intros Hs. destruct s as [|c s']; [discriminate|]. cbn [starts_with] in Hs.
  destruct (numch_no_sign c Hs) as [Hm Hp].
  unfold time_ParseDuration. cbn [strip_sign]. rewrite Hm, Hp.
  change (byte "-" =? 45) with true. change (byte "+" =? 45) with false.
  change (byte "+" =? 43) with true. cbv iota.
  destruct (String.eqb (String c s') "0") eqn:E0.
  - intros H. injection H as <-. split; [vm_compute; split; discriminate|]. split; reflexivity.
  - change (String.eqb (String c s') "") with false. cbv iota.
    destruct (parse_groups _ _ 0) as [r|e] eqn:Hpg; [|discriminate].
    destruct (Z.gtb_spec r (two63 - 1)) as [Hgt|Hle]; [discriminate|].
    intros H. injection H as <-.
    pose proof (parse_groups_nonneg _ _ _ _ (Z.le_refl 0) Hpg) as Hr.
    assert (Hrange : 0 <= r <= MaxInt64) by (unfold MaxInt64; lia).
    split; [exact Hrange|]. split; [|reflexivity].
    f_equal. unfold MaxInt64, two63 in Hrange.
    rewrite (wrap64_small r) by (unfold MinInt64, MaxInt64, two63; lia).
    apply wrap64_small. unfold MinInt64, MaxInt64, two63. lia.
Qed.

Lemma ParseDuration_standard s d :
  time_ParseDuration s = (d, None) -> ParseDuration s = (d, None).
Proof. intros H. unfold ParseDuration. now rewrite H. Qed.

(* ----------------------------------------------------------------- *)
(** ** The aggregator and the lines of its file *)

Lemma calculateTotalDuration_lines fl header lines scanErr :
  scan_file fl = (header :: lines, scanErr) ->
  find_duration (strings_Split header tab) 0 <> -1 ->
  calculateTotalDuration (Some fl)
  = (match scanErr with
     | Some err => (0, Some (ScanFailed err))
     | None =>
         (sum64 (parsed_durations (find_duration (strings_Split header tab) 0) lines),
          None)
     end,
     failed_fields (find_duration (strings_Split header tab) 0) lines).
Proof.
  intros Hscan Hidx. unfold calculateTotalDuration. rewrite Hscan.
  destruct (Z.eqb_spec (find_duration (strings_Split header tab) 0) (-1));
    [contradiction|].
  rewrite processLines_spec. now destruct scanErr.
Qed.

Lemma duration_column_found columns :
  In "duration" columns -> find_duration columns 0 <> -1.
Proof. intros H. pose proof (find_duration_present columns 0 (Z.le_refl 0) H). lia. Qed.

Lemma parsed_durations_perm idx l l' :
  Permutation l l' ->
  Permutation (parsed_durations idx l) (parsed_durations idx l').
Proof.
  induction 1 as [|x l l' _ IH|x y l|l l' l'' _ IH1 _ IH2].
  - constructor.
  - cbn [parsed_durations]. destruct (duration_field idx x) as [f|]; [|exact IH].
    destruct (ParseDuration f) as [d [e|]]; [exact IH|now constructor].
  - cbn [parsed_durations].
    destruct (duration_field idx x) as [fx|], (duration_field idx y) as [fy|];
      try destruct (ParseDuration fx) as [dx [ex|]];
      try destruct (ParseDuration fy) as [dy [ey|]];
      try apply Permutation_refl.
    apply perm_swap.
  - now apply Permutation_trans with (parsed_durations idx l').
Qed.

Lemma failed_fields_perm idx l l' :
  Permutation l l' ->
  Permutation (failed_fields idx l) (failed_fields idx l').
Proof.
  induction 1 as [|x l l' _ IH|x y l|l l' l'' _ IH1 _ IH2].
  - constructor.
  - cbn [failed_fields]. destruct (duration_field idx x) as [f|]; [|exact IH].
    destruct (ParseDuration f) as [d [e|]]; [now constructor|exact IH].
  - cbn [failed_fields].
    destruct (duration_field idx x) as [fx|], (duration_field idx y) as [fy|];
      try destruct (ParseDuration fx) as [dx [ex|]];
      try destruct (ParseDuration fy) as [dy [ey|]];
      try apply Permutation_refl.
    apply perm_swap.
  - now apply Permutation_trans with (failed_fields idx l').
Qed.

Lemma raw_lines_line l rest :
  no_newline l = true ->
  raw_lines (l ++ String newline rest) = l :: raw_lines rest.
Proof.
  unfold no_newline. induction l as [|c l IH]; intros H.
  - reflexivity.
  - cbn [all_chars] in H. apply andb_prop in H as [Hc Hl].
    cbn [append raw_lines]. apply negb_true_iff in Hc. rewrite Hc.
    now rewrite (IH Hl).
Qed.

Lemma raw_lines_LF lines :
  Forall (fun l => no_newline l = true) lines ->
  raw_lines (text_of LF lines) = lines.
Proof.
  induction 1 as [|l lines Hl _ IH]; [reflexivity|].
  cbn [text_of]. unfold LF at 1. cbn [append].
  now rewrite (raw_lines_line l _ Hl), IH.
Qed.

Lemma no_newline_app a b : no_newline (a ++ b) = no_newline a && no_newline b.
Proof. apply all_chars_app. Qed.

Lemma raw_lines_CRLF lines :
  Forall (fun l => no_newline l = true) lines ->
  raw_lines (text_of CRLF lines)
  = map (fun l => l ++ String carriage_return "") lines.
Proof.
  induction 1 as [|l lines Hl _ IH]; [reflexivity|].
  cbn [text_of map]. unfold CRLF at 1, LF at 1. cbn [append].
  replace (l ++ String carriage_return (String newline (text_of CRLF lines)))
    with ((l ++ String carriage_return "") ++ String newline (text_of CRLF lines))
    by (now rewrite append_assoc).
  rewrite raw_lines_line, IH; [reflexivity|].
  rewrite no_newline_app, Hl. reflexivity.
Qed.

Lemma dropCR_added l : dropCR (l ++ String carriage_return "") = l.
Proof.
  induction l as [|c l IH]; [reflexivity|].
  cbn [append dropCR]. rewrite IH.
  destruct (l ++ String carriage_return "") eqn:E; [|reflexivity].
  destruct l; discriminate.
Qed.

Lemma slen_app a b : slen (a ++ b) = slen a + slen b.
Proof. unfold slen. rewrite length_append. lia. Qed.

Lemma raw_lines_final s c :
  c <> newline ->
  raw_lines (s ++ String c LF) = raw_lines (s ++ String c "").
Proof.
  intros Hc. induction s as [|a s IH].
  - unfold LF. cbn [append raw_lines].
    destruct (Ascii.eqb_spec c newline); [contradiction|]. reflexivity.
  - cbn [append raw_lines]. now rewrite IH.
Qed.

Lemma scan_tokens_long before long after ending :
  Forall (fun l => slen l < MaxScanTokenSize) before ->
  MaxScanTokenSize <= slen long ->
  scan_tokens (before ++ long :: after) ending = (map dropCR before, Some ErrTooLong).
Proof.
  intros Hb Hlong. induction Hb as [|l before Hl _ IH].
  - cbn [app scan_tokens map]. destruct (Z.leb_spec MaxScanTokenSize (slen long)); [reflexivity|lia].
  - cbn [app scan_tokens map]. rewrite IH.
    destruct (Z.leb_spec MaxScanTokenSize (slen l)); [lia|reflexivity].
Qed.

(** The total returned is an [int64]. *)
Lemma calculateTotalDuration_range f total err out :
  calculateTotalDuration f = ((total, err), out) ->
  MinInt64 <= total <= MaxInt64.
Proof.
  assert (Hz : MinInt64 <= 0 <= MaxInt64) by (vm_compute; split; discriminate).
  unfold calculateTotalDuration. destruct f as [fl|]; [|intros H; inversion H; exact Hz].
  destruct (scan_file fl) as [[|header lines] scanErr]; [intros H; inversion H; exact Hz|].
  destruct (_ =? -1); [intros H; inversion H; exact Hz|].
  rewrite processLines_spec.
  destruct scanErr; intros H; inversion H; [exact Hz|].
  fold (sum64 (parsed_durations (find_duration (strings_Split header tab) 0) lines)).
  rewrite sum64_wrap. apply wrap64_range.
Qed.

(** Hours, minutes and seconds of a duration. *)
Lemma breakdown_identity d :
  d = d / Hour * Hour + (d / Minute) mod 60 * Minute
      + (d / Second) mod 60 * Second + d mod Second.
Proof.
  assert (Hh : d / Hour = d / Minute / 60)
    by (rewrite Z.div_div by (vm_compute; reflexivity || discriminate); reflexivity).
  assert (Hm : d / Minute = d / Second / 60)
    by (rewrite Z.div_div by (vm_compute; reflexivity || discriminate); reflexivity).
  pose proof (Z.div_mod (d / Minute) 60 ltac:(lia)) as H1.
  pose proof (Z.div_mod (d / Second) 60 ltac:(lia)) as H2.
  pose proof (Z.div_mod d Second ltac:(vm_compute; discriminate)) as H3.
  rewrite Hh. rewrite <- Hm in H2.
  change Hour with (60 * (60 * Second)). change Minute with (60 * Second).
  change Minute with (60 * Second) in H1, H2. 
  set (S := Second) in *. lia.
Qed.

(** ** Tables written as tab-separated lines *)

Lemma is_field_parts f :
  is_field f = true ->
  all_chars (fun c => negb (Ascii.eqb c tab)) f = true
  /\ no_newline f = true
  /\ all_chars (fun c => negb (Ascii.eqb c carriage_return)) f = true.
Proof.
  unfold is_field, no_newline. induction f as [|c f IH]; intros H; [auto|].
  cbn [all_chars] in *. apply andb_true_iff in H as [Hc Hf].
  apply andb_true_iff in Hc as [Hc H3]. apply andb_true_iff in Hc as [H1 H2].
  destruct (IH Hf) as (A & B & C). rewrite H1, H2, H3, A, B, C. auto.
Qed.

Lemma Split_no_tab f :
  all_chars (fun c => negb (Ascii.eqb c tab)) f = true -> strings_Split f tab = [f].
Proof.
  induction f as [|c f IH]; intros H; [reflexivity|].
  cbn [all_chars] in H. apply andb_true_iff in H as [Hc Hf].
  apply negb_true_iff in Hc. cbn [strings_Split]. now rewrite Hc, (IH Hf).
Qed.

Lemma Split_field_tab f rest :
  all_chars (fun c => negb (Ascii.eqb c tab)) f = true ->
  strings_Split (f ++ String tab rest) tab = f :: strings_Split rest tab.
Proof.
  induction f as [|c f IH]; intros H.
  - cbn [append strings_Split]. now rewrite Ascii.eqb_refl.
  - cbn [all_chars] in H. apply andb_true_iff in H as [Hc Hf].
    apply negb_true_iff in Hc. cbn [append strings_Split]. now rewrite Hc, (IH Hf).
Qed.

(** Splitting the line of a row gives the fields back. *)
Lemma Split_row_line fields :
  fields <> [] ->
  Forall (fun f => is_field f = true) fields ->
  strings_Split (row_line fields) tab = fields.
Proof.
  unfold row_line. intros Hne Hall. induction Hall as [|f fields Hf Hall IH]; [congruence|].
  destruct (is_field_parts f Hf) as (Ht & _ & _).
  destruct fields as [|g fields].
  - cbn [String.concat]. now apply Split_no_tab.
  - cbn [String.concat] in *. cbn [append].
    rewrite (Split_field_tab f _ Ht). f_equal. apply IH. discriminate.
Qed.

Lemma row_line_chars (P : ascii -> bool) fields :
  P tab = true ->
  Forall (fun f => all_chars P f = true) fields ->
  all_chars P (row_line fields) = true.
Proof.
  unfold row_line. intros Ht Hall. induction Hall as [|f fields Hf Hall IH]; [reflexivity|].
  destruct fields as [|g fields]; [exact Hf|].
  cbn [String.concat] in *. rewrite !all_chars_app, Hf, IH. cbn [all_chars]. now rewrite Ht.
Qed.

Lemma dropCR_without l :
  all_chars (fun c => negb (Ascii.eqb c carriage_return)) l = true -> dropCR l = l.
Proof.
  induction l as [|c l IH]; intros H; [reflexivity|].
  cbn [all_chars] in H. apply andb_true_iff in H as [Hc Hl].
  apply negb_true_iff in Hc. cbn [dropCR]. rewrite (IH Hl), Hc. now destruct l.
Qed.

Lemma row_line_plain fields :
  Forall (fun f => is_field f = true) fields ->
  no_newline (row_line fields) = true /\ dropCR (row_line fields) = row_line fields.
Proof.
  intros Hall. split.
  - apply row_line_chars; [reflexivity|].
    eapply Forall_impl; [|exact Hall]. intros f Hf. now destruct (is_field_parts f Hf) as (_ & H & _).
  - apply dropCR_without, row_line_chars; [reflexivity|].
    eapply Forall_impl; [|exact Hall]. intros f Hf. now destruct (is_field_parts f Hf) as (_ & _ & H).
Qed.

Lemma duration_field_row i r :
  r <> [] ->
  Forall (fun f => is_field f = true) r ->
  duration_field (Z.of_nat i) (row_line r) = nth_error r i.
Proof.
  intros Hne Hall. unfold duration_field. rewrite (Split_row_line r Hne Hall).
  rewrite Nat2Z.id.
  destruct (Z.leb_spec (Z.of_nat (List.length r)) (Z.of_nat i)) as [Hle|Hgt].
  - symmetry. apply nth_error_None. lia.
  - destruct (nth_error r i) as [f|] eqn:Hn.
    + f_equal. now apply nth_error_nth.
    + apply nth_error_None in Hn. lia.
Qed.

Lemma table_rows i rows :
  Forall (fun r => r <> [] /\ Forall (fun f => is_field f = true) r) rows ->
  parsed_durations (Z.of_nat i) (map row_line rows) = durations_of (column i rows)
  /\ failed_fields (Z.of_nat i) (map row_line rows) = warnings_of (column i rows).
Proof.
  unfold durations_of, warnings_of, column.
  induction 1 as [|r rows [Hne Hall] _ [IH1 IH2]]; [split; reflexivity|].
  cbn [map parsed_durations failed_fields flat_map].
  rewrite (duration_field_row i r Hne Hall), IH1, IH2.
  destruct (nth_error r i) as [f|]; [|split; reflexivity].
  cbn [flat_map app].
  destruct (ParseDuration f) as [d [err|]]; split; reflexivity.
Qed.

Lemma find_duration_at header i :
  nth_error header i = Some "duration" ->
  ~ In "duration" (firstn i header) ->
  find_duration header 0 = Z.of_nat i.
Proof.
  intros Hn Hfirst.
  assert (Hlen : (i < List.length header)%nat)
    by (apply nth_error_Some; congruence).
  destruct (nth_error_split header i Hn) as (pre & post & -> & <-).
  rewrite firstn_app, Nat.sub_diag, firstn_all in Hfirst.
  cbn [firstn] in Hfirst. rewrite app_nil_r in Hfirst.
  now rewrite (find_duration_first pre post 0 Hfirst).
Qed.

(* ----------------------------------------------------------------- *)
(** ** Writing and reading decimal digits *)

Lemma digit_char_digit d :
  0 <= d <= 9 -> is_digit (digit_char d) = true /\ digit_val (digit_char d) = d.
Proof.
  intros H.
  assert (E : d = 0 \/ d = 1 \/ d = 2 \/ d = 3 \/ d = 4 \/ d = 5 \/ d = 6
              \/ d = 7 \/ d = 8 \/ d = 9) by lia.
  repeat (destruct E as [-> | E]; [split; reflexivity|]). subst d. split; reflexivity.
Qed.

Lemma decimal_from_app a :
  forall x b, decimal_from x (a ++ b) = decimal_from (decimal_from x a) b.
Proof. induction a as [|c a IH]; intros x b; [reflexivity|]. cbn. apply IH. Qed.

Lemma decimal_from_shift ds :
  forall x, decimal_from x ds = x * 10 ^ Z.of_nat (String.length ds) + decimal ds.
Proof.
  unfold decimal. induction ds as [|c ds IH]; intros x.
  - cbn. lia.
  - cbn [decimal_from String.length]. rewrite (IH (x * 10 + digit_val c)), (IH (0 * 10 + digit_val c)).
    rewrite Nat2Z.inj_succ, Z.pow_succ_r by lia. ring.
Qed.

Lemma decimal_snoc ds c : decimal (ds ++ String c "") = decimal ds * 10 + digit_val c.
Proof. unfold decimal. rewrite decimal_from_app. reflexivity. Qed.

Lemma decimal_nonneg ds : all_chars is_digit ds = true -> 0 <= decimal ds.
Proof. intros H. exact (decimal_from_lower ds H 0 (Z.le_refl 0)). Qed.

Lemma decimal_upper ds :
  all_chars is_digit ds = true -> decimal ds < 10 ^ Z.of_nat (String.length ds).
Proof.
  unfold decimal. 
  assert (G : forall x, all_chars is_digit ds = true ->
              decimal_from x ds < (x + 1) * 10 ^ Z.of_nat (String.length ds)).
  { induction ds as [|c ds IH]; intros x H.
    - cbn. lia.
    - cbn [all_chars] in H. apply andb_true_iff in H as [Hc Hds].
      cbn [decimal_from String.length]. pose proof (digit_val_range c Hc).
      specialize (IH (x * 10 + digit_val c) Hds).
      rewrite Nat2Z.inj_succ, Z.pow_succ_r by lia.
      assert (0 < 10 ^ Z.of_nat (String.length ds)) by (apply Z.pow_pos_nonneg; lia).
      nia. }
  intros H. specialize (G 0 H). lia.
Qed.

Lemma fmtInt_loop_spec fuel :
  forall v buf,
    0 <= v < 10 ^ Z.of_nat fuel ->
    exists ds,
      fmtInt_loop fuel buf v = ds ++ buf
      /\ all_chars is_digit ds = true
      /\ decimal ds = v
      /\ (0 < v -> ds <> "").
Proof.
  induction fuel as [|fuel IH]; intros v buf Hv.
  - exists "". cbn in *. repeat split; try reflexivity; lia.
  - cbn [fmtInt_loop]. destruct (Z.gtb_spec v 0) as [Hpos|Hz].
    + assert (Hq : 0 <= v / 10 < 10 ^ Z.of_nat fuel).
      { rewrite Nat2Z.inj_succ, Z.pow_succ_r in Hv by lia.
        split; [apply Z.div_pos; lia|apply Z.div_lt_upper_bound; lia]. }
      destruct (IH (v / 10) (String (digit_char (v mod 10)) buf) Hq)
        as (ds & E & Hds & Hdec & _).
      pose proof (Z.mod_pos_bound v 10 ltac:(lia)) as Hm.
      destruct (digit_char_digit (v mod 10) ltac:(lia)) as [Hd1 Hd2].
      exists (ds ++ String (digit_char (v mod 10)) "").
      split; [rewrite E, append_assoc; reflexivity|].
      split; [rewrite all_chars_app, Hds; cbn; now rewrite Hd1|].
      split.
      * rewrite decimal_snoc, Hdec, Hd2. pose proof (Z.div_mod v 10 ltac:(lia)). lia.
      * intros _. destruct ds; discriminate.
    + exists "". repeat split; try reflexivity; try lia. cbn. lia.
Qed.

Lemma fmtInt_spec buf v :
  0 <= v < two64 ->
  exists ds,
    fmtInt buf v = ds ++ buf
    /\ all_chars is_digit ds = true /\ ds <> "" /\ decimal ds = v.
Proof.
  intros Hv. unfold fmtInt. destruct (Z.eqb_spec v 0) as [->|Hnz].
  - exists "0". repeat split; try reflexivity. discriminate.
  - destruct (fmtInt_loop_spec 20 v buf) as (ds & E & Hds & Hdec & Hne).
    { unfold two64 in Hv. change (10 ^ Z.of_nat 20) with 100000000000000000000. lia. }
    exists ds. repeat split; try assumption. apply Hne. lia.
Qed.

(** The fraction [fmtFrac] writes. *)
Lemma fmtFrac_loop_spec prec :
  forall v buf print,
    0 <= v ->
    exists fd,
      fmtFrac_loop prec buf v print
      = (fd ++ buf, v / 10 ^ Z.of_nat prec,
         print || negb (v mod 10 ^ Z.of_nat prec =? 0))
      /\ all_chars is_digit fd = true
      /\ (String.length fd <= prec)%nat
      /\ decimal fd * 10 ^ (Z.of_nat prec - Z.of_nat (String.length fd))
         = (if print || negb (v mod 10 ^ Z.of_nat prec =? 0)
            then v mod 10 ^ Z.of_nat prec else 0)
      /\ (print = true -> String.length fd = prec)
      /\ (print || negb (v mod 10 ^ Z.of_nat prec =? 0) = false -> fd = "").
Proof.
  induction prec as [|prec IH]; intros v buf print Hv.
  - exists "". cbn [fmtFrac_loop]. change (10 ^ Z.of_nat 0) with 1.
    rewrite Z.div_1_r, Z.mod_1_r. cbn [Z.eqb negb]. rewrite orb_false_r.
    repeat split; try reflexivity. cbn. now destruct print.
  - cbn [fmtFrac_loop].
    set (digit := v mod 10). set (print' := print || negb (digit =? 0)).
    pose proof (Z.mod_pos_bound v 10 ltac:(lia)) as Hm. fold digit in Hm.
    destruct (digit_char_digit digit ltac:(lia)) as [Hd1 Hd2].
    assert (Hq : 0 <= v / 10) by (apply Z.div_pos; lia).
    destruct (IH (v / 10)
                (if print' then String (digit_char digit) buf else buf) print' Hq)
      as (fd & E & Hfd & Hlen & Hdec & Hfull & Hnone).
    assert (Hpow : 10 ^ Z.of_nat (S prec) = 10 * 10 ^ Z.of_nat prec)
      by (rewrite Nat2Z.inj_succ, Z.pow_succ_r by lia; reflexivity).
    assert (Hp : 0 < 10 ^ Z.of_nat prec) by (apply Z.pow_pos_nonneg; lia).
    assert (Hdiv : v / 10 ^ Z.of_nat (S prec) = v / 10 / 10 ^ Z.of_nat prec)
      by (rewrite Hpow, Z.div_div by lia; reflexivity).
    assert (Hmod : v mod 10 ^ Z.of_nat (S prec)
                   = 10 * ((v / 10) mod 10 ^ Z.of_nat prec) + digit).
    { rewrite Hpow. unfold digit. rewrite Z.rem_mul_r by lia. lia. }
    pose proof (Z.mod_pos_bound (v / 10) (10 ^ Z.of_nat prec) Hp) as Hm2.
    assert (Hflag : print' || negb ((v / 10) mod 10 ^ Z.of_nat prec =? 0)
                    = print || negb (v mod 10 ^ Z.of_nat (S prec) =? 0)).
    { unfold print'. rewrite Hmod.
      destruct print; [reflexivity|]. cbn [orb].
      destruct (Z.eqb_spec digit 0) as [Hd|Hd];
        destruct (Z.eqb_spec ((v / 10) mod 10 ^ Z.of_nat prec) 0) as [Hr|Hr];
        destruct (Z.eqb_spec (10 * ((v / 10) mod 10 ^ Z.of_nat prec) + digit) 0);
        cbn; try reflexivity; lia. }
    rewrite E, Hflag, <- Hdiv.
    destruct print' eqn:Hprint'.
    + (* the digit is written *)
      exists (fd ++ String (digit_char digit) "").
      specialize (Hfull eq_refl).
      assert (Hflag' : print || negb (v mod 10 ^ Z.of_nat (S prec) =? 0) = true)
        by (rewrite <- Hflag; reflexivity).
      rewrite Hflag' in *. cbn [orb] in Hdec.
      split; [now rewrite append_assoc|].
      split; [rewrite all_chars_app, Hfd; cbn; now rewrite Hd1|].
      rewrite length_append. cbn [String.length].
      split; [lia|]. split.
      * rewrite decimal_snoc, Hd2.
        replace (Z.of_nat (S prec) - Z.of_nat (String.length fd + 1)) with 0 by lia.
        rewrite Hfull in Hdec. rewrite Z.sub_diag in Hdec. 
        rewrite Hmod. change (10 ^ 0) with 1 in *. lia.
      * split; [intros _; lia|discriminate].
    + (* nothing written yet *)
      exists fd.
      assert (Hp0 : print = false) by (unfold print' in Hprint'; now destruct print).
      assert (Hd0 : digit = 0).
      { unfold print' in Hprint'. rewrite Hp0 in Hprint'. cbn in Hprint'.
        apply negb_false_iff, Z.eqb_eq in Hprint'. exact Hprint'. }
      split; [reflexivity|]. split; [exact Hfd|]. split; [lia|].
      rewrite <- Hflag. cbn [orb] in *.
      split.
      * destruct (negb ((v / 10) mod 10 ^ Z.of_nat prec =? 0)) eqn:Hz.
        -- rewrite Hmod, Hd0, <- Hdec.
           replace (Z.of_nat (S prec) - Z.of_nat (String.length fd))
             with (Z.succ (Z.of_nat prec - Z.of_nat (String.length fd))) by lia.
           rewrite Z.pow_succ_r by lia. ring.
        -- rewrite (Hnone eq_refl). reflexivity.
      * split; [intros Hc; congruence|exact Hnone].
Qed.

Lemma fmtFrac_spec buf v prec :
  0 <= v ->
  exists fr,
    fmtFrac buf v prec = (fr ++ buf, v / 10 ^ Z.of_nat prec)
    /\ ((v mod 10 ^ Z.of_nat prec = 0 /\ fr = "")
        \/ (v mod 10 ^ Z.of_nat prec <> 0
            /\ exists fd,
                fr = String "." fd
                /\ all_chars is_digit fd = true /\ fd <> ""
                /\ (String.length fd <= prec)%nat
                /\ decimal fd * 10 ^ (Z.of_nat prec - Z.of_nat (String.length fd))
                   = v mod 10 ^ Z.of_nat prec)).
Proof.
  intros Hv. unfold fmtFrac.
  destruct (fmtFrac_loop_spec prec v buf false Hv)
    as (fd & E & Hfd & Hlen & Hdec & _ & Hnone).
  rewrite E. cbn [orb] in *.
  destruct (Z.eqb_spec (v mod 10 ^ Z.of_nat prec) 0) as [Hz|Hnz]; cbn [negb] in *.
  - exists "". rewrite (Hnone eq_refl). split; [reflexivity|]. now left.
  - exists (String "." fd). split; [reflexivity|]. right. split; [exact Hnz|].
    exists fd. repeat split; try assumption.
    intros ->. cbn in Hdec. lia.
Qed.

(** ** float64: small integers *)

Lemma iter_xO_pow2 p q : Zpos (Pos.iter xO p q) = Zpos p * 2 ^ Zpos q.
Proof.
  rewrite <- Z.shiftl_mul_pow2 by lia. cbn [Z.shiftl].
  apply (Pos.iter_swap_gen _ _ Zpos xO (Z.mul 2)). reflexivity.
Qed.

Lemma f64_of_Z_exact n : 0 <= n < 2 ^ 53 -> f64_of_Z n = f64_exact n.
Proof.
  intros [Hn0 Hn]. destruct (Z.eq_dec n 0) as [->|Hnz]; [reflexivity|].
  assert (Hpos : 0 < n < 2 ^ 53) by lia.
  destruct (exact_mantissa n Hpos) as (HM & HMr & Hd).
  rewrite (f64_exact_pos n) by lia.
  set (d := Z.log2 n + 1) in *. set (M := Z.to_pos (n * 2 ^ (53 - d))) in *.
  destruct n as [|p|p]; try lia.
  unfold f64_of_Z, binary_normalize, binary_round.
  assert (Hdig : Zpos (digits2_pos p) = d).
  { change (Zpos (digits2_pos p)) with (Zdigits2 (Zpos p)). now rewrite Zdigits2_log2. }
  rewrite Hdig. unfold fexp, emin, prec, emax.
  replace (Z.max (d + 0 - 53) (3 - 1024 - 53)) with (d - 53) by lia.
  unfold shl_align.
  destruct (d - 53 - 0) as [|q|q] eqn:Hq; try lia.
  - replace (d - 53) with (0 + 0) by lia.
    apply round_exact; [lia| |exact HMr|lia].
    rewrite HM. replace (53 - d) with 0 by lia. change (2 ^ 0) with 1. lia.
  - replace (d - 53) with (d - 53 + 0) at 2 by lia.
    apply round_exact; [lia| |exact HMr|lia].
    rewrite iter_xO_pow2, HM. replace (53 - d) with (Zpos q) by lia.
    change (2 ^ 0) with 1. lia.
Qed.

Lemma f64_trunc_exact n : 0 <= n < 2 ^ 53 -> f64_trunc (f64_exact n) = Some n.
Proof.
  intros [Hn0 Hn]. destruct (Z.eq_dec n 0) as [->|Hnz]; [reflexivity|].
  assert (Hpos : 0 < n < 2 ^ 53) by lia.
  destruct (exact_mantissa n Hpos) as (HM & HMr & Hd).
  rewrite (f64_exact_pos n) by lia.
  set (d := Z.log2 n + 1) in *. set (M := Z.to_pos (n * 2 ^ (53 - d))) in *.
  unfold f64_trunc. f_equal.
  destruct (d - 53) as [|q|q] eqn:Hq; try lia.
  - rewrite Z.shiftl_0_r, HM. replace (53 - d) with 0 by lia. simpl. lia.
  - rewrite Z.shiftr_div_pow2 by lia. rewrite HM.
    replace (53 - d) with (Zpos q) by lia.
    apply Z.div_mul. apply Z.pow_nonzero; lia.
Qed.

Lemma uint64_of_f64_exact n : 0 <= n < 2 ^ 53 -> uint64_of_f64 (f64_exact n) = n.
Proof.
  intros H. unfold uint64_of_f64. rewrite (f64_trunc_exact n H).
  change (2 ^ 53) with 9007199254740992 in H.
  destruct (Z.leb_spec 0 n); [|lia].
  destruct (Z.ltb_spec n two64); [reflexivity|unfold two64 in *; lia].
Qed.

(** ** Reading a fraction of at most fifteen digits *)

Lemma leadingFraction_from_digits fd rest :
  all_chars is_digit fd = true ->
  starts_with is_digit rest = false ->
  forall x k,
    0 <= x -> 0 <= k ->
    decimal_from x fd <= 10 ^ 17 ->
    k + Z.of_nat (String.length fd) <= 15 ->
    leadingFraction_from x (f64_exact (10 ^ k)) false (fd ++ rest)
    = (decimal_from x fd,
       f64_exact (10 ^ (k + Z.of_nat (String.length fd))), rest).
Proof.
  intros Hfd Hrest. induction fd as [|c fd IH]; intros x k Hx Hk Hb Hlen.
  - cbn [append String.length decimal_from]. rewrite Z.add_0_r.
    destruct rest as [|r rest']; [reflexivity|]. cbn [starts_with] in Hrest.
    cbn [leadingFraction_from]. now rewrite Hrest.
  - cbn [all_chars] in Hfd. apply andb_true_iff in Hfd as [Hc Hfd].
    cbn [append leadingFraction_from decimal_from String.length] in *. rewrite Hc.
    pose proof (digit_val_range c Hc) as Hdv.
    pose proof (decimal_from_lower fd Hfd (x * 10 + digit_val c) ltac:(lia)) as Hlow.
    change (10 ^ 17) with 100000000000000000 in Hb.
    destruct (Z.gtb_spec x ((two63 - 1) / 10)) as [Hgt|_].
    { exfalso. change ((two63 - 1) / 10) with 922337203685477580 in Hgt. lia. }
    destruct (Z.gtb_spec (x * 10 + digit_val c) two63) as [Hgt|_].
    { exfalso. unfold two63 in Hgt. lia. }
    assert (Hscale : f64_mul (f64_exact (10 ^ k)) (f64_of_Z 10)
                     = f64_exact (10 ^ (k + 1))).
    { change (f64_of_Z 10) with (f64_exact 10).
      assert (0 < 10 ^ k) by (apply Z.pow_pos_nonneg; lia).
      rewrite f64_mul_exact; [now rewrite Z.pow_add_r by lia|lia|lia|].
      rewrite <- (Z.pow_1_r 10) at 2. rewrite <- Z.pow_add_r by lia.
      apply Z.le_lt_trans with (10 ^ 15); [apply Z.pow_le_mono_r; lia|].
      reflexivity. }
    rewrite Hscale, (IH Hfd) by lia.
    now replace (k + 1 + Z.of_nat (String.length fd))
      with (k + Z.of_nat (S (String.length fd))) by lia.
Qed.

Lemma fraction_part_digits fd rest :
  all_chars is_digit fd = true -> fd <> "" ->
  (String.length fd <= 15)%nat ->
  starts_with is_digit rest = false ->
  fraction_part (String "." (fd ++ rest))
  = (decimal fd, f64_exact (10 ^ Z.of_nat (String.length fd)), rest, true).
Proof.
  intros Hfd Hne Hlen Hrest. cbn [fraction_part]. change (is_dot ".") with true. cbv iota.
  unfold leadingFraction. change (f64_of_Z 1) with (f64_exact (10 ^ 0)).
  pose proof (decimal_upper fd Hfd) as Hup.
  rewrite (leadingFraction_from_digits fd rest Hfd Hrest 0 0); try lia.
  - fold (decimal fd). rewrite Z.add_0_l. do 2 f_equal.
    rewrite length_append. destruct fd; [congruence|]. cbn [String.length].
    apply negb_true_iff, Nat.eqb_neq. lia.
  - fold (decimal fd). apply Z.lt_le_incl, Z.lt_le_trans with (1 := Hup).
    apply Z.pow_le_mono_r; lia.
Qed.

(** ** One group with a fraction *)

Lemma div_pow10 p len :
  p = 3 \/ p = 6 \/ p = 9 ->
  1 <= len <= p ->
  f64_div (f64_of_Z (10 ^ p)) (f64_exact (10 ^ len)) = f64_exact (10 ^ (p - len)).
Proof.
  intros Hp Hlen.
  assert (E : len = 1 \/ len = 2 \/ len = 3 \/ len = 4 \/ len = 5 \/ len = 6
              \/ len = 7 \/ len = 8 \/ len = 9) by lia.
  destruct Hp as [-> | [-> | ->]];
    repeat (destruct E as [-> | E]; [try lia; vm_compute; reflexivity|]);
    subst; try lia; vm_compute; reflexivity.
Qed.

Lemma group_value_frac v f len p :
  p = 3 \/ p = 6 \/ p = 9 ->
  1 <= len <= p ->
  0 <= v -> 0 < f < 10 ^ len ->
  v * 10 ^ p + f * 10 ^ (p - len) <= two63 ->
  group_value v f (f64_exact (10 ^ len)) (10 ^ p)
  = Some (v * 10 ^ p + f * 10 ^ (p - len)).
Proof.
  intros Hp Hlen Hv Hf Hb.
  assert (Hpow : 0 < 10 ^ p) by (apply Z.pow_pos_nonneg; lia).
  assert (Hpl : 0 < 10 ^ (p - len)) by (apply Z.pow_pos_nonneg; lia).
  assert (Hsplit : 10 ^ p = 10 ^ len * 10 ^ (p - len)).
  { rewrite <- Z.pow_add_r by lia. f_equal. lia. }
  assert (Hsmall : 10 ^ p <= 10 ^ 9) by (apply Z.pow_le_mono_r; lia).
  change (10 ^ 9) with 1000000000 in Hsmall.
  assert (Hfx : f * 10 ^ (p - len) < 10 ^ p) by (rewrite Hsplit; nia).
  unfold group_value.
  destruct (Z.gtb_spec v (two63 / 10 ^ p)) as [Hgt|_].
  { exfalso. assert (v <= two63 / 10 ^ p) by (apply Z.div_le_lower_bound; nia). lia. }
  destruct (Z.gtb_spec f 0) as [_|Hle]; [|lia].
  rewrite (div_pow10 p len Hp Hlen).
  rewrite (f64_of_Z_exact f) by (change (2 ^ 53) with 9007199254740992; nia).
  rewrite f64_mul_exact by (try lia; change (2 ^ 53) with 9007199254740992; lia).
  rewrite uint64_of_f64_exact by (change (2 ^ 53) with 9007199254740992; lia).
  assert (Hw1 : wrapu64 (v * 10 ^ p) = v * 10 ^ p).
  { unfold wrapu64. apply Z.mod_small. unfold two63, two64 in *. nia. }
  rewrite Hw1.
  assert (Hw2 : wrapu64 (v * 10 ^ p + f * 10 ^ (p - len))
                = v * 10 ^ p + f * 10 ^ (p - len)).
  { unfold wrapu64. apply Z.mod_small. unfold two63, two64 in *. nia. }
  rewrite Hw2.
  destruct (Z.gtb_spec (v * 10 ^ p + f * 10 ^ (p - len)) two63); [lia|reflexivity].
Qed.

Lemma parse_groups_frac fuel ds fd u p rest d :
  all_chars is_digit ds = true -> ds <> "" ->
  all_chars is_digit fd = true -> fd <> "" ->
  p = 3 \/ p = 6 \/ p = 9 ->
  Z.of_nat (String.length fd) <= p ->
  0 < decimal fd ->
  unitMap u = Some (10 ^ p) ->
  starts_with (fun c => negb (is_numch c)) rest = false ->
  decimal ds * 10 ^ p + decimal fd * 10 ^ (p - Z.of_nat (String.length fd)) <= two63 ->
  parse_groups (S fuel) (ds ++ String "." (fd ++ u ++ rest)) d =
    let val := decimal ds * 10 ^ p
               + decimal fd * 10 ^ (p - Z.of_nat (String.length fd)) in
    if wrapu64 (d + val) >? two63 then inr InvalidDuration
    else parse_groups fuel rest (wrapu64 (d + val)).
Proof.
  intros Hds Hne Hfd Hfne Hp Hlen Hfpos Hunit Hrest Hbound.
  destruct (unitMap_key _ _ Hunit) as (Hune & Hustart & Huall & _ & Hpos & _).
  pose proof (decimal_nonneg ds Hds) as Hd0.
  pose proof (decimal_upper fd Hfd) as Hfup.
  assert (Hpl : 0 < 10 ^ (p - Z.of_nat (String.length fd)))
    by (apply Z.pow_pos_nonneg; lia).
  assert (Hv : decimal ds <= two63) by nia.
  assert (Hdig : starts_with is_digit (u ++ rest) = false).
  { rewrite starts_with_app by exact Hune.
    destruct u as [|cu u']; [congruence|]. simpl in *.
    unfold is_numch in Hustart. now apply orb_false_iff in Hustart as [H _]. }
  assert (Hli : leadingInt (ds ++ String "." (fd ++ u ++ rest))
                = Some (decimal ds, String "." (fd ++ u ++ rest))).
  { apply leadingInt_from_digits; auto. lia. }
  assert (Hfp : fraction_part (String "." (fd ++ u ++ rest))
                = (decimal fd, f64_exact (10 ^ Z.of_nat (String.length fd)),
                   u ++ rest, true)).
  { apply fraction_part_digits; auto. lia. }
  assert (Hsu : span_unit (u ++ rest) = (u, rest)) by now apply span_app.
  assert (Hgv : group_value (decimal ds) (decimal fd)
                  (f64_exact (10 ^ Z.of_nat (String.length fd))) (10 ^ p)
                = Some (decimal ds * 10 ^ p
                        + decimal fd * 10 ^ (p - Z.of_nat (String.length fd)))).
  { assert (1 <= Z.of_nat (String.length fd))
      by (destruct fd; [congruence|cbn [String.length]; lia]).
    apply group_value_frac; [exact Hp|lia|exact Hd0|lia|exact Hbound]. }
  cbv zeta.
  destruct ds as [|c ds']; [congruence|].
  cbn [append parse_groups]. cbn [append] in Hli.
  assert (Hc : is_numch c = true).
  { simpl in Hds. apply andb_true_iff in Hds as [Hc _]. now apply digit_numch. }
  rewrite Hc. cbn [negb]. rewrite Hli, Hfp. cbn [negb andb].
  rewrite andb_false_r.
  rewrite Hsu. destruct u as [|cu u']; [congruence|].
  rewrite Hunit, Hgv. reflexivity.
Qed.

(** ** Reading back what [Duration.String] writes *)

Lemma parse_groups_nil fuel d : parse_groups (S fuel) "" d = inl d.
Proof. reflexivity. Qed.

Lemma wrapu64_small z : 0 <= z <= two63 -> wrapu64 z = z.
Proof. intros H. unfold wrapu64. apply Z.mod_small. unfold two63, two64 in *. lia. Qed.

(** A whole number written by [fmtInt] before a unit. *)
Lemma parse_fmtInt_group fuel w u unit rest d :
  0 <= w < two64 ->
  unitMap u = Some unit ->
  starts_with (fun c => negb (is_numch c)) rest = false ->
  0 <= d -> d + w * unit <= two63 ->
  parse_groups (S fuel) (fmtInt (u ++ rest) w) d
  = parse_groups fuel rest (d + w * unit).
Proof.
  intros Hw Hunit Hrest Hd Hb.
  destruct (fmtInt_spec (u ++ rest) w Hw) as (ds & E & Hds & Hne & Hdec).
  destruct (unitMap_key _ _ Hunit) as (_ & _ & _ & _ & Hpos & _).
  rewrite E, (parse_groups_whole fuel ds u unit rest d Hds Hne Hunit Hrest)
    by (rewrite Hdec; nia).
  rewrite Hdec, wrapu64_small by nia.
  destruct (Z.gtb_spec (d + w * unit) two63); [lia|reflexivity].
Qed.

(** A number written by [fmtFrac] and [fmtInt] before a unit. *)
Lemma parse_fmtFrac_group fuel w u0 p u rest d buf u1 :
  p = 3 \/ p = 6 \/ p = 9 ->
  0 <= w < two64 -> 0 <= u0 ->
  unitMap u = Some (10 ^ p) ->
  starts_with (fun c => negb (is_numch c)) rest = false ->
  0 <= d -> d + w * 10 ^ p + u0 mod 10 ^ p <= two63 ->
  fmtFrac (u ++ rest) u0 (Z.to_nat p) = (buf, u1) ->
  u1 = u0 / 10 ^ p
  /\ parse_groups (S fuel) (fmtInt buf w) d
     = parse_groups fuel rest (d + w * 10 ^ p + u0 mod 10 ^ p).
Proof.
  intros Hp Hw Hu0 Hunit Hrest Hd Hb Hfrac.
  assert (Hp0 : 0 <= p) by lia.
  destruct (fmtFrac_spec (u ++ rest) u0 (Z.to_nat p) Hu0) as (fr & E & Hfr).
  rewrite Z2Nat.id in * by exact Hp0.
  rewrite Hfrac in E. injection E as -> ->. split; [reflexivity|].
  assert (Hpow : 0 < 10 ^ p) by (apply Z.pow_pos_nonneg; lia).
  pose proof (Z.mod_pos_bound u0 (10 ^ p) Hpow) as Hm.
  destruct Hfr as [[Hz ->]|(Hnz & fd & -> & Hfd & Hfne & Hlen & Hdec)].
  - cbn [append]. rewrite (parse_fmtInt_group fuel w u (10 ^ p) rest d) by (auto; lia).
    f_equal. lia.
  - destruct (fmtInt_spec (String "." fd ++ u ++ rest) w Hw) as (ds & E & Hds & Hne & Hw').
    rewrite E. cbn [append].
    assert (Hlen' : Z.of_nat (String.length fd) <= p) by lia.
    pose proof (decimal_nonneg fd Hfd) as Hf0.
    assert (Hpl : 0 < 10 ^ (p - Z.of_nat (String.length fd)))
      by (apply Z.pow_pos_nonneg; lia).
    assert (Hfpos : 0 < decimal fd) by nia.
    rewrite (parse_groups_frac fuel ds fd u p rest d Hds Hne Hfd Hfne Hp Hlen'
               Hfpos Hunit Hrest) by (rewrite Hw', Hdec; lia).
    cbv zeta. rewrite Hw', Hdec, wrapu64_small by nia.
    destruct (Z.gtb_spec (d + (w * 10 ^ p + u0 mod 10 ^ p)) two63); [lia|].
    f_equal. lia.
Qed.

Lemma fmtInt_starts buf v :
  0 <= v < two64 ->
  exists c t, fmtInt buf v = String c t /\ is_digit c = true
              /\ (buf <> "" -> t <> "").
Proof.
  intros Hv. destruct (fmtInt_spec buf v Hv) as (ds & E & Hds & Hne & _).
  destruct ds as [|c ds]; [congruence|]. cbn [all_chars] in Hds.
  apply andb_true_iff in Hds as [Hc _].
  exists c, (ds ++ buf). split; [exact E|]. split; [exact Hc|].
  intros Hb. destruct ds; [exact Hb|discriminate].
Qed.

Lemma digit_start_rest c t :
  is_digit c = true ->
  starts_with (fun c => negb (is_numch c)) (String c t) = false.
Proof. intros H. cbn. now rewrite (digit_numch c H). Qed.

Lemma fmtFrac_buf_nonempty buf v prec :
  buf <> "" -> fst (fmtFrac buf v prec) <> "".
Proof.
  intros Hb. unfold fmtFrac.
  assert (G : forall n buf v print, buf <> "" ->
              fst (fst (fmtFrac_loop n buf v print)) <> "").
  { clear. induction n as [|n IH]; intros buf v print Hb; [exact Hb|].
    cbn [fmtFrac_loop]. apply IH. destruct (print || _); [discriminate|exact Hb]. }
  specialize (G prec buf v false Hb).
  destruct (fmtFrac_loop prec buf v false) as [[buf' v'] print].
  cbn [fst] in *. destruct print; [discriminate|exact G].
Qed.

Lemma format_magnitude_parse u :
  0 <= u <= two63 ->
  (exists c t, format_magnitude u = String c t /\ is_digit c = true /\ t <> "")
  /\ forall fuel,
       parse_groups (S (S (S (S fuel)))) (format_magnitude u) 0 = inl u.
Proof.
  intros Hu.
  assert (Hu64 : 0 <= u < two64) by (unfold two63, two64 in *; lia).
  unfold format_magnitude.
  change Second with 1000000000. change Millisecond with 1000000.
  change Microsecond with 1000.
  destruct (Z.ltb_spec u 1000000000) as [Hsub|Hsec].
  - destruct (Z.eqb_spec u 0) as [->|Hnz].
    { split; [exists "0"%char, "s"; repeat split; discriminate|reflexivity]. }
    destruct (Z.ltb_spec u 1000) as [Hns|Hus].
    { (* nanoseconds *)
      change (fmtFrac "ns" u 0) with ("ns", u).
      split.
      - destruct (fmtInt_starts "ns" u Hu64) as (c & t & E & Hc & Ht).
        exists c, t. repeat split; auto. apply Ht. discriminate.
      - intros fuel.
        rewrite (parse_fmtInt_group _ u "ns" 1 "" 0 Hu64 eq_refl eq_refl) by lia.
        cbn [parse_groups]. f_equal; lia. }
    destruct (Z.ltb_spec u 1000000) as [Hmicro|Hms].
    { (* microseconds *)
      destruct (fmtFrac micro_s u 3) as [buf u1] eqn:Ef.
      assert (Hbuf : buf <> "").
      { pose proof (fmtFrac_buf_nonempty micro_s u 3 ltac:(discriminate)) as H.
        now rewrite Ef in H. }
      assert (Hdiv : 0 <= u / 1000 < two64).
      { split; [apply Z.div_pos; lia|]. apply Z.div_lt_upper_bound; lia. }
      pose proof (Z.div_mod u 1000 ltac:(lia)) as Hdm.
      pose proof (Z.mod_pos_bound u 1000 ltac:(lia)) as Hmb.
      split.
      - destruct (parse_fmtFrac_group 0 (u / 1000) u 3 micro_s "" 0 buf u1)
          as [-> _]; auto; try lia; try reflexivity.
        + change (10 ^ 3) with 1000. lia.
        + change (10 ^ 3) with 1000.
          destruct (fmtInt_starts buf (u / 1000) Hdiv) as (c & t & E & Hc & Ht).
          exists c, t. repeat split; auto.
      - intros fuel.
        destruct (parse_fmtFrac_group (S (S (S fuel))) (u / 1000) u 3 micro_s "" 0 buf u1)
          as [Eu1 Hparse]; auto; try lia; try reflexivity.
        + change (10 ^ 3) with 1000. lia.
        + change (10 ^ 3) with 1000 in *. subst u1. rewrite Hparse.
          cbn [parse_groups]. f_equal; lia. }
    { (* milliseconds *)
      destruct (fmtFrac "ms" u 6) as [buf u1] eqn:Ef.
      assert (Hbuf : buf <> "").
      { pose proof (fmtFrac_buf_nonempty "ms" u 6 ltac:(discriminate)) as H.
        now rewrite Ef in H. }
      assert (Hdiv : 0 <= u / 1000000 < two64).
      { split; [apply Z.div_pos; lia|]. apply Z.div_lt_upper_bound; lia. }
      pose proof (Z.div_mod u 1000000 ltac:(lia)) as Hdm.
      pose proof (Z.mod_pos_bound u 1000000 ltac:(lia)) as Hmb.
      split.
      - destruct (parse_fmtFrac_group 0 (u / 1000000) u 6 "ms" "" 0 buf u1)
          as [-> _]; auto; try lia; try reflexivity.
        + change (10 ^ 6) with 1000000. lia.
        + change (10 ^ 6) with 1000000.
          destruct (fmtInt_starts buf (u / 1000000) Hdiv) as (c & t & E & Hc & Ht).
          exists c, t. repeat split; auto.
      - intros fuel.
        destruct (parse_fmtFrac_group (S (S (S fuel))) (u / 1000000) u 6 "ms" "" 0 buf u1)
          as [Eu1 Hparse]; auto; try lia; try reflexivity.
        + change (10 ^ 6) with 1000000. lia.
        + change (10 ^ 6) with 1000000 in *. subst u1. rewrite Hparse.
          cbn [parse_groups]. f_equal; lia. }
  - (* a second or more *)
    destruct (fmtFrac "s" u 9) as [buf u1] eqn:Ef.
    assert (Hbuf : buf <> "").
    { pose proof (fmtFrac_buf_nonempty "s" u 9 ltac:(discriminate)) as H.
      now rewrite Ef in H. }
    pose proof (Z.div_mod u 1000000000 ltac:(lia)) as Hdm.
    pose proof (Z.mod_pos_bound u 1000000000 ltac:(lia)) as Hmb.
    assert (Hu1 : u1 = u / 1000000000).
    { pose proof (fmtFrac_spec "s" u 9 ltac:(lia)) as (fr & E & _).
      rewrite Ef in E. now injection E as _ ->. }
    assert (Hu1r : 0 <= u1) by (subst u1; apply Z.div_pos; lia).
    pose proof (Z.div_mod u1 60 ltac:(lia)) as Hdm1.
    pose proof (Z.mod_pos_bound u1 60 ltac:(lia)) as Hmb1.
    assert (Hu2r : 0 <= u1 / 60) by (apply Z.div_pos; lia).
    pose proof (Z.div_mod (u1 / 60) 60 ltac:(lia)) as Hdm2.
    pose proof (Z.mod_pos_bound (u1 / 60) 60 ltac:(lia)) as Hmb2.
    assert (Hu3r : 0 <= u1 / 60 / 60) by (apply Z.div_pos; lia).
    assert (Hsgroup : forall fuel d,
               0 <= d -> d + (u1 mod 60) * 1000000000 + u mod 1000000000 <= two63 ->
               parse_groups (S (S fuel)) (fmtInt buf (u1 mod 60)) d
               = inl (d + (u1 mod 60) * 1000000000 + u mod 1000000000)).
    { intros fuel d Hd Hb.
      destruct (parse_fmtFrac_group (S fuel) (u1 mod 60) u 9 "s" "" d buf u1)
        as [_ ->]; auto; try lia; try reflexivity. }
    assert (Hs64 : 0 <= u1 mod 60 < two64) by (unfold two64; lia).
    destruct (fmtInt_starts buf (u1 mod 60) Hs64) as (c1 & t1 & E1 & Hc1 & Ht1).
    destruct (Z.gtb_spec (u1 / 60) 0) as [Hmin|Hnomin].
    + assert (Hm64 : 0 <= (u1 / 60) mod 60 < two64) by (unfold two64; lia).
      assert (Hmin_group : forall fuel d,
                 0 <= d ->
                 d + ((u1 / 60) mod 60) * 60000000000
                 + (u1 mod 60) * 1000000000 + u mod 1000000000 <= two63 ->
                 parse_groups (S (S (S fuel)))
                   (fmtInt (String "m" (fmtInt buf (u1 mod 60))) ((u1 / 60) mod 60)) d
                 = inl (d + ((u1 / 60) mod 60) * 60000000000
                        + (u1 mod 60) * 1000000000 + u mod 1000000000)).
      { intros fuel d Hd Hb.
        rewrite (parse_fmtInt_group _ ((u1 / 60) mod 60) "m" 60000000000
                   (fmtInt buf (u1 mod 60)) d Hm64 eq_refl);
          [|rewrite E1; now apply digit_start_rest|lia|lia].
        rewrite Hsgroup by lia. f_equal; lia. }
      destruct (fmtInt_starts (String "m" (fmtInt buf (u1 mod 60))) ((u1 / 60) mod 60) Hm64)
        as (c2 & t2 & E2 & Hc2 & Ht2).
      destruct (Z.gtb_spec (u1 / 60 / 60) 0) as [Hhour|Hnohour].
      * assert (Hh64 : 0 <= u1 / 60 / 60 < two64) by (unfold two63, two64 in *; lia).
        split.
        -- destruct (fmtInt_starts
                       (String "h" (fmtInt (String "m" (fmtInt buf (u1 mod 60)))
                                      ((u1 / 60) mod 60)))
                       (u1 / 60 / 60) Hh64) as (c3 & t3 & E3 & Hc3 & Ht3).
           exists c3, t3. repeat split; auto. apply Ht3. discriminate.
        -- intros fuel.
           rewrite (parse_fmtInt_group _ (u1 / 60 / 60) "h" 3600000000000
                      (fmtInt (String "m" (fmtInt buf (u1 mod 60))) ((u1 / 60) mod 60))
                      0 Hh64 eq_refl);
             [|rewrite E2; now apply digit_start_rest|lia|lia].
           rewrite Hmin_group by lia. f_equal; lia.
      * split.
        -- exists c2, t2. repeat split; auto. apply Ht2. discriminate.
        -- intros fuel. rewrite Hmin_group by lia. f_equal; lia.
    + split.
      * exists c1, t1. repeat split; auto.
      * intros fuel. rewrite Hsgroup by lia. f_equal; lia.
Qed.

Lemma time_ParseDuration_String d :
  MinInt64 <= d <= MaxInt64 ->
  time_ParseDuration (Duration_String d) = (d, None).
Proof.
  intros Hd. unfold MinInt64, MaxInt64 in Hd. unfold Duration_String.
  assert (Hparse : forall u, 0 <= u <= two63 ->
            String.eqb (format_magnitude u) "0" = false
            /\ String.eqb (format_magnitude u) "" = false
            /\ parse_groups (S (String.length (format_magnitude u)))
                 (format_magnitude u) 0 = inl u
            /\ strip_sign (format_magnitude u) = (false, format_magnitude u)).
  { intros u Hu. destruct (format_magnitude_parse u Hu) as [(c & t & E & Hc & Ht) Hp].
    split; [|split; [|split]].
    - rewrite E. apply String.eqb_neq. intros H. injection H as _ H. contradiction.
    - rewrite E. reflexivity.
    - rewrite <- (Hp (String.length (format_magnitude u))).
      apply parse_groups_fuel; lia.
    - rewrite E. destruct (numch_no_sign c (digit_numch c Hc)) as [E1 E2].
      unfold strip_sign. now rewrite E1, E2. }
  destruct (Z.ltb_spec d 0) as [Hneg|Hpos].
  - assert (Hu : wrapu64 (- wrapu64 d) = - d).
    { unfold wrapu64.
      replace (d mod two64) with (d + two64).
      - replace (- (d + two64)) with (- d + (-1) * two64) by ring.
        rewrite Z.mod_add by (unfold two64; lia).
        apply Z.mod_small. unfold two63, two64 in *. lia.
      - symmetry. replace d with (d + two64 + (-1) * two64) at 1 by ring.
        rewrite Z.mod_add by (unfold two64; lia).
        apply Z.mod_small. unfold two63, two64 in *. lia. }
    rewrite Hu. destruct (Hparse (- d) ltac:(lia)) as (H0 & He & Hp & _).
    unfold time_ParseDuration. cbn [strip_sign]. change (byte "-" =? 45) with true.
    cbv iota. rewrite H0, He, Hp. f_equal.
    unfold wrap64.
    destruct (Z.eq_dec (- d) two63) as [E|Hne].
    + rewrite E. replace d with (- two63) by lia. reflexivity.
    + rewrite (Z.mod_small (- d + two63)) by (unfold two63, two64 in *; lia).
      replace (- (- d + two63 - two63) + two63) with (d + two63) by ring.
      rewrite Z.mod_small by (unfold two63, two64 in *; lia). ring.
  - rewrite (wrapu64_small d) by lia.
    destruct (Hparse d ltac:(lia)) as (H0 & He & Hp & Hs).
    unfold time_ParseDuration. rewrite Hs, H0, He, Hp.
    destruct (Z.gtb_spec d (two63 - 1)); [lia|reflexivity].
Qed.

(** ** A number with a fraction before a unit that is a power of ten *)

Lemma group_value_whole v scale unit :
  0 <= v -> 0 < unit -> v * unit <= two63 ->
  group_value v 0 scale unit = Some (v * unit).
Proof.
  intros Hv Hu Hb. unfold group_value.
  destruct (Z.gtb_spec v (two63 / unit)) as [Hgt|_].
  { exfalso. assert (v <= two63 / unit) by (apply Z.div_le_lower_bound; lia). lia. }
  cbn. now rewrite wrapu64_small by (split; [apply Z.mul_nonneg_nonneg; lia|exact Hb]).
Qed.

Lemma parse_groups_fraction fuel ds fd u p rest d :
  all_chars is_digit ds = true -> ds <> "" ->
  all_chars is_digit fd = true -> fd <> "" ->
  p = 3 \/ p = 6 \/ p = 9 ->
  Z.of_nat (String.length fd) <= p ->
  unitMap u = Some (10 ^ p) ->
  starts_with (fun c => negb (is_numch c)) rest = false ->
  0 <= d ->
  d + decimal ds * 10 ^ p + decimal fd * 10 ^ (p - Z.of_nat (String.length fd))
  <= two63 ->
  parse_groups (S fuel) (ds ++ String "." (fd ++ u ++ rest)) d
  = parse_groups fuel rest
      (d + decimal ds * 10 ^ p
       + decimal fd * 10 ^ (p - Z.of_nat (String.length fd))).
Proof.
  intros Hds Hne Hfd Hfne Hp Hlen Hunit Hrest Hd Hbound.
  pose proof (decimal_nonneg ds Hds) as Hd0.
  pose proof (decimal_nonneg fd Hfd) as Hf0.
  assert (Hpow : 0 < 10 ^ p) by (apply Z.pow_pos_nonneg; lia).
  assert (Hpl : 0 < 10 ^ (p - Z.of_nat (String.length fd)))
    by (apply Z.pow_pos_nonneg; lia).
  assert (Hprod : 0 <= decimal ds * 10 ^ p) by (apply Z.mul_nonneg_nonneg; lia).
  assert (Hfprod : 0 <= decimal fd * 10 ^ (p - Z.of_nat (String.length fd)))
    by (apply Z.mul_nonneg_nonneg; lia).
  destruct (Z.eq_dec (decimal fd) 0) as [Ez|Hnz].
  - (* the fraction is zero *)
    destruct (unitMap_key _ _ Hunit) as (Hune & Hustart & Huall & _ & _ & _).
    assert (Hdig : starts_with is_digit (u ++ rest) = false).
    { rewrite starts_with_app by exact Hune.
      destruct u as [|cu u']; [congruence|]. simpl in *.
      unfold is_numch in Hustart. now apply orb_false_iff in Hustart as [H _]. }
    assert (Hv : decimal ds <= two63).
    { assert (decimal ds * 1 <= decimal ds * 10 ^ p)
        by (apply Z.mul_le_mono_nonneg_l; lia). lia. }
    assert (Hli : leadingInt (ds ++ String "." (fd ++ u ++ rest))
                  = Some (decimal ds, String "." (fd ++ u ++ rest))).
    { apply leadingInt_from_digits; auto. lia. }
    assert (Hfp : fraction_part (String "." (fd ++ u ++ rest))
                  = (decimal fd, f64_exact (10 ^ Z.of_nat (String.length fd)),
                     u ++ rest, true)).
    { apply fraction_part_digits; auto. lia. }
    assert (Hsu : span_unit (u ++ rest) = (u, rest)) by now apply span_app.
    rewrite Ez in *. rewrite Z.mul_0_l, Z.add_0_r in *.
    destruct ds as [|c ds']; [congruence|].
    cbn [append parse_groups]. cbn [append] in Hli.
    assert (Hc : is_numch c = true).
    { simpl in Hds. apply andb_true_iff in Hds as [Hc _]. now apply digit_numch. }
    rewrite Hc. cbn [negb]. rewrite Hli, Hfp. rewrite andb_false_r.
    rewrite Hsu. destruct u as [|cu u']; [congruence|].
    rewrite Hunit, group_value_whole by lia.
    rewrite wrapu64_small by lia.
    destruct (Z.gtb_spec (d + decimal (String c ds') * 10 ^ p) two63); [lia|reflexivity].
  - rewrite (parse_groups_frac fuel ds fd u p rest d Hds Hne Hfd Hfne Hp Hlen
               ltac:(lia) Hunit Hrest) by lia.
    cbv zeta. rewrite wrapu64_small by lia.
    destruct (Z.gtb_spec
                (d + (decimal ds * 10 ^ p
                      + decimal fd * 10 ^ (p - Z.of_nat (String.length fd)))) two63);
      [lia|]. f_equal. lia.
Qed.

(** The standard parser on a number with a fraction of at most [p]
    digits and a unit of [10^p] nanoseconds. *)
Lemma time_ParseDuration_fraction ds fd u p :
  all_chars is_digit ds = true -> ds <> "" ->
  all_chars is_digit fd = true -> fd <> "" ->
  p = 3 \/ p = 6 \/ p = 9 ->
  Z.of_nat (String.length fd) <= p ->
  unitMap u = Some (10 ^ p) ->
  decimal ds * 10 ^ p + decimal fd * 10 ^ (p - Z.of_nat (String.length fd))
  <= MaxInt64 ->
  time_ParseDuration (ds ++ String "." (fd ++ u))
  = (decimal ds * 10 ^ p + decimal fd * 10 ^ (p - Z.of_nat (String.length fd)),
     None).
Proof.
  intros Hds Hne Hfd Hfne Hp Hlen Hunit Hbound.
  unfold MaxInt64 in Hbound.
  unfold time_ParseDuration.
  assert (Hsign : strip_sign (ds ++ String "." (fd ++ u))
                  = (false, ds ++ String "." (fd ++ u))).
  { destruct ds as [|c ds']; [congruence|]. simpl in Hds.
    apply andb_true_iff in Hds as [Hc _].
    destruct (numch_no_sign c (digit_numch c Hc)) as [E1 E2].
    unfold strip_sign. cbn [append]. now rewrite E1, E2. }
  rewrite Hsign.
  assert (Hlen2 : (2 <= String.length (ds ++ String "." (fd ++ u)))%nat).
  { rewrite length_append. destruct ds; [congruence|]. cbn [String.length]. lia. }
  destruct (String.eqb_spec (ds ++ String "." (fd ++ u)) "0") as [E|_].
  { rewrite E in Hlen2. simpl in Hlen2. lia. }
  destruct (String.eqb_spec (ds ++ String "." (fd ++ u)) "") as [E|_].
  { rewrite E in Hlen2. simpl in Hlen2. lia. }
  destruct (String.length (ds ++ String "." (fd ++ u))) as [|n]; [lia|clear Hlen2].
  rewrite <- (append_nil_r u).
  rewrite (parse_groups_fraction _ ds fd u p "" 0 Hds Hne Hfd Hfne Hp Hlen Hunit eq_refl)
    by lia.
  cbn [parse_groups]. rewrite !Z.add_0_l.
  destruct (Z.gtb_spec
              (decimal ds * 10 ^ p
               + decimal fd * 10 ^ (p - Z.of_nat (String.length fd))) (two63 - 1));
    [lia|reflexivity].
Qed.

(* ----------------------------------------------------------------- *)
(** ** float64: rounding to nearest *)

Lemma shr_1_nonneg m r s :
  0 <= m ->
  shr_1 {| shr_m := m; shr_r := r; shr_s := s |}
  = {| shr_m := m / 2; shr_r := Z.odd m; shr_s := r || s |}.
Proof.
  intros Hm. rewrite <- Z.div2_div.
  destruct m as [|p|p]; [reflexivity| |lia]. now destruct p.
Qed.

Lemma shr_iter (k : nat) :
  forall m r s,
    0 <= m ->
    exists r' s',
      Nat.iter k shr_1 {| shr_m := m; shr_r := r; shr_s := s |}
      = {| shr_m := m / 2 ^ Z.of_nat k; shr_r := r'; shr_s := s' |}
      /\ ((1 <= k)%nat -> r' = Z.odd (m / 2 ^ (Z.of_nat k - 1))).
Proof.
  induction k as [|k IH]; intros m r s Hm.
  - exists r, s. cbn [Nat.iter]. change (2 ^ Z.of_nat 0) with 1. rewrite Z.div_1_r.
    split; [reflexivity|lia].
  - destruct (IH m r s Hm) as (r1 & s1 & E & _).
    change (Nat.iter (S k) shr_1 ?x) with (shr_1 (Nat.iter k shr_1 x)).
    assert (Hp : 0 < 2 ^ Z.of_nat k) by (apply Z.pow_pos_nonneg; lia).
    rewrite E, shr_1_nonneg by (apply Z.div_pos; lia).
    exists (Z.odd (m / 2 ^ Z.of_nat k)), (r1 || s1). split.
    + f_equal. rewrite Z.div_div by lia. f_equal.
      rewrite Nat2Z.inj_succ, Z.pow_succ_r by lia. ring.
    + intros _. now replace (Z.of_nat (S k) - 1) with (Z.of_nat k) by lia.
Qed.

Lemma shr_fexp_spec (mx : positive) (ex k : Z) (l : location) :
  0 <= k ->
  2 ^ (52 + k) <= Zpos mx < 2 ^ (53 + k) ->
  -1074 <= ex + k ->
  exists r' s',
    shr_fexp prec emax (Zpos mx) ex l
    = ({| shr_m := Zpos mx / 2 ^ k; shr_r := r'; shr_s := s' |}, ex + k)
    /\ (1 <= k -> r' = Z.odd (Zpos mx / 2 ^ (k - 1)))
    /\ (k = 0 ->
        {| shr_m := Zpos mx / 2 ^ k; shr_r := r'; shr_s := s' |}
        = shr_record_of_loc (Zpos mx) l).
Proof.
  intros Hk Hmx He.
  assert (Hd : Zdigits2 (Zpos mx) = 53 + k).
  { apply Zdigits2_unique. now replace (53 + k - 1) with (52 + k) by lia. }
  unfold shr_fexp. rewrite Hd. unfold fexp, emin, prec, emax.
  replace (Z.max (53 + k + ex - 53) (3 - 1024 - 53) - ex) with k by lia.
  destruct k as [|pk|pk]; [| |lia].
  - cbn [shr]. change (2 ^ 0) with 1. rewrite Z.div_1_r, Z.add_0_r.
    destruct l as [|[]]; cbn [shr_record_of_loc]; do 2 eexists;
      (split; [reflexivity|split; [lia|reflexivity]]).
  - cbn [shr]. rewrite iter_pos_nat.
    assert (Hrec : exists r s, shr_record_of_loc (Zpos mx) l
                               = {| shr_m := Zpos mx; shr_r := r; shr_s := s |})
      by (destruct l as [|[]]; do 2 eexists; reflexivity).
    destruct Hrec as (r & s & ->).
    destruct (shr_iter (Pos.to_nat pk) (Zpos mx) r s ltac:(lia)) as (r' & s' & E & Hr).
    rewrite positive_nat_Z in *. exists r', s'.
    split; [now rewrite E|]. split; [intros _; apply Hr; lia|lia].
Qed.

Lemma round_nearest_even_bounds m r s :
  let m' := round_nearest_even m
              (loc_of_shr_record {| shr_m := m; shr_r := r; shr_s := s |}) in
  m <= m' <= m + 1 /\ (r = false -> m' = m).
Proof.
  destruct r, s; cbn; try destruct (Z.even m); split; try lia; try reflexivity;
    discriminate.
Qed.

(** The float a positive mantissa of [53 + k] bits rounds to: its
    value in units of [2^ex] is [m'' * 2^k], where [m''] is the
    mantissa without its low [k] bits, or one more when the first bit
    dropped is set. *)
Lemma round_aux_spec (mx : positive) (ex k : Z) (l : location) :
  0 <= k ->
  2 ^ (52 + k) <= Zpos mx < 2 ^ (53 + k) ->
  -1074 <= ex + k -> ex + k + 1 <= 971 ->
  exists (mf : positive) (ef m'' : Z),
    binary_round_aux prec emax false (Zpos mx) ex l = S754_finite false mf ef
    /\ ex + k <= ef <= ex + k + 1
    /\ 2 ^ 52 <= Zpos mf < 2 ^ 53
    /\ Zpos mf * 2 ^ (ef - ex) = m'' * 2 ^ k
    /\ Zpos mx / 2 ^ k <= m'' <= Zpos mx / 2 ^ k + 1
    /\ ((k = 0 /\ l = loc_Exact) \/ (1 <= k /\ Z.odd (Zpos mx / 2 ^ (k - 1)) = false) ->
        m'' = Zpos mx / 2 ^ k).
Proof.
  intros Hk Hmx He1 He2.
  destruct (shr_fexp_spec mx ex k l Hk Hmx He1) as (r' & s' & E1 & Hr & H0).
  unfold binary_round_aux. rewrite E1. cbn [shr_m].
  pose proof (round_nearest_even_bounds (Zpos mx / 2 ^ k) r' s') as [Hb Hrf].
  set (m'' := round_nearest_even (Zpos mx / 2 ^ k)
                (loc_of_shr_record
                   {| shr_m := Zpos mx / 2 ^ k; shr_r := r'; shr_s := s' |})) in *.
  assert (Hpk : 0 < 2 ^ k) by (apply Z.pow_pos_nonneg; lia).
  assert (Hq : 2 ^ 52 <= Zpos mx / 2 ^ k < 2 ^ 53).
  { rewrite !Z.pow_add_r in Hmx by lia. split.
    - apply Z.div_le_lower_bound; lia.
    - apply Z.div_lt_upper_bound; lia. }
  assert (Hexact : (k = 0 /\ l = loc_Exact)
                   \/ (1 <= k /\ Z.odd (Zpos mx / 2 ^ (k - 1)) = false) ->
                   m'' = Zpos mx / 2 ^ k).
  { intros [[-> ->]|[Hk1 Hodd]]; apply Hrf.
    - specialize (H0 eq_refl). cbn [shr_record_of_loc] in H0. now injection H0.
    - rewrite (Hr Hk1). exact Hodd. }
  assert (Hm : 2 ^ 52 <= m'' <= 2 ^ 53) by lia.
  destruct m'' as [|pm|pm] eqn:Em; try lia.
  destruct (Z.eq_dec (Zpos pm) (2 ^ 53)) as [Etop|Hlt].
  - (* the rounded mantissa has an extra bit *)
    destruct (shr_fexp_spec pm (ex + k) 1 loc_Exact) as (r2 & s2 & E2 & _ & _);
      [lia|rewrite Etop; split; [reflexivity|reflexivity]|lia|].
    rewrite E2. cbn [shr_m]. rewrite Etop. change (2 ^ 53 / 2 ^ 1) with (Zpos (2 ^ 52)%positive).
    unfold emax, prec. destruct (Z.leb_spec (ex + k + 1) (1024 - 53)); [|lia].
    exists (2 ^ 52)%positive, (ex + k + 1), (Zpos pm).
    split; [reflexivity|]. split; [lia|]. split; [split; reflexivity|].
    split; [|split; [lia|exact Hexact]].
    rewrite Etop. replace (ex + k + 1 - ex) with (1 + k) by lia.
    rewrite Z.pow_add_r, Z.mul_assoc by lia. reflexivity.
  - destruct (shr_fexp_spec pm (ex + k) 0 loc_Exact) as (r2 & s2 & E2 & _ & _);
      [lia|rewrite !Z.add_0_r; lia|lia|].
    rewrite E2. cbn [shr_m]. change (2 ^ 0) with 1. rewrite Z.div_1_r, Z.add_0_r.
    unfold emax, prec. destruct (Z.leb_spec (ex + k) (1024 - 53)); [|lia].
    exists pm, (ex + k), (Zpos pm).
    split; [reflexivity|]. split; [lia|]. split; [lia|].
    split; [|split; [lia|exact Hexact]].
    now replace (ex + k - ex) with k by lia.
Qed.

(** ** float64: the quotient of two integers *)

(** The quotient of [n] by a larger [c] is a float below one that
    exceeds [n / c] by less than one unit of its last place. *)
Lemma f64_div_bound n c :
  0 < n < c -> c < 2 ^ 52 ->
  exists (mq : positive) (E : Z),
    f64_div (f64_exact n) (f64_exact c) = S754_finite false mq (- E)
    /\ 53 <= E
    /\ Zpos mq * c <= n * 2 ^ E + c.
Proof.
  intros Hn Hc.
  assert (Hn' : 0 < n < 2 ^ 53) by (change (2 ^ 52) with 4503599627370496 in Hc;
                                    change (2 ^ 53) with 9007199254740992; lia).
  assert (Hc' : 0 < c < 2 ^ 53) by (change (2 ^ 52) with 4503599627370496 in Hc;
                                    change (2 ^ 53) with 9007199254740992; lia).
  destruct (exact_mantissa n Hn') as (HMn & HMnr & Hdn).
  destruct (exact_mantissa c Hc') as (HMc & HMcr & Hdc).
  rewrite (f64_exact_pos n), (f64_exact_pos c) by lia.
  set (dn := Z.log2 n + 1) in *. set (dc := Z.log2 c + 1) in *.
  set (Mn := Z.to_pos (n * 2 ^ (53 - dn))) in *.
  set (Mc := Z.to_pos (c * 2 ^ (53 - dc))) in *.
  assert (Hdd : dn <= dc).
  { unfold dn, dc. pose proof (Z.log2_le_mono n c ltac:(lia)). lia. }
  unfold f64_div, SFdiv. cbn [xorb]. unfold SFdiv_core_binary.
  rewrite (Zdigits2_unique Mn 53 HMnr), (Zdigits2_unique Mc 53 HMcr).
  unfold fexp, emin, prec, emax.
  replace (Z.min (Z.max (53 + (dn - 53) - (53 + (dc - 53)) - 53) (3 - 1024 - 53))
             (dn - 53 - (dc - 53))) with (dn - dc - 53) by lia.
  replace (dn - 53 - (dc - 53) - (dn - dc - 53)) with 53 by lia.
  rewrite Z.shiftl_mul_pow2 by lia.
  assert (Hq0 : 2 ^ 52 <= Zpos Mn * 2 ^ 53 / Zpos Mc < 2 ^ 54).
  { change (2 ^ 52) with 4503599627370496 in *.
    change (2 ^ 53) with 9007199254740992 in *.
    change (2 ^ 54) with 18014398509481984. split.
    - apply Z.div_le_lower_bound; lia.
    - apply Z.div_lt_upper_bound; lia. }
  pose proof (Z.mul_div_le (Zpos Mn * 2 ^ 53) (Zpos Mc) ltac:(lia)) as Heq.
  unfold Z.div in Hq0, Heq.
  destruct (Z.div_eucl (Zpos Mn * 2 ^ 53) (Zpos Mc)) as [q0 r0].
  cbn [fst] in Hq0, Heq.
  destruct q0 as [|q0|q0]; try (change (2 ^ 52) with 4503599627370496 in Hq0; lia).
  set (k := if Zpos q0 <? 2 ^ 53 then 0 else 1).
  assert (Hk : 0 <= k <= 1) by (unfold k; destruct (Zpos q0 <? 2 ^ 53); lia).
  assert (Hqk : 2 ^ (52 + k) <= Zpos q0 < 2 ^ (53 + k)).
  { unfold k. destruct (Z.ltb_spec (Zpos q0) (2 ^ 53)).
    - rewrite !Z.add_0_r. lia.
    - change (2 ^ (52 + 1)) with (2 ^ 53). change (2 ^ (53 + 1)) with (2 ^ 54). lia. }
  destruct (round_aux_spec q0 (dn - dc - 53) k (new_location (Zpos Mc) r0))
    as (mf & ef & m'' & E & Hef & Hmf & HV & Hm'' & _); try lia.
  unfold prec, emax in E. rewrite E. exists mf, (- ef). rewrite Z.opp_involutive.
  split; [reflexivity|].
  (* the bound, in units of the last place *)
  set (a := ef - (dn - dc - 53)) in *.
  assert (Ha : k <= a <= k + 1) by (unfold a; lia).
  assert (HE : - ef = 53 + dc - dn - a) by (unfold a; lia).
  assert (HE0 : 0 <= - ef) by lia.
  assert (Hbound : Zpos mf * c <= n * 2 ^ (- ef) + c).
  { assert (HA : 0 < 2 ^ a) by (apply Z.pow_pos_nonneg; lia).
    assert (HK : 0 < 2 ^ k) by (apply Z.pow_pos_nonneg; lia).
    assert (HKA : 2 ^ k <= 2 ^ a) by (apply Z.pow_le_mono_r; lia).
    assert (HP : 0 < 2 ^ (53 - dc)) by (apply Z.pow_pos_nonneg; lia).
    assert (HT : 0 < 2 ^ (- ef)) by (apply Z.pow_pos_nonneg; lia).
    assert (Hpow : 2 ^ (53 - dn) * 2 ^ 53 = 2 ^ (- ef) * (2 ^ a * 2 ^ (53 - dc))).
    { rewrite <- !Z.pow_add_r by lia. f_equal. lia. }
    pose proof (Z.mul_div_le (Zpos q0) (2 ^ k) HK) as Hfloor.
    assert (H1 : Zpos mf * 2 ^ a <= Zpos q0 + 2 ^ k).
    { rewrite HV. apply Z.le_trans with ((Zpos q0 / 2 ^ k + 1) * 2 ^ k);
        [apply Z.mul_le_mono_nonneg_r; lia|lia]. }
    assert (H2 : Zpos mf * 2 ^ a * Zpos Mc <= (Zpos q0 + 2 ^ k) * Zpos Mc)
      by (apply Z.mul_le_mono_nonneg_r; lia).
    assert (H3 : Zpos q0 * Zpos Mc <= n * (2 ^ (- ef) * (2 ^ a * 2 ^ (53 - dc)))).
    { rewrite <- Hpow, Z.mul_assoc, <- HMn. lia. }
    assert (H4 : Zpos mf * c * (2 ^ a * 2 ^ (53 - dc))
                 <= (n * 2 ^ (- ef) + c) * (2 ^ a * 2 ^ (53 - dc))).
    { rewrite HMc in H2, H3.
      replace (Zpos mf * c * (2 ^ a * 2 ^ (53 - dc)))
        with (Zpos mf * 2 ^ a * (c * 2 ^ (53 - dc))) by ring.
      apply Z.le_trans with (1 := H2).
      replace ((Zpos q0 + 2 ^ k) * (c * 2 ^ (53 - dc)))
        with (Zpos q0 * (c * 2 ^ (53 - dc)) + 2 ^ k * (c * 2 ^ (53 - dc))) by ring.
      replace ((n * 2 ^ (- ef) + c) * (2 ^ a * 2 ^ (53 - dc)))
        with (n * (2 ^ (- ef) * (2 ^ a * 2 ^ (53 - dc))) + 2 ^ a * (c * 2 ^ (53 - dc)))
        by ring.
      apply Z.add_le_mono; [exact H3|].
      apply Z.mul_le_mono_nonneg_r; [apply Z.mul_nonneg_nonneg; lia|exact HKA]. }
    apply Z.mul_le_mono_pos_r in H4; [exact H4|apply Z.mul_pos_pos; lia]. }
  split; [|exact Hbound].
  destruct (Z.le_gt_cases 53 (- ef)) as [|Hsmall]; [assumption|exfalso].
  assert (H2e : 2 ^ (- ef) <= 2 ^ 52) by (apply Z.pow_le_mono_r; lia).
  assert (0 < 2 ^ (- ef)) by (apply Z.pow_pos_nonneg; lia).
  assert (H2c : 2 ^ 52 * c <= Zpos mf * c) by (apply Z.mul_le_mono_nonneg_r; lia).
  assert (Hnc : n * 2 ^ (- ef) <= (c - 1) * 2 ^ 52) by (apply Z.mul_le_mono_nonneg; lia).
  change (2 ^ 52) with 4503599627370496 in *. lia.
Qed.

(** ** float64: a whole number plus a fraction *)

Lemma odd_half_up t : 0 <= t -> Z.odd t = true -> t = 2 * (t / 2) + 1.
Proof.
  intros Ht Ho. pose proof (Z.div2_odd t) as H. rewrite Ho in H.
  rewrite Z.div2_div in H. exact H.
Qed.

Lemma f64_trunc_finite (mf : positive) (ef v : Z) :
  ef <= 0 ->
  v * 2 ^ (- ef) <= Zpos mf < (v + 1) * 2 ^ (- ef) ->
  f64_trunc (S754_finite false mf ef) = Some v.
Proof.
  intros He Hv. unfold f64_trunc. f_equal.
  destruct ef as [|p|p]; [|lia|].
  - rewrite Z.shiftl_0_r. change (2 ^ (- 0)) with 1 in Hv. lia.
  - rewrite Z.shiftr_div_pow2 by lia. change (- Zneg p) with (Zpos p) in Hv.
    symmetry. apply (Z.div_unique_pos _ _ v (Zpos mf - v * 2 ^ Zpos p)); lia.
Qed.

(** Adding to the whole number [h] a positive float that stays more
    than half a unit of the last place of the sum below one gives a
    float whose integer part is [h]. *)
Lemma f64_add_trunc h (mq : positive) (E : Z) :
  0 < h -> Z.log2 h + 1 <= 52 -> 53 <= E ->
  Zpos mq < 2 ^ E - 2 ^ (Z.log2 h + 1 + E - 54) ->
  f64_trunc (f64_add (f64_exact h) (S754_finite false mq (- E))) = Some h.
Proof.
  intros Hh Hj HE Hmq.
  destruct (log2_bounds h Hh) as [[Hlo Hhi] Hl0].
  set (j := Z.log2 h + 1) in *.
  replace (Z.log2 h) with (j - 1) in Hlo by (unfold j; lia).
  assert (Hh53 : 0 < h < 2 ^ 53).
  { split; [lia|]. apply Z.lt_le_trans with (1 := Hhi). apply Z.pow_le_mono_r; lia. }
  destruct (exact_mantissa h Hh53) as (HM & HMr & _). fold j in HM, HMr.
  rewrite (f64_exact_pos h Hh). fold j.
  set (Mh := Z.to_pos (h * 2 ^ (53 - j))) in *.
  set (k := j + E - 53).
  assert (Hk : 1 <= k <= E) by (unfold k; lia).
  assert (H2E : 0 < 2 ^ E) by (apply Z.pow_pos_nonneg; lia).
  assert (H2k : 0 < 2 ^ k) by (apply Z.pow_pos_nonneg; lia).
  assert (H2k1 : 0 < 2 ^ (k - 1)) by (apply Z.pow_pos_nonneg; lia).
  assert (Hkk : 2 ^ k = 2 * 2 ^ (k - 1)).
  { rewrite <- Z.pow_succ_r by lia. f_equal. lia. }
  assert (HEk : 2 ^ E = 2 ^ (E - k) * 2 ^ k).
  { rewrite <- Z.pow_add_r by lia. f_equal. lia. }
  assert (H2Ek : 0 < 2 ^ (E - k)) by (apply Z.pow_pos_nonneg; lia).
  replace (j + E - 54) with (k - 1) in Hmq by (unfold k; lia).
  unfold f64_add, SFadd.
  replace (Z.min (j - 53) (- E)) with (- E) by lia.
  unfold shl_align at 2. rewrite Z.sub_diag. cbn [fst].
  unfold shl_align.
  destruct (- E - (j - 53)) as [|pd|pd] eqn:Hpd; try lia.
  cbn [fst cond_Zopp]. rewrite iter_xO_pow2, HM.
  replace (Zpos pd) with (E + j - 53) by lia.
  replace (h * 2 ^ (53 - j) * 2 ^ (E + j - 53)) with (h * 2 ^ E)
    by (rewrite <- Z.mul_assoc, <- Z.pow_add_r by lia; do 2 f_equal; lia).
  assert (HMrange : 2 ^ (52 + k) <= h * 2 ^ E + Zpos mq < 2 ^ (53 + k)).
  { replace (52 + k) with (j - 1 + E) by (unfold k; lia).
    replace (53 + k) with (j + E) by (unfold k; lia).
    rewrite !Z.pow_add_r by lia.
    assert (2 ^ (j - 1) * 2 ^ E <= h * 2 ^ E) by (apply Z.mul_le_mono_nonneg_r; lia).
    assert ((h + 1) * 2 ^ E <= 2 ^ j * 2 ^ E) by (apply Z.mul_le_mono_nonneg_r; lia).
    lia. }
  destruct (h * 2 ^ E + Zpos mq) as [|M|M] eqn:EM; try lia.
  unfold binary_normalize, binary_round.
  change (Zpos (digits2_pos M)) with (Zdigits2 (Zpos M)).
  rewrite (Zdigits2_unique M (53 + k))
    by (now replace (53 + k - 1) with (52 + k) by lia).
  unfold fexp, emin. unfold prec at 1, emax at 1. unfold prec at 1.
  replace (Z.max (53 + k + - E - 53) (3 - 1024 - 53)) with (j - 53) by (unfold k; lia).
  unfold shl_align.
  destruct (j - 53 - - E) as [|pe|pe] eqn:Hpe; try lia.
  destruct (round_aux_spec M (- E) k loc_Exact)
    as (mf & ef & m'' & Er & Hef & Hmf & HV & Hm'' & Hexact); try lia.
  rewrite Er.
  apply f64_trunc_finite; [unfold k in Hef; lia|].
  (* the value of the sum, in units of [2^-E] *)
  assert (Hlow : h * 2 ^ (E - k) <= Zpos M / 2 ^ k).
  { apply Z.div_le_lower_bound; [lia|].
    replace (2 ^ k * (h * 2 ^ (E - k))) with (h * 2 ^ E) by (rewrite HEk; ring). lia. }
  assert (Hup : m'' * 2 ^ k < (h + 1) * 2 ^ E).
  { destruct (Z.odd (Zpos M / 2 ^ (k - 1))) eqn:Hodd.
    - assert (Hnn : 0 <= Zpos M / 2 ^ (k - 1)) by (apply Z.div_pos; lia).
      pose proof (odd_half_up _ Hnn Hodd) as Ht.
      rewrite Z.div_div in Ht by lia.
      replace (2 ^ (k - 1) * 2) with (2 ^ k) in Ht by lia.
      pose proof (Z.mul_div_le (Zpos M) (2 ^ (k - 1)) H2k1) as Hfl.
      rewrite Ht in Hfl.
      assert (A1 : m'' * 2 ^ k <= (Zpos M / 2 ^ k + 1) * 2 ^ k)
        by (apply Z.mul_le_mono_nonneg_r; lia).
      set (q := Zpos M / 2 ^ k) in *.
      rewrite Hkk in A1 |- *. lia.
    - rewrite (Hexact (or_intror (conj (proj1 Hk) eq_refl))).
      pose proof (Z.mul_div_le (Zpos M) (2 ^ k) H2k). lia. }
  assert (Hsplit : 2 ^ E = 2 ^ (ef - - E) * 2 ^ (- ef)).
  { rewrite <- Z.pow_add_r by (unfold k in Hef; lia). f_equal. lia. }
  assert (H2a : 0 < 2 ^ (ef - - E)) by (apply Z.pow_pos_nonneg; unfold k in Hef; lia).
  assert (H2b : 0 < 2 ^ (- ef)) by (apply Z.pow_pos_nonneg; unfold k in Hef; lia).
  split.
  - apply (Z.mul_le_mono_pos_r _ _ (2 ^ (ef - - E)) H2a).
    rewrite HV. replace (h * 2 ^ (- ef) * 2 ^ (ef - - E)) with (h * 2 ^ E)
      by (rewrite Hsplit; ring).
    rewrite HEk. replace (h * (2 ^ (E - k) * 2 ^ k)) with (h * 2 ^ (E - k) * 2 ^ k) by ring.
    apply Z.mul_le_mono_nonneg_r; lia.
  - apply (Z.mul_lt_mono_pos_r (2 ^ (ef - - E)) _ _ H2a).
    rewrite HV. replace ((h + 1) * 2 ^ (- ef) * 2 ^ (ef - - E)) with ((h + 1) * 2 ^ E)
      by (rewrite Hsplit; ring).
    exact Hup.
Qed.


(** ** The whole units of a duration, through float64 *)

Lemma log2_lt_pow2 h j : 0 < h < 2 ^ j -> 0 <= j -> Z.log2 h + 1 <= j.
Proof. intros [Hh Hlt] Hj. apply Z.log2_lt_pow2 in Hlt; lia. Qed.

(** A quotient bounded as in [f64_div_bound] is below one. *)
Lemma fraction_below_one mq c n T :
  0 <= n < c -> c < T ->
  mq * c <= n * T + c -> mq < T.
Proof.
  intros Hn Hc Hq.
  destruct (Z.lt_ge_cases mq T) as [|Hge]; [assumption|exfalso].
  assert (T * c <= mq * c) by (apply Z.mul_le_mono_nonneg_r; lia).
  assert (n * T <= (c - 1) * T) by (apply Z.mul_le_mono_nonneg_r; lia).
  lia.
Qed.

(** It even stays [G * P] below one, [G * P] being half a unit of the
    last place of the sum, when [c] is small enough. *)
Lemma fraction_below_half_ulp mq c n B P G :
  0 <= n < c -> 1 <= P -> 1 <= G -> 0 < B ->
  mq * c <= n * (B * P) + c ->
  c * (G + 1) < B ->
  mq < B * P - G * P.
Proof.
  intros Hn HP HG HB Hq Hc.
  destruct (Z.lt_ge_cases mq (B * P - G * P)) as [|Hge]; [assumption|exfalso].
  assert (H1 : (B * P - G * P) * c <= mq * c)
    by (apply Z.mul_le_mono_nonneg_r; lia).
  assert (H0 : 0 <= B * P) by (apply Z.mul_nonneg_nonneg; lia).
  assert (H2 : n * (B * P) <= (c - 1) * (B * P))
    by (apply Z.mul_le_mono_nonneg_r; lia).
  assert (H3 : c * 1 <= c * P) by (apply Z.mul_le_mono_nonneg_l; lia).
  assert (H4 : c * (G + 1) * P < B * P) by (apply Z.mul_lt_mono_pos_r; lia).
  lia.
Qed.

(** [int64(float64(d / c) + float64(d % c) / float64(c))] is [d / c]
    as long as the whole part has at most [j] bits, where
    [c * (2^j + 2) < 2^54]. *)
Lemma whole_units_exact c j d :
  0 < c -> 1 <= j <= 52 ->
  c * (2 ^ j + 2) < 2 ^ 54 ->
  0 <= d < 2 ^ j * c ->
  int64_of_f64
    (f64_add (f64_of_Z (Z.quot d c)) (f64_div (f64_of_Z (Z.rem d c)) (f64_of_Z c)))
  = d / c.
Proof.
  intros Hc Hj Hcj Hd.
  assert (H2j : 2 <= 2 ^ j).
  { change 2 with (2 ^ 1) at 1. apply Z.pow_le_mono_r; lia. }
  assert (H2j52 : 2 ^ j <= 2 ^ 52) by (apply Z.pow_le_mono_r; lia).
  change (2 ^ 54) with 18014398509481984 in Hcj.
  change (2 ^ 52) with 4503599627370496 in H2j52.
  assert (Hc52 : c < 4503599627370496).
  { assert (c * 4 <= c * (2 ^ j + 2)) by (apply Z.mul_le_mono_nonneg_l; lia). lia. }
  rewrite Z.quot_div_nonneg, Z.rem_mod_nonneg by lia.
  set (h := d / c). set (n := d mod c).
  assert (Hh : 0 <= h < 2 ^ j).
  { unfold h. split; [apply Z.div_pos; lia|apply Z.div_lt_upper_bound; lia]. }
  pose proof (Z.mod_pos_bound d c Hc) as Hn. fold n in Hn.
  assert (H53 : 2 ^ 53 = 9007199254740992) by reflexivity.
  rewrite (f64_of_Z_exact h), (f64_of_Z_exact n), (f64_of_Z_exact c)
    by (rewrite H53; lia).
  assert (Hrange : (MinInt64 <=? h) && (h <=? MaxInt64) = true).
  { apply andb_true_iff. split; apply Z.leb_le; unfold MinInt64, MaxInt64, two63; lia. }
  destruct (Z.eq_dec n 0) as [En|Hnz].
  - (* no remainder *)
    rewrite En. change (f64_exact 0) with (S754_zero false).
    destruct (f64_exact_finite c Hc) as (mc & ec & ->). cbn [f64_div SFdiv xorb].
    destruct (Z.eq_dec h 0) as [Eh|Hhz].
    + rewrite Eh. reflexivity.
    + destruct (f64_exact_finite h ltac:(lia)) as (mh & eh & Ef). rewrite Ef.
      cbn [f64_add SFadd]. rewrite <- Ef.
      apply int64_of_f64_exact. rewrite H53. lia.
  - destruct (f64_div_bound n c ltac:(lia) Hc52) as (mq & E & -> & HE & Hq).
    assert (H2E : 2 ^ 53 <= 2 ^ E) by (apply Z.pow_le_mono_r; lia).
    rewrite H53 in H2E.
    destruct (Z.eq_dec h 0) as [Eh|Hhz].
    + (* less than one unit *)
      rewrite Eh. change (f64_exact 0) with (S754_zero false).
      cbn [f64_add SFadd]. unfold int64_of_f64.
      rewrite (f64_trunc_finite mq (- E) 0); [reflexivity|lia|].
      rewrite Z.opp_involutive. split; [lia|].
      rewrite Z.add_0_l, Z.mul_1_l.
      apply (fraction_below_one _ c n); [lia|lia|exact Hq].
    + assert (Hlog : Z.log2 h + 1 <= j) by (apply log2_lt_pow2; lia).
      unfold int64_of_f64. rewrite (f64_add_trunc h mq E); [|lia|lia|exact HE|].
      * now rewrite Hrange.
      * (* the fraction stays half a unit of the last place below one *)
        set (i := Z.log2 h + 1) in *.
        assert (Hi : 1 <= i) by (unfold i; pose proof (Z.log2_nonneg h); lia).
        assert (HP : 1 <= 2 ^ (E - 53)).
        { assert (0 < 2 ^ (E - 53)) by (apply Z.pow_pos_nonneg; lia). lia. }
        assert (HG : 1 <= 2 ^ (i - 1)).
        { assert (0 < 2 ^ (i - 1)) by (apply Z.pow_pos_nonneg; lia). lia. }
        assert (HEP : 2 ^ E = 9007199254740992 * 2 ^ (E - 53)).
        { rewrite <- H53, <- Z.pow_add_r by lia. f_equal. lia. }
        assert (HiP : 2 ^ (i + E - 54) = 2 ^ (i - 1) * 2 ^ (E - 53)).
        { rewrite <- Z.pow_add_r by lia. f_equal. lia. }
        assert (Hij : 2 * 2 ^ (i - 1) <= 2 ^ j).
        { rewrite <- Z.pow_succ_r by lia. apply Z.pow_le_mono_r; lia. }
        rewrite HiP, HEP in *.
        apply (fraction_below_half_ulp _ c n); try lia.
        assert (c * (2 * 2 ^ (i - 1) + 2) <= c * (2 ^ j + 2))
          by (apply Z.mul_le_mono_nonneg_l; lia).
        lia.
Qed.

(** The three counts of [main], below 4096 hours. *)
Lemma Hours_exact d :
  0 <= d < 4096 * Hour -> int64_of_f64 (Duration_Hours d) = d / Hour.
Proof.
  intros Hd. unfold Duration_Hours. change (60 * 60 * 1000000000) with Hour.
  apply (whole_units_exact Hour 12); [reflexivity|lia|reflexivity|exact Hd].
Qed.

Lemma Minutes_exact d :
  0 <= d < 262144 * Minute -> int64_of_f64 (Duration_Minutes d) = d / Minute.
Proof.
  intros Hd. unfold Duration_Minutes. change (60 * 1000000000) with Minute.
  apply (whole_units_exact Minute 18); [reflexivity|lia|reflexivity|exact Hd].
Qed.

Lemma Seconds_exact d :
  0 <= d < 16777216 * Second -> int64_of_f64 (Duration_Seconds d) = d / Second.
Proof.
  intros Hd. unfold Duration_Seconds. change 1000000000 with Second.
  apply (whole_units_exact Second 24); [reflexivity|lia|reflexivity|exact Hd].
Qed.

(* ----------------------------------------------------------------- *)
(** ** The previous version *)

Lemma in_list_skip unit a x l :
  all_chars is_letter unit = true ->
  starts_with is_letter x = false -> x <> "" ->
  in_list unit (a :: x :: l) = in_list unit (a :: l).
Proof.
  intros Hu Hx Hne. unfold in_list. cbn [existsb].
  destruct (String.eqb_spec unit x) as [->|_]; [|reflexivity].
  destruct x as [|c x]; [congruence|]. cbn in Hu, Hx. rewrite Hx in Hu. discriminate.
Qed.

Lemma unit_duration_same unit value :
  all_chars is_letter unit = true ->
  part_001.unit_duration unit value = unit_duration unit value.
Proof.
  intros Hu. unfold part_001.unit_duration, unit_duration.
  rewrite (in_list_skip unit "us" micro_s _ Hu) by (reflexivity || discriminate).
  rewrite (in_list_skip unit "us" misencoded_micro_s _ Hu)
    by (reflexivity || discriminate).
  reflexivity.
Qed.

Lemma previous_version_one_field s :
  strings_Fields s = [s] -> part_001.ParseDuration s = ParseDuration s.
Proof.
  intros Hf. rewrite (ParseDuration_one_field s Hf).
  unfold part_001.ParseDuration, parsePart, parseNonStandard.
  destruct (time_ParseDuration s) as [d [e|]]; [|reflexivity].
  destruct (re_FindStringSubmatch s) as [[valueStr unitStr]|] eqn:Hre; [|reflexivity].
  destruct (strconv_ParseFloat valueStr) as [value|err]; [|reflexivity].
  apply re_match_inv in Hre as (ws & _ & _ & _ & _ & Hu & _).
  rewrite (unit_duration_same _ value (ToLower_of_letters _ Hu)).
  now destruct (unit_duration _ value).
Qed.

(** ** Fields of ASCII strings *)

Lemma re_space_is_space c :
  is_re_space c = true -> (byte c <? 128) = true /\ IsSpace (byte c) = true.
Proof. byte_cases c; intros H; try discriminate H; split; reflexivity. Qed.

Lemma space_flags_plain a rest :
  all_chars plain_byte a = true ->
  forall sp,
    space_flags (a ++ rest) 0 sp
    = (List.repeat false (String.length a) ++ space_flags rest 0 false)%list.
Proof.
  induction a as [|c a IH]; intros Ha sp.
  - cbn [append String.length List.repeat app]. apply space_flags_boundary.
  - cbn [all_chars] in Ha. apply andb_true_iff in Ha as [Hc Ha].
    unfold plain_byte in Hc. apply andb_true_iff in Hc as [H128 Hsp].
    apply negb_true_iff in Hsp.
    cbn [append space_flags DecodeRuneInString]. rewrite H128, Hsp.
    cbn [Nat.pred String.length List.repeat app]. now rewrite (IH Ha).
Qed.

Lemma space_flags_spaces ws rest :
  all_chars is_re_space ws = true ->
  forall sp,
    space_flags (ws ++ rest) 0 sp
    = (List.repeat true (String.length ws) ++ space_flags rest 0 false)%list.
Proof.
  induction ws as [|c ws IH]; intros Hws sp.
  - cbn [append String.length List.repeat app]. apply space_flags_boundary.
  - cbn [all_chars] in Hws. apply andb_true_iff in Hws as [Hc Hws].
    destruct (re_space_is_space c Hc) as [H128 Hsp].
    cbn [append space_flags DecodeRuneInString]. rewrite H128, Hsp.
    cbn [Nat.pred String.length List.repeat app]. now rewrite (IH Hws).
Qed.

Lemma runs_spaces ws r fl :
  runs (ws ++ r) (List.repeat true (String.length ws) ++ fl) = runs r fl.
Proof. induction ws as [|c ws IH]; [reflexivity|]. cbn. exact IH. Qed.

Lemma runs_word a r fl :
  a <> "" ->
  fl = [] \/ (exists fl', fl = true :: fl') ->
  runs (a ++ r) (List.repeat false (String.length a) ++ fl) = a :: runs r fl.
Proof.
  intros Ha Hfl. induction a as [|c a IH]; [congruence|].
  destruct a as [|c' a'].
  - cbn [append String.length List.repeat app runs].
    destruct Hfl as [->|[fl' ->]]; [|reflexivity].
    destruct r; reflexivity.
  - specialize (IH ltac:(discriminate)).
    cbn [append String.length List.repeat app runs] in *.
    now rewrite IH.
Qed.

Lemma fields_two_words a ws b :
  all_chars plain_byte a = true -> a <> "" ->
  all_chars is_re_space ws = true -> ws <> "" ->
  all_chars plain_byte b = true -> b <> "" ->
  strings_Fields (a ++ ws ++ b) = [a; b].
Proof.
  intros Ha Hane Hws Hwne Hb Hbne. unfold strings_Fields.
  rewrite (space_flags_plain a _ Ha), (space_flags_spaces ws _ Hws).
  rewrite <- (append_nil_r b) at 2.
  rewrite (space_flags_plain b "" Hb). cbn [space_flags].
  rewrite runs_word; [|exact Hane|].
  - rewrite runs_spaces. rewrite <- (append_nil_r b) at 1.
    rewrite runs_word; [reflexivity|exact Hbne|now left].
  - right. destruct ws; [congruence|]. cbn. eauto.
Qed.

Lemma digits_plain ds : all_chars is_digit ds = true -> all_chars plain_byte ds = true.
Proof.
  apply all_chars_impl. intros c Hc. apply numch_plain, digit_numch, Hc.
Qed.

Lemma parsePart_bare_number num :
  all_chars is_numch num = true -> num <> "" -> num <> "0" ->
  parsePart num = inr (UnsupportedFormat num).
Proof.
  intros Hnum Hne H0.
  destruct (time_ParseDuration_unknown num "" Hnum Hne eq_refl eq_refl) as [e He].
  { now rewrite append_nil_r. }
  rewrite append_nil_r in He. unfold parsePart. rewrite He.
  unfold parseNonStandard. now rewrite (re_match_number_only num Hnum).
Qed.

Lemma parsePart_letters u :
  all_chars is_letter u = true -> u <> "" ->
  parsePart u = inr (UnsupportedFormat u).
Proof.
  intros Hu Hne. unfold parsePart. rewrite (time_ParseDuration_letters u Hu Hne).
  unfold parseNonStandard. now rewrite (re_match_letters_only u Hu).
Qed.

Lemma blank_not_number s :
  strings_Fields s = [] -> starts_with is_numch s = false.
Proof.
  intros Hf. destruct s as [|c s]; [reflexivity|]. cbn [starts_with].
  destruct (is_numch c) eqn:Hc; [exfalso|reflexivity].
  pose proof (numch_plain c Hc) as Hp. unfold plain_byte in Hp.
  apply andb_true_iff in Hp as [H128 Hsp]. apply negb_true_iff in Hsp.
  unfold strings_Fields in Hf. cbn [space_flags DecodeRuneInString] in Hf.
  rewrite H128, Hsp in Hf. cbn [Nat.pred] in Hf.
  apply (runs_nonempty c s (space_flags s 0 false)); [|exact Hf].
  apply space_flags_length.
Qed.

(** What the regular expression matches has at most two fields. *)
Lemma re_match_fields s num u :
  re_FindStringSubmatch s = Some (num, u) ->
  (List.length (strings_Fields s) <= 2)%nat.
Proof.
  intros Hre. apply re_match_inv in Hre as (ws & -> & Hnum & Hnne & Hws & Hu & Hune).
  assert (Hpn : all_chars plain_byte num = true)
    by (apply (all_chars_impl is_numch _ _ numch_plain Hnum)).
  assert (Hpu : all_chars plain_byte u = true)
    by (apply (all_chars_impl is_letter _ _ letter_plain Hu)).
  destruct ws as [|c ws].
  - cbn [append]. rewrite SpaceFree_fields; [cbn; lia| |destruct num; [congruence|discriminate]].
    apply plain_SpaceFree. now rewrite all_chars_app, Hpn, Hpu.
  - rewrite (fields_two_words num (String c ws) u Hpn Hnne Hws ltac:(discriminate)
               Hpu Hune).
    cbn. lia.
Qed.

Lemma previous_version_composite s :
  (3 <= List.length (strings_Fields s))%nat ->
  part_001.ParseDuration s = (0, Some (UnsupportedFormat s)).
Proof.
  intros Hlen. unfold part_001.ParseDuration.
  destruct (time_ParseDuration s) as [d [e|]] eqn:Ht.
  - destruct (re_FindStringSubmatch s) as [[num u]|] eqn:Hre; [|reflexivity].
    pose proof (re_match_fields s num u Hre). lia.
  - rewrite (time_ParseDuration_one_field s d Ht) in Hlen. cbn in Hlen. lia.
Qed.

Lemma previous_version_blank s :
  strings_Fields s = [] ->
  part_001.ParseDuration s = (0, Some (UnsupportedFormat s)).
Proof.
  intros Hf. unfold part_001.ParseDuration.
  destruct (time_ParseDuration s) as [d [e|]] eqn:Ht.
  - unfold re_FindStringSubmatch.
    rewrite (span_none is_numch s (blank_not_number s Hf)).
    now destruct (span is_re_space s).
  - pose proof (time_ParseDuration_one_field s d Ht). congruence.
Qed.

Lemma number_space_unit_fails ds ws u :
  all_chars is_digit ds = true -> ds <> "" ->
  all_chars is_re_space ws = true -> ws <> "" ->
  all_chars is_letter u = true -> u <> "" ->
  exists e, time_ParseDuration (ds ++ ws ++ u) = (0, Some e).
Proof.
  intros Hds Hdne Hws Hwne Hu Hune.
  pose proof (fields_two_words ds ws u (digits_plain ds Hds) Hdne Hws Hwne
                (all_chars_impl is_letter _ _ letter_plain Hu) Hune) as Hf.
  destruct (time_ParseDuration (ds ++ ws ++ u)) as [d [e|]] eqn:Ht.
  - assert (d = 0).
    { revert Ht. unfold time_ParseDuration.
      destruct (strip_sign _) as [neg s1].
      destruct (String.eqb s1 "0"); [intros H; now inversion H|].
      destruct (String.eqb s1 ""); [intros H; now inversion H|].
      destruct (parse_groups _ s1 0); [|intros H; now inversion H].
      destruct neg; [discriminate|].
      destruct (_ >? _); intros H; now inversion H. }
    subst d. now exists e.
  - pose proof (time_ParseDuration_one_field _ d Ht) as H1.
    rewrite Hf in H1. discriminate.
Qed.

Lemma previous_version_number_space_unit ds ws u factor :
  all_chars is_digit ds = true -> ds <> "" ->
  all_chars is_re_space ws = true -> ws <> "" ->
  all_chars is_letter u = true -> u <> "" ->
  alias_factor (strings_ToLower u) = Some factor ->
  decimal ds * factor < 2 ^ 53 ->
  part_001.ParseDuration (ds ++ ws ++ u) = (decimal ds * factor, None)
  /\ exists p, ParseDuration (ds ++ ws ++ u) = (0, Some (UnsupportedFormat p))
               /\ (p = ds \/ p = u).
Proof.
  intros Hds Hdne Hws Hwne Hu Hune Hal Hb.
  destruct (number_space_unit_fails ds ws u Hds Hdne Hws Hwne Hu Hune) as [e Ht].
  pose proof (decimal_from_lower ds Hds 0 (Z.le_refl 0)) as Hd0. fold (decimal ds) in Hd0.
  pose proof (alias_factor_pos _ _ Hal) as Hfpos.
  split.
  - unfold part_001.ParseDuration. rewrite Ht.
    assert (Hre : re_FindStringSubmatch (ds ++ ws ++ u) = Some (ds, u)).
    { unfold re_FindStringSubmatch.
      rewrite (span_app is_numch ds (ws ++ u)
                 (all_chars_impl _ _ _ digit_numch Hds)).
      - rewrite (span_app is_re_space ws u Hws
                   (all_chars_starts _ _ _ letter_not_re_space Hu)).
        destruct ds; [congruence|]. destruct u; [congruence|]. now rewrite Hu.
      - destruct ws as [|c ws]; [congruence|]. cbn [append starts_with].
        cbn [all_chars] in Hws. apply andb_true_iff in Hws as [Hc _].
        revert Hc. clear. byte_cases c; intros H; try discriminate H; reflexivity. }
    rewrite Hre, (ParseFloat_digits ds Hds Hdne) by nia.
    rewrite (unit_duration_same _ _ (ToLower_of_letters u Hu)).
    now rewrite (unit_duration_exact _ factor (decimal ds) Hal Hd0 Hb).
  - rewrite (ParseDuration_fallback _ _ _ Ht).
    rewrite (fields_two_words ds ws u (digits_plain ds Hds) Hdne Hws Hwne
               (all_chars_impl is_letter _ _ letter_plain Hu) Hune).
    cbn [sumParts].
    destruct (String.eqb_spec ds "0") as [->|Hnz].
    + change (parsePart "0") with (@inl Z error 0). cbn iota.
      rewrite (parsePart_letters u Hu Hune). exists u. split; [reflexivity|now right].
    + rewrite (parsePart_bare_number ds (all_chars_impl _ _ _ digit_numch Hds) Hdne Hnz).
      exists ds. split; [reflexivity|now left].
Qed.
(* ----------------------------------------------------------------- *)
(** ** float64: the error of one rounding

    A quotient or a product with a mantissa of at least 53 bits rounds
    to a float that differs from it by at most one unit of the float's
    last place. *)

Lemma pow2_pos e : 0 <= e -> 0 < 2 ^ e.
Proof. intros H. apply Z.pow_pos_nonneg; lia. Qed.

Lemma digits_bounds (m : positive) :
  2 ^ (Zdigits2 (Zpos m) - 1) <= Zpos m < 2 ^ Zdigits2 (Zpos m)
  /\ 1 <= Zdigits2 (Zpos m).
Proof.
  rewrite Zdigits2_log2.
  destruct (log2_bounds (Zpos m) ltac:(lia)) as [[Hlo Hhi] Hnn].
  replace (Z.log2 (Zpos m) + 1 - 1) with (Z.log2 (Zpos m)) by lia. lia.
Qed.

(** The quotient of [m1 * 2^e1] by [m2 * 2^e2]. *)
Lemma div_round (m1 m2 : positive) (e1 e2 : Z) :
  let d1 := Zdigits2 (Zpos m1) in
  let d2 := Zdigits2 (Zpos m2) in
  let e' := d1 + e1 - (d2 + e2) - 53 in
  d1 - d2 <= 53 ->
  -1074 <= e' -> e' + 2 <= 971 ->
  exists (mq : positive) (a : Z),
    (let '(q, e, l) := SFdiv_core_binary prec emax (Zpos m1) e1 (Zpos m2) e2 in
     binary_round_aux prec emax false q e l)
    = S754_finite false mq (e' + a)
    /\ 2 ^ 52 <= Zpos mq < 2 ^ 53
    /\ 0 <= a <= 2
    /\ Zpos mq * 2 ^ a * Zpos m2 <= Zpos m1 * 2 ^ (53 - d1 + d2) + 2 ^ a * Zpos m2
    /\ Zpos m1 * 2 ^ (53 - d1 + d2) <= Zpos mq * 2 ^ a * Zpos m2 + 2 ^ a * Zpos m2.
Proof.
  intros d1 d2 e' Hd He1 He2.
  destruct (digits_bounds m1) as [[Hlo1 Hhi1] Hd1]. fold d1 in Hlo1, Hhi1, Hd1.
  destruct (digits_bounds m2) as [[Hlo2 Hhi2] Hd2]. fold d2 in Hlo2, Hhi2, Hd2.
  set (s := 53 - d1 + d2).
  assert (Hs : 0 <= s) by (unfold s; lia).
  unfold SFdiv_core_binary. fold d1 d2. unfold fexp, emin, prec, emax.
  replace (Z.min (Z.max (d1 + e1 - (d2 + e2) - 53) (3 - 1024 - 53)) (e1 - e2))
    with e' by (unfold e'; lia).
  replace (e1 - e2 - e') with s by (unfold e', s; lia).
  assert (Hm' : match s with
                | 0 => Zpos m1
                | Zpos _ => Z.shiftl (Zpos m1) s
                | Zneg _ => 0
                end = Zpos m1 * 2 ^ s).
  { destruct s as [|ps|ps] eqn:Es; [simpl; lia| |lia].
    now rewrite Z.shiftl_mul_pow2 by lia. }
  rewrite Hm'.
  assert (HS : 0 < 2 ^ s) by now apply pow2_pos.
  assert (Hnum : 2 ^ 52 * 2 ^ d2 <= Zpos m1 * 2 ^ s < 2 ^ 54 * 2 ^ (d2 - 1)).
  { assert (E1 : 2 ^ 52 * 2 ^ d2 = 2 ^ (d1 - 1) * 2 ^ s).
    { rewrite <- !Z.pow_add_r by lia. f_equal. unfold s. lia. }
    assert (E2 : 2 ^ 54 * 2 ^ (d2 - 1) = 2 ^ d1 * 2 ^ s).
    { rewrite <- !Z.pow_add_r by lia. f_equal. unfold s. lia. }
    rewrite E1, E2. split.
    - apply Z.mul_le_mono_nonneg_r; lia.
    - apply Z.mul_lt_mono_pos_r; lia. }
  assert (Hq0 : 2 ^ 52 <= Zpos m1 * 2 ^ s / Zpos m2 < 2 ^ 54).
  { split.
    - apply Z.div_le_lower_bound; [lia|].
      apply Z.le_trans with (2 ^ 52 * 2 ^ d2); [|lia].
      rewrite (Z.mul_comm (Zpos m2)). apply Z.mul_le_mono_nonneg_l; lia.
    - apply Z.div_lt_upper_bound; [lia|].
      apply Z.lt_le_trans with (2 ^ 54 * 2 ^ (d2 - 1)); [lia|].
      rewrite (Z.mul_comm (Zpos m2)). apply Z.mul_le_mono_nonneg_l; lia. }
  pose proof (Z.mul_div_le (Zpos m1 * 2 ^ s) (Zpos m2) ltac:(lia)) as Hfl.
  pose proof (Z.mul_succ_div_gt (Zpos m1 * 2 ^ s) (Zpos m2) ltac:(lia)) as Hcl.
  unfold Z.div in Hq0, Hfl, Hcl.
  destruct (Z.div_eucl (Zpos m1 * 2 ^ s) (Zpos m2)) as [q0 r0].
  cbn [fst] in Hq0, Hfl, Hcl.
  destruct q0 as [|q0|q0]; try (change (2 ^ 52) with 4503599627370496 in Hq0; lia).
  set (k := if Zpos q0 <? 2 ^ 53 then 0 else 1).
  assert (Hk : 0 <= k <= 1) by (unfold k; destruct (Zpos q0 <? 2 ^ 53); lia).
  assert (Hqk : 2 ^ (52 + k) <= Zpos q0 < 2 ^ (53 + k)).
  { unfold k. destruct (Z.ltb_spec (Zpos q0) (2 ^ 53)).
    - rewrite !Z.add_0_r. lia.
    - change (2 ^ (52 + 1)) with (2 ^ 53). change (2 ^ (53 + 1)) with (2 ^ 54). lia. }
  destruct (round_aux_spec q0 e' k (new_location (Zpos m2) r0))
    as (mf & ef & m'' & E & Hef & Hmf & HV & Hm'' & _); try lia.
  unfold prec, emax in E. rewrite E.
  exists mf, (ef - e'). replace (e' + (ef - e')) with ef by lia.
  split; [reflexivity|]. split; [exact Hmf|]. split; [lia|].
  set (a := ef - e') in *.
  assert (HA : 0 < 2 ^ a) by (apply pow2_pos; lia).
  assert (HK : 0 < 2 ^ k) by (apply pow2_pos; lia).
  assert (HKA : 2 ^ k <= 2 ^ a) by (apply Z.pow_le_mono_r; lia).
  pose proof (Z.mul_div_le (Zpos q0) (2 ^ k) HK) as Hfloor.
  pose proof (Z.mul_succ_div_gt (Zpos q0) (2 ^ k) HK) as Hceil.
  assert (H1 : Zpos mf * 2 ^ a <= Zpos q0 + 2 ^ k).
  { rewrite HV. apply Z.le_trans with ((Zpos q0 / 2 ^ k + 1) * 2 ^ k);
      [apply Z.mul_le_mono_nonneg_r; lia|lia]. }
  assert (H2 : Zpos q0 + 1 <= Zpos mf * 2 ^ a + 2 ^ k).
  { rewrite HV. apply Z.le_trans with ((Zpos q0 / 2 ^ k) * 2 ^ k + 2 ^ k); [lia|].
    apply Z.add_le_mono_r, Z.mul_le_mono_nonneg_r; lia. }
  assert (H3 : Zpos mf * 2 ^ a * Zpos m2 <= (Zpos q0 + 2 ^ k) * Zpos m2)
    by (apply Z.mul_le_mono_nonneg_r; lia).
  assert (H4 : (Zpos q0 + 1) * Zpos m2 <= (Zpos mf * 2 ^ a + 2 ^ k) * Zpos m2)
    by (apply Z.mul_le_mono_nonneg_r; lia).
  assert (H5 : 2 ^ k * Zpos m2 <= 2 ^ a * Zpos m2)
    by (apply Z.mul_le_mono_nonneg_r; lia).
  split; lia.
Qed.

(** The product of two floats with full mantissas. *)
Lemma mul_round (m1 m2 : positive) (e1 e2 : Z) :
  2 ^ 52 <= Zpos m1 < 2 ^ 53 ->
  2 ^ 52 <= Zpos m2 < 2 ^ 53 ->
  -1074 <= e1 + e2 + 52 -> e1 + e2 + 54 <= 971 ->
  exists (mp : positive) (h : Z),
    f64_mul (S754_finite false m1 e1) (S754_finite false m2 e2)
    = S754_finite false mp (e1 + e2 + h)
    /\ 2 ^ 52 <= Zpos mp < 2 ^ 53
    /\ 52 <= h <= 54
    /\ Zpos mp * 2 ^ h <= Zpos m1 * Zpos m2 + 2 ^ h
    /\ Zpos m1 * Zpos m2 <= Zpos mp * 2 ^ h + 2 ^ h.
Proof.
  intros H1 H2 He1 He2.
  unfold f64_mul, SFmul. cbn [xorb].
  assert (Hmx : 2 ^ 104 <= Zpos (m1 * m2) < 2 ^ 106).
  { rewrite Pos2Z.inj_mul.
    change (2 ^ 104) with (2 ^ 52 * 2 ^ 52). change (2 ^ 106) with (2 ^ 53 * 2 ^ 53).
    split.
    - apply Z.mul_le_mono_nonneg; lia.
    - apply Z.mul_lt_mono_nonneg; lia. }
  set (k := if Zpos (m1 * m2) <? 2 ^ 105 then 52 else 53).
  assert (Hk : 52 <= k <= 53) by (unfold k; destruct (Zpos (m1 * m2) <? 2 ^ 105); lia).
  assert (Hqk : 2 ^ (52 + k) <= Zpos (m1 * m2) < 2 ^ (53 + k)).
  { unfold k. destruct (Z.ltb_spec (Zpos (m1 * m2)) (2 ^ 105)).
    - change (2 ^ (52 + 52)) with (2 ^ 104). change (2 ^ (53 + 52)) with (2 ^ 105). lia.
    - change (2 ^ (52 + 53)) with (2 ^ 105). change (2 ^ (53 + 53)) with (2 ^ 106). lia. }
  destruct (round_aux_spec (m1 * m2) (e1 + e2) k loc_Exact)
    as (mf & ef & m'' & E & Hef & Hmf & HV & Hm'' & _); try lia.
  rewrite E.
  exists mf, (ef - (e1 + e2)). replace (e1 + e2 + (ef - (e1 + e2))) with ef by lia.
  split; [reflexivity|]. split; [exact Hmf|]. split; [lia|].
  set (h := ef - (e1 + e2)) in *. rewrite Pos2Z.inj_mul in *.
  assert (HH : 0 < 2 ^ h) by (apply pow2_pos; lia).
  assert (HK : 0 < 2 ^ k) by (apply pow2_pos; lia).
  assert (HKH : 2 ^ k <= 2 ^ h) by (apply Z.pow_le_mono_r; lia).
  pose proof (Z.mul_div_le (Zpos m1 * Zpos m2) (2 ^ k) HK) as Hfloor.
  pose proof (Z.mul_succ_div_gt (Zpos m1 * Zpos m2) (2 ^ k) HK) as Hceil.
  assert (Ha : Zpos mf * 2 ^ h <= Zpos m1 * Zpos m2 + 2 ^ k).
  { rewrite HV. apply Z.le_trans with ((Zpos m1 * Zpos m2 / 2 ^ k + 1) * 2 ^ k);
      [apply Z.mul_le_mono_nonneg_r; lia|lia]. }
  assert (Hb : Zpos m1 * Zpos m2 + 1 <= Zpos mf * 2 ^ h + 2 ^ k).
  { rewrite HV. apply Z.le_trans with ((Zpos m1 * Zpos m2 / 2 ^ k) * 2 ^ k + 2 ^ k); [lia|].
    apply Z.add_le_mono_r, Z.mul_le_mono_nonneg_r; lia. }
  split; lia.
Qed.

(** The float nearest to [N / D]. *)
Lemma ratio_round N D :
  0 < N -> 0 < D -> N < 2 ^ 50 * D -> D <= 2 ^ 60 * N ->
  exists (mq : positive) (E : Z),
    f64_of_ratio N D = S754_finite false mq (- E)
    /\ 2 ^ 52 <= Zpos mq < 2 ^ 53
    /\ 1 <= E <= 120
    /\ Zpos mq * D <= N * 2 ^ E + D
    /\ N * 2 ^ E <= Zpos mq * D + D.
Proof.
  intros HN HD Hhi Hlo.
  destruct N as [|n|n]; try lia. destruct D as [|d|d]; try lia.
  change (f64_of_ratio (Zpos n) (Zpos d))
    with (let '(q, e, l) := SFdiv_core_binary prec emax (Zpos n) 0 (Zpos d) 0 in
          binary_round_aux prec emax false q e l).
  destruct (digits_bounds n) as [[Hlo1 Hhi1] Hd1].
  destruct (digits_bounds d) as [[Hlo2 Hhi2] Hd2].
  set (d1 := Zdigits2 (Zpos n)) in *. set (d2 := Zdigits2 (Zpos d)) in *.
  assert (H1 : d1 <= d2 + 50).
  { destruct (Z.le_gt_cases d1 (d2 + 50)) as [|Hgt]; [assumption|exfalso].
    assert (2 ^ 50 * 2 ^ d2 <= 2 ^ (d1 - 1)).
    { rewrite <- Z.pow_add_r by lia. apply Z.pow_le_mono_r; lia. }
    assert (2 ^ 50 * Zpos d < 2 ^ 50 * 2 ^ d2) by (apply Z.mul_lt_mono_pos_l; lia).
    lia. }
  assert (H2 : d2 <= d1 + 60).
  { destruct (Z.le_gt_cases d2 (d1 + 60)) as [|Hgt]; [assumption|exfalso].
    assert (2 ^ 60 * 2 ^ d1 <= 2 ^ (d2 - 1)).
    { rewrite <- Z.pow_add_r by lia. apply Z.pow_le_mono_r; lia. }
    assert (2 ^ 60 * Zpos n < 2 ^ 60 * 2 ^ d1) by (apply Z.mul_lt_mono_pos_l; lia).
    lia. }
  destruct (div_round n d 0 0) as (mq & a & E & Hmq & Ha & Hup & Hdn);
    fold d1 d2; try lia.
  fold d1 d2 in E, Hup, Hdn. rewrite E.
  exists mq, (53 - d1 + d2 - a).
  split; [f_equal; lia|]. split; [exact Hmq|]. split; [lia|].
  assert (HA : 0 < 2 ^ a) by (apply pow2_pos; lia).
  assert (Hpow : 2 ^ (53 - d1 + d2) = 2 ^ a * 2 ^ (53 - d1 + d2 - a)).
  { rewrite <- Z.pow_add_r by lia. f_equal. lia. }
  rewrite Hpow in Hup, Hdn.
  split.
  - apply (Z.mul_le_mono_pos_l _ _ (2 ^ a) HA). lia.
  - apply (Z.mul_le_mono_pos_l _ _ (2 ^ a) HA). lia.
Qed.

(** The quotient of two integers that float64 holds. *)
Lemma div_exact_round n c :
  0 < n < 2 ^ 53 -> 0 < c < 2 ^ 53 -> n < 2 ^ 50 * c -> c <= 2 ^ 60 * n ->
  exists (mq : positive) (E : Z),
    f64_div (f64_exact n) (f64_exact c) = S754_finite false mq (- E)
    /\ 2 ^ 52 <= Zpos mq < 2 ^ 53
    /\ 1 <= E <= 120
    /\ Zpos mq * c <= n * 2 ^ E + c
    /\ n * 2 ^ E <= Zpos mq * c + c.
Proof.
  intros Hn Hc Hhi Hlo.
  destruct (exact_mantissa n Hn) as (HMn & HMnr & Hdn).
  destruct (exact_mantissa c Hc) as (HMc & HMcr & Hdc).
  rewrite (f64_exact_pos n), (f64_exact_pos c) by lia.
  destruct (log2_bounds n ltac:(lia)) as [[Hln Hhn] _].
  destruct (log2_bounds c ltac:(lia)) as [[Hlc Hhc] _].
  set (dn := Z.log2 n + 1) in *. set (dc := Z.log2 c + 1) in *.
  replace (Z.log2 n) with (dn - 1) in Hln by (unfold dn; lia).
  replace (Z.log2 c) with (dc - 1) in Hlc by (unfold dc; lia).
  set (Mn := Z.to_pos (n * 2 ^ (53 - dn))) in *.
  set (Mc := Z.to_pos (c * 2 ^ (53 - dc))) in *.
  assert (H1 : dn <= dc + 50).
  { destruct (Z.le_gt_cases dn (dc + 50)) as [|Hgt]; [assumption|exfalso].
    assert (2 ^ 50 * 2 ^ dc <= 2 ^ (dn - 1)).
    { rewrite <- Z.pow_add_r by lia. apply Z.pow_le_mono_r; lia. }
    assert (2 ^ 50 * c < 2 ^ 50 * 2 ^ dc) by (apply Z.mul_lt_mono_pos_l; lia).
    lia. }
  assert (H2 : dc <= dn + 60).
  { destruct (Z.le_gt_cases dc (dn + 60)) as [|Hgt]; [assumption|exfalso].
    assert (2 ^ 60 * 2 ^ dn <= 2 ^ (dc - 1)).
    { rewrite <- Z.pow_add_r by lia. apply Z.pow_le_mono_r; lia. }
    assert (2 ^ 60 * n < 2 ^ 60 * 2 ^ dn) by (apply Z.mul_lt_mono_pos_l; lia).
    lia. }
  unfold f64_div, SFdiv. cbn [xorb].
  destruct (div_round Mn Mc (dn - 53) (dc - 53)) as (mq & a & E & Hmq & Ha & Hup & Hdw);
    rewrite ?(Zdigits2_unique Mn 53 HMnr), ?(Zdigits2_unique Mc 53 HMcr); try lia.
  rewrite (Zdigits2_unique Mn 53 HMnr), (Zdigits2_unique Mc 53 HMcr) in E, Hup, Hdw.
  rewrite E.
  exists mq, (53 + dc - dn - a).
  split; [f_equal; lia|]. split; [exact Hmq|]. split; [lia|].
  replace (53 - 53 + 53) with 53 in Hup, Hdw by lia.
  rewrite HMn, HMc in Hup, Hdw.
  assert (HA : 0 < 2 ^ a) by (apply pow2_pos; lia).
  assert (HC : 0 < 2 ^ (53 - dc)) by (apply pow2_pos; lia).
  assert (Hpow : 2 ^ (53 - dn) * 2 ^ 53
                 = 2 ^ (53 + dc - dn - a) * (2 ^ a * 2 ^ (53 - dc))).
  { rewrite <- !Z.pow_add_r by lia. f_equal. lia. }
  assert (HAC : 0 < 2 ^ a * 2 ^ (53 - dc)) by (apply Z.mul_pos_pos; lia).
  replace (n * 2 ^ (53 - dn) * 2 ^ 53)
    with (n * 2 ^ (53 + dc - dn - a) * (2 ^ a * 2 ^ (53 - dc))) in Hup, Hdw
    by (rewrite <- !Z.mul_assoc; f_equal; now rewrite Hpow).
  split.
  - apply (Z.mul_le_mono_pos_r _ _ _ HAC).
    replace (Zpos mq * c * (2 ^ a * 2 ^ (53 - dc)))
      with (Zpos mq * 2 ^ a * (c * 2 ^ (53 - dc))) by ring.
    replace ((n * 2 ^ (53 + dc - dn - a) + c) * (2 ^ a * 2 ^ (53 - dc)))
      with (n * 2 ^ (53 + dc - dn - a) * (2 ^ a * 2 ^ (53 - dc))
            + 2 ^ a * (c * 2 ^ (53 - dc))) by ring.
    exact Hup.
  - apply (Z.mul_le_mono_pos_r _ _ _ HAC).
    replace ((Zpos mq * c + c) * (2 ^ a * 2 ^ (53 - dc)))
      with (Zpos mq * 2 ^ a * (c * 2 ^ (53 - dc)) + 2 ^ a * (c * 2 ^ (53 - dc)))
      by ring.
    exact Hdw.
Qed.

(** A float times an integer that float64 holds. *)
Lemma mul_exact_round (m1 : positive) (e1 c : Z) :
  2 ^ 52 <= Zpos m1 < 2 ^ 53 ->
  0 < c < 2 ^ 53 ->
  -900 <= e1 <= 800 ->
  exists (mp : positive) (g : Z),
    f64_mul (S754_finite false m1 e1) (f64_exact c) = S754_finite false mp (e1 + g)
    /\ 2 ^ 52 <= Zpos mp < 2 ^ 53
    /\ 0 <= g <= 54
    /\ Zpos mp * 2 ^ g <= Zpos m1 * c + 2 ^ g
    /\ Zpos m1 * c <= Zpos mp * 2 ^ g + 2 ^ g.
Proof.
  intros Hm1 Hc He.
  destruct (exact_mantissa c Hc) as (HMc & HMcr & Hdc).
  rewrite (f64_exact_pos c) by lia.
  set (dc := Z.log2 c + 1) in *.
  set (Mc := Z.to_pos (c * 2 ^ (53 - dc))) in *.
  destruct (mul_round m1 Mc e1 (dc - 53) Hm1 HMcr) as (mp & h & E & Hmp & Hh & Hup & Hdw);
    try lia.
  rewrite E. exists mp, (dc - 53 + h).
  split; [f_equal; lia|]. split; [exact Hmp|]. split; [lia|].
  rewrite HMc in Hup, Hdw.
  assert (HC : 0 < 2 ^ (53 - dc)) by (apply pow2_pos; lia).
  assert (Hpow : 2 ^ h = 2 ^ (dc - 53 + h) * 2 ^ (53 - dc)).
  { rewrite <- Z.pow_add_r by lia. f_equal. lia. }
  rewrite Hpow in Hup, Hdw.
  split.
  - apply (Z.mul_le_mono_pos_r _ _ _ HC). lia.
  - apply (Z.mul_le_mono_pos_r _ _ _ HC). lia.
Qed.

Lemma f64_mul_comm (m1 m2 : positive) (e1 e2 : Z) :
  f64_mul (S754_finite false m1 e1) (S754_finite false m2 e2)
  = f64_mul (S754_finite false m2 e2) (S754_finite false m1 e1).
Proof.
  unfold f64_mul, SFmul. now rewrite Pos.mul_comm, Z.add_comm.
Qed.

(* ----------------------------------------------------------------- *)
(** ** float64: scaling a rounded quotient

    The float nearest to [N / D], or one that differs from it by at
    most a unit of its last place, is multiplied by the integer [c]
    and the product is cut to an integer [r]: below [2^50], [r] lies
    within two of [N * c / D]. *)

Lemma scale_trunc_bound (mq : positive) (E N D c : Z) :
  0 < N -> 0 < D -> 0 < c < 2 ^ 51 ->
  N * c < 2 ^ 50 * D ->
  2 ^ 52 <= Zpos mq < 2 ^ 53 -> 1 <= E <= 120 ->
  Zpos mq * D <= N * 2 ^ E + D ->
  N * 2 ^ E <= Zpos mq * D + D ->
  exists r,
    f64_trunc (f64_mul (S754_finite false mq (- E)) (f64_exact c)) = Some r
    /\ 0 <= r < 2 ^ 51
    /\ r * D < N * c + D
    /\ N * c < (r + 2) * D.
Proof.
  intros HN HD Hc Hb Hmq HE Hup Hdw.
  destruct (mul_exact_round mq (- E) c Hmq) as (mp & g & Emul & Hmp & Hg & Hpu & Hpd);
    [change (2 ^ 53) with 9007199254740992; change (2 ^ 51) with 2251799813685248 in Hc; lia
    |lia|].
  rewrite Emul.
  assert (HP1 : 0 < 2 ^ E) by (apply pow2_pos; lia).
  assert (HG : 0 < 2 ^ g) by (apply pow2_pos; lia).
  set (P1 := 2 ^ E) in *. set (G := 2 ^ g) in *.
  change (2 ^ 50) with 1125899906842624 in *.
  change (2 ^ 51) with 2251799813685248 in *.
  change (2 ^ 52) with 4503599627370496 in *.
  change (2 ^ 53) with 9007199254740992 in *.
  (* the unit of the quotient is small against the scale *)
  assert (Hc3 : 3 * c < P1).
  { assert (H1 : 4503599627370496 * D <= Zpos mq * D)
      by (apply Z.mul_le_mono_nonneg_r; lia).
    assert (H2 : 4503599627370495 * D * c <= N * P1 * c)
      by (apply Z.mul_le_mono_nonneg_r; lia).
    assert (H3 : N * c * P1 < 1125899906842624 * D * P1)
      by (apply Z.mul_lt_mono_pos_r; lia).
    assert (H4 : (4503599627370495 * c) * D < (1125899906842624 * P1) * D) by lia.
    apply Z.mul_lt_mono_pos_r in H4; lia. }
  (* and so is the unit of the product *)
  assert (HG2 : G <= 2 * c).
  { assert (H1 : 4503599627370496 * G <= Zpos mp * G)
      by (apply Z.mul_le_mono_nonneg_r; lia).
    assert (H2 : Zpos mq * c < 9007199254740992 * c)
      by (apply Z.mul_lt_mono_pos_r; lia).
    lia. }
  assert (HgE : g < E).
  { apply (Z.pow_lt_mono_r_iff 2); [lia|lia|]. fold G P1. lia. }
  assert (HP2 : 0 < 2 ^ (E - g)) by (apply pow2_pos; lia).
  assert (Hsplit : P1 = G * 2 ^ (E - g)).
  { unfold P1, G. rewrite <- Z.pow_add_r by lia. f_equal. lia. }
  set (P2 := 2 ^ (E - g)) in *.
  pose proof (Z.mul_div_le (Zpos mp) P2 HP2) as Hfl.
  pose proof (Z.mul_succ_div_gt (Zpos mp) P2 HP2) as Hcl.
  set (r := Zpos mp / P2) in *.
  assert (Hr0 : 0 <= r) by (apply Z.div_pos; lia).
  assert (Htr : f64_trunc (S754_finite false mp (- E + g)) = Some r).
  { apply f64_trunc_finite; [lia|].
    replace (- (- E + g)) with (E - g) by lia. fold P2. lia. }
  (* everything in units of [1 / (P1 * D)] *)
  assert (A1 : Zpos mp * G * D <= (Zpos mq * c + G) * D)
    by (apply Z.mul_le_mono_nonneg_r; lia).
  assert (A2 : Zpos mq * c * D <= (Zpos mp * G + G) * D)
    by (apply Z.mul_le_mono_nonneg_r; lia).
  assert (A3 : Zpos mq * D * c <= (N * P1 + D) * c)
    by (apply Z.mul_le_mono_nonneg_r; lia).
  assert (A4 : N * P1 * c <= (Zpos mq * D + D) * c)
    by (apply Z.mul_le_mono_nonneg_r; lia).
  assert (A5 : P2 * r * (G * D) <= Zpos mp * (G * D))
    by (apply Z.mul_le_mono_nonneg_r; [apply Z.mul_nonneg_nonneg; lia|lia]).
  assert (A6 : Zpos mp * (G * D) < P2 * Z.succ r * (G * D))
    by (apply Z.mul_lt_mono_pos_r; [apply Z.mul_pos_pos; lia|lia]).
  assert (A7 : (c + G) * D < P1 * D) by (apply Z.mul_lt_mono_pos_r; lia).
  assert (E5 : P2 * r * (G * D) = r * D * P1) by (rewrite Hsplit; ring).
  assert (E6 : P2 * Z.succ r * (G * D) = (r + 1) * D * P1)
    by (rewrite Hsplit; unfold Z.succ; ring).
  rewrite E5 in A5. rewrite E6 in A6.
  assert (Hhi : r * D < N * c + D).
  { apply (Z.mul_lt_mono_pos_r P1); lia. }
  assert (Hlo : N * c < (r + 2) * D).
  { apply (Z.mul_lt_mono_pos_r P1); lia. }
  exists r. split; [exact Htr|]. split; [|split; assumption].
  split; [exact Hr0|].
  assert (r * D < 2251799813685248 * D) by lia.
  apply (Z.mul_lt_mono_pos_r D); lia.
Qed.

(** The same for a number of days: the float is multiplied by 24 and
    the product by the nanoseconds of an hour, with a rounding after
    each. *)
Lemma scale_day_bound (mq : positive) (E N D : Z) :
  0 < N -> 0 < D ->
  N * 86400000000000 < 2 ^ 50 * D ->
  2 ^ 52 <= Zpos mq < 2 ^ 53 -> 1 <= E <= 120 ->
  Zpos mq * D <= N * 2 ^ E + D ->
  N * 2 ^ E <= Zpos mq * D + D ->
  exists r,
    f64_trunc (f64_mul (f64_mul (S754_finite false mq (- E)) (f64_exact 24))
                 (f64_exact 3600000000000)) = Some r
    /\ 0 <= r < 2 ^ 51
    /\ r * D < N * 86400000000000 + D
    /\ N * 86400000000000 < (r + 2) * D.
Proof.
  intros HN HD Hb Hmq HE Hup Hdw.
  destruct (mul_exact_round mq (- E) 24 Hmq)
    as (m2 & g2 & Emul2 & Hm2 & Hg2 & Hu2 & Hd2);
    [change (2 ^ 53) with 9007199254740992; lia|lia|].
  rewrite Emul2.
  destruct (mul_exact_round m2 (- E + g2) 3600000000000 Hm2)
    as (m3 & g3 & Emul3 & Hm3 & Hg3 & Hu3 & Hd3);
    [change (2 ^ 53) with 9007199254740992; lia|lia|].
  rewrite Emul3.
  assert (HP1 : 0 < 2 ^ E) by (apply pow2_pos; lia).
  assert (HG2 : 0 < 2 ^ g2) by (apply pow2_pos; lia).
  assert (HG3 : 0 < 2 ^ g3) by (apply pow2_pos; lia).
  set (P1 := 2 ^ E) in *. set (G2 := 2 ^ g2) in *. set (G3 := 2 ^ g3) in *.
  change (2 ^ 50) with 1125899906842624 in *.
  change (2 ^ 51) with 2251799813685248 in *.
  change (2 ^ 52) with 4503599627370496 in *.
  change (2 ^ 53) with 9007199254740992 in *.
  assert (HGD : 0 < G2 * D) by (apply Z.mul_pos_pos; lia).
  assert (HGG : 0 < G3 * G2) by (apply Z.mul_pos_pos; lia).
  (* every bound in units of [1 / (P1 * D)] *)
  assert (B0 : N * 86400000000000 * P1 < 1125899906842624 * D * P1)
    by (apply Z.mul_lt_mono_pos_r; lia).
  assert (B1 : 4503599627370496 * D <= Zpos mq * D)
    by (apply Z.mul_le_mono_nonneg_r; lia).
  assert (B2 : Zpos m2 * G2 * D <= (Zpos mq * 24 + G2) * D)
    by (apply Z.mul_le_mono_nonneg_r; lia).
  assert (B3 : Zpos mq * 24 * D <= (Zpos m2 * G2 + G2) * D)
    by (apply Z.mul_le_mono_nonneg_r; lia).
  assert (B4 : 4503599627370496 * (G2 * D) <= Zpos m2 * (G2 * D))
    by (apply Z.mul_le_mono_nonneg_r; lia).
  assert (B5 : Zpos m3 * G3 * (G2 * D) <= (Zpos m2 * 3600000000000 + G3) * (G2 * D))
    by (apply Z.mul_le_mono_nonneg_r; lia).
  assert (B6 : Zpos m2 * 3600000000000 * (G2 * D) <= (Zpos m3 * G3 + G3) * (G2 * D))
    by (apply Z.mul_le_mono_nonneg_r; lia).
  assert (B7 : 4503599627370496 * (G3 * G2 * D) <= Zpos m3 * (G3 * G2 * D)).
  { apply Z.mul_le_mono_nonneg_r; [|lia]. apply Z.mul_nonneg_nonneg; lia. }
  assert (Hsmall : 86400000000000 * D + 3600000000000 * (G2 * D) + G3 * G2 * D < P1 * D)
    by lia.
  assert (HGP : G3 * G2 < P1).
  { apply (Z.mul_lt_mono_pos_r D); lia. }
  assert (HgE : g3 + g2 < E).
  { apply (Z.pow_lt_mono_r_iff 2); [lia|lia|].
    rewrite Z.pow_add_r by lia. fold G2 G3 P1. exact HGP. }
  assert (HP3 : 0 < 2 ^ (E - g2 - g3)) by (apply pow2_pos; lia).
  assert (Hsplit : P1 = G3 * G2 * 2 ^ (E - g2 - g3)).
  { unfold P1, G2, G3. rewrite <- !Z.pow_add_r by lia. f_equal. lia. }
  set (P3 := 2 ^ (E - g2 - g3)) in *.
  pose proof (Z.mul_div_le (Zpos m3) P3 HP3) as Hfl.
  pose proof (Z.mul_succ_div_gt (Zpos m3) P3 HP3) as Hcl.
  set (r := Zpos m3 / P3) in *.
  assert (Hr0 : 0 <= r) by (apply Z.div_pos; lia).
  assert (Htr : f64_trunc (S754_finite false m3 (- E + g2 + g3)) = Some r).
  { apply f64_trunc_finite; [lia|].
    replace (- (- E + g2 + g3)) with (E - g2 - g3) by lia. fold P3. lia. }
  assert (A5 : P3 * r * (G3 * G2 * D) <= Zpos m3 * (G3 * G2 * D)).
  { apply Z.mul_le_mono_nonneg_r; [|lia]. apply Z.mul_nonneg_nonneg; lia. }
  assert (A6 : Zpos m3 * (G3 * G2 * D) < P3 * Z.succ r * (G3 * G2 * D)).
  { apply Z.mul_lt_mono_pos_r; [|lia]. apply Z.mul_pos_pos; lia. }
  assert (E5 : P3 * r * (G3 * G2 * D) = r * D * P1) by (rewrite Hsplit; ring).
  assert (E6 : P3 * Z.succ r * (G3 * G2 * D) = (r + 1) * D * P1)
    by (rewrite Hsplit; unfold Z.succ; ring).
  rewrite E5 in A5. rewrite E6 in A6.
  assert (Hhi : r * D < N * 86400000000000 + D).
  { apply (Z.mul_lt_mono_pos_r P1); lia. }
  assert (Hlo : N * 86400000000000 < (r + 2) * D).
  { apply (Z.mul_lt_mono_pos_r P1); lia. }
  exists r. split; [exact Htr|]. split; [|split; assumption].
  split; [exact Hr0|].
  assert (r * D < 2251799813685248 * D) by lia.
  apply (Z.mul_lt_mono_pos_r D); lia.
Qed.

(* ----------------------------------------------------------------- *)
(** ** A number with a fraction on the fallback path *)

Lemma read_decimal_run ds :
  all_chars is_digit ds = true ->
  forall s sawdot sawdigits mant frac,
    read_decimal (ds ++ s) sawdot sawdigits mant frac
    = read_decimal s sawdot
        (sawdigits || negb (String.eqb ds ""))
        (decimal_from mant ds)
        (if sawdot then (frac + String.length ds)%nat else frac).
Proof.
  induction ds as [|c ds IH]; intros Hds s sawdot sd mant frac.
  - cbn [append decimal_from String.length String.eqb negb].
    rewrite orb_false_r, Nat.add_0_r. now destruct sawdot.
  - cbn [all_chars] in Hds. apply andb_true_iff in Hds as [Hc Hds].
    cbn [append read_decimal decimal_from String.length String.eqb negb].
    rewrite (digit_not_dot c Hc), Hc, (IH Hds). rewrite !orb_true_r.
    destruct sawdot; [|reflexivity].
    now replace (S frac + String.length ds)%nat
      with (frac + S (String.length ds))%nat by lia.
Qed.

(** The digits [strconv.ParseFloat] reads in a number with a point. *)
Lemma read_decimal_point ds fd :
  all_chars is_digit ds = true -> ds <> "" ->
  all_chars is_digit fd = true ->
  read_decimal (ds ++ String "." fd) false false 0 0
  = Some (decimal (ds ++ fd), String.length fd).
Proof.
  intros Hds Hne Hfd.
  rewrite (read_decimal_run ds Hds). cbn [orb].
  destruct (String.eqb_spec ds "") as [E|_]; [congruence|]. cbn [negb].
  cbn [read_decimal]. change (is_dot ".") with true. cbv iota.
  rewrite <- (append_nil_r fd) at 1.
  rewrite (read_decimal_run fd Hfd). cbn [orb read_decimal Nat.add].
  unfold decimal. now rewrite decimal_from_app.
Qed.

Lemma point_unit_assoc ds fd u :
  ds ++ String "." (fd ++ u) = (ds ++ String "." fd) ++ u.
Proof. now rewrite append_assoc. Qed.

(** The [switch] of the program on an alias of the table: the float
    product it converts. *)
Lemma unit_duration_alias a factor value :
  alias_factor a = Some factor ->
  unit_duration a value
  = Some (int64_of_f64
            (if factor =? 86400000000000
             then f64_mul (f64_mul value (f64_exact 24)) (f64_exact 3600000000000)
             else f64_mul value (f64_exact factor))).
Proof.
  intros Ha. apply alias_inv in Ha. cbn [In] in Ha.
  repeat (destruct Ha as [Ha|Ha]; [injection Ha as <- <-; reflexivity|]).
  destruct Ha.
Qed.

Lemma below_62 r : 0 <= r < 2 ^ 51 -> 0 <= r < 2 ^ 62.
Proof.
  change (2 ^ 51) with 2251799813685248. change (2 ^ 62) with 4611686018427387904. lia.
Qed.

Lemma of_trunc x r :
  f64_trunc x = Some r -> 0 <= r < 2 ^ 62 ->
  int64_of_f64 x = r /\ uint64_of_f64 x = r.
Proof.
  intros Ht Hr. unfold int64_of_f64, uint64_of_f64. rewrite Ht.
  change (2 ^ 62) with 4611686018427387904 in Hr.
  assert (E1 : (MinInt64 <=? r) = true)
    by (apply Z.leb_le; unfold MinInt64, two63; lia).
  assert (E2 : (r <=? MaxInt64) = true)
    by (apply Z.leb_le; unfold MaxInt64, two63; lia).
  assert (E3 : (0 <=? r) = true) by (apply Z.leb_le; lia).
  assert (E4 : (r <? two64) = true) by (apply Z.ltb_lt; unfold two64; lia).
  rewrite E1, E2, E3, E4. split; reflexivity.
Qed.

(** [ParseDuration] on a number followed by an alias that the standard
    parser does not know: the float nearest to the number is scaled and
    converted. *)
Lemma ParseDuration_float_alias num u factor value :
  strconv_ParseFloat num = inl value ->
  alias_factor (strings_ToLower u) = Some factor ->
  unitMap u = None ->
  ParseDuration (num ++ u)
  = (int64_of_f64
       (if factor =? 86400000000000
        then f64_mul (f64_mul value (f64_exact 24)) (f64_exact 3600000000000)
        else f64_mul value (f64_exact factor)), None).
Proof.
  intros Hpf Ha Hunit.
  assert (Hu : all_chars is_letter u = true).
  { apply ToLower_letters, (all_chars_impl _ _ _ lower_is_letter),
      (alias_letters _ _ Ha). }
  assert (Hune : u <> "").
  { intros ->. now apply (alias_nonempty _ _ Ha). }
  pose proof (ParseFloat_syntax num value Hpf) as Hg.
  pose proof (GroupNumber_numch num Hg) as Hnum.
  assert (Hnne : num <> "") by (destruct Hg as (i & fr & _ & _ & _ & H & _); exact H).
  assert (Hnz : num ++ u <> "0").
  { destruct num as [|c [|c' n]]; [congruence| |discriminate].
    destruct u; [congruence|discriminate]. }
  rewrite (ParseDuration_number_letters _ u Hnum Hnne Hu Hunit Hnz).
  unfold parseNonStandard.
  rewrite (re_match_number_unit _ u Hnum Hnne Hu Hune), Hpf.
  now rewrite (unit_duration_alias _ factor value Ha).
Qed.

Lemma ParseDuration_point_alias ds fd u factor :
  alias_factor (strings_ToLower u) = Some factor ->
  unitMap u = None ->
  forall value,
    strconv_ParseFloat (ds ++ String "." fd) = inl value ->
    ParseDuration (ds ++ String "." (fd ++ u))
    = (int64_of_f64
         (if factor =? 86400000000000
          then f64_mul (f64_mul value (f64_exact 24)) (f64_exact 3600000000000)
          else f64_mul value (f64_exact factor)), None).
Proof.
  intros Ha Hunit value Hpf. rewrite point_unit_assoc.
  now apply ParseDuration_float_alias.
Qed.

Lemma pow10_pos k : 0 <= k -> 0 < 10 ^ k.
Proof. intros H. apply Z.pow_pos_nonneg; lia. Qed.

Lemma pow10_15 k : 0 <= k <= 15 -> 10 ^ k <= 10 ^ 15.
Proof. intros H. apply Z.pow_le_mono_r; lia. Qed.

(** On that path the result is within two nanoseconds of the product. *)
Lemma fallback_point_bound ds fd u factor :
  all_chars is_digit ds = true -> ds <> "" ->
  all_chars is_digit fd = true ->
  (String.length fd <= 15)%nat ->
  alias_factor (strings_ToLower u) = Some factor ->
  unitMap u = None ->
  decimal (ds ++ fd) * factor < 2 ^ 50 * 10 ^ Z.of_nat (String.length fd) ->
  exists r,
    ParseDuration (ds ++ String "." (fd ++ u)) = (r, None)
    /\ 0 <= r
    /\ r * 10 ^ Z.of_nat (String.length fd)
       < decimal (ds ++ fd) * factor + 10 ^ Z.of_nat (String.length fd)
    /\ decimal (ds ++ fd) * factor
       < (r + 2) * 10 ^ Z.of_nat (String.length fd).
Proof.
  intros Hds Hne Hfd Hlen Ha Hunit Hb.
  set (k := Z.of_nat (String.length fd)) in *.
  set (N := decimal (ds ++ fd)) in *.
  assert (Hk : 0 <= k <= 15) by (unfold k; lia).
  pose proof (pow10_pos k (proj1 Hk)) as HD.
  pose proof (pow10_15 k Hk) as HD15.
  change (10 ^ 15) with 1000000000000000 in HD15.
  assert (HN0 : 0 <= N).
  { unfold N. apply decimal_nonneg. now rewrite all_chars_app, Hds, Hfd. }
  pose proof (alias_inv _ _ Ha) as Hin.
  assert (Hf : 1 <= factor <= 86400000000000).
  { cbn [In] in Hin.
    repeat (destruct Hin as [Hin|Hin]; [injection Hin as _ <-; lia|]). destruct Hin. }
  assert (Hread : read_decimal (ds ++ String "." fd) false false 0 0
                  = Some (N, String.length fd))
    by now apply read_decimal_point.
  destruct (Z.eq_dec N 0) as [E0|Hnz].
  - (* the number is zero *)
    exists 0.
    assert (Hpf : strconv_ParseFloat (ds ++ String "." fd) = inl (S754_zero false)).
    { unfold strconv_ParseFloat. rewrite Hread, E0. reflexivity. }
    rewrite (ParseDuration_point_alias ds fd u factor Ha Hunit _ Hpf).
    rewrite E0. split; [|lia].
    f_equal. cbn [In] in Hin.
    repeat (destruct Hin as [Hin|Hin]; [injection Hin as _ <-; reflexivity|]).
    destruct Hin.
  - change (2 ^ 50) with 1125899906842624 in Hb.
    assert (HNb : N < 2 ^ 50 * 10 ^ k).
    { change (2 ^ 50) with 1125899906842624.
      assert (N * 1 <= N * factor) by (apply Z.mul_le_mono_nonneg_l; lia). lia. }
    assert (HDb : 10 ^ k <= 2 ^ 60 * N).
    { change (2 ^ 60) with 1152921504606846976. lia. }
    destruct (ratio_round N (10 ^ k) ltac:(lia) HD HNb HDb)
      as (mq & E & Eratio & Hmq & HE & Hup & Hdw).
    assert (Hpf : strconv_ParseFloat (ds ++ String "." fd)
                  = inl (S754_finite false mq (- E))).
    { unfold strconv_ParseFloat. rewrite Hread. fold k. now rewrite Eratio. }
    rewrite (ParseDuration_point_alias ds fd u factor Ha Hunit _ Hpf).
    destruct (Z.eqb_spec factor 86400000000000) as [Eday|Hnd].
    + subst factor.
      destruct (scale_day_bound mq E N (10 ^ k)) as (r & Htr & Hr & Hhi & Hlo);
        try assumption; try lia.
      exists r. destruct (of_trunc _ r Htr (below_62 r Hr)) as [-> _].
      split; [reflexivity|]. split; [lia|]. split; assumption.
    + destruct (scale_trunc_bound mq E N (10 ^ k) factor) as (r & Htr & Hr & Hhi & Hlo);
        try assumption; try lia.
      exists r. destruct (of_trunc _ r Htr (below_62 r Hr)) as [-> _].
      split; [reflexivity|]. split; [lia|]. split; assumption.
Qed.

(* ----------------------------------------------------------------- *)
(** ** A number with a fraction before a unit of the standard parser *)

(** One turn of the loop on digits, a point, at most fifteen digits and
    a unit. *)
Lemma parse_groups_point fuel ds fd u unit rest d :
  all_chars is_digit ds = true -> ds <> "" ->
  all_chars is_digit fd = true -> fd <> "" ->
  (String.length fd <= 15)%nat ->
  unitMap u = Some unit ->
  starts_with (fun c => negb (is_numch c)) rest = false ->
  decimal ds <= two63 ->
  parse_groups (S fuel) (ds ++ String "." (fd ++ u ++ rest)) d =
    match group_value (decimal ds) (decimal fd)
            (f64_exact (10 ^ Z.of_nat (String.length fd))) unit with
    | None => inr InvalidDuration
    | Some v' =>
        if wrapu64 (d + v') >? two63 then inr InvalidDuration
        else parse_groups fuel rest (wrapu64 (d + v'))
    end.
Proof.
  intros Hds Hne Hfd Hfne Hlen Hunit Hrest Hv.
  destruct (unitMap_key _ _ Hunit) as (Hune & Hustart & Huall & _ & Hpos & _).
  assert (Hdig : starts_with is_digit (u ++ rest) = false).
  { rewrite starts_with_app by exact Hune.
    destruct u as [|cu u']; [congruence|]. simpl in *.
    unfold is_numch in Hustart. now apply orb_false_iff in Hustart as [H _]. }
  assert (Hli : leadingInt (ds ++ String "." (fd ++ u ++ rest))
                = Some (decimal ds, String "." (fd ++ u ++ rest))).
  { apply leadingInt_from_digits; auto. lia. }
  assert (Hfp : fraction_part (String "." (fd ++ u ++ rest))
                = (decimal fd, f64_exact (10 ^ Z.of_nat (String.length fd)),
                   u ++ rest, true)).
  { apply fraction_part_digits; auto. }
  assert (Hsu : span_unit (u ++ rest) = (u, rest)) by now apply span_app.
  destruct ds as [|c ds']; [congruence|].
  cbn [append parse_groups]. cbn [append] in Hli.
  assert (Hc : is_numch c = true).
  { simpl in Hds. apply andb_true_iff in Hds as [Hc _]. now apply digit_numch. }
  rewrite Hc. cbn [negb]. rewrite Hli, Hfp. cbn [negb andb].
  rewrite andb_false_r.
  rewrite Hsu. destruct u as [|cu u']; [congruence|].
  rewrite Hunit. reflexivity.
Qed.

(** The standard parser on such a number followed by a unit. *)
Lemma time_ParseDuration_point ds fd u unit v' :
  all_chars is_digit ds = true -> ds <> "" ->
  all_chars is_digit fd = true -> fd <> "" ->
  (String.length fd <= 15)%nat ->
  unitMap u = Some unit ->
  decimal ds <= two63 ->
  group_value (decimal ds) (decimal fd)
    (f64_exact (10 ^ Z.of_nat (String.length fd))) unit = Some v' ->
  0 <= v' <= MaxInt64 ->
  time_ParseDuration (ds ++ String "." (fd ++ u)) = (v', None).
Proof.
  intros Hds Hne Hfd Hfne Hlen Hunit Hv Hgv Hb.
  unfold MaxInt64 in Hb.
  unfold time_ParseDuration.
  assert (Hsign : strip_sign (ds ++ String "." (fd ++ u))
                  = (false, ds ++ String "." (fd ++ u))).
  { destruct ds as [|c ds']; [congruence|]. simpl in Hds.
    apply andb_true_iff in Hds as [Hc _].
    destruct (numch_no_sign c (digit_numch c Hc)) as [E1 E2].
    unfold strip_sign. cbn [append]. now rewrite E1, E2. }
  rewrite Hsign.
  assert (Hlen2 : (2 <= String.length (ds ++ String "." (fd ++ u)))%nat).
  { rewrite length_append. destruct ds; [congruence|]. cbn [String.length]. lia. }
  destruct (String.eqb_spec (ds ++ String "." (fd ++ u)) "0") as [E|_].
  { rewrite E in Hlen2. simpl in Hlen2. lia. }
  destruct (String.eqb_spec (ds ++ String "." (fd ++ u)) "") as [E|_].
  { rewrite E in Hlen2. simpl in Hlen2. lia. }
  destruct (String.length (ds ++ String "." (fd ++ u))) as [|n]; [lia|clear Hlen2].
  rewrite <- (append_nil_r u).
  rewrite (parse_groups_point _ ds fd u unit "" 0 Hds Hne Hfd Hfne Hlen Hunit eq_refl Hv).
  rewrite Hgv, Z.add_0_l, wrapu64_small by lia.
  destruct (Z.gtb_spec v' two63); [lia|].
  cbn [parse_groups].
  destruct (Z.gtb_spec v' (two63 - 1)); [lia|reflexivity].
Qed.

(** The fraction [f / 10^k] of a unit, as the standard parser computes
    it in float64, is within two nanoseconds of [f * unit / 10^k]. *)
Lemma group_value_bound v f k unit :
  0 <= v -> 0 < f < 10 ^ k -> 1 <= k <= 15 ->
  0 < unit <= Hour ->
  (v + 1) * unit < 2 ^ 62 ->
  exists t,
    group_value v f (f64_exact (10 ^ k)) unit = Some (v * unit + t)
    /\ 0 <= t
    /\ t * 10 ^ k < f * unit + 10 ^ k
    /\ f * unit < (t + 2) * 10 ^ k.
Proof.
  intros Hv Hf Hk Hunit Hb.
  pose proof (pow10_pos k ltac:(lia)) as HD.
  pose proof (pow10_15 k ltac:(lia)) as HD15.
  change (10 ^ 15) with 1000000000000000 in HD15.
  change Hour with 3600000000000 in Hunit.
  change (2 ^ 62) with 4611686018427387904 in Hb.
  assert (Hvu : 0 <= v * unit) by (apply Z.mul_nonneg_nonneg; lia).
  unfold group_value.
  destruct (Z.gtb_spec v (two63 / unit)) as [Hgt|_].
  { exfalso. assert (v <= two63 / unit)
      by (apply Z.div_le_lower_bound; unfold two63; lia). lia. }
  destruct (Z.gtb_spec f 0) as [_|Hle]; [|lia].
  rewrite (f64_of_Z_exact f), (f64_of_Z_exact unit)
    by (change (2 ^ 53) with 9007199254740992; lia).
  destruct (div_exact_round unit (10 ^ k)) as (mq & E & Ediv & Hmq & HE & Hup & Hdw).
  { change (2 ^ 53) with 9007199254740992. lia. }
  { change (2 ^ 53) with 9007199254740992. lia. }
  { change (2 ^ 50) with 1125899906842624. lia. }
  { change (2 ^ 60) with 1152921504606846976. lia. }
  rewrite Ediv.
  assert (Hfu : unit * f < 2 ^ 50 * 10 ^ k).
  { change (2 ^ 50) with 1125899906842624.
    assert (unit * f < unit * 10 ^ k) by (apply Z.mul_lt_mono_pos_l; lia).
    assert (unit * 10 ^ k <= 3600000000000 * 10 ^ k)
      by (apply Z.mul_le_mono_nonneg_r; lia).
    lia. }
  destruct (scale_trunc_bound mq E unit (10 ^ k) f) as (t & Htr & Ht & Hhi & Hlo);
    try assumption; try lia.
  destruct (f64_exact_finite f ltac:(lia)) as (mf & ef & Ef).
  rewrite Ef, f64_mul_comm, <- Ef.
  destruct (of_trunc _ t Htr (below_62 t Ht)) as [_ ->].
  change (2 ^ 51) with 2251799813685248 in Ht.
  rewrite (wrapu64_small (v * unit)) by (unfold two63; lia).
  rewrite (wrapu64_small (v * unit + t)) by (unfold two63; lia).
  destruct (Z.gtb_spec (v * unit + t) two63) as [Hgt|_]; [unfold two63 in Hgt; lia|].
  exists t. split; [reflexivity|]. split; [lia|]. split; lia.
Qed.

Lemma decimal_app ds fd :
  decimal (ds ++ fd) = decimal ds * 10 ^ Z.of_nat (String.length fd) + decimal fd.
Proof.
  unfold decimal at 1. rewrite decimal_from_app. fold (decimal ds).
  apply decimal_from_shift.
Qed.

Lemma unitMap_alias u unit factor :
  unitMap u = Some unit ->
  alias_factor (strings_ToLower u) = Some factor ->
  factor = unit.
Proof.
  intros Hunit Ha.
  unit_cases Hunit; vm_compute in Ha;
    first [discriminate Ha | injection Ha as <-; reflexivity].
Qed.

(** Before a unit of the standard parser the result is within two
    nanoseconds of the product. *)
Lemma standard_point_bound ds fd u unit :
  all_chars is_digit ds = true -> ds <> "" ->
  all_chars is_digit fd = true -> fd <> "" ->
  (String.length fd <= 15)%nat ->
  unitMap u = Some unit ->
  decimal (ds ++ fd) * unit < 2 ^ 50 * 10 ^ Z.of_nat (String.length fd) ->
  exists r,
    ParseDuration (ds ++ String "." (fd ++ u)) = (r, None)
    /\ 0 <= r
    /\ r * 10 ^ Z.of_nat (String.length fd)
       < decimal (ds ++ fd) * unit + 10 ^ Z.of_nat (String.length fd)
    /\ decimal (ds ++ fd) * unit
       < (r + 2) * 10 ^ Z.of_nat (String.length fd).
Proof.
  intros Hds Hne Hfd Hfne Hlen Hunit Hb.
  rewrite decimal_app in *.
  set (k := Z.of_nat (String.length fd)) in *.
  assert (Hk : 1 <= k <= 15).
  { unfold k. destruct fd; [congruence|]. cbn [String.length] in *. lia. }
  pose proof (pow10_pos k ltac:(lia)) as HD.
  pose proof (decimal_nonneg ds Hds) as Hv0.
  pose proof (decimal_nonneg fd Hfd) as Hf0.
  pose proof (decimal_upper fd Hfd) as Hfup. fold k in Hfup.
  destruct (unitMap_key _ _ Hunit) as (_ & _ & _ & _ & Hpos).
  change Hour with 3600000000000 in Hpos.
  change (2 ^ 50) with 1125899906842624 in Hb.
  set (v := decimal ds) in *. set (f := decimal fd) in *.
  assert (Hvu0 : 0 <= v * unit) by (apply Z.mul_nonneg_nonneg; lia).
  assert (Hfu0 : 0 <= f * unit) by (apply Z.mul_nonneg_nonneg; lia).
  assert (Hvu : v * unit < 1125899906842624).
  { assert (v * unit * 10 ^ k < 1125899906842624 * 10 ^ k) by lia.
    apply (Z.mul_lt_mono_pos_r (10 ^ k)); lia. }
  assert (Hv63 : v <= two63).
  { assert (v * 1 <= v * unit) by (apply Z.mul_le_mono_nonneg_l; lia).
    unfold two63. lia. }
  destruct (Z.eq_dec f 0) as [Ez|Hnz].
  - exists (v * unit).
    assert (Hgv : group_value v f (f64_exact (10 ^ k)) unit = Some (v * unit)).
    { rewrite Ez. apply group_value_whole; unfold two63; lia. }
    split.
    + apply ParseDuration_standard.
      apply (time_ParseDuration_point ds fd u unit); auto.
      unfold MaxInt64, two63. lia.
    + rewrite Ez. split; [lia|]. split; lia.
  - destruct (group_value_bound v f k unit) as (t & Hgv & Ht & Hhi & Hlo);
      try lia.
    { change Hour with 3600000000000. lia. }
    assert (Htu : t <= unit).
    { assert (f * unit < 10 ^ k * unit) by (apply Z.mul_lt_mono_pos_r; lia).
      assert (t * 10 ^ k < (unit + 1) * 10 ^ k) by lia.
      assert (t < unit + 1) by (apply (Z.mul_lt_mono_pos_r (10 ^ k)); lia).
      lia. }
    exists (v * unit + t). split.
    + apply ParseDuration_standard.
      apply (time_ParseDuration_point ds fd u unit); auto.
      unfold MaxInt64, two63. lia.
    + split; [lia|]. split; lia.
Qed.

(** A number with a fraction of at most fifteen digits before an alias
    of the table, in any letter case: the result is within two
    nanoseconds of the product. *)
Lemma ParseDuration_point_bound ds fd u factor :
  all_chars is_digit ds = true -> ds <> "" ->
  all_chars is_digit fd = true -> fd <> "" ->
  (String.length fd <= 15)%nat ->
  alias_factor (strings_ToLower u) = Some factor ->
  decimal (ds ++ fd) * factor < 2 ^ 50 * 10 ^ Z.of_nat (String.length fd) ->
  exists r,
    ParseDuration (ds ++ String "." (fd ++ u)) = (r, None)
    /\ 0 <= r
    /\ r * 10 ^ Z.of_nat (String.length fd)
       < decimal (ds ++ fd) * factor + 10 ^ Z.of_nat (String.length fd)
    /\ decimal (ds ++ fd) * factor
       < (r + 2) * 10 ^ Z.of_nat (String.length fd).
Proof.
  intros Hds Hne Hfd Hfne Hlen Ha Hb.
  destruct (unitMap u) as [unit|] eqn:Hunit.
  - rewrite (unitMap_alias u unit factor Hunit Ha) in *.
    now apply standard_point_bound.
  - now apply fallback_point_bound.
Qed.

(** ** Fractions the standard parser scales exactly *)

Lemma div_unit_exact u unit k :
  unitMap u = Some unit -> 1 <= k <= 15 ->
  unit mod 10 ^ k = 0 ->
  f64_div (f64_exact unit) (f64_exact (10 ^ k)) = f64_exact (unit / 10 ^ k).
Proof.
  intros Hunit Hk Hmod.
  assert (E : k = 1 \/ k = 2 \/ k = 3 \/ k = 4 \/ k = 5 \/ k = 6 \/ k = 7
              \/ k = 8 \/ k = 9 \/ k = 10 \/ k = 11 \/ k = 12 \/ k = 13
              \/ k = 14 \/ k = 15) by lia.
  unit_cases Hunit;
    repeat (destruct E as [-> | E];
            [vm_compute in Hmod; try discriminate Hmod; vm_compute; reflexivity|]);
    subst k; vm_compute in Hmod; try discriminate Hmod; vm_compute; reflexivity.
Qed.

Lemma group_value_divides u v f k unit :
  unitMap u = Some unit -> 1 <= k <= 15 ->
  unit mod 10 ^ k = 0 ->
  0 <= v -> 0 < f < 10 ^ k ->
  v * unit + f * (unit / 10 ^ k) <= two63 ->
  group_value v f (f64_exact (10 ^ k)) unit
  = Some (v * unit + f * (unit / 10 ^ k)).
Proof.
  intros Hunit Hk Hmod Hv Hf Hb.
  pose proof (pow10_pos k ltac:(lia)) as HD.
  pose proof (pow10_15 k ltac:(lia)) as HD15.
  change (10 ^ 15) with 1000000000000000 in HD15.
  destruct (unitMap_key _ _ Hunit) as (_ & _ & _ & _ & Hpos).
  change Hour with 3600000000000 in Hpos.
  assert (Hq : unit = 10 ^ k * (unit / 10 ^ k)).
  { apply Z.div_exact; lia. }
  set (q := unit / 10 ^ k) in *.
  assert (Hq0 : 0 < q).
  { destruct (Z.lt_trichotomy q 0) as [H|[H|H]]; [|subst q; lia|exact H].
    assert (10 ^ k * q <= 10 ^ k * 0) by (apply Z.mul_le_mono_nonneg_l; lia). lia. }
  assert (Hfq : f * q < unit).
  { assert (f * q < 10 ^ k * q) by (apply Z.mul_lt_mono_pos_r; lia). lia. }
  assert (Hfq0 : 0 < f * q) by (apply Z.mul_pos_pos; lia).
  assert (Hvu : 0 <= v * unit) by (apply Z.mul_nonneg_nonneg; lia).
  unfold group_value.
  destruct (Z.gtb_spec v (two63 / unit)) as [Hgt|_].
  { exfalso. assert (v <= two63 / unit) by (apply Z.div_le_lower_bound; lia). lia. }
  destruct (Z.gtb_spec f 0) as [_|Hle]; [|lia].
  rewrite (f64_of_Z_exact f), (f64_of_Z_exact unit)
    by (change (2 ^ 53) with 9007199254740992; lia).
  rewrite (div_unit_exact u unit k Hunit Hk Hmod). fold q.
  rewrite f64_mul_exact by (try lia; change (2 ^ 53) with 9007199254740992; lia).
  rewrite uint64_of_f64_exact by (change (2 ^ 53) with 9007199254740992; lia).
  rewrite (wrapu64_small (v * unit)) by lia.
  rewrite (wrapu64_small (v * unit + f * q)) by lia.
  destruct (Z.gtb_spec (v * unit + f * q) two63); [lia|reflexivity].
Qed.

(** A fraction of [k] digits before a unit of the standard parser whose
    nanoseconds [10^k] divides is scaled exactly. *)
Lemma ParseDuration_point_divides ds fd u unit :
  all_chars is_digit ds = true -> ds <> "" ->
  all_chars is_digit fd = true -> fd <> "" ->
  unitMap u = Some unit ->
  unit mod 10 ^ Z.of_nat (String.length fd) = 0 ->
  decimal ds * unit + decimal fd * (unit / 10 ^ Z.of_nat (String.length fd))
  <= MaxInt64 ->
  ParseDuration (ds ++ String "." (fd ++ u))
  = (decimal ds * unit
     + decimal fd * (unit / 10 ^ Z.of_nat (String.length fd)), None).
Proof.
  intros Hds Hne Hfd Hfne Hunit Hmod Hb.
  set (k := Z.of_nat (String.length fd)) in *.
  destruct (unitMap_key _ _ Hunit) as (_ & _ & _ & _ & Hpos).
  change Hour with 3600000000000 in Hpos.
  assert (Hk1 : 1 <= k).
  { unfold k. destruct fd; [congruence|]. cbn [String.length]. lia. }
  assert (Hk : k <= 15).
  { destruct (Z.le_gt_cases k 15) as [|Hgt]; [assumption|exfalso].
    assert (10 ^ 15 <= 10 ^ k) by (apply Z.pow_le_mono_r; lia).
    change (10 ^ 15) with 1000000000000000 in *.
    rewrite Z.mod_small in Hmod by lia. lia. }
  pose proof (pow10_pos k ltac:(lia)) as HD.
  pose proof (decimal_nonneg ds Hds) as Hv0.
  pose proof (decimal_nonneg fd Hfd) as Hf0.
  pose proof (decimal_upper fd Hfd) as Hfup. fold k in Hfup.
  set (v := decimal ds) in *. set (f := decimal fd) in *.
  assert (Hq0 : 0 <= unit / 10 ^ k) by (apply Z.div_pos; lia).
  assert (Hfq0 : 0 <= f * (unit / 10 ^ k)) by (apply Z.mul_nonneg_nonneg; lia).
  assert (Hvu0 : 0 <= v * unit) by (apply Z.mul_nonneg_nonneg; lia).
  unfold MaxInt64 in Hb.
  assert (Hv63 : v <= two63).
  { assert (v * 1 <= v * unit) by (apply Z.mul_le_mono_nonneg_l; lia). lia. }
  apply ParseDuration_standard.
  apply (time_ParseDuration_point ds fd u unit); auto; [lia| |unfold MaxInt64; lia].
  fold k v f.
  destruct (Z.eq_dec f 0) as [Ez|Hnz].
  - rewrite Ez, Z.mul_0_l, Z.add_0_r. apply group_value_whole; lia.
  - apply (group_value_divides u); auto; lia.
Qed.

(* ----------------------------------------------------------------- *)
(** ** float64: binary fractions

    A number [M / 2^j] with [M] below [2^53] is a float; its decimal
    spelling is read without error, and scaling it by an integer is
    exact as long as the mantissa of the product fits. *)

Lemma f64_dyadic_pos M j :
  0 < M ->
  f64_dyadic M j
  = S754_finite false (Z.to_pos (M * 2 ^ (53 - (Z.log2 M + 1))))
      (Z.log2 M + 1 - 53 - j).
Proof. intros H. unfold f64_dyadic. now rewrite (f64_exact_pos M H). Qed.

Lemma div_eucl_exact a b q : 0 < b -> a = q * b -> Z.div_eucl a b = (q, 0).
Proof.
  intros Hb Ha.
  assert (Hd : a / b = q) by (subst a; apply Z.div_mul; lia).
  assert (Hm : a mod b = 0) by (subst a; apply Z.mod_mul; lia).
  unfold Z.div, Z.modulo in Hd, Hm.
  destruct (Z.div_eucl a b) as [q' r']. cbn in Hd, Hm. now subst.
Qed.

Lemma new_location_zero d : new_location (Zpos d) 0 = loc_Exact.
Proof. unfold new_location. now destruct (Z.even (Zpos d)). Qed.

(** The float nearest to [N / D] when the quotient is [M / 2^j]. *)
Lemma ratio_dyadic N D M j :
  0 < N -> 0 < D -> 0 < M < 2 ^ 53 -> 0 <= j <= 900 ->
  N * 2 ^ j = M * D ->
  f64_of_ratio N D = f64_dyadic M j.
Proof.
  intros HN HD HM Hj Heq.
  destruct N as [|n|n]; try lia. destruct D as [|d|d]; try lia.
  change (f64_of_ratio (Zpos n) (Zpos d))
    with (let '(q, e, l) := SFdiv_core_binary prec emax (Zpos n) 0 (Zpos d) 0 in
          binary_round_aux prec emax false q e l).
  destruct (digits_bounds n) as [[Hlo1 Hhi1] Hd1].
  destruct (digits_bounds d) as [[Hlo2 Hhi2] Hd2].
  set (d1 := Zdigits2 (Zpos n)) in *. set (d2 := Zdigits2 (Zpos d)) in *.
  destruct (exact_mantissa M HM) as (HMM & HMMr & HdM).
  destruct (log2_bounds M ltac:(lia)) as [[HlM HhM] _].
  rewrite (f64_dyadic_pos M j) by lia.
  set (dM := Z.log2 M + 1) in *.
  replace (Z.log2 M) with (dM - 1) in HlM by (unfold dM; lia).
  set (MM := Z.to_pos (M * 2 ^ (53 - dM))) in *.
  assert (HJ : 0 < 2 ^ j) by (apply pow2_pos; lia).
  (* the sizes of [N] and [D] differ as those of [M] and [2^j] *)
  assert (H1 : d1 <= d2 + dM - j).
  { destruct (Z.le_gt_cases d1 (d2 + dM - j)) as [|Hgt]; [assumption|exfalso].
    assert (2 ^ (d2 + dM) <= 2 ^ (d1 - 1) * 2 ^ j).
    { rewrite <- Z.pow_add_r by lia. apply Z.pow_le_mono_r; lia. }
    assert (2 ^ (d1 - 1) * 2 ^ j <= Zpos n * 2 ^ j)
      by (apply Z.mul_le_mono_nonneg_r; lia).
    assert (M * Zpos d < 2 ^ dM * 2 ^ d2) by (apply Z.mul_lt_mono_nonneg; lia).
    rewrite (Z.add_comm d2 dM), Z.pow_add_r in * by lia. lia. }
  assert (H2 : d2 + dM - j - 2 < d1).
  { destruct (Z.lt_ge_cases (d2 + dM - j - 2) d1) as [|Hge]; [assumption|exfalso].
    assert (Hle : d1 + j <= (dM - 1) + (d2 - 1)) by lia.
    assert (2 ^ d1 * 2 ^ j <= 2 ^ (dM - 1) * 2 ^ (d2 - 1)).
    { rewrite <- !Z.pow_add_r by lia. apply Z.pow_le_mono_r; lia. }
    assert (Zpos n * 2 ^ j < 2 ^ d1 * 2 ^ j) by (apply Z.mul_lt_mono_pos_r; lia).
    assert (2 ^ (dM - 1) * 2 ^ (d2 - 1) <= M * Zpos d)
      by (apply Z.mul_le_mono_nonneg; lia).
    lia. }
  set (s := 53 - d1 + d2).
  assert (Hsj : j <= s) by (unfold s; lia).
  unfold SFdiv_core_binary. fold d1 d2. unfold fexp, emin, prec, emax.
  replace (Z.min (Z.max (d1 + 0 - (d2 + 0) - 53) (3 - 1024 - 53)) (0 - 0))
    with (- s) by (unfold s; lia).
  replace (0 - 0 - - s) with s by lia.
  assert (Hm' : match s with
                | 0 => Zpos n
                | Zpos _ => Z.shiftl (Zpos n) s
                | Zneg _ => 0
                end = Zpos n * 2 ^ s).
  { destruct s as [|ps|ps] eqn:Es; [simpl; lia| |lia].
    now rewrite Z.shiftl_mul_pow2 by lia. }
  rewrite Hm'.
  assert (Hsplit : 2 ^ s = 2 ^ j * 2 ^ (s - j)).
  { rewrite <- Z.pow_add_r by lia. f_equal. lia. }
  assert (Hquot : Zpos n * 2 ^ s = M * 2 ^ (s - j) * Zpos d).
  { rewrite Hsplit, Z.mul_assoc, Heq. ring. }
  rewrite (div_eucl_exact (Zpos n * 2 ^ s) (Zpos d) (M * 2 ^ (s - j))
             (Pos2Z.is_pos d) Hquot).
  rewrite new_location_zero.
  set (jj := s - j - (53 - dM)).
  assert (Hjj : 0 <= jj) by (unfold jj, s; lia).
  assert (HMq : M * 2 ^ (s - j) = Zpos MM * 2 ^ jj).
  { rewrite HMM, <- Z.mul_assoc, <- Z.pow_add_r by lia. do 2 f_equal. unfold jj. lia. }
  assert (Hpos : 0 < M * 2 ^ (s - j)).
  { apply Z.mul_pos_pos; [lia|apply pow2_pos; lia]. }
  destruct (M * 2 ^ (s - j)) as [|mq|mq] eqn:Emq; try lia.
  replace (dM - 53 - j) with (- s + jj) by (unfold jj; lia).
  apply round_exact; [exact Hjj|exact HMq|exact HMMr|unfold jj, s; lia].
Qed.

(** Scaling a binary fraction by an integer. *)
Lemma mul_dyadic K j c :
  0 < K -> 0 < c -> K * c < 2 ^ 53 -> 0 <= j <= 900 ->
  f64_mul (f64_dyadic K j) (f64_exact c) = f64_dyadic (K * c) j.
Proof.
  intros HK Hc Hb Hj.
  assert (HKc : 0 < K * c) by (apply Z.mul_pos_pos; lia).
  assert (HK' : 0 < K < 2 ^ 53).
  { split; [lia|]. assert (K * 1 <= K * c) by (apply Z.mul_le_mono_nonneg_l; lia). lia. }
  assert (Hc' : 0 < c < 2 ^ 53).
  { split; [lia|]. assert (1 * c <= K * c) by (apply Z.mul_le_mono_nonneg_r; lia). lia. }
  destruct (exact_mantissa K HK') as (HMa & HMar & Hda).
  destruct (exact_mantissa c Hc') as (HMb & HMbr & Hdb).
  destruct (exact_mantissa (K * c) (conj HKc Hb)) as (HMab & HMabr & Hdab).
  rewrite (f64_dyadic_pos K j), (f64_dyadic_pos (K * c) j), (f64_exact_pos c) by lia.
  pose proof (Z.log2_mul_below K c HK Hc) as Hlog.
  set (da := Z.log2 K + 1) in *. set (db := Z.log2 c + 1) in *.
  set (dab := Z.log2 (K * c) + 1) in *.
  set (Ma := Z.to_pos (K * 2 ^ (53 - da))) in *.
  set (Mb := Z.to_pos (c * 2 ^ (53 - db))) in *.
  set (Mab := Z.to_pos (K * c * 2 ^ (53 - dab))) in *.
  assert (Hdd : da + db - 2 < dab) by (unfold da, db, dab; lia).
  unfold f64_mul, SFmul. cbn [xorb].
  replace (dab - 53 - j) with (da - 53 - j + (db - 53) + (53 + dab - da - db)) by lia.
  apply round_exact.
  - lia.
  - rewrite Pos2Z.inj_mul, HMa, HMb, HMab.
    replace (K * 2 ^ (53 - da) * (c * 2 ^ (53 - db)))
      with (K * c * (2 ^ (53 - da) * 2 ^ (53 - db))) by ring.
    rewrite <- !Z.mul_assoc, <- !Z.pow_add_r by lia.
    do 3 f_equal. lia.
  - exact HMabr.
  - lia.
Qed.

(** The integer part of a binary fraction. *)
Lemma trunc_dyadic X j :
  0 < X < 2 ^ 53 -> 0 <= j ->
  f64_trunc (f64_dyadic X j) = Some (X / 2 ^ j).
Proof.
  intros HX Hj.
  destruct (exact_mantissa X HX) as (HM & HMr & Hd).
  rewrite (f64_dyadic_pos X j) by lia.
  set (d := Z.log2 X + 1) in *. set (M := Z.to_pos (X * 2 ^ (53 - d))) in *.
  assert (HJ : 0 < 2 ^ j) by (apply pow2_pos; lia).
  assert (HP : 0 < 2 ^ (53 - d)) by (apply pow2_pos; lia).
  pose proof (Z.mul_div_le X (2 ^ j) HJ) as Hfl.
  pose proof (Z.mul_succ_div_gt X (2 ^ j) HJ) as Hcl.
  apply f64_trunc_finite; [lia|].
  replace (- (d - 53 - j)) with (j + (53 - d)) by lia.
  rewrite Z.pow_add_r, HM by lia.
  split.
  - rewrite Z.mul_assoc. apply Z.mul_le_mono_nonneg_r; lia.
  - rewrite Z.mul_assoc. apply Z.mul_lt_mono_pos_r; lia.
Qed.

(** A binary fraction before an alias that the standard parser does
    not know is scaled without error: the result is the product
    rounded down. *)
Lemma fallback_point_dyadic ds fd u factor M j :
  all_chars is_digit ds = true -> ds <> "" ->
  all_chars is_digit fd = true ->
  alias_factor (strings_ToLower u) = Some factor ->
  unitMap u = None ->
  0 <= j <= 900 ->
  decimal (ds ++ fd) * 2 ^ j = M * 10 ^ Z.of_nat (String.length fd) ->
  M * factor < 2 ^ 53 ->
  ParseDuration (ds ++ String "." (fd ++ u)) = (M * factor / 2 ^ j, None).
Proof.
  intros Hds Hne Hfd Ha Hunit Hj Heq Hb.
  set (k := Z.of_nat (String.length fd)) in *.
  set (N := decimal (ds ++ fd)) in *.
  pose proof (pow10_pos k ltac:(unfold k; lia)) as HD.
  assert (HJ : 0 < 2 ^ j) by (apply pow2_pos; lia).
  assert (HN0 : 0 <= N).
  { unfold N. apply decimal_nonneg. now rewrite all_chars_app, Hds, Hfd. }
  pose proof (alias_inv _ _ Ha) as Hin.
  assert (Hf : 1 <= factor <= 86400000000000).
  { cbn [In] in Hin.
    repeat (destruct Hin as [Hin|Hin]; [injection Hin as _ <-; lia|]). destruct Hin. }
  assert (Hread : read_decimal (ds ++ String "." fd) false false 0 0
                  = Some (N, String.length fd))
    by now apply read_decimal_point.
  destruct (Z.eq_dec N 0) as [E0|Hnz].
  - assert (HM0 : M = 0).
    { rewrite E0, Z.mul_0_l in Heq. symmetry in Heq.
      apply Z.mul_eq_0 in Heq. lia. }
    assert (Hpf : strconv_ParseFloat (ds ++ String "." fd) = inl (S754_zero false)).
    { unfold strconv_ParseFloat. rewrite Hread, E0. reflexivity. }
    rewrite (ParseDuration_point_alias ds fd u factor Ha Hunit _ Hpf).
    rewrite HM0, Z.mul_0_l, Z.div_0_l by lia.
    f_equal. cbn [In] in Hin.
    repeat (destruct Hin as [Hin|Hin]; [injection Hin as _ <-; reflexivity|]).
    destruct Hin.
  - assert (HMpos : 0 < M).
    { destruct (Z.lt_trichotomy M 0) as [H|[H|H]]; [|subst M; lia|exact H].
      assert (M * 10 ^ k <= 0 * 10 ^ k) by (apply Z.mul_le_mono_nonneg_r; lia).
      assert (0 < N * 2 ^ j) by (apply Z.mul_pos_pos; lia). lia. }
    assert (HM53 : M < 2 ^ 53).
    { assert (M * 1 <= M * factor) by (apply Z.mul_le_mono_nonneg_l; lia). lia. }
    assert (Hpf : strconv_ParseFloat (ds ++ String "." fd) = inl (f64_dyadic M j)).
    { unfold strconv_ParseFloat. rewrite Hread. fold k.
      rewrite (ratio_dyadic N (10 ^ k) M j) by (try assumption; lia).
      now rewrite (f64_dyadic_pos M j HMpos). }
    rewrite (ParseDuration_point_alias ds fd u factor Ha Hunit _ Hpf).
    assert (HX : 0 < M * factor < 2 ^ 53)
      by (split; [apply Z.mul_pos_pos; lia|exact Hb]).
    assert (Hr : 0 <= M * factor / 2 ^ j < 2 ^ 62).
    { split; [apply Z.div_pos; lia|].
      apply Z.div_lt_upper_bound; [lia|].
      change (2 ^ 53) with 9007199254740992 in HX.
      change (2 ^ 62) with 4611686018427387904.
      assert (1 * 4611686018427387904 <= 2 ^ j * 4611686018427387904)
        by (apply Z.mul_le_mono_nonneg_r; lia).
      lia. }
    destruct (Z.eqb_spec factor 86400000000000) as [Eday|Hnd].
    + subst factor.
      assert (H24 : M * 24 < 2 ^ 53).
      { assert (M * 24 <= M * 86400000000000)
          by (apply Z.mul_le_mono_nonneg_l; lia). lia. }
      rewrite (mul_dyadic M j 24) by (try assumption; lia).
      rewrite (mul_dyadic (M * 24) j 3600000000000)
        by (try assumption; try lia;
            replace (M * 24 * 3600000000000) with (M * 86400000000000) by ring;
            assumption).
      replace (M * 24 * 3600000000000) with (M * 86400000000000) by ring.
      destruct (of_trunc _ _ (trunc_dyadic _ j HX ltac:(lia)) Hr) as [-> _].
      reflexivity.
    + rewrite (mul_dyadic M j factor) by (try assumption; lia).
      destruct (of_trunc _ _ (trunc_dyadic _ j HX ltac:(lia)) Hr) as [-> _].
      reflexivity.
Qed.

(* ----------------------------------------------------------------- *)
(** ** The command line *)

Lemma dashes_inv d : is_dashes d = true -> d = "-" \/ d = "--".
Proof.
  unfold is_dashes, in_list, existsb.
  destruct (String.eqb_spec d "-"); [now left|].
  destruct (String.eqb_spec d "--"); [now right|discriminate].
Qed.

Lemma in_pair_inv n a b : in_list n [a; b] = true -> n = a \/ n = b.
Proof.
  unfold in_list, existsb.
  destruct (String.eqb_spec n a); [now left|].
  destruct (String.eqb_spec n b); [now right|discriminate].
Qed.

(** [flag.Parse] on the arguments of one setting. *)
Lemma flag_Parse_setting s more testFlag inputFlag :
  well_written s = true ->
  flag_Parse (arguments s ++ more) testFlag inputFlag
  = flag_Parse more (fst (apply_setting (testFlag, inputFlag) s))
      (snd (apply_setting (testFlag, inputFlag) s)).
Proof.
  destruct s as [d n [v|]|d n joined path]; cbn [well_written]; intros Hw.
  - apply andb_true_iff in Hw as [Hw Hv]. apply andb_true_iff in Hw as [Hd Hn].
    destruct (strconv_ParseBool v) as [b|] eqn:Eb; [|discriminate].
    destruct (dashes_inv d Hd) as [-> | ->];
      destruct (in_pair_inv n _ _ Hn) as [-> | ->];
      cbn; rewrite Eb; reflexivity.
  - apply andb_true_iff in Hw as [Hd Hn].
    destruct (dashes_inv d Hd) as [-> | ->];
      destruct (in_pair_inv n _ _ Hn) as [-> | ->]; reflexivity.
  - apply andb_true_iff in Hw as [Hd Hn].
    destruct (dashes_inv d Hd) as [-> | ->];
      destruct (in_pair_inv n _ _ Hn) as [-> | ->];
      destruct joined; reflexivity.
Qed.

(** [flag.Parse] on the arguments of a sequence of settings: the last
    setting of each flag is the one that counts. *)
Lemma flag_Parse_settings settings :
  forall more testFlag inputFlag,
    forallb well_written settings = true ->
    flag_Parse (flat_map arguments settings ++ more) testFlag inputFlag
    = flag_Parse more
        (fst (fold_left apply_setting settings (testFlag, inputFlag)))
        (snd (fold_left apply_setting settings (testFlag, inputFlag))).
Proof.
  induction settings as [|s settings IH]; intros more t i Hw; [reflexivity|].
  cbn [forallb] in Hw. apply andb_true_iff in Hw as [Hs Hw].
  cbn [flat_map fold_left]. rewrite <- app_assoc.
  rewrite (flag_Parse_setting s _ t i Hs), (IH _ _ _ Hw).
  now destruct (apply_setting (t, i) s).
Qed.

Lemma flag_Parse_ends rest testFlag inputFlag :
  ends_flags rest = true ->
  flag_Parse rest testFlag inputFlag = Parsed testFlag inputFlag.
Proof.
  destruct rest as [|x rest]; [reflexivity|]. cbn [ends_flags].
  destruct x as [|c0 [|c1 t1]]; [reflexivity|reflexivity|].
  destruct (String.eqb_spec (String c0 (String c1 t1)) "--") as [E|_].
  - intros _. now rewrite E.
  - cbn [orb String.length Nat.ltb Nat.leb starts_with]. intros H.
    cbn [flag_Parse]. now rewrite H.
Qed.

Lemma cut_equals_letters name :
  all_chars is_letter name = true -> cut_equals name = (name, None).
Proof.
  induction name as [|c name IH]; [reflexivity|].
  cbn [all_chars cut_equals]. intros H. apply andb_true_iff in H as [Hc Hn].
  rewrite (IH Hn).
  assert (E : (byte c =? 61) = false).
  { clear - Hc. byte_cases c; vm_compute in Hc; try discriminate Hc; reflexivity. }
  now rewrite E.
Qed.

Lemma letter_no_dash c :
  is_letter c = true -> (byte c =? 45) = false /\ (byte c =? 61) = false.
Proof.
  intros Hc. byte_cases c; vm_compute in Hc; try discriminate Hc; split; reflexivity.
Qed.

(** [flag.Parse] on a flag written with letters. *)
Lemma flag_Parse_letters d name rest testFlag inputFlag :
  is_dashes d = true ->
  all_chars is_letter name = true -> name <> "" ->
  flag_Parse ((d ++ name) :: rest) testFlag inputFlag
  = if in_list name ["t"; "test"] then flag_Parse rest true inputFlag
    else if in_list name ["i"; "input"] then
      match rest with
      | v :: rest' => flag_Parse rest' testFlag v
      | [] => ParseFailed (NeedsArgument name)
      end
    else if in_list name ["help"; "h"] then HelpWanted
    else ParseFailed (NotDefined name).
Proof.
  intros Hd Hl Hne.
  destruct name as [|n0 name']; [congruence|].
  cbn [all_chars] in Hl. apply andb_true_iff in Hl as [Hn0 Hl].
  destruct (letter_no_dash n0 Hn0) as [E45 E61].
  assert (Hnv : name_value (String n0 name') = (String n0 name', None)).
  { cbn [name_value]. now rewrite (cut_equals_letters name' Hl). }
  destruct (dashes_inv d Hd) as [-> | ->].
  - change ("-" ++ String n0 name') with (String "-" (String n0 name')).
    cbn [flag_Parse]. change (byte "-" =? 45) with true. cbn [negb].
    rewrite E45. cbn [andb]. rewrite E45, E61. cbn [orb]. now rewrite Hnv.
  - change ("--" ++ String n0 name') with (String "-" (String "-" (String n0 name'))).
    cbn [flag_Parse]. change (byte "-" =? 45) with true. cbn [negb andb String.eqb].
    rewrite E45, E61. cbn [orb]. now rewrite Hnv.
Qed.

(* ================================================================= *)
(** ** A number followed by a unit *)

(** C2, as the code has it.  A decimal number followed by an alias of
    the table spelled in ASCII letters, in any letter case, parses to a
    duration near the number times the alias's factor; the product is
    computed in integers by the standard parser (before the lower-case
    units it knows) and in float64 by the program (before any other
    spelling), so that how near depends on the number and the spelling.

    - A whole number gives the product itself when the product is below
      2^53, and before a unit in the spelling of [time.ParseDuration]
      (among them the micro sign and the letter mu before a small s) up
      to the largest int64.
    - A number with a fraction of at most fifteen digits gives a
      duration [r] with [n * factor - 2 < r < n * factor + 1] when the
      product is below 2^50: the product or one nanosecond less when
      the product is whole.
    - Before a unit of the standard parser the result is the product
      itself when the unit is a multiple of [10^k] nanoseconds, [k]
      being the number of digits of the fraction.
    - Before any other spelling the result is the float64 product of
      the float nearest to the number and the factor (for days: of that
      float, 24 and the nanoseconds of an hour), cut to an integer; it
      is the product rounded down when the number is a binary fraction
      [M / 2^j] with [M * factor] below 2^53.
    - A number that [strconv.ParseFloat] accepts followed by letters
      that are no alias fails with the unknown-time-unit error.

    The examples of the specification hold; "16.4sec" is one nanosecond
    short and "16.4s" is not. *)
Theorem C2_alias_scaling :
  (forall (ds u : string) (factor : Z),
      all_chars is_digit ds = true -> ds <> "" ->
      alias_factor (strings_ToLower u) = Some factor ->
      decimal ds * factor < 2 ^ 53 ->
      ParseDuration (ds ++ u) = (decimal ds * factor, None))
  /\ (forall (ds u : string) (unit : Z),
         all_chars is_digit ds = true -> ds <> "" ->
         In (u, unit) standard_units ->
         decimal ds * unit <= MaxInt64 ->
         ParseDuration (ds ++ u) = (decimal ds * unit, None))
  /\ (forall (ds fd u : string) (factor : Z),
         all_chars is_digit ds = true -> ds <> "" ->
         all_chars is_digit fd = true -> fd <> "" ->
         (String.length fd <= 15)%nat ->
         alias_factor (strings_ToLower u) = Some factor ->
         decimal (ds ++ fd) * factor < 2 ^ 50 * 10 ^ Z.of_nat (String.length fd) ->
         exists r,
           ParseDuration (ds ++ "." ++ fd ++ u) = (r, None)
           /\ decimal (ds ++ fd) * factor - 2 * 10 ^ Z.of_nat (String.length fd)
              < r * 10 ^ Z.of_nat (String.length fd)
              < decimal (ds ++ fd) * factor + 10 ^ Z.of_nat (String.length fd))
  /\ (forall (ds fd u : string) (unit : Z),
         all_chars is_digit ds = true -> ds <> "" ->
         all_chars is_digit fd = true -> fd <> "" ->
         In (u, unit) standard_units ->
         unit mod 10 ^ Z.of_nat (String.length fd) = 0 ->
         decimal ds * unit
         + decimal fd * (unit / 10 ^ Z.of_nat (String.length fd)) <= MaxInt64 ->
         ParseDuration (ds ++ "." ++ fd ++ u)
         = (decimal ds * unit
            + decimal fd * (unit / 10 ^ Z.of_nat (String.length fd)), None))
  /\ (forall (num u : string) (value : float64) (factor : Z),
         strconv_ParseFloat num = inl value ->
         alias_factor (strings_ToLower u) = Some factor ->
         unitMap u = None ->
         ParseDuration (num ++ u)
         = (int64_of_f64
              (if factor =? 24 * Hour
               then f64_mul (f64_mul value (f64_of_Z 24)) (f64_of_Z Hour)
               else f64_mul value (f64_of_Z factor)), None))
  /\ (forall (ds fd u : string) (factor M j : Z),
         all_chars is_digit ds = true -> ds <> "" ->
         all_chars is_digit fd = true ->
         alias_factor (strings_ToLower u) = Some factor ->
         unitMap u = None ->
         0 <= j <= 900 ->
         decimal (ds ++ fd) * 2 ^ j = M * 10 ^ Z.of_nat (String.length fd) ->
         M * factor < 2 ^ 53 ->
         ParseDuration (ds ++ "." ++ fd ++ u) = (M * factor / 2 ^ j, None))
  /\ (forall (num u : string) (value : float64),
         strconv_ParseFloat num = inl value ->
         all_chars is_letter u = true -> u <> "" ->
         alias_factor (strings_ToLower u) = None ->
         ParseDuration (num ++ u)
           = (0, Some (UnknownTimeUnit (strings_ToLower u))))
  /\ (ParseDuration "500ms" = (500 * Millisecond, None)
      /\ ParseDuration "3.5d" = (84 * Hour, None)
      /\ ParseDuration "42.9s" = (42900 * Millisecond, None)
      /\ ParseDuration "2H" = (2 * Hour, None)
      /\ ParseDuration "2h" = (2 * Hour, None)
      /\ ParseDuration "2Hour" = (2 * Hour, None)
      /\ ParseDuration "16.4sec" = (16399999999, None)
      /\ ParseDuration "16.4s" = (16400000000, None)).
Proof.
  split; [|split; [|split; [|split; [|split; [|split; [|split]]]]]].
  - exact ParseDuration_alias.
  - intros ds u unit Hds Hne Hin Hb.
    assert (Hunit : unitMap u = Some unit).
    { cbn [standard_units In] in Hin.
      repeat (destruct Hin as [Hin|Hin]; [injection Hin as <- <-; reflexivity|]).
      destruct Hin. }
    unfold ParseDuration.
    now rewrite (time_ParseDuration_whole ds u unit Hds Hne Hunit Hb).
  - intros ds fd u factor Hds Hne Hfd Hfne Hlen Ha Hb.
    destruct (ParseDuration_point_bound ds fd u factor Hds Hne Hfd Hfne Hlen Ha Hb)
      as (r & Hr & _ & Hhi & Hlo).
    exists r. split; [exact Hr|lia].
  - intros ds fd u unit Hds Hne Hfd Hfne Hin Hmod Hb.
    assert (Hunit : unitMap u = Some unit).
    { cbn [standard_units In] in Hin.
      repeat (destruct Hin as [Hin|Hin]; [injection Hin as <- <-; reflexivity|]).
      destruct Hin. }
    exact (ParseDuration_point_divides ds fd u unit Hds Hne Hfd Hfne Hunit Hmod Hb).
  - intros num u value factor Hpf Ha Hunit.
    rewrite (ParseDuration_float_alias num u factor value Hpf Ha Hunit).
    apply alias_inv in Ha. cbn [In] in Ha.
    repeat (destruct Ha as [Ha|Ha]; [injection Ha as _ <-; reflexivity|]).
    destruct Ha.
  - intros ds fd u factor M j. exact (fallback_point_dyadic ds fd u factor M j).
  - intros num u value Hpf Hu Hune Ha.
    pose proof (ParseFloat_syntax num value Hpf) as Hg.
    pose proof (GroupNumber_numch num Hg) as Hnum.
    assert (Hne : num <> "") by (destruct Hg as (i & fr & _ & _ & _ & H & _); exact H).
    assert (Hnz : num ++ u <> "0").
    { destruct num as [|c [|c' n]]; [congruence| |discriminate].
      destruct u; [congruence|discriminate]. }
    rewrite (ParseDuration_number_letters num u Hnum Hne Hu
               (unknown_alias_no_unit u Hu Ha) Hnz).
    unfold parseNonStandard.
    rewrite (re_match_number_unit num u Hnum Hne Hu Hune), Hpf.
    now rewrite (unit_duration_known _ value (ToLower_of_letters u Hu) Ha).
  - conjuncts; vm_compute; reflexivity.
Qed.

Lemma C2_witness :
  ParseDuration ("90" ++ "Minutes") = (decimal "90" * (60 * 1000000000), None)
  /\ ParseDuration ("7" ++ micro_s) = (decimal "7" * 1000, None)
  /\ (exists r,
        ParseDuration ("16" ++ "." ++ "4" ++ "sec") = (r, None)
        /\ decimal ("16" ++ "4") * 1000000000
           - 2 * 10 ^ Z.of_nat (String.length "4")
           < r * 10 ^ Z.of_nat (String.length "4")
           < decimal ("16" ++ "4") * 1000000000
             + 10 ^ Z.of_nat (String.length "4"))
  /\ ParseDuration ("0" ++ "." ++ "25" ++ "h")
     = (decimal "0" * Hour
        + decimal "25" * (Hour / 10 ^ Z.of_nat (String.length "25")), None)
  /\ ParseDuration ("1.001" ++ "US")
     = (int64_of_f64
          (if 1000 =? 24 * Hour
           then f64_mul (f64_mul (f64_of_ratio 1001 1000) (f64_of_Z 24))
                  (f64_of_Z Hour)
           else f64_mul (f64_of_ratio 1001 1000) (f64_of_Z 1000)), None)
  /\ ParseDuration ("3" ++ "." ++ "5" ++ "d") = (7 * 86400000000000 / 2 ^ 1, None)
  /\ ParseDuration ("1.5" ++ "fortnights")
     = (0, Some (UnknownTimeUnit (strings_ToLower "fortnights"))).
Proof.
  destruct C2_alias_scaling
    as (Halias & Hstd & Hnear & Hdiv & Hfloat & Hbin & Hunknown & _).
  split; [|split; [|split; [|split; [|split; [|split]]]]].
  - apply Halias; [reflexivity|discriminate|reflexivity|vm_compute; reflexivity].
  - apply Hstd; [reflexivity|discriminate| |vm_compute; discriminate].
    cbn. right. right. left. reflexivity.
  - apply (Hnear "16" "4" "sec" 1000000000);
      [reflexivity|discriminate|reflexivity|discriminate|cbn; lia|reflexivity
      |vm_compute; reflexivity].
  - apply (Hdiv "0" "25" "h" Hour);
      [reflexivity|discriminate|reflexivity|discriminate| |reflexivity
      |vm_compute; discriminate].
    cbn. do 7 right. left. reflexivity.
  - apply (Hfloat "1.001" "US" (f64_of_ratio 1001 1000) 1000);
      [vm_compute; reflexivity|reflexivity|reflexivity].
  - apply (Hbin "3" "5" "d" 86400000000000 7 1);
      [reflexivity|discriminate|reflexivity|reflexivity|reflexivity|lia
      |reflexivity|vm_compute; reflexivity].
  - apply (Hunknown "1.5" "fortnights" (f64_of_ratio 15 10));
      [vm_compute; reflexivity|reflexivity|discriminate|reflexivity].
Defined.

(** C2 as stated fails.  A fraction is scaled in float64 and truncated:
    "1.001US" gives 1000 nanoseconds although 1.001 times 1000 is 1001
    (and "1.001us" does give 1001).  A whole number beyond 2^53 is
    rounded first: 9007199254740993 nanoseconds lose one.  The micro
    sign is known in lower case only, and the label of the switch that
    spells it in four bytes can never be reached. *)
Lemma C2_inexact_scaling :
  ParseDuration "1.001US" = (1000, None)
  /\ ParseDuration "1.001US" <> (1001, None)
  /\ ParseDuration "1.001us" = (1001, None)
  /\ ParseDuration "9007199254740993NS" = (9007199254740992, None)
  /\ ParseDuration "9007199254740993NS" <> (9007199254740993 * Nanosecond, None)
  /\ ParseDuration ("5" ++ micro_capital_s)
     = (0, Some (UnsupportedFormat ("5" ++ micro_capital_s)))
  /\ ParseDuration ("5" ++ misencoded_micro_s)
     = (0, Some (UnsupportedFormat ("5" ++ misencoded_micro_s))).
Proof.
  assert (H1 : ParseDuration "1.001US" = (1000, None))
    by (vm_compute; reflexivity).
  assert (H2 : ParseDuration "9007199254740993NS" = (9007199254740992, None))
    by (vm_compute; reflexivity).
  conjuncts; try assumption; try (vm_compute; reflexivity).
  - rewrite H1. discriminate.
  - rewrite H2. discriminate.
Qed.

(* ================================================================= *)
(** * Further properties of the parser *)

(** X1. [ParseDuration] depends on its argument through the fields
    only: two strings with the same fields give the same result, so
    the amount and the kind of white space between, before and after
    the fields is of no account; in particular a string with one field
    parses as that field. *)
Theorem X1_only_the_fields_count :
  (forall s t : string,
      strings_Fields s = strings_Fields t -> ParseDuration s = ParseDuration t)
  /\ (forall s p : string,
         strings_Fields s = [p] -> ParseDuration s = ParseDuration p).
Proof. split; [exact ParseDuration_same_fields|exact ParseDuration_single_field]. Qed.

Lemma X1_witness :
  ParseDuration "1h   30m" = ParseDuration (String tab "1h 30m ")
  /\ ParseDuration "  42.9Sec " = ParseDuration "42.9Sec".
Proof.
  split.
  - apply (proj1 X1_only_the_fields_count). vm_compute. reflexivity.
  - apply (proj2 X1_only_the_fields_count). vm_compute. reflexivity.
Defined.

(** X2. The order of the fields is of no account: when a string
    parses, every string with the same fields in another order parses
    to the same duration; when it fails, so does every such string
    (the error may name another field). *)
Theorem X2_field_order_irrelevant :
  forall s t : string,
    Permutation (strings_Fields s) (strings_Fields t) ->
    (forall d, ParseDuration s = (d, None) -> ParseDuration t = (d, None))
    /\ (forall d err, ParseDuration s = (d, Some err) ->
                      exists err', ParseDuration t = (0, Some err')).
Proof.
  intros s t Hperm.
  destruct (ParseDuration_by_parts s) as [[Hs Es]|[Hs [es Es]]];
    destruct (ParseDuration_by_parts t) as [[Ht Et]|[Ht [et Et]]].
  - split; [|intros d err H; congruence].
    intros d H. rewrite Et, <- H, Es. f_equal.
    apply sum64_perm, Permutation_map, Permutation_sym, Hperm.
  - exfalso. apply Ht. exact (Forall_perm _ _ _ Hperm Hs).
  - exfalso. apply Hs. exact (Forall_perm _ _ _ (Permutation_sym Hperm) Ht).
  - split; [intros d H; congruence|]. intros d err _. now exists et.
Qed.

Lemma X2_witness :
  ParseDuration "27s 1h 21m" = (Hour + 21 * Minute + 27 * Second, None).
Proof.
  apply (proj1 (X2_field_order_irrelevant "1h 21m 27s" "27s 1h 21m"
                  ltac:(vm_compute; apply Permutation_sym, (Permutation_cons_app ["1h"; "21m"] []), Permutation_refl))).
  vm_compute. reflexivity.
Defined.

(** X3. A string with no field (empty, or white space only) is a zero
    duration with no error; hence a data line whose duration field is
    blank adds nothing and prints no warning: the file with the line
    and the file without it give the same result. *)
Theorem X3_blank_is_zero :
  (forall s : string, strings_Fields s = [] -> ParseDuration s = (0, None))
  /\ (forall (fl fl' : file) (header row durationStr : string)
             (lines1 lines2 : list string) (scanErr : option scan_error),
         scan_file fl = (header :: lines1 ++ row :: lines2, scanErr)%list ->
         scan_file fl' = (header :: lines1 ++ lines2, scanErr)%list ->
         duration_field (find_duration (strings_Split header tab) 0) row
         = Some durationStr ->
         strings_Fields durationStr = [] ->
         calculateTotalDuration (Some fl) = calculateTotalDuration (Some fl')).
Proof.
  assert (Hblank : forall s, strings_Fields s = [] -> ParseDuration s = (0, None)).
  { intros s Hf. unfold ParseDuration.
    destruct (time_ParseDuration s) as [d [e|]] eqn:Hs.
    - now rewrite Hf.
    - pose proof (time_ParseDuration_one_field s d Hs). congruence. }
  split; [exact Hblank|].
  intros fl fl' header row durationStr lines1 lines2 scanErr Hscan Hscan' Hfield Hf.
  unfold calculateTotalDuration. rewrite Hscan, Hscan'.
  set (durationIdx := find_duration (strings_Split header tab) 0) in *.
  destruct (durationIdx =? -1); [reflexivity|].
  rewrite !processLines_spec, !parsed_durations_app, !failed_fields_app.
  cbn [parsed_durations failed_fields]. rewrite Hfield, (Hblank _ Hf).
  fold (sum64 (parsed_durations durationIdx lines1
               ++ 0 :: parsed_durations durationIdx lines2)).
  fold (sum64 (parsed_durations durationIdx lines1
               ++ parsed_durations durationIdx lines2)).
  rewrite !sum64_wrap, !zsum_app. reflexivity.
Qed.

Lemma X3_witness :
  ParseDuration (String tab (String " " (String carriage_return ""))) = (0, None)
  /\ calculateTotalDuration
       (Some {| data := tsv_line ["id"; "duration"; "status"]
                        ++ tsv_line ["a"; "1h"; "ok"]
                        ++ tsv_line ["pending"; "  "; "-"]
                        ++ tsv_line ["b"; "30m"; "ok"];
                read_fails := false |})
     = calculateTotalDuration (Some {| data := example_trace; read_fails := false |}).
Proof.
  split.
  - apply (proj1 X3_blank_is_zero). vm_compute. reflexivity.
  - exact (proj2 X3_blank_is_zero
             {| data := tsv_line ["id"; "duration"; "status"]
                        ++ tsv_line ["a"; "1h"; "ok"]
                        ++ tsv_line ["pending"; "  "; "-"]
                        ++ tsv_line ["b"; "30m"; "ok"];
                read_fails := false |}
             {| data := example_trace; read_fails := false |}
             (String.concat (String tab EmptyString) ["id"; "duration"; "status"])
             (String.concat (String tab EmptyString) ["pending"; "  "; "-"])
             "  "
             [String.concat (String tab EmptyString) ["a"; "1h"; "ok"]]
             [String.concat (String tab EmptyString) ["b"; "30m"; "ok"]]
             None eq_refl eq_refl eq_refl eq_refl).
Defined.

(** X4. A sign is read by the standard parser only.  Before a string
    the standard parser accepts, a minus sign negates the duration and
    a plus sign changes nothing; before a number followed by letters
    that are no unit of the standard parser (the longer aliases of the
    table among them) a sign makes the token an unsupported format. *)
Theorem X4_sign_only_in_standard_syntax :
  (forall (s : string) (d : Z),
      starts_with is_numch s = true ->
      time_ParseDuration s = (d, None) ->
      ParseDuration (String "-" s) = (- d, None)
      /\ ParseDuration (String "+" s) = (d, None))
  /\ (forall (c : ascii) (num u : string),
         c = "-"%char \/ c = "+"%char ->
         all_chars is_numch num = true ->
         all_chars is_letter u = true -> u <> "" ->
         unitMap u = None ->
         ParseDuration (String c (num ++ u))
         = (0, Some (UnsupportedFormat (String c (num ++ u))))).
Proof.
  split.
  - intros s d Hs Ht.
    destruct (time_ParseDuration_unsigned s d Hs Ht) as (_ & Hm & Hp).
    split; now apply ParseDuration_standard.
  - intros c num u Hc Hnum Hu Hune Hunit.
    assert (Hplain : plain_byte c = true) by (destruct Hc as [-> | ->]; reflexivity).
    assert (Hfree : SpaceFree (String c (num ++ u))).
    { apply SpaceFree_plain; [exact Hplain|]. now apply numch_letters_SpaceFree. }
    assert (Hne : num ++ u <> "").
    { destruct num; [exact Hune|discriminate]. }
    assert (Hz : String.eqb (num ++ u) "0" = false).
    { apply String.eqb_neq. intros E.
      destruct num as [|a [|b n]]; cbn in E.
      - subst u. discriminate.
      - injection E as -> E. destruct u; [congruence|discriminate].
      - discriminate. }
    assert (Ht : exists e, time_ParseDuration (String c (num ++ u)) = (0, Some e)).
    { unfold time_ParseDuration.
      assert (Hstrip : exists neg, strip_sign (String c (num ++ u)) = (neg, num ++ u)).
      { destruct Hc as [-> | ->]; eexists; reflexivity. }
      destruct Hstrip as [neg ->]. rewrite Hz.
      destruct (String.eqb_spec (num ++ u) ""); [contradiction|].
      destruct (parse_groups_unknown (S (String.length (num ++ u))) num u 0
                  Hnum Hu Hunit Hne) as [e ->].
      now exists e. }
    destruct Ht as [e Ht].
    rewrite (ParseDuration_one_field _ (SpaceFree_fields _ Hfree ltac:(discriminate))).
    unfold parsePart. rewrite Ht. unfold parseNonStandard, re_FindStringSubmatch.
    assert (Hc' : is_numch c = false) by (destruct Hc as [-> | ->]; reflexivity).
    cbn [span]. rewrite Hc'.
    now destruct (span is_re_space (String c (num ++ u))).
Qed.

Lemma X4_witness :
  (ParseDuration "-1h30m" = (- (90 * Minute), None)
   /\ ParseDuration "+1h30m" = (90 * Minute, None))
  /\ ParseDuration "-5days" = (0, Some (UnsupportedFormat "-5days")).
Proof.
  split.
  - apply (proj1 X4_sign_only_in_standard_syntax "1h30m" (90 * Minute)); reflexivity.
  - apply (proj2 X4_sign_only_in_standard_syntax "-"%char "5" "days");
      [now left|reflexivity|reflexivity|discriminate|reflexivity].
Defined.

(** X16. A fraction before a small standard unit is exact.  A decimal
    number with a fraction of at most [p] digits, followed by a unit
    the standard parser knows as [10^p] nanoseconds (us, the micro sign
    or the letter mu before s, ms, s), parses to the integer part times
    [10^p] plus the fraction digits read as a number of [10^(p - k)]
    nanoseconds, [k] being their count: "42.9s" is 42900000000 and
    "1.001us" is 1001 (where "1.001US", read in float64, is 1000). *)
Theorem X16_standard_fraction_exact :
  forall (ds fd u : string) (p : Z),
    all_chars is_digit ds = true -> ds <> "" ->
    all_chars is_digit fd = true -> fd <> "" ->
    In (u, p) [("us", 3); (micro_s, 3); (mu_s, 3); ("ms", 6); ("s", 9)] ->
    Z.of_nat (String.length fd) <= p ->
    decimal ds * 10 ^ p + decimal fd * 10 ^ (p - Z.of_nat (String.length fd))
    <= MaxInt64 ->
    ParseDuration (ds ++ String "." (fd ++ u))
    = (decimal ds * 10 ^ p + decimal fd * 10 ^ (p - Z.of_nat (String.length fd)),
       None).
Proof.
  intros ds fd u p Hds Hne Hfd Hfne Hin Hlen Hb.
  apply ParseDuration_standard, time_ParseDuration_fraction; auto.
  - cbn [In] in Hin.
    repeat (destruct Hin as [Hin|Hin]; [injection Hin as <- <-; tauto|]). destruct Hin.
  - cbn [In] in Hin.
    repeat (destruct Hin as [Hin|Hin]; [injection Hin as <- <-; reflexivity|]).
    destruct Hin.
Qed.

Lemma X16_witness :
  ParseDuration ("42" ++ String "." ("9" ++ "s"))
  = (decimal "42" * 10 ^ 9 + decimal "9" * 10 ^ (9 - Z.of_nat (String.length "9")),
     None)
  /\ ParseDuration ("1" ++ String "." ("001" ++ micro_s))
     = (decimal "1" * 10 ^ 3 + decimal "001" * 10 ^ (3 - Z.of_nat (String.length "001")),
        None).
Proof.
  split.
  - apply (X16_standard_fraction_exact "42" "9" "s" 9);
      [reflexivity|discriminate|reflexivity|discriminate|cbn; tauto
      |vm_compute; discriminate|vm_compute; discriminate].
  - apply (X16_standard_fraction_exact "1" "001" micro_s 3);
      [reflexivity|discriminate|reflexivity|discriminate|cbn; tauto
      |vm_compute; discriminate|vm_compute; discriminate].
Defined.

(* ================================================================= *)
(** * Further properties of the aggregator *)

(** X5. Totals add up: when the data lines of a file are split between
    two files with the same header, the total of the whole file is the
    sum (on int64) of the two totals, and its warnings are those of the
    first part followed by those of the second. *)
Theorem X5_totals_of_parts_add_up :
  forall (fl fl1 fl2 : file) (header : string) (lines1 lines2 : list string),
    scan_file fl = (header :: lines1 ++ lines2, None)%list ->
    scan_file fl1 = (header :: lines1, None) ->
    scan_file fl2 = (header :: lines2, None) ->
    In "duration" (strings_Split header tab) ->
    exists (t1 t2 : Z) (w1 w2 : list warning),
      calculateTotalDuration (Some fl1) = ((t1, None), w1)
      /\ calculateTotalDuration (Some fl2) = ((t2, None), w2)
      /\ calculateTotalDuration (Some fl) = ((add64 t1 t2, None), (w1 ++ w2)%list).
Proof.
  intros fl fl1 fl2 header lines1 lines2 H H1 H2 Hcol.
  pose proof (duration_column_found _ Hcol) as Hidx.
  rewrite (calculateTotalDuration_lines _ _ _ _ H Hidx),
    (calculateTotalDuration_lines _ _ _ _ H1 Hidx),
    (calculateTotalDuration_lines _ _ _ _ H2 Hidx).
  do 4 eexists. split; [reflexivity|]. split; [reflexivity|].
  now rewrite parsed_durations_app, failed_fields_app, sum64_app.
Qed.

Lemma X5_witness :
  exists (t1 t2 : Z) (w1 w2 : list warning),
    calculateTotalDuration
      (Some {| data := tsv_line ["id"; "duration"] ++ tsv_line ["a"; "1h"];
               read_fails := false |})
    = ((t1, None), w1)
    /\ calculateTotalDuration
         (Some {| data := tsv_line ["id"; "duration"] ++ tsv_line ["b"; "soon"]
                          ++ tsv_line ["c"; "30m"];
                  read_fails := false |})
       = ((t2, None), w2)
    /\ calculateTotalDuration
         (Some {| data := tsv_line ["id"; "duration"] ++ tsv_line ["a"; "1h"]
                          ++ tsv_line ["b"; "soon"] ++ tsv_line ["c"; "30m"];
                  read_fails := false |})
       = ((add64 t1 t2, None), (w1 ++ w2)%list).
Proof.
  refine (X5_totals_of_parts_add_up
            {| data := tsv_line ["id"; "duration"] ++ tsv_line ["a"; "1h"]
                       ++ tsv_line ["b"; "soon"] ++ tsv_line ["c"; "30m"];
               read_fails := false |}
            {| data := tsv_line ["id"; "duration"] ++ tsv_line ["a"; "1h"];
               read_fails := false |}
            {| data := tsv_line ["id"; "duration"] ++ tsv_line ["b"; "soon"]
                       ++ tsv_line ["c"; "30m"];
               read_fails := false |}
            (String.concat (String tab EmptyString) ["id"; "duration"])
            [String.concat (String tab EmptyString) ["a"; "1h"]]
            (map (String.concat (String tab EmptyString)) [["b"; "soon"]; ["c"; "30m"]])
            eq_refl eq_refl eq_refl _).
  vm_compute. right. left. reflexivity.
Defined.

(** X6. The order of the data lines is of no account: two files with
    the same header and the same data lines in another order return the
    same total and the same error, and print the same warnings up to
    their order. *)
Theorem X6_row_order_irrelevant :
  forall (fl fl' : file) (header : string) (lines lines' : list string)
         (scanErr : option scan_error),
    scan_file fl = (header :: lines, scanErr) ->
    scan_file fl' = (header :: lines', scanErr) ->
    Permutation lines lines' ->
    fst (calculateTotalDuration (Some fl)) = fst (calculateTotalDuration (Some fl'))
    /\ Permutation (snd (calculateTotalDuration (Some fl)))
         (snd (calculateTotalDuration (Some fl'))).
Proof.
  intros fl fl' header lines lines' scanErr H H' Hperm.
  destruct (Z.eq_dec (find_duration (strings_Split header tab) 0) (-1)) as [E|Hidx].
  - unfold calculateTotalDuration. rewrite H, H', E. cbn. split; [reflexivity|constructor].
  - rewrite (calculateTotalDuration_lines _ _ _ _ H Hidx),
      (calculateTotalDuration_lines _ _ _ _ H' Hidx). cbn [fst snd]. split.
    + destruct scanErr; [reflexivity|].
      now rewrite (sum64_perm _ _ (parsed_durations_perm _ _ _ Hperm)).
    + now apply failed_fields_perm.
Qed.

Lemma X6_witness :
  fst (calculateTotalDuration
         (Some {| data := tsv_line ["id"; "duration"] ++ tsv_line ["a"; "1h"]
                          ++ tsv_line ["b"; "soon"];
                  read_fails := false |}))
  = fst (calculateTotalDuration
           (Some {| data := tsv_line ["id"; "duration"] ++ tsv_line ["b"; "soon"]
                            ++ tsv_line ["a"; "1h"];
                    read_fails := false |}))
  /\ Permutation
       (snd (calculateTotalDuration
               (Some {| data := tsv_line ["id"; "duration"] ++ tsv_line ["a"; "1h"]
                                ++ tsv_line ["b"; "soon"];
                        read_fails := false |})))
       (snd (calculateTotalDuration
               (Some {| data := tsv_line ["id"; "duration"] ++ tsv_line ["b"; "soon"]
                                ++ tsv_line ["a"; "1h"];
                        read_fails := false |}))).
Proof.
  exact (X6_row_order_irrelevant
           {| data := tsv_line ["id"; "duration"] ++ tsv_line ["a"; "1h"]
                      ++ tsv_line ["b"; "soon"];
              read_fails := false |}
           {| data := tsv_line ["id"; "duration"] ++ tsv_line ["b"; "soon"]
                      ++ tsv_line ["a"; "1h"];
              read_fails := false |}
           (String.concat (String tab EmptyString) ["id"; "duration"])
           (map (String.concat (String tab EmptyString)) [["a"; "1h"]; ["b"; "soon"]])
           (map (String.concat (String tab EmptyString)) [["b"; "soon"]; ["a"; "1h"]])
           None eq_refl eq_refl (perm_swap _ _ _)).
Defined.

(** X7. Lines that end with a carriage return and a newline are read
    as lines that end with a newline: for lines that hold no newline,
    do not end with a carriage return themselves and stay below the
    scanner's limit with their carriage return, the two files give the
    same result. *)
Theorem X7_crlf_same_as_lf :
  forall (lines : list string) (rf : bool),
    Forall (fun l => no_newline l = true /\ dropCR l = l
                     /\ slen l + 1 < MaxScanTokenSize) lines ->
    calculateTotalDuration (Some {| data := text_of CRLF lines; read_fails := rf |})
    = calculateTotalDuration (Some {| data := text_of LF lines; read_fails := rf |}).
Proof.
  intros lines rf Hl.
  assert (Hnl : Forall (fun l => no_newline l = true) lines).
  { eapply Forall_impl; [|exact Hl]. now intros l (H & _). }
  assert (Hscan : forall e,
             scan_tokens (raw_lines (text_of CRLF lines)) e
             = scan_tokens (raw_lines (text_of LF lines)) e).
  { intros e. rewrite (raw_lines_CRLF _ Hnl), (raw_lines_LF _ Hnl).
    rewrite !scan_tokens_ok.
    - f_equal. rewrite map_map.
      clear Hnl. induction Hl as [|l lines (_ & Hd & _) _ IH]; [reflexivity|].
      cbn [map]. now rewrite dropCR_added, Hd, IH.
    - eapply Forall_impl; [|exact Hl]. intros l (_ & _ & H). cbv beta. lia.
    - apply Forall_forall. intros x Hx. apply in_map_iff in Hx as (l & <- & Hin).
      destruct (proj1 (Forall_forall _ _) Hl l Hin) as (_ & _ & H).
      rewrite slen_app. change (slen (String carriage_return "")) with 1. lia. }
  unfold calculateTotalDuration, scan_file. cbn [data read_fails].
  now rewrite Hscan.
Qed.

Lemma X7_witness :
  calculateTotalDuration
    (Some {| data := text_of CRLF [String.concat (String tab EmptyString) ["id"; "duration"];
                                   String.concat (String tab EmptyString) ["a"; "1h 30m"]];
             read_fails := false |})
  = calculateTotalDuration
      (Some {| data := text_of LF [String.concat (String tab EmptyString) ["id"; "duration"];
                                   String.concat (String tab EmptyString) ["a"; "1h 30m"]];
               read_fails := false |}).
Proof.
  apply X7_crlf_same_as_lf.
  repeat (constructor; [repeat split; reflexivity|]). constructor.
Defined.

(** X8. The newline that ends the last line may be missing: a file
    whose last byte is no newline and the same file followed by a
    newline give the same result. *)
Theorem X8_final_newline_optional :
  forall (body : string) (c : ascii) (rf : bool),
    c <> newline ->
    calculateTotalDuration
      (Some {| data := body ++ String c LF; read_fails := rf |})
    = calculateTotalDuration
        (Some {| data := body ++ String c ""; read_fails := rf |}).
Proof.
  intros body c rf Hc. unfold calculateTotalDuration, scan_file. cbn [data read_fails].
  now rewrite (raw_lines_final body c Hc).
Qed.

Lemma X8_witness :
  calculateTotalDuration
    (Some {| data := (tsv_line ["id"; "duration"] ++ "a" ++ String tab "1h30")
                     ++ String "m" LF;
             read_fails := false |})
  = calculateTotalDuration
      (Some {| data := (tsv_line ["id"; "duration"] ++ "a" ++ String tab "1h30")
                       ++ String "m" "";
               read_fails := false |}).
Proof. apply X8_final_newline_optional. discriminate. Defined.

(** X9. An error of the scanner discards the total.  When a line of
    65536 bytes or more follows the header, or when a read fails after
    the lines have been delivered, the aggregation returns the scanning
    error with a zero total, whatever the lines read before it hold;
    the warnings of those lines have been printed all the same. *)
Theorem X9_scan_error_discards_total :
  (forall (fl : file) (first long : string) (before after : list string),
      raw_lines (data fl) = (first :: before ++ long :: after)%list ->
      Forall (fun l => slen l < MaxScanTokenSize) (first :: before) ->
      MaxScanTokenSize <= slen long ->
      In "duration" (strings_Split (dropCR first) tab) ->
      calculateTotalDuration (Some fl)
      = ((0, Some (ScanFailed ErrTooLong)),
         failed_fields (find_duration (strings_Split (dropCR first) tab) 0)
           (map dropCR before)))
  /\ (forall (fl : file) (first : string) (rest : list string),
         read_fails fl = true ->
         raw_lines (data fl) = first :: rest ->
         Forall (fun l => slen l < MaxScanTokenSize) (first :: rest) ->
         In "duration" (strings_Split (dropCR first) tab) ->
         calculateTotalDuration (Some fl)
         = ((0, Some (ScanFailed ErrRead)),
            failed_fields (find_duration (strings_Split (dropCR first) tab) 0)
              (map dropCR rest))).
Proof.
  split.
  - intros fl first long before after Hraw Hshort Hlong Hcol.
    apply (calculateTotalDuration_lines fl (dropCR first) (map dropCR before)
             (Some ErrTooLong)); [|now apply duration_column_found].
    unfold scan_file. rewrite Hraw.
    change (first :: before ++ long :: after)%list
      with ((first :: before) ++ long :: after)%list.
    now rewrite scan_tokens_long.
  - intros fl first rest Hrf Hraw Hshort Hcol.
    apply (calculateTotalDuration_lines fl (dropCR first) (map dropCR rest)
             (Some ErrRead)); [|now apply duration_column_found].
    unfold scan_file. rewrite Hraw, Hrf. now rewrite scan_tokens_ok.
Qed.

Lemma X9_witness :
  calculateTotalDuration
    (Some {| data := text_of LF
                       [ String.concat (String tab EmptyString) ["id"; "duration"];
                         String.concat (String tab EmptyString) ["a"; "soon"];
                         repeat_byte "9" (Z.to_nat 70000);
                         String.concat (String tab EmptyString) ["c"; "1h"] ];
             read_fails := false |})
  = ((0, Some (ScanFailed ErrTooLong)), [Warning "soon" (UnsupportedFormat "soon")])
  /\ calculateTotalDuration
       (Some {| data := tsv_line ["id"; "duration"] ++ tsv_line ["a"; "1h"]
                        ++ tsv_line ["b"; "soon"];
                read_fails := true |})
     = ((0, Some (ScanFailed ErrRead)), [Warning "soon" (UnsupportedFormat "soon")]).
Proof.
  split.
  - refine (proj1 X9_scan_error_discards_total
              {| data := text_of LF
                           [ String.concat (String tab EmptyString) ["id"; "duration"];
                             String.concat (String tab EmptyString) ["a"; "soon"];
                             repeat_byte "9" (Z.to_nat 70000);
                             String.concat (String tab EmptyString) ["c"; "1h"] ];
                 read_fails := false |}
              (String.concat (String tab EmptyString) ["id"; "duration"])
              (repeat_byte "9" (Z.to_nat 70000))
              [String.concat (String tab EmptyString) ["a"; "soon"]]
              [String.concat (String tab EmptyString) ["c"; "1h"]] _ _ _ _).
    + refine (raw_lines_LF
                [ String.concat (String tab EmptyString) ["id"; "duration"];
                  String.concat (String tab EmptyString) ["a"; "soon"];
                  repeat_byte "9" (Z.to_nat 70000);
                  String.concat (String tab EmptyString) ["c"; "1h"] ] _).
      repeat (constructor; [vm_compute; reflexivity|]). constructor.
    + repeat constructor.
    + vm_compute. discriminate.
    + vm_compute. right. left. reflexivity.
  - refine (proj2 X9_scan_error_discards_total
              {| data := tsv_line ["id"; "duration"] ++ tsv_line ["a"; "1h"]
                         ++ tsv_line ["b"; "soon"];
                 read_fails := true |}
              (String.concat (String tab EmptyString) ["id"; "duration"])
              (map (String.concat (String tab EmptyString)) [["a"; "1h"]; ["b"; "soon"]])
              eq_refl eq_refl _ _).
    + repeat constructor.
    + vm_compute. right. left. reflexivity.
Defined.

(** X10. Files without data lines.  A file that cannot be opened, an
    empty file and a file whose first line is 65536 bytes or longer are
    errors with a zero total; a file made of a header with a duration
    column and nothing else totals zero, with no error and no
    warning. *)
Theorem X10_files_without_rows :
  calculateTotalDuration None = ((0, Some OpenFailed), [])
  /\ (forall rf : bool,
         calculateTotalDuration (Some {| data := ""; read_fails := rf |})
         = ((0, Some (HeaderUnreadable (if rf then Some ErrRead else None))), []))
  /\ (forall (header rest : string) (rf : bool),
         no_newline header = true ->
         MaxScanTokenSize <= slen header ->
         calculateTotalDuration
           (Some {| data := header ++ LF ++ rest; read_fails := rf |})
         = ((0, Some (HeaderUnreadable (Some ErrTooLong))), []))
  /\ (forall header : string,
         no_newline header = true ->
         slen header < MaxScanTokenSize ->
         In "duration" (strings_Split (dropCR header) tab) ->
         calculateTotalDuration
           (Some {| data := header ++ LF; read_fails := false |})
         = ((0, None), [])).
Proof.
  split; [reflexivity|]. split; [intros []; reflexivity|]. split.
  - intros header rest rf Hnl Hlong.
    unfold calculateTotalDuration, scan_file. cbn [data read_fails].
    unfold LF. cbn [append]. rewrite (raw_lines_line header rest Hnl).
    cbn [scan_tokens]. destruct (Z.leb_spec MaxScanTokenSize (slen header)); [reflexivity|lia].
  - intros header Hnl Hshort Hcol.
    rewrite (calculateTotalDuration_lines _ (dropCR header) [] None);
      [reflexivity| |now apply duration_column_found].
    unfold scan_file. cbn [data read_fails]. unfold LF.
    rewrite (raw_lines_line header "" Hnl). cbn [raw_lines scan_tokens].
    destruct (Z.leb_spec MaxScanTokenSize (slen header)); [lia|reflexivity].
Qed.

Lemma X10_witness :
  calculateTotalDuration
    (Some {| data := repeat_byte "x" (Z.to_nat 65536) ++ LF ++ "duration";
             read_fails := false |})
  = ((0, Some (HeaderUnreadable (Some ErrTooLong))), [])
  /\ calculateTotalDuration
       (Some {| data := String.concat (String tab EmptyString) ["id"; "duration"] ++ LF;
                read_fails := false |})
     = ((0, None), []).
Proof.
  destruct X10_files_without_rows as (_ & _ & Hlong & Honly). split.
  - apply Hlong; vm_compute; [reflexivity|discriminate].
  - apply Honly; [reflexivity|reflexivity|].
    vm_compute. right. left. reflexivity.
Defined.

(** X17. A table written as tab-separated lines is read back.  For a
    header and rows whose fields hold no tab, newline or carriage
    return, whose lines are shorter than the scanner's limit, and a
    header whose first field "duration" is at index [i]: the file of
    these lines totals the durations of the fields at index [i] that
    parse, over the rows that have such a field, and prints one warning
    for each of these fields that does not parse, in the order of the
    rows. *)
Theorem X17_table_read_back :
  forall (header : list string) (rows : list (list string)) (i : nat),
    Forall (fun r => r <> []
                     /\ Forall (fun f => is_field f = true) r
                     /\ slen (row_line r) < MaxScanTokenSize) (header :: rows) ->
    nth_error header i = Some "duration" ->
    ~ In "duration" (firstn i header) ->
    calculateTotalDuration
      (Some {| data := text_of LF (map row_line (header :: rows));
               read_fails := false |})
    = ((sum64 (durations_of (column i rows)), None), warnings_of (column i rows)).
Proof.
  intros header rows i Hall Hcol Hfirst.
  assert (Hlines : Forall (fun l => no_newline l = true /\ dropCR l = l
                                    /\ slen l < MaxScanTokenSize)
                     (map row_line (header :: rows))).
  { apply Forall_forall. intros l Hl. apply in_map_iff in Hl as (r & <- & Hr).
    destruct (proj1 (Forall_forall _ _) Hall r Hr) as (_ & Hf & Hs).
    destruct (row_line_plain r Hf) as [Hn Hd]. auto. }
  assert (Hscan : scan_file {| data := text_of LF (map row_line (header :: rows));
                               read_fails := false |}
                  = (row_line header :: map row_line rows, None)).
  { unfold scan_file. cbn [data read_fails].
    rewrite raw_lines_LF, scan_tokens_ok.
    - f_equal.
      change (row_line header :: map row_line rows)
        with (map row_line (header :: rows)).
      revert Hlines. generalize (map row_line (header :: rows)).
      induction 1 as [|l ls (_ & Hd & _) _ IH]; [reflexivity|].
      cbn [map]. now rewrite Hd, IH.
    - eapply Forall_impl; [|exact Hlines]. now intros l (_ & _ & H).
    - eapply Forall_impl; [|exact Hlines]. now intros l (H & _). }
  inversion Hall as [|h rs (Hhne & Hhf & _) Hrows]; subst.
  assert (Hidx : find_duration (strings_Split (row_line header) tab) 0 = Z.of_nat i).
  { rewrite (Split_row_line header Hhne Hhf). now apply find_duration_at. }
  rewrite (calculateTotalDuration_lines _ _ _ _ Hscan) by (rewrite Hidx; lia).
  rewrite Hidx.
  destruct (table_rows i rows) as [-> ->]; [|reflexivity].
  eapply Forall_impl; [|exact Hrows]. now intros r (H1 & H2 & _).
Qed.

Lemma X17_witness :
  calculateTotalDuration
    (Some {| data := text_of LF
                       (map row_line
                          [ ["task_id"; "name"; "duration"; "realtime"];
                            ["1"; "fastqc"; "1m 53s"; "1m 50s"];
                            ["2"; "trim"; "-"; "-"];
                            ["3"];
                            ["4"; "align"; "21h 40m 51s"; "21h"] ]);
             read_fails := false |})
  = ((sum64 (durations_of (column 2 [ ["1"; "fastqc"; "1m 53s"; "1m 50s"];
                                      ["2"; "trim"; "-"; "-"];
                                      ["3"];
                                      ["4"; "align"; "21h 40m 51s"; "21h"] ])),
      None),
     warnings_of (column 2 [ ["1"; "fastqc"; "1m 53s"; "1m 50s"];
                             ["2"; "trim"; "-"; "-"];
                             ["3"];
                             ["4"; "align"; "21h 40m 51s"; "21h"] ])).
Proof.
  apply (X17_table_read_back ["task_id"; "name"; "duration"; "realtime"]
           [ ["1"; "fastqc"; "1m 53s"; "1m 50s"];
             ["2"; "trim"; "-"; "-"];
             ["3"];
             ["4"; "align"; "21h 40m 51s"; "21h"] ] 2%nat).
  - repeat (constructor;
            [split; [discriminate|split; [repeat constructor|reflexivity]]|]).
    constructor.
  - reflexivity.
  - cbn. intros [H|[H|[]]]; discriminate H.
Defined.

(* ================================================================= *)
(** * Properties of what [main] prints *)

(** X11. The total [main] prints with [%v] can be read back: for every
    duration, [ParseDuration] applied to the text [Duration.String]
    gives it returns that duration and no error; so the text of the
    line "Total duration: ..." parses to the total that
    [calculateTotalDuration] returned. *)
Theorem X11_printed_total_parses_back :
  (forall d : Z,
      MinInt64 <= d <= MaxInt64 -> ParseDuration (Duration_String d) = (d, None))
  /\ (forall (inputFlag : string) (os_Open : string -> option file)
             (total : Z) (out : list warning) (text : string),
         inputFlag <> "" ->
         calculateTotalDuration (os_Open inputFlag) = ((total, None), out) ->
         In (TotalDuration text) (stdout (main false inputFlag os_Open)) ->
         ParseDuration text = (total, None)).
Proof.
  assert (Hback : forall d, MinInt64 <= d <= MaxInt64 ->
                            ParseDuration (Duration_String d) = (d, None)).
  { intros d Hd. apply ParseDuration_standard, time_ParseDuration_String, Hd. }
  split; [exact Hback|].
  intros inputFlag os_Open total out text Hin Hcalc Htext.
  unfold main in Htext. destruct (String.eqb_spec inputFlag "") as [|_]; [contradiction|].
  rewrite Hcalc in Htext. cbn [stdout] in Htext.
  apply in_app_or in Htext as [Hw|Ht].
  - apply in_map_iff in Hw as (w & Hw & _). discriminate Hw.
  - destruct Ht as [Ht|[Ht|[Ht|[]]]]; try discriminate Ht.
    injection Ht as <-. apply Hback.
    exact (calculateTotalDuration_range _ _ _ _ Hcalc).
Qed.

Lemma X11_witness :
  ParseDuration (Duration_String (- (90 * Minute + 1))) = (- (90 * Minute + 1), None)
  /\ ParseDuration "1h30m0s" = (90 * Minute, None).
Proof.
  destruct X11_printed_total_parses_back as [Hback Hmain]. split.
  - apply Hback. vm_compute. split; discriminate.
  - apply (Hmain "trace.txt"
             (fun _ => Some {| data := example_trace; read_fails := false |})
             (90 * Minute) []).
    + discriminate.
    + vm_compute. reflexivity.
    + vm_compute. left. reflexivity.
Defined.

(** X12. The line of hours, minutes and seconds.  When the aggregation
    succeeds with a total from zero up to, but not including, 4096
    hours, [main] exits with status zero after printing the warnings,
    the total, and the hours, minutes and seconds of the total: the
    whole hours, the whole minutes modulo 60 and the whole seconds
    modulo 60, although they are computed in float64.  From 4096 hours
    on the hours can be one too many: a file whose durations are 4096h
    and 59m59.999999999s is printed as 4097h 59m 59s. *)
Theorem X12_breakdown_exact_below_4096_hours :
  (forall (inputFlag : string) (os_Open : string -> option file)
          (total : Z) (out : list warning),
      inputFlag <> "" ->
      calculateTotalDuration (os_Open inputFlag) = ((total, None), out) ->
      0 <= total < 4096 * Hour ->
      main false inputFlag os_Open
      = {| stdout :=
             map WarningLine out
             ++ [ TotalDuration (Duration_String total);
                  TotalBreakdown (total / Hour) ((total / Minute) mod 60)
                    ((total / Second) mod 60);
                  TotalMinutes (Duration_Minutes total) ];
           stderr := []; exit_status := 0 |}
      /\ total = total / Hour * Hour + (total / Minute) mod 60 * Minute
                 + (total / Second) mod 60 * Second + total mod Second)
  /\ main false "trace.txt"
       (fun _ => Some {| data := tsv_line ["duration"] ++ tsv_line ["4096h"]
                                 ++ tsv_line ["59m59.999999999s"];
                         read_fails := false |})
     = {| stdout :=
            [ TotalDuration "4096h59m59.999999999s";
              TotalBreakdown 4097 59 59;
              TotalMinutes (Duration_Minutes (4097 * Hour - 1)) ];
          stderr := []; exit_status := 0 |}.
Proof.
  split; [|vm_compute; reflexivity].
  intros inputFlag os_Open total out Hin Hcalc Htotal.
  split; [|apply breakdown_identity].
  unfold main. destruct (String.eqb_spec inputFlag "") as [|_]; [contradiction|].
  rewrite Hcalc.
  assert (HM : 0 <= total < 262144 * Minute)
    by (change Hour with 3600000000000 in Htotal; change Minute with 60000000000; lia).
  assert (HS : 0 <= total < 16777216 * Second)
    by (change Hour with 3600000000000 in Htotal; change Second with 1000000000; lia).
  rewrite (Hours_exact total Htotal), (Minutes_exact total HM), (Seconds_exact total HS).
  assert (Hmin : 0 <= total / Minute) by (apply Z.div_pos; [lia|reflexivity]).
  assert (Hsec : 0 <= total / Second) by (apply Z.div_pos; [lia|reflexivity]).
  rewrite !Z.rem_mod_nonneg by lia. reflexivity.
Qed.

Lemma X12_witness :
  main false "trace.txt"
    (fun _ => Some {| data := example_trace ++ tsv_line ["c"; "45.5s"; "ok"];
                      read_fails := false |})
  = {| stdout :=
         [ TotalDuration "1h30m45.5s";
           TotalBreakdown 1 30 45;
           TotalMinutes (Duration_Minutes (90 * Minute + 45500 * Millisecond)) ];
       stderr := []; exit_status := 0 |}.
Proof.
  refine (proj1 (proj1 X12_breakdown_exact_below_4096_hours "trace.txt"
                   (fun _ => Some {| data := example_trace ++ tsv_line ["c"; "45.5s"; "ok"];
                                     read_fails := false |})
                   (90 * Minute + 45500 * Millisecond) [] _ _ _)).
  - discriminate.
  - vm_compute. reflexivity.
  - vm_compute. split; [discriminate|reflexivity].
Defined.

(** X14. [testDurationParsing] reports no error: each of its seven
    strings parses, the durations are printed as 84h0m0s, 21h40m51s,
    1h21m27s, 2m0s, 1m53s, 42.9s and 500ms, and the minutes passed to
    the format are the float64 nearest to 5040, 1300.85, 81.45, 2,
    113/60, 0.715 and 1/120. *)
Theorem X14_testDurationParsing_report :
  testDurationParsing
  = [ TestResult "3.5d" "84h0m0s" (f64_of_ratio 5040 1);
      TestResult "21h 40m 51s" "21h40m51s" (f64_of_ratio 130085 100);
      TestResult "1h 21m 27s" "1h21m27s" (f64_of_ratio 8145 100);
      TestResult "2m" "2m0s" (f64_of_ratio 2 1);
      TestResult "1m 53s" "1m53s" (f64_of_ratio 113 60);
      TestResult "42.9s" "42.9s" (f64_of_ratio 715 1000);
      TestResult "500ms" "500ms" (f64_of_ratio 1 120) ].
Proof. vm_compute. reflexivity. Qed.

(** X15. How the command line is read.  The flags are read from left
    to right, up to the first argument that is "--", is shorter than
    two bytes or does not start with a dash.  The test flag can be
    written -t, --t, -test or --test, alone or with a value that
    [strconv.ParseBool] reads joined by an equals sign; the input flag
    -i, --i, -input or --input, with the path joined by an equals sign
    or given as the next argument.  After any sequence of such settings
    the program goes on as [main] does with the last value given to
    each flag (false and the empty path when none is given).  After
    such settings, -h or -help written with one or two dashes ends the
    program with status 0 and the usage on standard error; a flag of
    letters that is not defined ends it with status 2, the error and
    the usage on standard error and nothing on standard output; and so
    does the input flag as the last argument. *)
Theorem X15_command_line :
  forall (settings : list setting) (os_Open : string -> option file),
    forallb well_written settings = true ->
    let flags := fold_left apply_setting settings (false, "") in
    (forall rest,
        ends_flags rest = true ->
        nfu (flat_map arguments settings ++ rest) os_Open
        = main (fst flags) (snd flags) os_Open)
    /\ (forall d name rest,
           is_dashes d = true -> in_list name ["h"; "help"] = true ->
           nfu (flat_map arguments settings ++ (d ++ name) :: rest) os_Open
           = {| stdout := []; stderr := [Usage]; exit_status := 0 |})
    /\ (forall d name rest,
           is_dashes d = true ->
           all_chars is_letter name = true -> name <> "" ->
           in_list name ["t"; "test"; "i"; "input"; "h"; "help"] = false ->
           nfu (flat_map arguments settings ++ (d ++ name) :: rest) os_Open
           = {| stdout := []; stderr := [FlagMessage (NotDefined name); Usage];
                exit_status := 2 |})
    /\ (forall d name,
           is_dashes d = true -> in_list name ["i"; "input"] = true ->
           nfu (flat_map arguments settings ++ [d ++ name]) os_Open
           = {| stdout := [];
                stderr := [FlagMessage (NeedsArgument name); Usage];
                exit_status := 2 |}).
Proof.
  intros settings os_Open Hw flags. unfold nfu.
  split; [|split; [|split]].
  - intros rest Hrest.
    rewrite (flag_Parse_settings settings rest false "" Hw). fold flags.
    now rewrite (flag_Parse_ends rest _ _ Hrest).
  - intros d name rest Hd Hn.
    rewrite (flag_Parse_settings settings _ false "" Hw). fold flags.
    destruct (in_pair_inv name _ _ Hn) as [-> | ->];
      (rewrite flag_Parse_letters; [reflexivity|exact Hd|reflexivity|discriminate]).
  - intros d name rest Hd Hl Hne Hn.
    rewrite (flag_Parse_settings settings _ false "" Hw). fold flags.
    rewrite (flag_Parse_letters d name rest _ _ Hd Hl Hne).
    unfold in_list in *. cbn [existsb] in *.
    destruct (String.eqb name "t"); [discriminate|].
    destruct (String.eqb name "test"); [discriminate|].
    destruct (String.eqb name "i"); [discriminate|].
    destruct (String.eqb name "input"); [discriminate|].
    destruct (String.eqb name "h"); [discriminate|].
    destruct (String.eqb name "help"); [discriminate|]. reflexivity.
  - intros d name Hd Hn.
    rewrite (flag_Parse_settings settings _ false "" Hw). fold flags.
    destruct (in_pair_inv name _ _ Hn) as [-> | ->];
      (rewrite flag_Parse_letters; [reflexivity|exact Hd|reflexivity|discriminate]).
Qed.

Lemma X15_witness :
  nfu ["-i"; "a.tsv"; "--test"; "--input=trace.txt"; "-t=0"; "--"; "-x"]
    (fun _ => None)
  = main false "trace.txt" (fun _ => None).
Proof.
  exact (proj1 (X15_command_line
                  [SetInput "-" "i" false "a.tsv"; SetTest "--" "test" None;
                   SetInput "--" "input" true "trace.txt";
                   SetTest "-" "t" (Some "0")]
                  (fun _ => None) eq_refl)
           ["--"; "-x"] eq_refl).
Defined.

(* ================================================================= *)
(** * The parser and its previous version *)

(** X13. The parser of src/unnamed/part_001, which matched the regular
    expression against the whole string, and the present one agree on
    every string that is a single field.  They differ elsewhere: a
    string with no field was an unsupported format and is now zero; a
    string of three fields or more always was an unsupported format;
    and a whole number, white space and an alias of the table (as in
    "5 days") was accepted, with the number times the alias's factor as
    long as that is below 2^53, and is now refused as an unsupported
    format. *)
Theorem X13_previous_version :
  (forall s : string,
      strings_Fields s = [s] -> part_001.ParseDuration s = ParseDuration s)
  /\ (forall s : string,
         strings_Fields s = [] ->
         part_001.ParseDuration s = (0, Some (UnsupportedFormat s))
         /\ ParseDuration s = (0, None))
  /\ (forall s : string,
         (3 <= List.length (strings_Fields s))%nat ->
         part_001.ParseDuration s = (0, Some (UnsupportedFormat s)))
  /\ (forall (ds ws u : string) (factor : Z),
         all_chars is_digit ds = true -> ds <> "" ->
         all_chars is_re_space ws = true -> ws <> "" ->
         all_chars is_letter u = true -> u <> "" ->
         alias_factor (strings_ToLower u) = Some factor ->
         decimal ds * factor < 2 ^ 53 ->
         part_001.ParseDuration (ds ++ ws ++ u) = (decimal ds * factor, None)
         /\ exists p, ParseDuration (ds ++ ws ++ u) = (0, Some (UnsupportedFormat p))
                      /\ (p = ds \/ p = u)).
Proof.
  split; [exact previous_version_one_field|]. split; [|split].
  - intros s Hf. split; [now apply previous_version_blank|].
    unfold ParseDuration.
    destruct (time_ParseDuration s) as [d [e|]] eqn:Hs.
    + now rewrite Hf.
    + pose proof (time_ParseDuration_one_field s d Hs). congruence.
  - exact previous_version_composite.
  - exact previous_version_number_space_unit.
Qed.

Lemma X13_witness :
  part_001.ParseDuration "2.5Hours" = ParseDuration "2.5Hours"
  /\ (part_001.ParseDuration "   " = (0, Some (UnsupportedFormat "   "))
      /\ ParseDuration "   " = (0, None))
  /\ part_001.ParseDuration "1h 21m 27s" = (0, Some (UnsupportedFormat "1h 21m 27s"))
  /\ (part_001.ParseDuration ("5" ++ " " ++ "days") = (decimal "5" * 86400000000000, None)
      /\ exists p, ParseDuration ("5" ++ " " ++ "days") = (0, Some (UnsupportedFormat p))
                   /\ (p = "5" \/ p = "days")).
Proof.
  destruct X13_previous_version as (Hone & Hblank & Hmany & Hspace).
  split; [|split; [|split]].
  - apply Hone. vm_compute. reflexivity.
  - apply Hblank. vm_compute. reflexivity.
  - apply Hmany. vm_compute. lia.
  - apply Hspace; try reflexivity; discriminate.
Defined.
